(* ===== verification/_CoqProject ===== *)
-Q . S2P
Prelude.v
Bytes.v
Fip.v
FipTheory.v
Flash.v
Ubi.v
UbiTable.v
Shell.v
UbiSpec.v
UbiIo.v
ShellSpec.v
Bl2.v
ReadOnly.v
FlashSpec.v
Jobs.v
FipUpdate.v
FipSafety.v
UbiEngine.v
NoFlash.v
Migration.v
FitUpdate.v
Bench.v
FlashThms.v
FipUpdateThms.v
FipStock.v
JobThms.v
FipThms.v
NotStarted.v
Bl2Last.v
Mmio.v
Gpio.v
Led.v
LedThms.v
Fit.v
StockBoot.v
StockThms.v
Dispatch.v
DispatchThms.v
WebHeaders.v
WebHeaderThms.v
WebImage.v
WebImageThms.v
WebAccept.v
Concat.v
ConcatThms.v
WebDevice.v
WebDeviceThms.v
WebFinding.v
WebState.v
WebUpload.v
WebStatus.v
WebRoute.v
WebServer.v
WebKeep.v
FactoryThms.v
FactoryDone.v
WebInv.v
WebReply.v
WebInvThms.v
WebRun.v
WebReplyThms.v
WebLoopThms.v
WebDeliver.v
Sha256.v
Sha256Thms.v
Crc32.v
Crc32Thms.v
Fdt.v
FdtThms.v
CmdArgs.v
CmdArgsThms.v
Library.v
