(* ===== verification/Prelude.v ===== *)
(** * Verification of UrsusBoot

    UrsusBoot is a recovery boot loader for the Nokia XG-040G-MD (Airoha AN7581,
    SPI-NAND): a set of commands and drivers inside a U-Boot tree.  This library
    translates its C code (under src/src/u-boot/) into Rocq functions and proves
    what makes it safe to use.

    ** The program and its model

    At power-on [ursusdispatch] reads the reset button and the NAND.  It boots the
    OpenWrt UBI layout ([ursusubi]), the vendor layout ([ursusstock]) or a factory
    kernel, and otherwise enters the web recovery ([ursusweb]).  The web server
    takes images in chunks into staging memory, checks them, and starts a flash
    engine: the FIP update ([ursusupdate]), the OpenWrt FIT update or the migration
    from the vendor layout to UBI ([ursusubi]), or the stock-layout installation.
    The engines advance one stage per poll, and are driven by the server's main
    loop or by blocking shell commands.  LEDs and GPIO report progress.

    Code is a function of a state monad [ST] over the machine [hw] (clock, RAM,
    NAND cells and erased marks, MTD devices, UBI, environment) paired with the
    static variables of a component; [wp] is its weakest precondition.  Error codes
    are the C values; unsigned arithmetic wraps at its width ([u32], [u64]).

    - Prelude, Bytes: integers, errors, the monad and its tactics; byte strings,
      C strings, little-endian fields, memory as a function.
    - Fip, FipTheory, FipThms: FIP containers: the three readers and the validators
      of cmd/ursusupdate.c and cmd/ursusubi.c.
    - Flash, FlashSpec, FlashThms: MTD devices and the read and bad-block helpers.
    - Ubi, UbiTable, UbiSpec, UbiIo: UBI volumes at the level of the volume table
      (drivers/mtd/ubi, cmd/ubi.c); Shell, ShellSpec: the commands the engines run
      through [run_command], mtd and environment.
    - Bl2: the pinned BL2 and its candidate.  Jobs: polled jobs as machines.
    - FipUpdate: the FIP update engine (cmd/ursusupdate.c).  FipSafety,
      FipUpdateThms, FipStock: its theorems for the UBI and the vendor layout.
    - UbiEngine, FitUpdate, Migration: layout services, FIT update and migration
      (cmd/ursusubi.c).  JobThms, NotStarted, Bl2Last: their theorems.
    - ReadOnly, NoFlash: classes of code that changes nothing, or no flash.
    - Mmio, Gpio: register accesses and drivers/gpio/ursus_an7581_safe_gpio.c.
      Led, LedThms: cmd/ursusled.c with the MDIO bus.
    - Concat, ConcatThms: concatenated MTD devices (drivers/mtd/mtdconcat.c) and
      their flat specification.
    - Fit, StockBoot, StockThms: FIT access and cmd/ursusstock.c.
    - Dispatch, DispatchThms: cmd/ursusdispatch.c and its abstract specification.
    - WebHeaders to WebServer: cmd/ursusweb.c in its order: headers and names
      (WebHeaders), image checks (WebImage), device probe and stock-layout
      installation (WebDevice), state and response pump (WebState), uploads
      (WebUpload), status document (WebStatus), requests (WebRoute), callbacks,
      consoles, main loop and commands (WebServer).
    - WebHeaderThms, WebImageThms, WebAccept, WebDeviceThms, FactoryThms,
      FactoryDone, WebFinding: theorems on the parts.  WebKeep, WebReply: classes of code that leaves the upload
      state, or a connection's chunk, alone.  WebInv, WebInvThms, WebRun: the
      invariant of uploads over runs of the server.  WebDeliver: a whole upload.
      WebReplyThms: responses.  WebLoopThms: the main loop.
    - Sha256, Sha256Thms: lib/sha256.c and lib/sha256_common.c against a reference
      written from FIPS 180-4.  Crc32, Crc32Thms: lib/crc32.c against the bitwise
      checksum of cmd/ursusweb.c.  Fdt, FdtThms: the read side of libfdt
      (scripts/dtc/libfdt/fdt.c, fdt_ro.c) with every read of the blob explicit.
      Library: the digest and the header check in the place of [Ext].
    - CmdArgs, CmdArgsThms: from the words of a command line to the handlers of
      Shell (cmd/ubi.c, cmd/mtd.c, lib/strto.c).
    - Bench: a concrete machine on which witnesses are evaluated.

    ** What is shown

    - Flash engines: at every moment of a UBI FIP update the table on flash has a
      bootable fip, old or new, on any platform and with any fault; COMPLETE means
      that the volumes or the 512 KiB vendor span hold exactly the intended bytes;
      the migration writes BL2 last; NOT_STARTED is truthful; the blocking loops
      end.
    - FIP: the parser accepts exactly the well-formed containers, the three readers
      agree, and no image passes both validators.
    - Flash helpers: ranged reads and bad-block scans are exact.
    - Boot: the dispatcher refines an abstract dispatcher and always ends latched
      in recovery when nothing boots; a held button reaches the recovery; the
      vendor path boots only the FIT it checked, with bounded arguments, and writes
      nothing.
    - GPIO and LEDs: no call reaches a pin outside the list; the pin mux changes
      only after the PHY registers read back; the patterns end.
    - Web server: header, file name and metadata round trips; an image that counts
      as valid is valid in the bytes now in memory, in every reachable state; no
      callback writes outside staging memory; a file sent in chunks arrives byte
      for byte; replies are sent in order; an accepted reboot happens without the
      client; the stock-layout installation writes the kernel last and changes no
      byte outside the vendor kernel and root partitions, and its success means
      that the kernel partition delivers the staged kernel.
    - Concatenated devices: reads and erases are those of one flat device.
    - Libraries: the digest is SHA-256 for every message and every chunking, so the
      pinned boot loader is pinned by the standard's digest; the table-driven and
      the instruction-driven CRC-32 are the bitwise one for any alignment; lookups
      in a device tree with an accepted header stay inside the blob and end,
      whatever the blob holds.
    - Command lines: the words that the engines print decode to the commands that
      their model runs.
    - Findings are theorems where they can be: a failed migration taken for a
      completed one, a rejected image that passes the installation guards, a scan
      that leaves its buffer, a range check that wraps.

    ** Parameters

    Code that is not part of the sources is a type class, instantiated in the
    witnesses: [Platform] (the outcome of every flash access, environment image,
    block counts), [Ext] (SHA-256, LZMA, FDT header; Library has the instance from
    the models of the first and the last), [Board] (the policy header a
    build selects), [FitLib] (libfdt and FIT), [LedBoard], the register devices of
    Mmio, [Tcp] (the answers of lwIP), [WebEnv] (build stamp, link, block counts),
    [ConcatUbi] (UBI on the concatenated device).  Arguments: the address [memalign]
    returns, what a command line does, the reset command, the chip description, the
    inputs of each turn of the main loop, the CRC instruction of the compiler (with
    the pseudocode of the architecture manual as its documented behaviour), alias
    lookup in a device tree, the sub-commands of ubi and mtd that nothing uses.

    ** Bounds

    Loops carry fuel that is proved or seen to suffice: the blocking engine loops
    252, 684 and 266 polls (JobThms), the recovery pattern 2701 polls and the
    button 39 (LedThms, DispatchThms), a ranged read one unit per byte, the header
    loop the length of the text, the tar walk len/512+1 entries
    ([validate_factory_fuel]), the response pump the unsent bytes (every turn sends
    one), the metadata scan its position, the loops of the device tree one unit per
    byte of the blob, the chunk loops one unit per byte of the input.  The register waits of Led use 2^20
    spins.  Numbers such as 64 MiB of staging are constants of the sources.

    ** Not modelled

    Eraseblock headers, wear levelling and scrubbing inside UBI (the model works on
    the volume table and volume bytes, with faults as outcomes); OOB and OTP access;
    messages on the serial console, except where a trace is specified; bring-up of
    the Ethernet device; the HTML and JavaScript served to the browser; the FIT, LZMA
    and lwIP libraries (parameters); the writers of libfdt; the override of the
    block function by the ARMv8 Crypto Extensions, which the configuration leaves
    out; the splitting of a command line into words by the hush parser; OOB access, locking and bad-block
    marking of concatenated devices; the rest of the imported
    U-Boot tree, which the product does not change; build scripts and documents. *)
From stdpp Require Export base list gmap strings pretty numbers.
From Stdlib Require Export ZArith Lia.

#[global] Open Scope Z_scope.
#[global] Set Default Goal Selector "!".

(** * Machine integers *)

(** [u32 z] and [u64 z]: conversion to a 32- or 64-bit unsigned C type. *)
Definition u32 (z : Z) : Z := z `mod` 2 ^ 32.
Definition u64 (z : Z) : Z := z `mod` 2 ^ 64.
(** [s64 z]: conversion of a 64-bit pattern to a signed [long]. *)
Definition s64 (z : Z) : Z := let r := u64 z in if r <? 2 ^ 63 then r else r - 2 ^ 64.

Lemma u64_range z : 0 <= u64 z < 2 ^ 64.
Proof. apply Z.mod_pos_bound; lia. Qed.
Lemma u64_small z : 0 <= z < 2 ^ 64 -> u64 z = z.
Proof. apply Z.mod_small. Qed.
Lemma u32_range z : 0 <= u32 z < 2 ^ 32.
Proof. apply Z.mod_pos_bound; lia. Qed.
Lemma u32_small z : 0 <= z < 2 ^ 32 -> u32 z = z.
Proof. apply Z.mod_small. Qed.

(** [nz z]: the C truth value of an integer. *)
Definition nz (z : Z) : bool := negb (z =? 0).

Lemma nz_true z : nz z = true <-> z <> 0.
Proof. unfold nz. rewrite negb_true_iff. lia. Qed.
Lemma nz_false z : nz z = false <-> z = 0.
Proof. unfold nz. rewrite negb_false_iff. lia. Qed.

Lemma nz_neg z : z < 0 -> nz z = true.
Proof. intros. apply nz_true. lia. Qed.

(** * Error numbers (include/linux/errno.h) *)

Definition EPERM : Z := 1.
Definition ENOENT : Z := 2.
Definition EIO : Z := 5.
Definition ENOEXEC : Z := 8.
Definition EBADF : Z := 9.
Definition ENOMEM : Z := 12.
Definition EBUSY : Z := 16.
Definition EEXIST : Z := 17.
Definition EXDEV : Z := 18.
Definition ENODEV : Z := 19.
Definition EINVAL : Z := 22.
Definition ENFILE : Z := 23.
Definition EFBIG : Z := 27.
Definition ENOSPC : Z := 28.
Definition EROFS : Z := 30.
Definition ERANGE : Z := 34.
Definition EBADMSG : Z := 74.
Definition EOVERFLOW : Z := 75.
Definition EPROTONOSUPPORT : Z := 93.
Definition EUCLEAN : Z := 117.

Definition CMD_RET_SUCCESS : Z := 0.
Definition CMD_RET_FAILURE : Z := 1.
Definition CMD_RET_USAGE : Z := -1.

Lemma pair_fst {A B} (p : A * B) a : fst p = a -> p = (a, snd p).
Proof. by destruct p; simpl; intros ->. Qed.

(** * The state monad of the C code and its weakest preconditions *)

Definition ST (S A : Type) : Type := S -> A * S.

Definition sret {S A} (a : A) : ST S A := fun s => (a, s).
Definition sbind {S A B} (m : ST S A) (k : A -> ST S B) : ST S B :=
  fun s => let p := m s in k (fst p) (snd p).
Definition sget {S A} (f : S -> A) : ST S A := fun s => (f s, s).
Definition smod {S} (f : S -> S) : ST S unit := fun s => (tt, f s).

Declare Scope ursus_scope.
Delimit Scope ursus_scope with ursus.
Notation "'let*' x ':=' m 'in' k" := (sbind m (fun x => k))
  (at level 10, x name, m at level 100, k at level 200) : ursus_scope.
Notation "m ';;;' k" := (sbind m (fun _ => k))
  (at level 100, k at level 200, right associativity) : ursus_scope.
#[global] Open Scope ursus_scope.

(** An engine's state is the machine paired with the engine's own context: code
    that only touches the machine, and code that only touches the context. *)
Definition onhw {H C A} (m : ST H A) : ST (H * C) A :=
  fun s => let p := m (fst s) in (fst p, (snd p, snd s)).
Definition onctx {H C} (f : C -> C) : ST (H * C) unit := smod (fun s => (fst s, f (snd s))).
Definition ctx {H C A} (f : C -> A) : ST (H * C) A := sget (fun s => f (snd s)).

(** [wp m Q s]: running [m] in [s] returns a value and a state satisfying [Q]. *)
Definition wp {S A} (m : ST S A) (Q : A -> S -> Prop) (s : S) : Prop :=
  Q (fst (m s)) (snd (m s)).

Section wp.
Context {S : Type}.
Implicit Types (s : S).

Lemma wp_ret {A} (a : A) (Q : A -> S -> Prop) s : Q a s -> wp (sret a) Q s.
Proof. done. Qed.
Lemma wp_bind {A B} (m : ST S A) (k : A -> ST S B) (Q : B -> S -> Prop) s :
  wp m (fun a => wp (k a) Q) s -> wp (sbind m k) Q s.
Proof. done. Qed.
Lemma wp_get {A} (f : S -> A) (Q : A -> S -> Prop) s : Q (f s) s -> wp (sget f) Q s.
Proof. done. Qed.
Lemma wp_mod (f : S -> S) (Q : unit -> S -> Prop) s : Q tt (f s) -> wp (smod f) Q s.
Proof. done. Qed.
Lemma wp_mono {A} (m : ST S A) (P Q : A -> S -> Prop) s :
  wp m P s -> (forall a s', P a s' -> Q a s') -> wp m Q s.
Proof. unfold wp. eauto. Qed.
Lemma wp_and {A} (m : ST S A) (P Q : A -> S -> Prop) s :
  wp m P s -> wp m Q s -> wp m (fun a s' => P a s' /\ Q a s') s.
Proof. unfold wp. eauto. Qed.
Lemma wp_if {A} (b : bool) (m n : ST S A) (Q : A -> S -> Prop) s :
  (b = true -> wp m Q s) -> (b = false -> wp n Q s) -> wp (if b then m else n) Q s.
Proof. destruct b; auto. Qed.
Lemma wp_run {A} (m : ST S A) (Q : A -> S -> Prop) s a s' :
  wp m Q s -> m s = (a, s') -> Q a s'.
Proof. unfold wp. intros H Heq. rewrite Heq in H. exact H. Qed.
Lemma wp_intro {A} (m : ST S A) (Q : A -> S -> Prop) s :
  (forall a s', m s = (a, s') -> Q a s') -> wp m Q s.
Proof. unfold wp. intros H. apply H. by destruct (m s). Qed.
End wp.

Lemma wp_onhw {H C A} (m : ST H A) (Q : A -> H * C -> Prop) h c :
  wp m (fun a h' => Q a (h', c)) h -> wp (onhw m) Q (h, c).
Proof. done. Qed.
Lemma wp_onctx {H C} (f : C -> C) (Q : unit -> H * C -> Prop) h c :
  Q tt (h, f c) -> wp (onctx f) Q (h, c).
Proof. done. Qed.
Lemma wp_ctx {H C A} (f : C -> A) (Q : A -> H * C -> Prop) h c :
  Q (f c) (h, c) -> wp (ctx f) Q (h, c).
Proof. done. Qed.


#[global] Opaque wp.

(** ** Symbolic execution *)

(** One step on the head of the program, and as many as possible. *)
Ltac wp1 :=
  lazymatch goal with
  | |- wp (sret _) _ _ => apply wp_ret
  | |- wp (sbind _ _) _ _ => apply wp_bind
  | |- wp (sget _) _ _ => apply wp_get
  | |- wp (smod _) _ _ => apply wp_mod
  | |- wp (onhw _) _ (_, _) => apply wp_onhw
  | |- wp (onctx _) _ (_, _) => apply wp_onctx
  | |- wp (ctx _) _ (_, _) => apply wp_ctx
  end.
Ltac wps := repeat wp1; cbn beta.
(** Branches on a known return code. *)
Ltac cif := change (nz 0) with false; change (nz 1) with true; cbv iota.
