(* ===== verification/Bytes.v ===== *)
(** Byte buffers and byte-addressed memories: comparison ([memeq]), integer
    decoding, slices, and the read/write laws of a memory seen as a function
    from addresses to bytes.  Used by every component that parses an image or
    touches RAM or NAND. *)
From S2P Require Import Prelude.

(** * Buffers *)

(** Bytes of a C string literal, without its terminator. *)
Fixpoint bytes_of (s : string) : list Z :=
  match s with
  | EmptyString => []
  | String c s' => Z.of_N (Ascii.N_of_ascii c) :: bytes_of s'
  end.

(** [memeq a b]: [!memcmp(a, b, n)] on two buffers of the same length. *)
Fixpoint memeq (a b : list Z) : bool :=
  match a, b with
  | [], [] => true
  | x :: a', y :: b' => (x =? y) && memeq a' b'
  | _, _ => false
  end.

Lemma memeq_eq a b : memeq a b = true <-> a = b.
Proof.
  revert b; induction a as [|x a IH]; intros [|y b]; simpl; try done.
  rewrite andb_true_iff, Z.eqb_eq, IH. split; [intros [-> ->]; done|by intros [= -> ->]].
Qed.
Lemma memeq_refl a : memeq a a = true.
Proof. by apply memeq_eq. Qed.
Lemma memeq_neq a b : memeq a b = false <-> a <> b.
Proof. rewrite <- not_true_iff_false, memeq_eq. done. Qed.

(** Length of a buffer as a C [size_t]. *)
Definition blen (l : list Z) : Z := Z.of_nat (length l).

Lemma blen_nonneg l : 0 <= blen l.
Proof. unfold blen. lia. Qed.
Lemma blen_app a b : blen (a ++ b) = blen a + blen b.
Proof. unfold blen. rewrite length_app. lia. Qed.

(** [slice off len l]: the bytes [off .. off+len) of [l]. *)
Definition slice (off len : Z) (l : list Z) : list Z :=
  take (Z.to_nat len) (drop (Z.to_nat off) l).

Lemma blen_slice off len l :
  0 <= off -> 0 <= len -> off + len <= blen l -> blen (slice off len l) = len.
Proof. unfold blen, slice. intros. rewrite length_take, length_drop. lia. Qed.

Lemma slice_take off len n l :
  0 <= off -> 0 <= len -> off + len <= Z.of_nat n ->
  slice off len (take n l) = slice off len l.
Proof.
  intros. unfold slice. rewrite !firstn_skipn_comm, take_take.
  f_equal. f_equal. lia.
Qed.

Lemma slice_app_r off len a b :
  blen a <= off -> slice off len (a ++ b) = slice (off - blen a) len b.
Proof.
  unfold slice, blen. intros H. rewrite drop_app_ge by lia. do 2 f_equal. lia.
Qed.

Lemma slice_app_l off len a b :
  0 <= off -> 0 <= len -> off + len <= blen a -> slice off len (a ++ b) = slice off len a.
Proof.
  unfold slice, blen. intros. rewrite drop_app_le by lia.
  rewrite take_app_le; [done|]. rewrite length_drop. lia.
Qed.

Lemma slice_all l : slice 0 (blen l) l = l.
Proof. unfold slice, blen. simpl. rewrite Nat2Z.id. apply take_ge. lia. Qed.

(** * Integer decoding *)

Fixpoint le_decode (l : list Z) : Z :=
  match l with
  | [] => 0
  | b :: t => b + 256 * le_decode t
  end.
Fixpoint le_encode (n : nat) (z : Z) : list Z :=
  match n with
  | O => []
  | S n' => z `mod` 256 :: le_encode n' (z / 256)
  end.

(** A buffer holds bytes. *)
Definition is_byte (b : Z) : Prop := 0 <= b < 256.
Definition bytes_ok (l : list Z) : Prop := Forall is_byte l.

Lemma length_le_encode n z : length (le_encode n z) = n.
Proof. revert z; induction n; simpl; auto. Qed.

Lemma le_decode_range l : bytes_ok l -> 0 <= le_decode l < 256 ^ blen l.
Proof.
  unfold blen. induction 1 as [|b l Hb Hl IH]; simpl le_decode; [simpl; lia|].
  rewrite length_cons, Nat2Z.inj_succ, Z.pow_succ_r by lia. unfold is_byte in Hb. lia.
Qed.

Lemma le_decode_encode n z : 0 <= z < 256 ^ Z.of_nat n -> le_decode (le_encode n z) = z.
Proof.
  revert z; induction n as [|n IH]; intros z Hz.
  - simpl in *. lia.
  - rewrite Nat2Z.inj_succ, Z.pow_succ_r in Hz by lia. simpl.
    rewrite IH; [|split; [apply Z.div_pos; lia|apply Z.div_lt_upper_bound; lia]].
    pose proof (Z.div_mod z 256). lia.
Qed.

Definition le32 (off : Z) (l : list Z) : Z := le_decode (slice off 4 l).
Definition le64 (off : Z) (l : list Z) : Z := le_decode (slice off 8 l).

Lemma slice_bytes_ok off len l : bytes_ok l -> bytes_ok (slice off len l).
Proof. intros H. unfold slice. by apply Forall_take, Forall_drop. Qed.

Lemma le64_range off l : bytes_ok l -> 0 <= le64 off l < 2 ^ 64.
Proof.
  intros H. unfold le64. pose proof (le_decode_range _ (slice_bytes_ok off 8 l H)) as Hr.
  assert (blen (slice off 8 l) <= 8) by (unfold blen, slice; rewrite length_take; lia).
  assert (256 ^ blen (slice off 8 l) <= 256 ^ 8).
  { apply Z.pow_le_mono_r; [lia|done]. }
  change (2 ^ 64) with (256 ^ 8). lia.
Qed.

(** * Memories *)

(** [mread m a n]: the [n] bytes at address [a]. *)
Fixpoint mread_nat (m : Z -> Z) (a : Z) (n : nat) : list Z :=
  match n with
  | O => []
  | S n' => m a :: mread_nat m (a + 1) n'
  end.
Definition mread (m : Z -> Z) (a n : Z) : list Z := mread_nat m a (Z.to_nat n).

(** [mwrite m a l]: [memcpy] of [l] to address [a]. *)
Definition mwrite (m : Z -> Z) (a : Z) (l : list Z) : Z -> Z :=
  let e := a + blen l in
  fun x => if (a <=? x) && (x <? e) then default (m x) (l !! Z.to_nat (x - a)) else m x.

Lemma length_mread m a n : length (mread m a n) = Z.to_nat n.
Proof.
  unfold mread. generalize (Z.to_nat n) as k. intros k. revert a.
  induction k; simpl; auto.
Qed.
Lemma blen_mread m a n : 0 <= n -> blen (mread m a n) = n.
Proof. unfold blen. rewrite length_mread. lia. Qed.

Lemma mread_bytes_ok (f : Z -> Z) a n : (forall x, is_byte (f x)) -> bytes_ok (mread f a n).
Proof.
  intros Hf. unfold mread. generalize (Z.to_nat n) as k. intros k. revert a.
  induction k as [|k IH]; intros a; simpl; [constructor|]. constructor; [apply Hf|apply IH].
Qed.

Lemma lookup_mread_nat m a n i :
  mread_nat m a n !! i = if decide (i < n)%nat then Some (m (a + Z.of_nat i)) else None.
Proof.
  revert a i; induction n as [|n IH]; intros a i; simpl.
  - by destruct i.
  - destruct i as [|i]; simpl.
    + rewrite Z.add_0_r. done.
    + rewrite IH. replace (a + 1 + Z.of_nat i) with (a + Z.of_nat (S i)) by lia.
      do 2 case_decide; (done || lia).
Qed.

Lemma mread_ext m1 m2 a n :
  (forall x, a <= x < a + n -> m1 x = m2 x) -> mread m1 a n = mread m2 a n.
Proof.
  intros H. apply list_eq. intros i. unfold mread. rewrite !lookup_mread_nat.
  case_decide; [|done]. rewrite H; [done|]. lia.
Qed.

Lemma mread_shift m1 m2 a b n :
  (forall x, a <= x < a + n -> m1 x = m2 (b + (x - a))) -> mread m1 a n = mread m2 b n.
Proof.
  intros H. apply list_eq. intros i. unfold mread. rewrite !lookup_mread_nat.
  case_decide; [|done]. rewrite H by lia. do 2 f_equal. lia.
Qed.

Lemma mwrite_outside m a l x : x < a \/ a + blen l <= x -> mwrite m a l x = m x.
Proof.
  unfold mwrite. intros H. destruct (Z.leb_spec a x), (Z.ltb_spec x (a + blen l)); simpl; try done. lia.
Qed.

Lemma mread_mwrite_disjoint m a l b n :
  b + n <= a \/ a + blen l <= b -> mread (mwrite m a l) b n = mread m b n.
Proof. intros H. apply mread_ext. intros x Hx. apply mwrite_outside. lia. Qed.

Lemma mread_mwrite_same m a l : mread (mwrite m a l) a (blen l) = l.
Proof.
  apply list_eq. intros i. unfold mread, blen. rewrite Nat2Z.id, lookup_mread_nat.
  case_decide as Hi.
  - unfold mwrite, blen. destruct (Z.leb_spec a (a + Z.of_nat i)); [|lia].
    destruct (Z.ltb_spec (a + Z.of_nat i) (a + Z.of_nat (length l))); [|lia]. simpl.
    replace (Z.to_nat (a + Z.of_nat i - a)) with i by lia.
    destruct (lookup_lt_is_Some_2 l i Hi) as [y Hy]. by rewrite Hy.
  - symmetry. apply lookup_ge_None_2. lia.
Qed.

Lemma mwrite_inside m m' a n b x :
  0 <= n -> a <= x < a + n -> mwrite m a (mread m' b n) x = m' (b + (x - a)).
Proof.
  intros Hn Hx. unfold mwrite. rewrite blen_mread by done. unfold mread.
  destruct (Z.leb_spec a x); [|lia]. destruct (Z.ltb_spec x (a + n)); [|lia].
  rewrite lookup_mread_nat. case_decide; [|lia]. simpl. f_equal. lia.
Qed.

Lemma mread_app m a n k :
  0 <= n -> 0 <= k -> mread m a (n + k) = mread m a n ++ mread m (a + n) k.
Proof.
  intros Hn Hk. apply list_eq. intros i. unfold mread. rewrite lookup_app, !lookup_mread_nat.
  destruct (decide (i < Z.to_nat n)%nat).
  - case_decide; [done|lia].
  - assert (length (mread_nat m a (Z.to_nat n)) = Z.to_nat n) as -> by apply (length_mread m a n).
    do 2 case_decide; try done; try lia. f_equal. f_equal. lia.
Qed.

Lemma slice_mread m a n off len :
  0 <= off -> 0 <= len -> off + len <= n ->
  slice off len (mread m a n) = mread m (a + off) len.
Proof.
  intros. apply list_eq. intros i. unfold slice, mread.
  destruct (decide (i < Z.to_nat len)%nat).
  - rewrite lookup_take_lt, lookup_drop, !lookup_mread_nat by done.
    do 2 case_decide; try done; try lia. f_equal. f_equal. lia.
  - rewrite lookup_take_ge by lia. rewrite lookup_mread_nat. by case_decide.
Qed.

Lemma mread_0 m a n : n <= 0 -> mread m a n = [].
Proof. intros. unfold mread. by replace (Z.to_nat n) with O by lia. Qed.

(** * Substring search *)

(** [ursus_mem_has]: does [needle] occur in [buf]? (cmd/ursusupdate.c) *)
Fixpoint mem_scan (needle buf : list Z) : bool :=
  if memeq (take (length needle) buf) needle then true
  else match buf with
       | [] => false
       | _ :: t => mem_scan needle t
       end.
Definition ursus_mem_has (buf : list Z) (needle : string) : bool :=
  let n := bytes_of needle in
  if (length n =? 0)%nat || (length buf <? length n)%nat then false else mem_scan n buf.

Lemma mem_scan_spec needle buf :
  needle <> [] -> mem_scan needle buf = true <-> exists p q, buf = p ++ needle ++ q.
Proof.
  intros Hne. induction buf as [|b t IH].
  - destruct needle as [|x needle]; [done|]. simpl. split; [done|].
    intros (p & q & H). by destruct p.
  - cbn [mem_scan]. destruct (memeq (take (length needle) (b :: t)) needle) eqn:Hm.
    { split; [|done]. intros _. apply memeq_eq in Hm.
      exists [], (drop (length needle) (b :: t)). simpl.
      rewrite <- Hm at 1. symmetry. apply take_drop. }
    rewrite IH. split.
    + intros (p & q & ->). by exists (b :: p), q.
    + intros (p & q & H). destruct p as [|x p]; simpl in H.
      * exfalso. apply memeq_neq in Hm. apply Hm. rewrite H, take_app_le by lia.
        apply take_ge. lia.
      * injection H as -> ->. by exists p, q.
Qed.

Lemma ursus_mem_has_spec buf needle :
  needle <> ""%string ->
  ursus_mem_has buf needle = true <-> exists p q, buf = p ++ bytes_of needle ++ q.
Proof.
  intros Hne. unfold ursus_mem_has.
  assert (bytes_of needle <> []) as Hb by (by destruct needle).
  assert ((length (bytes_of needle) =? 0)%nat = false) as ->.
  { apply Nat.eqb_neq. by destruct (bytes_of needle). }
  simpl. destruct (length buf <? length (bytes_of needle))%nat eqn:Hl.
  - split; [done|]. intros (p & q & ->). apply Nat.ltb_lt in Hl.
    rewrite !length_app in Hl. lia.
  - by apply mem_scan_spec.
Qed.

Lemma ursus_mem_has_prefix buf a b :
  (a <> "")%string -> (exists t, bytes_of b = bytes_of a ++ t) ->
  ursus_mem_has buf b = true -> ursus_mem_has buf a = true.
Proof.
  intros Ha [t Ht] H. destruct (decide (b = ""%string)) as [->|Hb].
  - by destruct buf.
  - apply ursus_mem_has_spec in H as (p & q & ->); [|done].
    apply ursus_mem_has_spec; [done|]. exists p, (t ++ q). rewrite Ht. by rewrite <- !app_assoc.
Qed.

(** * C strings *)

(** [strnlen] over a buffer. *)
Fixpoint strnlen (l : list Z) : nat :=
  match l with
  | [] => O
  | b :: l' => if b =? 0 then O else S (strnlen l')
  end.

Lemma strnlen_app a b : Forall (fun b => b <> 0) a -> strnlen (a ++ 0 :: b) = length a.
Proof. induction 1 as [|x a Hx Ha IH]; simpl; [done|]. destruct (Z.eqb_spec x 0); [done|]. by rewrite IH. Qed.

(** The string a buffer holds: its bytes up to the first NUL. *)
Definition cstr (l : list Z) : list Z := take (strnlen l) l.

Lemma cstr_nonzero l : Forall (fun b => b <> 0) (cstr l).
Proof.
  unfold cstr. induction l as [|b l IH]; simpl; [done|].
  destruct (Z.eqb_spec b 0); simpl; [done|]. by constructor.
Qed.
Lemma cstr_id l : Forall (fun b => b <> 0) l -> cstr l = l.
Proof.
  unfold cstr. induction 1 as [|b l Hb _ IH]; simpl; [done|].
  destruct (Z.eqb_spec b 0); [done|]. simpl. by rewrite IH.
Qed.
Lemma length_cstr l : (length (cstr l) <= length l)%nat.
Proof. unfold cstr. rewrite length_take. lia. Qed.

(** [snprintf(dst, cap, ...)] of [text]: what arrives (without the NUL). *)
Definition snprintf_text (cap : Z) (text : list Z) : list Z := take (Z.to_nat (cap - 1)) text.

Create HintDb bytes.
#[export] Hint Resolve blen_nonneg slice_bytes_ok le64_range memeq_refl : bytes.
Create Rewrite HintDb bytes.
#[export] Hint Rewrite length_mread length_le_encode blen_app : bytes.
