(* ===== verification/Fip.v ===== *)
(** Firmware Image Packages: the table-of-contents parsers and the image
    validators of cmd/ursusupdate.c and cmd/ursusubi.c.

    SHA-256, the LZMA decoder and libfdt are parameters ([Ext], with the modelled
    library code as an instance in Library); the digests and
    board strings that the build substitutes are parameters too ([Board]), with
    the values of the tree as the instance [md_board]. *)
From S2P Require Import Prelude Bytes.

(** * External code and build-time constants *)

(** Library code the images are checked with: [sha256_csum_wd],
    [lzmaBuffToBuffDecompress] (compressed bytes and output capacity to return
    code and decompressed bytes), [fdt_check_header] and [fdt_totalsize]. *)
Class Ext := {
  sha256 : list Z -> list Z;
  lzmaBuffToBuffDecompress : list Z -> Z -> Z * list Z;
  fdt_check_header : list Z -> Z;
  fdt_totalsize : list Z -> Z;
}.

(** Constants a build rewrites: the pinned digests and the board strings. *)
Class Board := {
  vanilla_fip_sha256 : list Z;
  preloader_sha256 : list Z;
  bl2_image_sha256 : list Z;
  BOARD_COMPATIBLE : string;
  BOARD_OTHER_COMPATIBLE : string;
}.

Definition ursus_vanilla_fip_sha256 : list Z := repeat 0 32.
Definition ursus_preloader_sha256 : list Z :=
  [0x6c; 0x3b; 0x23; 0x39; 0xd0; 0x36; 0x34; 0x03;
   0x96; 0x73; 0x0a; 0x13; 0xad; 0xfe; 0x35; 0xc0;
   0xd2; 0xa4; 0xdd; 0xde; 0xde; 0xff; 0xb6; 0xf9;
   0x96; 0x5a; 0x24; 0xe0; 0xc7; 0x90; 0x88; 0x08].
Definition ursus_bl2_image_sha256 : list Z :=
  [0x6f; 0x9c; 0x92; 0x8b; 0xad; 0x50; 0x0d; 0xe0;
   0x33; 0x9b; 0xbf; 0xdf; 0xa3; 0x54; 0xc1; 0x7a;
   0x7a; 0xc0; 0x44; 0xf9; 0x6c; 0x91; 0x3f; 0x3a;
   0x01; 0x30; 0x19; 0x71; 0xd6; 0xcd; 0x65; 0x9d].

(** The constants of the tree, for the XG-040G-MD board. *)
Definition md_board : Board := {|
  vanilla_fip_sha256 := ursus_vanilla_fip_sha256;
  preloader_sha256 := ursus_preloader_sha256;
  bl2_image_sha256 := ursus_bl2_image_sha256;
  BOARD_COMPATIBLE := "nokia,xg-040g-md";
  BOARD_OTHER_COMPATIBLE := "nokia,xg-040g-mf";
|}.

(** * Layout constants *)

Definition URSUS_NAND_SIZE : Z := 0x10000000.
Definition URSUS_STOCK_BOOT_SIZE : Z := 0x00080000.
Definition URSUS_STOCK_FIP_OFF : Z := 0x00000800.
Definition URSUS_STOCK_ENV_OFF : Z := 0x0007c000.
Definition URSUS_STOCK_FIP_MAX : Z := URSUS_STOCK_ENV_OFF - URSUS_STOCK_FIP_OFF.
Definition URSUS_UBI_BASE : Z := 0x00020000.
Definition URSUS_UBI_SIZE : Z := 0x0ffe0000.
Definition URSUS_UBI_READBACK_ADDR : Z := 0x94000000.
Definition URSUS_UBI_FIP_VOL_SIZE : Z := 0x00100000.
Definition URSUS_FIP_MAGIC : Z := 0xaa640001.
Definition URSUS_FIP_SERIAL : Z := 0x12345678.
Definition URSUS_FIP_MAX_ENTRIES : nat := 32.
Definition URSUS_FIP_TOC_MIN : Z := 0x00000400.
Definition URSUS_FIP_RAW_MAX : Z := 0x00200000.
Definition URSUS_FIP_TOC_READ : Z := 0x00001000.

Definition ursus_nt_fw_uuid : list Z :=
  [0xd6; 0xd0; 0xee; 0xa7; 0xfc; 0xea; 0xd5; 0x4b;
   0x97; 0x82; 0x99; 0x34; 0xf2; 0x34; 0xb6; 0xe4].

(** sizeof(struct ursus_fip_header) and sizeof(struct ursus_fip_entry). *)
Definition FIP_HDR : Z := 16.
Definition FIP_ENT : Z := 40.

Definition ursus_uuid_zero (u : list Z) : bool := forallb (fun b => b =? 0) (take 16 u).

(** Entry [i] of the table of contents that follows the header. *)
Definition ent_pos (i : Z) : Z := FIP_HDR + FIP_ENT * i.
Definition ent_uuid (buf : list Z) (i : Z) : list Z := slice (ent_pos i) 16 buf.
Definition ent_offset (buf : list Z) (i : Z) : Z := le64 (ent_pos i + 16) buf.
Definition ent_size (buf : list Z) (i : Z) : Z := le64 (ent_pos i + 24) buf.

(** * ursus_fip_parse *)

(** What a successful parse stores through its three out-pointers. *)
Record fip_info := mk_fip_info { nt_off : Z; nt_size : Z; declared_end : Z }.

(** The entry loop, [k] iterations left, at index [i]; [nt] is the NT_FW entry
    seen last.  [inr (nt, dend)] when the loop ends, [dend] set by a terminator. *)
Fixpoint ursus_fip_parse_loop (k : nat) (i : Z) (buf : list Z) (nt : option (Z * Z))
    : Z + (option (Z * Z) * option Z) :=
  match k with
  | O => inr (nt, None)
  | S k' =>
    if blen buf <? ent_pos i + FIP_ENT then inl (- EINVAL)
    else
      let off := ent_offset buf i in
      let size := ent_size buf i in
      if ursus_uuid_zero (ent_uuid buf i) then
        if nz size || (off <? URSUS_FIP_TOC_MIN) || (blen buf <? off) then inl (- EINVAL)
        else inr (nt, Some off)
      else if (off <? URSUS_FIP_TOC_MIN) || (size =? 0) || (blen buf <? off)
              || (blen buf - off <? size) then inl (- ERANGE)
      else if blen buf <? u64 (off + size) then inl (- ERANGE)
      else ursus_fip_parse_loop k' (i + 1) buf
             (if memeq (ent_uuid buf i) ursus_nt_fw_uuid then Some (off, size) else nt)
  end.

Definition ursus_fip_parse (buf : list Z) : Z + fip_info :=
  if blen buf <? FIP_HDR + 2 * FIP_ENT then inl (- EINVAL)
  else if nz (le32 0 buf - URSUS_FIP_MAGIC) || nz (le32 4 buf - URSUS_FIP_SERIAL)
  then inl (- EINVAL)
  else match ursus_fip_parse_loop URSUS_FIP_MAX_ENTRIES 0 buf None with
       | inl e => inl e
       | inr (Some (noff, nsize), Some dend) => inr (mk_fip_info noff nsize dend)
       | inr _ => inl (- EINVAL)
       end.

(** * The two other readers of the same table (cmd/ursusubi.c) *)

Fixpoint ursus_fip_buffer_valid_loop (k : nat) (i : Z) (buf : list Z) (nt : bool) : bool * bool :=
  match k with
  | O => (nt, false)
  | S k' =>
    if blen buf <? ent_pos i + FIP_ENT then (nt, false)
    else if ursus_uuid_zero (ent_uuid buf i) then (nt, true)
    else ursus_fip_buffer_valid_loop k' (i + 1) buf
           (nt || memeq (ent_uuid buf i) ursus_nt_fw_uuid)
  end.
Definition ursus_fip_buffer_valid (buf : list Z) : bool :=
  if (blen buf <? FIP_HDR + FIP_ENT) || nz (le32 0 buf - URSUS_FIP_MAGIC)
     || nz (le32 4 buf - URSUS_FIP_SERIAL) then false
  else let '(nt, term) := ursus_fip_buffer_valid_loop URSUS_FIP_MAX_ENTRIES 0 buf false in
       nt && term.

Fixpoint fip_length_loop (k : nat) (i : Z) (toc : list Z) : Z + Z :=
  match k with
  | O => inl (- EINVAL)
  | S k' =>
    if blen toc <? ent_pos i + FIP_ENT then inl (- EINVAL)
    else if negb (ursus_uuid_zero (ent_uuid toc i)) then fip_length_loop k' (i + 1) toc
    else let fend := ent_offset toc i in
         if (fend <? 0x10000) || (URSUS_STOCK_FIP_MAX <? fend) then inl (- EINVAL) else inr fend
  end.
(** The body of [ursus_current_fip_length] once the 4 KiB table has been read. *)
Definition ursus_current_fip_length_toc (toc : list Z) : Z + Z :=
  if nz (le32 0 toc - URSUS_FIP_MAGIC) || nz (le32 4 toc - URSUS_FIP_SERIAL)
  then inl (- EINVAL)
  else fip_length_loop URSUS_FIP_MAX_ENTRIES 0 toc.

(** * Validators *)

(** Bytes [nt\[5..12\]]: the uncompressed length in the LZMA header. *)
Definition lzma_raw64 (nt : list Z) : Z := le64 5 nt.

Section validators.
Context {X : Ext} {B : Board}.

(** [malloc_ok]: whether the allocation of the output buffer succeeds. *)
Definition ursus_fip_bl33_unpack (malloc_ok : bool) (buf : list Z) : Z + list Z :=
  if (blen buf =? 0) || (URSUS_UBI_FIP_VOL_SIZE <? blen buf) then inl (- EFBIG)
  else match ursus_fip_parse buf with
  | inl e => inl e
  | inr fi =>
    if nz (declared_end fi - blen buf) then inl (- EINVAL)
    else if (nt_size fi <? 13) || (blen buf <? u64 (nt_off fi + nt_size fi)) then inl (- EINVAL)
    else
      let nt := slice (nt_off fi) (nt_size fi) buf in
      let raw64 := lzma_raw64 nt in
      if (raw64 <? 0x10000) || (URSUS_FIP_RAW_MAX <? raw64) then inl (- EFBIG)
      else if negb malloc_ok then inl (- ENOMEM)
      else let '(ret, raw) := lzmaBuffToBuffDecompress nt raw64 in
           if nz ret || nz (blen raw - raw64) then inl (- EBADMSG) else inr raw
  end.

(** The running FIP: returns the declared end. *)
Definition ursus_fip_validate_current (malloc_ok : bool) (buf : list Z) : Z + Z :=
  match ursus_fip_parse buf with
  | inl e => inl e
  | inr fi =>
    if (declared_end fi =? 0) || (blen buf <? declared_end fi) || (nt_size fi <? 13)
       || (declared_end fi <? u64 (nt_off fi + nt_size fi)) then inl (- EINVAL)
    else
      let nt := slice (nt_off fi) (nt_size fi) buf in
      let raw64 := lzma_raw64 nt in
      if (raw64 <? 0x10000) || (URSUS_FIP_RAW_MAX <? raw64) then inl (- EFBIG)
      else if negb malloc_ok then inl (- ENOMEM)
      else let '(ret, raw) := lzmaBuffToBuffDecompress nt raw64 in
           if nz ret || nz (blen raw - raw64) then inl (- EBADMSG)
           else
             let ursus_id := ursus_mem_has raw "U-Boot 2026.07-UrsusBoot-"
                             && ursus_mem_has raw "nokia,xg-040g-md"
                             && ursus_mem_has raw "airoha,an7581" in
             let stock_id := ursus_mem_has raw "XG040GMC2P5G" && ursus_mem_has raw "AN7581" in
             if negb ursus_id && negb stock_id then inl (- ENODEV)
             else inr (declared_end fi)
  end.

(** UrsusBoot candidates: returns the digest. *)
Definition ursus_fip_validate_buf (malloc_ok : bool) (buf : list Z) (stock_limit : bool)
    : Z + list Z :=
  if stock_limit && (URSUS_STOCK_FIP_MAX <=? blen buf) then inl (- EFBIG)
  else match ursus_fip_bl33_unpack malloc_ok buf with
  | inl e => inl e
  | inr raw =>
    if negb (ursus_mem_has raw "U-Boot 2026.07-UrsusBoot-")
       || negb (ursus_mem_has raw "nokia,xg-040g-md")
       || negb (ursus_mem_has raw "airoha,an7581") then inl (- ENODEV)
    else inr (sha256 buf)
  end.

Definition ursus_vanilla_fip_pinned : bool := existsb nz vanilla_fip_sha256.

(** Vanilla candidates: returns the digest. *)
Definition ursus_vanilla_fip_validate_buf (malloc_ok : bool) (buf : list Z) : Z + list Z :=
  match ursus_fip_bl33_unpack malloc_ok buf with
  | inl e => inl e
  | inr raw =>
    let board := ursus_mem_has raw BOARD_COMPATIBLE in
    let other := ursus_mem_has raw BOARD_OTHER_COMPATIBLE in
    let uboot := ursus_mem_has raw "U-Boot 2026.07" in
    let ursus := ursus_mem_has raw "U-Boot 2026.07-UrsusBoot-" in
    if negb board || other || negb uboot || ursus then inl (- ENODEV)
    else
      let digest := sha256 buf in
      if negb ursus_vanilla_fip_pinned then inl (- EPERM)
      else if negb (memeq digest vanilla_fip_sha256) then inl (- EPERM)
      else inr digest
  end.
End validators.

(** * The kinds of candidate *)

Inductive ursus_fip_kind := URSUS_FIP_KIND_URSUS | URSUS_FIP_KIND_VANILLA.
#[export] Instance fip_kind_dec : EqDecision ursus_fip_kind.
Proof. solve_decision. Defined.

Definition is_vanilla (k : ursus_fip_kind) : bool :=
  match k with URSUS_FIP_KIND_VANILLA => true | _ => false end.

Section validate_addr.
Context {X : Ext} {B : Board}.

(** A validator's C return value: 0, or the error. *)
Definition ret_of {A} (r : Z + A) : Z := match r with inl e => e | inr _ => 0 end.

(** [map_sysmem] returns the address as a pointer; 0 is NULL. *)
Definition ursus_fip_validate (malloc_ok : bool) (addr : Z) (buf : list Z) (stock_limit : bool) : Z :=
  if addr =? 0 then - ENOMEM else ret_of (ursus_fip_validate_buf malloc_ok buf stock_limit).

Definition ursus_vanilla_fip_validate (malloc_ok : bool) (addr : Z) (buf : list Z) (stock_limit : bool) : Z :=
  if stock_limit then - EPERM
  else if addr =? 0 then - ENOMEM
  else ret_of (ursus_vanilla_fip_validate_buf malloc_ok buf).

Definition ursus_fip_validate_kind (malloc_ok : bool) (addr : Z) (buf : list Z) (stock_limit : bool)
    (kind : ursus_fip_kind) : Z :=
  match kind with
  | URSUS_FIP_KIND_VANILLA => ursus_vanilla_fip_validate malloc_ok addr buf stock_limit
  | URSUS_FIP_KIND_URSUS => ursus_fip_validate malloc_ok addr buf stock_limit
  end.
End validate_addr.
