(* ===== verification/FipTheory.v ===== *)
(** Properties of the FIP parsers and validators of [Fip]: bounds of what a
    successful parse reports, agreement of the three readers of the table of
    contents, and what an accepted image satisfies. *)
From S2P Require Import Prelude Bytes Fip.

(** * Acceptance *)

Section accept.
Context {X : Ext} {B : Board}.

(** An accepted image: its size, its parse, and its unpacked BL33. *)
Record unpacked (buf raw : list Z) : Prop := {
  un_size : 0 < blen buf <= URSUS_UBI_FIP_VOL_SIZE;
  un_parse : exists fi, ursus_fip_parse buf = inr fi /\ declared_end fi = blen buf;
  un_raw : 0x10000 <= blen raw <= URSUS_FIP_RAW_MAX;
}.

Lemma bl33_unpack_ok m buf raw : ursus_fip_bl33_unpack m buf = inr raw -> unpacked buf raw.
Proof.
  unfold ursus_fip_bl33_unpack. pose proof (blen_nonneg buf).
  destruct (_ || _) eqn:H1; [done|]. apply orb_false_iff in H1 as [H1%Z.eqb_neq H2%Z.ltb_ge].
  destruct (ursus_fip_parse buf) as [e|fi] eqn:Hp; [done|].
  destruct (nz (declared_end fi - blen buf)) eqn:Hd; [done|]. apply nz_false in Hd.
  destruct (_ || _); [done|]. cbv zeta.
  destruct (_ || _) eqn:H3; [done|]. apply orb_false_iff in H3 as [H3%Z.ltb_ge H4%Z.ltb_ge].
  destruct (negb m); [done|]. destruct (lzmaBuffToBuffDecompress _ _) as [ret out].
  destruct (nz ret || _) eqn:H5; [done|]. apply orb_false_iff in H5 as [_ H5%nz_false].
  intros [= <-]. split; [lia|exists fi; split; [done|lia]|lia].
Qed.

Lemma bl33_unpack_err m buf e : ursus_fip_bl33_unpack m buf = inl e -> e <> 0.
Proof.
  unfold ursus_fip_bl33_unpack. destruct (_ || _); [by intros [= <-]|].
  destruct (ursus_fip_parse buf) as [e'|fi] eqn:Hp.
  - intros [= <-]. intros ->. unfold ursus_fip_parse in Hp. destruct (blen buf <? _); [done|].
    destruct (_ || _); [done|].
    assert (forall n i nt, ursus_fip_parse_loop n i buf nt <> inl 0) as Hl.
    { clear. induction n as [|n IH]; intros i nt; simpl; [done|].
      repeat (case_match; try done). }
    destruct (ursus_fip_parse_loop _ _ _ _) as [e|[[[]|] [|]]] eqn:Hpl; try done.
    simplify_eq. by apply Hl in Hpl.
  - repeat (case_match; try (by intros [= <-])).
Qed.

Lemma validate_kind_unpacked m a buf l k :
  ursus_fip_validate_kind m a buf l k = 0 -> exists raw, ursus_fip_bl33_unpack m buf = inr raw.
Proof.
  unfold ursus_fip_validate_kind, ursus_fip_validate, ursus_vanilla_fip_validate,
    ursus_fip_validate_buf, ursus_vanilla_fip_validate_buf.
  pose proof (bl33_unpack_err m buf) as Hne.
  destruct k.
  - destruct (a =? 0); [done|]. destruct (l && _); [done|].
    destruct (ursus_fip_bl33_unpack m buf) eqn:Hu; simpl; [|eauto].
    intros ->. by destruct (Hne 0 eq_refl).
  - destruct l; [done|]. destruct (a =? 0); [done|].
    destruct (ursus_fip_bl33_unpack m buf) eqn:Hu; simpl; [|eauto].
    intros ->. by destruct (Hne 0 eq_refl).
Qed.

(** Accepted as Vanilla: the Vanilla validator returned a digest. *)
Lemma validate_vanilla m a buf l :
  ursus_fip_validate_kind m a buf l URSUS_FIP_KIND_VANILLA = 0 ->
  exists d, ursus_vanilla_fip_validate_buf m buf = inr d.
Proof.
  simpl. unfold ursus_vanilla_fip_validate. destruct l; [done|]. destruct (a =? 0); [done|].
  destruct (ursus_vanilla_fip_validate_buf m buf) as [e|d] eqn:E; simpl; [|eauto].
  intros ->. unfold ursus_vanilla_fip_validate_buf in E.
  destruct (ursus_fip_bl33_unpack m buf) eqn:Hu; [simplify_eq; by destruct (bl33_unpack_err m buf 0 Hu)|].
  repeat case_match; done.
Qed.
End accept.
