(* ===== verification/Flash.v ===== *)
(** The machine the flash engines run on: RAM, the raw NAND behind the MTD
    layer, the UBI volume tables stored in it, the millisecond clock, and the
    MTD entry points (drivers/mtd/mtdcore.c, cmd/mtd.c).

    Hardware and allocator behaviour is a parameter: the [n]-th operation that
    can fail consults outcome [n] of a [Platform].  A write may fail, may store
    other bytes than it was given, or may report an error after its effect
    reached the flash; a read delivers the stored bytes or fails.  [h_hist] is a
    history variable: every set of on-flash volume tables that a power cut could
    have left, so that power-loss claims are statements about its members. *)
From S2P Require Import Prelude Bytes.

(** * Outcomes *)

(** [o_err]: 0 or the (negative) error code the operation reports; [o_late]: the
    effect reached the flash although an error is reported; [o_cells]: the bytes
    the flash holds instead of the ones written; [o_len]: a short transfer. *)
Record outcome := Outcome {
  o_err : Z;
  o_late : bool;
  o_cells : option (Z -> Z);
  o_len : option Z;
}.
Definition fine : outcome := Outcome 0 false None None.

(** [pf_err]: operations report 0 or a negative error number.  [pf_raw n]: the
    raw bytes of a UBI area after its change at operation [n]; [pf_env n]: the
    exported environment; then the PEBs available for volumes and the
    bad-block reserve of an attached device. *)
Class Platform := {
  pf_out : nat -> outcome;
  pf_err : forall n, o_err (pf_out n) <= 0;
  pf_raw : nat -> Z -> Z;
  pf_env : nat -> list Z;
  pf_pebs : Z;
  pf_beb_level : Z;
  pf_beb_pebs : Z;
}.

(** * Machine state *)

(** A UBI volume.  [v_upd_marker] is on flash, [v_updating] only in RAM. *)
Record volume := MkVol {
  v_name : string;
  v_static : bool;
  v_pebs : Z;
  v_used : Z;
  v_upd_marker : bool;
  v_updating : bool;
  v_data : Z -> Z;
}.
Abbreviation vtable := (list (option volume)).

(** What a partition's flash holds as far as UBI is concerned. *)
Inductive ubi_area := UA_other | UA_table (t : vtable).

(** An attached UBI device ([struct ubi_device], the fields the code uses). *)
Record ubi_dev := MkUbi {
  u_mtd : string;
  u_off : Z;
  u_size : Z;
  u_erasesize : Z;
  u_writesize : Z;
  u_leb_size : Z;
  u_vols : vtable;
  u_avail : Z;
  u_beb_level : Z;
  u_beb_pebs : Z;
  u_ro : bool;
}.

Record mtd_info := MkMtd {
  m_name : string;
  m_part : bool;
  m_nand : bool;
  m_off : Z;
  m_size : Z;
  m_erasesize : Z;
  m_writesize : Z;
}.

Record hw := MkHw {
  h_tick : nat;
  h_clock : Z;
  h_ram : Z -> Z;
  h_nand : Z -> Z;
  h_bad : Z -> bool;
  h_erased : Z -> bool;
  h_mtds : list mtd_info;
  h_areas : Z -> ubi_area;
  h_ubi : option ubi_dev;
  h_hist : list (Z -> ubi_area);
  h_env : gmap string Z;
  h_env_redund : bool;
}.

Definition set_tick t (h : hw) := let 'MkHw _ b c d e f g i j k l m := h in MkHw t b c d e f g i j k l m.
Definition set_clock t (h : hw) := let 'MkHw a _ c d e f g i j k l m := h in MkHw a t c d e f g i j k l m.
Definition set_ram r (h : hw) := let 'MkHw a b _ d e f g i j k l m := h in MkHw a b r d e f g i j k l m.
Definition set_mtds x (h : hw) := let 'MkHw a b c d e f _ i j k l m := h in MkHw a b c d e f x i j k l m.
Definition set_ubi u (h : hw) := let 'MkHw a b c d e f g i _ k l m := h in MkHw a b c d e f g i u k l m.
Definition set_env e' (h : hw) := let 'MkHw a b c d e f g i j k _ m := h in MkHw a b c d e f g i j k e' m.
Definition set_env_redund r (h : hw) := let 'MkHw a b c d e f g i j k l _ := h in MkHw a b c d e f g i j k l r.
(** A change of the flash: raw bytes, erased blocks and UBI areas together. *)
Definition set_flash n er ar (h : hw) :=
  let 'MkHw a b c _ e _ g _ j k l m := h in MkHw a b c n e er g ar j (ar :: k) l m.

(** * RAM and time *)

Definition ram_read (a n : Z) : ST hw (list Z) := sget (fun h => mread (h_ram h) a n).
Definition ram_write (a : Z) (l : list Z) : ST hw unit :=
  smod (fun h => set_ram (mwrite (h_ram h) a l) h).
(** [get_timer(base)]: milliseconds since [base], in an unsigned long. *)
Definition get_timer (base : Z) : ST hw Z := sget (fun h => u64 (h_clock h - base)).
Definition mdelay (ms : Z) : ST hw unit := smod (fun h => set_clock (h_clock h + ms) h).

Section machine.
Context {P : Platform}.

(** Consumes the next outcome. *)
Definition next_out : ST hw outcome :=
  fun h => (pf_out (h_tick h), set_tick (S (h_tick h)) h).
(** [malloc] and friends: does the allocation succeed? *)
Definition malloc : ST hw bool := let* o := next_out in sret (negb (nz (o_err o))).

(** * MTD *)

(** [get_mtd_device_nm]: the first registered device of that name. *)
Definition get_mtd_device_nm (name : string) : ST hw (option mtd_info) :=
  sget (fun h => find (fun m => bool_decide (m_name m = name)) (h_mtds h)).

(** The master device: the first one that is not a partition and is NAND. *)
Definition ursus_find_master_nand : ST hw (option mtd_info) :=
  sget (fun h => find (fun m => negb (m_part m) && m_nand m) (h_mtds h)).

Definition mtd_part_of (mtd : mtd_info) (part : string * Z * Z) : mtd_info :=
  let '(name, off, size) := part in
  MkMtd name true (m_nand mtd) (m_off mtd + off) size (m_erasesize mtd) (m_writesize mtd).
(** [add_mtd_partitions]: registers every partition of the table, or fails. *)
Definition add_mtd_partitions (mtd : mtd_info) (parts : list (string * Z * Z)) : ST hw Z :=
  let* o := next_out in
  if nz (o_err o) then sret (o_err o)
  else smod (fun h => set_mtds (h_mtds h ++ map (mtd_part_of mtd) parts) h) ;;; sret 0.

(** [mtd_read]: return code, [retlen] and the bytes delivered. *)
Definition mtd_read (mtd : mtd_info) (from len : Z) : ST hw (Z * list Z) :=
  if (from <? 0) || (m_size mtd <? from) || (m_size mtd - from <? len) then sret (- EINVAL, [])
  else if len =? 0 then sret (0, [])
  else
    let* o := next_out in
    let* data := sget (fun h => mread (h_nand h) (m_off mtd + from) (default len (o_len o))) in
    sret (o_err o, data).

(** Areas after the raw range [a, a+n) of the NAND has changed. *)
Definition areas_touch (a n : Z) (ar : Z -> ubi_area) : Z -> ubi_area :=
  fun o => if a + n <=? o then ar o else UA_other.

(** Programming NAND cells can only clear bits. *)
Definition nand_program (nand : Z -> Z) (a : Z) (l : list Z) : Z -> Z :=
  fun x => if (a <=? x) && (x <? a + blen l)
           then Z.land (nand x) (mwrite nand a l x) else nand x.
Definition fill_cells (nand : Z -> Z) (a n : Z) (f : Z -> Z) : Z -> Z :=
  fun x => if (a <=? x) && (x <? a + n) then f x else nand x.

(** [mtd_write]: return code and [retlen]. *)
Definition mtd_write (mtd : mtd_info) (to : Z) (buf : list Z) : ST hw (Z * Z) :=
  let len := blen buf in
  if (to <? 0) || (m_size mtd <? to) || (m_size mtd - to <? len) then sret (- EINVAL, 0)
  else if len =? 0 then sret (0, 0)
  else
    let* o := next_out in
    let a := m_off mtd + to in
    smod (fun h =>
      let nand := if nz (o_err o) && negb (o_late o) then h_nand h
                  else match o_cells o with
                       | Some f => fill_cells (h_nand h) a len f
                       | None => nand_program (h_nand h) a buf
                       end in
      set_flash nand
        (fun b => if (a / m_erasesize mtd <=? b) && (b <=? (a + len - 1) / m_erasesize mtd)
                  then false else h_erased h b)
        (areas_touch a len (h_areas h)) h) ;;;
    sret (o_err o, default len (o_len o)).

(** [mtd_erase] of [addr, addr+len). *)
Definition mtd_erase (mtd : mtd_info) (addr len : Z) : ST hw Z :=
  if (m_size mtd <? addr) || (m_size mtd - addr <? len) then sret (- EINVAL)
  else if len =? 0 then sret 0
  else
    let* o := next_out in
    let a := m_off mtd + addr in
    smod (fun h =>
      let nand := if nz (o_err o) && negb (o_late o) then h_nand h
                  else fill_cells (h_nand h) a len
                         (match o_cells o with Some f => f | None => fun _ => 0xff end) in
      let good := negb (nz (o_err o)) &&
                  match o_cells o with Some _ => false | None => true end in
      set_flash nand
        (fun b => if (a / m_erasesize mtd <=? b) && (b <=? (a + len - 1) / m_erasesize mtd)
                  then good else h_erased h b)
        (areas_touch a len (h_areas h)) h) ;;;
    sret (o_err o).

(** [mtd_block_isbad]: negative error, 0 or 1. *)
Definition mtd_block_isbad (mtd : mtd_info) (ofs : Z) : ST hw Z :=
  if (ofs <? 0) || (m_size mtd <? ofs) then sret (- EINVAL)
  else
    let* o := next_out in
    if nz (o_err o) then sret (o_err o)
    else sget (fun h => if h_bad h ((m_off mtd + ofs) / m_erasesize mtd) then 1 else 0).

(** * The transfer helpers of cmd/ursusupdate.c, cmd/ursusubi.c and cmd/ursusstock.c *)

(** Corrected bit flips are a success; a short read is an I/O error. *)
Definition ursus_read_exact (mtd : mtd_info) (off len : Z) : ST hw (Z * list Z) :=
  let* r := mtd_read mtd off len in
  let '(ret, data) := r in
  let ret := if ret =? - EUCLEAN then 0 else ret in
  sret (if negb (nz ret) && (blen data =? len) then 0 else - EIO, data).

(** [URSUS_READ_CHUNK]: the largest direct transfer. *)
Definition URSUS_READ_CHUNK : Z := 0x00100000.

(** The loop of [ursus_read_range]; [fuel] bounds the iterations.  The bytes
    are those stored at [dst] so far. *)
Fixpoint read_range_loop (fuel : nat) (mtd : mtd_info) (page off len : Z) (acc : list Z)
    : ST hw (Z * list Z) :=
  if len =? 0 then sret (0, acc)
  else match fuel with
  | O => sret (- EIO, acc)
  | S fuel' =>
    let base := off - off `mod` page in
    let in_page := off - base in
    if (in_page =? 0) && (page <=? len) then
      let direct0 := len - len `mod` page in
      let direct := if URSUS_READ_CHUNK <? direct0
                    then URSUS_READ_CHUNK - URSUS_READ_CHUNK `mod` page else direct0 in
      let* r := ursus_read_exact mtd off direct in
      let '(ret, data) := r in
      if nz ret then sret (ret, acc ++ data)
      else read_range_loop fuel' mtd page (off + direct) (len - direct) (acc ++ data)
    else
      let* r := ursus_read_exact mtd base page in
      let '(ret, scratch) := r in
      if nz ret then sret (ret, acc)
      else
        let take := Z.min len (page - in_page) in
        read_range_loop fuel' mtd page (off + take) (len - take) (acc ++ slice in_page take scratch)
  end.
Definition ursus_read_range (mtd : mtd_info) (off len : Z) : ST hw (Z * list Z) :=
  let page := if nz (m_writesize mtd) then m_writesize mtd else 2048 in
  let* ok := malloc in
  if negb ok then sret (- ENOMEM, [])
  else read_range_loop (Z.to_nat len) mtd page off len [].

(** [ursus_read_range] into RAM at [addr]: the bytes arrive also when it fails. *)
Definition read_range_to (nand : mtd_info) (off len addr : Z) : ST hw Z :=
  let* r := ursus_read_range nand off len in
  ram_write addr (snd r) ;;; sret (fst r).

Fixpoint bad_in_range_loop (fuel : nat) (mtd : mtd_info) (off fin : Z) : ST hw Z :=
  match fuel with
  | O => sret 0
  | S fuel' =>
    if off <? fin then
      let* ret := mtd_block_isbad mtd off in
      if ret <? 0 then sret ret
      else if 0 <? ret then sret 1
      else bad_in_range_loop fuel' mtd (u64 (off + m_erasesize mtd)) fin
    else sret 0
  end.
(** One iteration per erase block of [start, start+len), rounded outwards. *)
Definition ursus_bad_in_range (mtd : mtd_info) (start len : Z) : ST hw Z :=
  bad_in_range_loop (Z.to_nat (len / m_erasesize mtd + 2)) mtd
    (start - start `mod` m_erasesize mtd) (u64 (start + len)).
End machine.
