(* ===== verification/Ubi.v ===== *)
(** The UBI volume layer and the shell commands the flash engines issue:
    cmd/ubi.c over drivers/mtd/ubi (volume table, volume update, kernel API),
    cmd/mtd.c, env/ubi.c and the command interpreter's return value.

    UBI is modelled at the level of volumes: a table of slots, each with its
    name, type, reserved PEBs, update marker and bytes.  The physical
    eraseblock mapping is not modelled.  A volume-table write is atomic on the
    flash; when one fails the device becomes read-only, as the eraseblock layer
    does after a write it cannot recover ([ubi_ro_mode]). *)
From S2P Require Import Prelude Bytes Flash.

(** * Volume tables *)

Definition UBI_VTBL_SLOTS : nat := 128.
Definition UBI_VOL_NAME_MAX : nat := 127.
Definition UBI_VOL_NUM_AUTO : Z := -1.
Definition ENAMETOOLONG : Z := 36.
(** 128 KiB eraseblocks with 2 KiB pages: two pages of UBI headers. *)
Definition UBI_LEB_SIZE : Z := 0x1f000.
Definition UBI_MIN_IO : Z := 0x800.

Definition set_marker (b : bool) (v : volume) : volume :=
  MkVol (v_name v) (v_static v) (v_pebs v) (v_used v) b (v_updating v) (v_data v).
Definition set_updating (b : bool) (v : volume) : volume :=
  MkVol (v_name v) (v_static v) (v_pebs v) (v_used v) (v_upd_marker v) b (v_data v).
Definition set_data (d : Z -> Z) (v : volume) : volume :=
  MkVol (v_name v) (v_static v) (v_pebs v) (v_used v) (v_upd_marker v) (v_updating v) d.
Definition set_used (n : Z) (v : volume) : volume :=
  MkVol (v_name v) (v_static v) (v_pebs v) n (v_upd_marker v) (v_updating v) (v_data v).
Definition set_name (n : string) (v : volume) : volume :=
  MkVol n (v_static v) (v_pebs v) (v_used v) (v_upd_marker v) (v_updating v) (v_data v).

(** The bytes [0, n) of a volume. *)
Definition vol_bytes (v : volume) (n : Z) : list Z := mread (v_data v) 0 n.

Definition named (name : string) (s : option volume) : bool :=
  match s with Some v => bool_decide (v_name v = name) | None => false end.

(** [ubi_find_volume]: the first slot of that name. *)
Fixpoint ubi_find_volume (t : vtable) (name : string) : option (nat * volume) :=
  match t with
  | [] => None
  | s :: t' =>
    match s with
    | Some v => if bool_decide (v_name v = name) then Some (O, v)
                else prod_map S id <$> ubi_find_volume t' name
    | None => prod_map S id <$> ubi_find_volume t' name
    end
  end.

(** [ubi_check]: 0 when the volume exists (the internal layout volume counts). *)
Definition ubi_check (t : vtable) (name : string) : Z :=
  if existsb (named name) t || bool_decide (name = "layout volume"%string) then 0 else 1.

(** The first vacant slot, for [UBI_VOL_NUM_AUTO]. *)
Fixpoint vacant_slot (t : vtable) : option nat :=
  match t with
  | [] => None
  | None :: _ => Some O
  | Some _ :: t' => S <$> vacant_slot t'
  end.

(** [vtbl_check], the part on names: all names differ. *)
Fixpoint vtbl_names_unique (t : vtable) : bool :=
  match t with
  | [] => true
  | None :: t' => vtbl_names_unique t'
  | Some v :: t' => negb (existsb (named (v_name v)) t') && vtbl_names_unique t'
  end.

Definition table_pebs (t : vtable) : Z :=
  foldr (fun s a => match s with Some v => v_pebs v + a | None => a end) 0 t.

(** * Device state *)

Section ubi.
Context {P : Platform}.

Definition upd_dev (f : ubi_dev -> ubi_dev) : ST hw unit :=
  smod (fun h => match h_ubi h with Some u => set_ubi (Some (f u)) h | None => h end).
Definition dev_vols (t : vtable) (u : ubi_dev) : ubi_dev :=
  MkUbi (u_mtd u) (u_off u) (u_size u) (u_erasesize u) (u_writesize u) (u_leb_size u) t
    (u_avail u) (u_beb_level u) (u_beb_pebs u) (u_ro u).
Definition dev_avail (a : Z) (u : ubi_dev) : ubi_dev :=
  MkUbi (u_mtd u) (u_off u) (u_size u) (u_erasesize u) (u_writesize u) (u_leb_size u) (u_vols u)
    a (u_beb_level u) (u_beb_pebs u) (u_ro u).
Definition dev_beb (b : Z) (u : ubi_dev) : ubi_dev :=
  MkUbi (u_mtd u) (u_off u) (u_size u) (u_erasesize u) (u_writesize u) (u_leb_size u) (u_vols u)
    (u_avail u) (u_beb_level u) b (u_ro u).
Definition dev_ro (u : ubi_dev) : ubi_dev :=
  MkUbi (u_mtd u) (u_off u) (u_size u) (u_erasesize u) (u_writesize u) (u_leb_size u) (u_vols u)
    (u_avail u) (u_beb_level u) (u_beb_pebs u) true.

(** The flash of device [u] now holds table [t]; [v_updating] is not stored. *)
Definition flash_table (u : ubi_dev) (t : vtable) : ST hw unit :=
  smod (fun h => set_flash
    (fill_cells (h_nand h) (u_off u) (u_size u) (pf_raw (h_tick h)))
    (fun b => if u_off u / u_erasesize u <=? b then false else h_erased h b)
    (fun o => if o =? u_off u then UA_table (map (fmap (set_updating false)) t) else UA_other) h).

(** [ubi_update_layout_vol]: writes the volume table [t] to the flash. *)
Definition ubi_update_layout_vol (t : vtable) : ST hw Z :=
  let* d := sget h_ubi in
  match d with
  | None => sret (- ENODEV)
  | Some u =>
    if u_ro u then sret (- EROFS)
    else
      let* o := next_out in
      if nz (o_err o) then
        (if o_late o then flash_table u t else sret tt) ;;;
        upd_dev dev_ro ;;; sret (o_err o)
      else flash_table u t ;;; sret 0
  end.

(** Data of slot [i] changed in place on the flash, no table record involved. *)
Definition ubi_data_changed (i : nat) (f : volume -> volume) : ST hw unit :=
  let* d := sget h_ubi in
  match d with
  | None => sret tt
  | Some u => let t := alter (fmap f) i (u_vols u) in
              upd_dev (dev_vols t) ;;; flash_table u t
  end.
Definition upd_slot (i : nat) (f : volume -> volume) : ST hw unit :=
  upd_dev (fun u => dev_vols (alter (fmap f) i (u_vols u)) u).

(** * Volume management *)

(** Positive error numbers, as cmd/ubi.c has it. *)
Definition verify_mkvol_req (leb : Z) (bytes : Z) (vol_id : Z) (name : string) : Z :=
  if bytes <? 0 then EINVAL
  else if ((vol_id <? 0) || (Z.of_nat UBI_VTBL_SLOTS <=? vol_id))
          && negb (vol_id =? UBI_VOL_NUM_AUTO) then EINVAL
  else if bytes =? 0 then ENOMEM
  else if leb <? 1 then EINVAL
  else if (UBI_VOL_NAME_MAX <? String.length name)%nat then ENAMETOOLONG
  else 0.

(** drivers/mtd/ubi/vmt.c; alignment 1, so the usable LEB size is the LEB size. *)
Definition ubi_create_volume (u : ubi_dev) (name : string) (bytes : Z) (static : bool) (vol_id : Z)
    : ST hw Z :=
  if u_ro u then sret (- EROFS)
  else
    let* ok := malloc in
    if negb ok then sret (- ENOMEM)
    else
      match (if vol_id =? UBI_VOL_NUM_AUTO then vacant_slot (u_vols u) else Some (Z.to_nat vol_id)) with
      | None => sret (- ENFILE)
      | Some i =>
        if bool_decide (is_Some (mjoin (u_vols u !! i))) then sret (- EEXIST)
        else if existsb (named name) (u_vols u) then sret (- EEXIST)
        else
          let pebs := (bytes + u_leb_size u - 1) / u_leb_size u in
          if u_avail u <? pebs then sret (- ENOSPC)
          else
            let* fl := next_out in
            if nz (o_err fl) then sret (o_err fl)
            else
              let* ok2 := malloc in
              if negb ok2 then sret (- ENOMEM)
              else
                let v := MkVol name static pebs (if static then 0 else pebs * u_leb_size u)
                           false false (fun _ => 0xff) in
                let t := <[i := Some v]> (u_vols u) in
                let* err := ubi_update_layout_vol t in
                if nz err then sret err
                else upd_dev (fun d => dev_avail (u_avail d - pebs) (dev_vols t d)) ;;; sret 0
      end.

Definition ubi_create_vol (u : ubi_dev) (name : string) (size : Z) (dynamic : bool) (vol_id : Z)
    : ST hw Z :=
  let err := verify_mkvol_req (u_leb_size u) size vol_id name in
  if nz err then sret err else ubi_create_volume u name size (negb dynamic) vol_id.

(** The PEBs of [v] become available; the bad-block reserve is topped up first. *)
Definition dev_removed (t : vtable) (v : volume) (d : ubi_dev) : ubi_dev :=
  let avail := u_avail d + v_pebs v in
  let i0 := u_beb_level d - u_beb_pebs d in
  let d' := dev_vols t d in
  if 0 <? i0 then
    let i1 := if i0 <=? avail then i0 else avail in
    dev_beb (u_beb_pebs d + i1) (dev_avail (avail - i1) d')
  else dev_avail avail d'.

Definition ubi_remove_vol (u : ubi_dev) (name : string) : ST hw Z :=
  match ubi_find_volume (u_vols u) name with
  | None => sret ENODEV
  | Some (i, v) =>
    if u_ro u then sret EROFS
    else
      let t := <[i := None]> (u_vols u) in
      let* err := ubi_update_layout_vol t in
      if nz err then sret (Z.abs err)
      else
        let* o := next_out in
        if nz (o_err o) then upd_dev dev_ro ;;; sret (Z.abs (o_err o))
        else
          upd_dev (dev_removed t v) ;;;
          sret 0
  end.

(** [ubi_rename_volumes]: all the renames in one volume-table write. *)
Definition rename_slots (l : list (nat * string)) (t : vtable) : vtable :=
  foldl (fun t e => alter (fmap (set_name (snd e))) (fst e) t) t l.
Definition ubi_rename_volumes (u : ubi_dev) (l : list (nat * string)) : ST hw Z :=
  let t := rename_slots l (u_vols u) in
  let* err := ubi_update_layout_vol t in
  if nz err then sret err else upd_dev (dev_vols t) ;;; sret 0.

Definition ubi_rename_vol (u : ubi_dev) (oldname newname : string) : ST hw Z :=
  match ubi_find_volume (u_vols u) oldname with
  | None => sret ENODEV
  | Some (i, _) =>
    if ubi_check (u_vols u) newname =? 0 then sret EINVAL
    else if u_ro u then sret EROFS
    else ubi_rename_volumes u [(i, newname)]
  end.

(** * Volume update (drivers/mtd/ubi/upd.c) *)

(** A volume-table record rewritten on flash; the live volume takes the change
    whether or not the write succeeds. *)
Definition change_record (i : nat) (f : volume -> volume) : ST hw Z :=
  let* d := sget h_ubi in
  match d with
  | None => sret (- ENODEV)
  | Some u =>
    let* err := ubi_update_layout_vol (alter (fmap f) i (u_vols u)) in
    upd_slot i f ;;; sret err
  end.

Definition set_update_marker (i : nat) (v : volume) : ST hw Z :=
  if v_upd_marker v then sret 0 else change_record i (set_marker true).

Definition clear_update_marker (i : nat) (bytes : Z) : ST hw Z :=
  upd_slot i (fun v => if v_static v then set_used bytes v else v) ;;;
  change_record i (set_marker false).

(** The outcome of unmapping every LEB of slot [i]. *)
Definition ubi_unmap_lebs (i : nat) : ST hw Z :=
  let* ro := sget (fun h => match h_ubi h with Some u => u_ro u | None => true end) in
  if ro then sret (- EROFS)
  else
    let* o := next_out in
    ubi_data_changed i (set_data (match o_cells o with Some f => f | None => fun _ => 0xff end)) ;;;
    if nz (o_err o) then upd_dev dev_ro ;;; sret (o_err o) else sret 0.

Definition ubi_start_update (i : nat) (v : volume) (bytes : Z) : ST hw Z :=
  upd_slot i (set_updating true) ;;;
  let* ok := malloc in
  if negb ok then sret (- ENOMEM)
  else
    let* err := set_update_marker i v in
    if nz err then sret err
    else
      let* err := ubi_unmap_lebs i in
      if nz err then sret err
      else if bytes =? 0 then
        let* fl := next_out in
        if nz (o_err fl) then sret (o_err fl)
        else
          let* err := clear_update_marker i 0 in
          if nz err then sret err else upd_slot i (set_updating false) ;;; sret 0
      else sret 0.

(** [write_leb]: one LEB of update data. *)
Definition write_leb (i : nat) (off : Z) (chunk : list Z) : ST hw Z :=
  let* o := next_out in
  if nz (o_err o) then
    ubi_data_changed i (fun v => match o_cells o with Some f => set_data f v | None => v end) ;;;
    (if o_late o then upd_dev dev_ro else sret tt) ;;; sret (o_err o)
  else
    ubi_data_changed i (fun v =>
      set_data (match o_cells o with
                | Some f => fill_cells (v_data v) off (blen chunk) f
                | None => mwrite (v_data v) off chunk
                end) v) ;;;
    sret 0.
(** The loop over whole LEBs of [ubi_more_update_data]. *)
Fixpoint more_update_loop (fuel : nat) (leb : Z) (i : nat) (off : Z) (buf : list Z) : ST hw Z :=
  match buf with
  | [] => sret 0
  | _ =>
    match fuel with
    | O => sret (- EIO)
    | S fuel' =>
      let len := if leb <? blen buf then leb else blen buf in
      let* err := write_leb i off (take (Z.to_nat len) buf) in
      if nz err then sret err
      else more_update_loop fuel' leb i (off + leb) (drop (Z.to_nat len) buf)
    end
  end.
(** All the update data in one call: the number of bytes when the update has
    finished, or a negative error. *)
Definition ubi_more_update_data (u : ubi_dev) (i : nat) (buf : list Z) : ST hw Z :=
  if u_ro u then sret (- EROFS)
  else
    let* err := more_update_loop (length buf) (u_leb_size u) i 0 buf in
    if nz err then sret err
    else
      let* fl := next_out in
      if nz (o_err fl) then sret (o_err fl)
      else
        let* err := clear_update_marker i (blen buf) in
        if nz err then sret err
        else upd_slot i (set_updating false) ;;; sret (blen buf).

(** The CRC scan of a static volume: only a read error is reported. *)
Definition ubi_check_volume (v : volume) : ST hw Z :=
  if v_static v then
    let* o := next_out in sret (if o_err o <? 0 then o_err o else 0)
  else sret 0.

Definition ubi_volume_continue_write (name : string) (buf : list Z) : ST hw Z :=
  let* d := sget h_ubi in
  match d with
  | None => sret ENODEV
  | Some u =>
    match ubi_find_volume (u_vols u) name with
    | None => sret ENODEV
    | Some (i, v) =>
      if negb (v_updating v) then sret EINVAL
      else
        let* err := ubi_more_update_data u i buf in
        if err <? 0 then sret (- err)
        else if nz err then
          let* err := ubi_check_volume v in
          if err <? 0 then sret (- err) else sret 0
        else sret 0
    end
  end.

Definition ubi_volume_begin_write (name : string) (buf : list Z) : ST hw Z :=
  let size := blen buf in
  let* d := sget h_ubi in
  match d with
  | None => sret ENODEV
  | Some u =>
    match ubi_find_volume (u_vols u) name with
    | None => sret ENODEV
    | Some (i, v) =>
      if v_pebs v * u_leb_size u <? size then sret EINVAL
      else
        let* err := ubi_start_update i v size in
        if err <? 0 then sret (- err)
        else if size =? 0 then sret 0
        else ubi_volume_continue_write name buf
    end
  end.
(** [ubi_volume_write] at offset 0. *)
Definition ubi_volume_write (name : string) (buf : list Z) : ST hw Z :=
  ubi_volume_begin_write name buf.

(** * Volume read *)

(** The do/while loop: [len] bytes of LEB [lnum] at [off] per iteration. *)
Fixpoint volume_read_loop (fuel : nat) (v : volume) (leb tbuf : Z) (lnum off len size buf : Z)
    : ST hw Z :=
  match fuel with
  | O => sret EIO
  | S fuel' =>
    let len := if leb <=? off + len then leb - off else len in
    let* o := next_out in
    if nz (o_err o) then sret (- o_err o)
    else
      ram_write buf (mread (v_data v) (lnum * leb + off) len) ;;;
      let off1 := off + len in
      let wrap := off1 =? leb in
      let lnum' := if wrap then lnum + 1 else lnum in
      let off' := if wrap then off1 - leb else off1 in
      let size' := size - len in
      if size' =? 0 then sret 0
      else volume_read_loop fuel' v leb tbuf lnum' off' (if tbuf <? size' then tbuf else size')
             size' (buf + len)
  end.

(** At offset 0, as every caller uses it. *)
Definition ubi_volume_read (name : string) (buf size0 : Z) : ST hw Z :=
  let* d := sget h_ubi in
  match d with
  | None => sret ENODEV
  | Some u =>
    match ubi_find_volume (u_vols u) name with
    | None => sret ENODEV
    | Some (_, v) =>
      if v_updating v then sret EBUSY
      else if v_upd_marker v then sret EBADF
      else if v_used v =? 0 then sret 0
      else
        let size1 := if size0 =? 0 then v_used v else size0 in
        let size := if v_used v <? size1 then v_used v else size1 in
        let leb := u_leb_size u in
        let tbuf := if size <? leb then (size + UBI_MIN_IO - 1) / UBI_MIN_IO * UBI_MIN_IO else leb in
        let* ok := malloc in
        if negb ok then sret ENOMEM
        else
          let* err := volume_read_loop (Z.to_nat size) v leb tbuf 0 0
                        (if tbuf <? size then tbuf else size) size buf in
          if nz err then sret err
          else smod (fun h => set_env (<["filesize" := size]> (h_env h)) h) ;;; sret 0
    end
  end.

(** * Attach and detach *)

Definition ubi_detach : ST hw Z := smod (set_ubi None) ;;; sret 0.

(** Every good block of the partition is erased. *)
Definition all_erased (h : hw) (m : mtd_info) : bool :=
  forallb (fun k => let b := m_off m / m_erasesize m + Z.of_nat k in h_bad h b || h_erased h b)
          (seq 0 (Z.to_nat (m_size m / m_erasesize m))).

Definition attach_dev (m : mtd_info) (t : vtable) : ubi_dev :=
  MkUbi (m_name m) (m_off m) (m_size m) (m_erasesize m) (m_writesize m) UBI_LEB_SIZE
    (map (fmap (set_updating false)) t) (pf_pebs - table_pebs t) pf_beb_level pf_beb_pebs false.

(** [ubi_dev_scan]: scanning the flash; positive error numbers.  An erased
    partition is formatted; one with foreign data is refused. *)
Definition ubi_dev_scan (m : mtd_info) : ST hw Z :=
  let* o := next_out in
  if nz (o_err o) then sret (Z.abs (o_err o))
  else
    let* a := sget (fun h => h_areas h (m_off m)) in
    match a with
    | UA_table t =>
      if negb (vtbl_names_unique t) then sret EINVAL
      else if pf_pebs <? table_pebs t then sret ENOSPC
      else smod (set_ubi (Some (attach_dev m t))) ;;; sret 0
    | UA_other =>
      let* blank := sget (fun h => all_erased h m) in
      if negb blank then sret EINVAL
      else
        let t := repeat None UBI_VTBL_SLOTS in
        flash_table (attach_dev m t) t ;;;
        smod (set_ubi (Some (attach_dev m t))) ;;; sret 0
    end.

Definition ubi_part (part_name : string) : ST hw Z :=
  let* d := sget h_ubi in
  if (match d with Some u => bool_decide (u_mtd u = part_name) | None => false end) then sret 0
  else
    let* _r := ubi_detach in
    let* m := get_mtd_device_nm part_name in
    match m with
    | None => sret 1
    | Some m => ubi_dev_scan m
    end.
End ubi.
