(* ===== verification/UbiTable.v ===== *)
(** Volume tables as finite maps.  [vmap] reads a slot table as a map from
    names to volumes; under unique names every table operation of [Ubi] is the
    corresponding map operation.  The engines' proofs work on the maps. *)
From S2P Require Import Prelude Bytes Flash Ubi.

Fixpoint vmap (t : vtable) : gmap string volume :=
  match t with
  | [] => ∅
  | None :: t' => vmap t'
  | Some v :: t' => <[v_name v := v]> (vmap t')
  end.

Definition uniq (t : vtable) : Prop := vtbl_names_unique t = true.

Create HintDb ubitab.

Lemma existsb_vmap t n : existsb (named n) t = true <-> is_Some (vmap t !! n).
Proof.
  induction t as [|[v|] t IH]; simpl.
  - rewrite lookup_empty. split; [done|by intros [? ?]].
  - rewrite orb_true_iff, IH, bool_decide_eq_true. destruct (decide (v_name v = n)) as [Hn|Hn].
    + subst n. rewrite lookup_insert_eq. split; auto.
    + rewrite lookup_insert_ne by done. split; [by intros [?|?]|auto].
  - done.
Qed.
Lemma existsb_vmap_None t n : existsb (named n) t = false <-> vmap t !! n = None.
Proof. rewrite <- not_true_iff_false, existsb_vmap, <- eq_None_not_Some. done. Qed.

Lemma uniq_cons v t : uniq (Some v :: t) <-> vmap t !! v_name v = None /\ uniq t.
Proof.
  unfold uniq. simpl. rewrite andb_true_iff, negb_true_iff, existsb_vmap_None. done.
Qed.
Lemma uniq_cons_None t : uniq (None :: t) <-> uniq t.
Proof. done. Qed.

(** ** Lookup *)

Lemma find_vmap t n : snd <$> ubi_find_volume t n = vmap t !! n.
Proof.
  induction t as [|[v|] t IH]; simpl; [by rewrite lookup_empty| |].
  - case_bool_decide as Hn.
    + subst. by rewrite lookup_insert_eq.
    + rewrite lookup_insert_ne, <- IH by done. by destruct (ubi_find_volume t n) as [[]|].
  - rewrite <- IH. by destruct (ubi_find_volume t n) as [[]|].
Qed.
Lemma find_Some_vmap t n i v : ubi_find_volume t n = Some (i, v) -> vmap t !! n = Some v.
Proof. intros H. by rewrite <- find_vmap, H. Qed.
Lemma find_None_vmap t n : ubi_find_volume t n = None <-> vmap t !! n = None.
Proof. rewrite <- find_vmap. by destruct (ubi_find_volume t n). Qed.
Lemma vmap_find t n v : vmap t !! n = Some v -> exists i, ubi_find_volume t n = Some (i, v).
Proof.
  rewrite <- find_vmap. destruct (ubi_find_volume t n) as [[i w]|]; simpl; [|done].
  intros [= ->]. eauto.
Qed.

Lemma find_slot t n i v :
  ubi_find_volume t n = Some (i, v) -> t !! i = Some (Some v) /\ v_name v = n.
Proof.
  revert i; induction t as [|[w|] t IH]; intros i; simpl; [done| |].
  - case_bool_decide as Hn; [by intros [= <- <-]|].
    destruct (ubi_find_volume t n) as [[j u]|]; simpl; [|done]. intros [= <- <-]. by apply IH.
  - destruct (ubi_find_volume t n) as [[j u]|]; simpl; [|done]. intros [= <- <-]. by apply IH.
Qed.

(** The converse needs unique names. *)
Lemma slot_find t i v :
  uniq t -> t !! i = Some (Some v) -> ubi_find_volume t (v_name v) = Some (i, v).
Proof.
  revert i; induction t as [|[w|] t IH]; intros i Hu Hi; [done| |]; destruct i as [|i]; simplify_eq/=.
  - by rewrite bool_decide_true.
  - apply uniq_cons in Hu as [Hw Hu]. rewrite (IH i) by done.
    rewrite bool_decide_false; [done|]. intros Heq.
    rewrite Heq in Hw. pose proof (IH i Hu Hi) as Hf. apply find_Some_vmap in Hf. by rewrite Hf in Hw.
  - by rewrite (IH i).
Qed.

Lemma vmap_named t n v : vmap t !! n = Some v -> v_name v = n.
Proof. intros [i Hi]%vmap_find. by apply find_slot in Hi as [_ ?]. Qed.

Lemma ubi_check_0 t n :
  ubi_check t n = 0 <-> is_Some (vmap t !! n) \/ n = "layout volume"%string.
Proof.
  unfold ubi_check. destruct (existsb (named n) t) eqn:He; simpl.
  - apply existsb_vmap in He. split; auto.
  - apply existsb_vmap_None in He. case_bool_decide as Hn; split; auto; try done.
    rewrite He. intros [[? ?]|?]; done.
Qed.
Lemma ubi_check_present t n v : vmap t !! n = Some v -> ubi_check t n = 0.
Proof. intros. apply ubi_check_0. left. eauto. Qed.
Lemma ubi_check_absent t n :
  vmap t !! n = None -> n <> "layout volume"%string -> ubi_check t n = 1.
Proof.
  intros Hn Hl. unfold ubi_check. apply existsb_vmap_None in Hn as ->. by rewrite bool_decide_false.
Qed.

(** ** Updates *)

Lemma vmap_set_slot t i s :
  uniq t -> (exists s0, t !! i = Some s0) ->
  (forall v w j, s = Some v -> t !! j = Some (Some w) -> j <> i -> v_name w <> v_name v) ->
  uniq (<[i := s]> t) /\
  vmap (<[i := s]> t) =
    (match s with Some v => insert (v_name v) v | None => id end)
    ((match t !! i with Some (Some v) => delete (v_name v) | _ => id end) (vmap t)).
Proof.
  revert i; induction t as [|w t IH]; intros i Hu [s0 Hi] Hs; [done|].
  destruct i as [|i].
  - simpl in *. simplify_eq. clear IH.
    assert (forall v, s = Some v -> vmap t !! v_name v = None) as Hfresh.
    { intros v ->. apply eq_None_not_Some. intros [w' Hw'].
      pose proof (vmap_named _ _ _ Hw') as Hn.
      apply vmap_find in Hw' as [j Hj]. apply find_slot in Hj as [Hj _].
      eapply (Hs v w' (S j)); eauto. }
    destruct s0 as [v0|]; [apply uniq_cons in Hu as [Hv0 Hu]; rewrite delete_insert_id by done|];
      destruct s as [v|]; simpl; rewrite ?uniq_cons, ?uniq_cons_None; auto.
  - simpl in Hi. destruct (IH i) as [IHu IHm]; [by destruct w; [apply uniq_cons in Hu as [_ ?]|]|eauto| |].
    { intros v w' j Hv Hj Hne. apply (Hs v w' (S j)); [done|done|congruence]. }
    change (<[S i:=s]> (w :: t)) with (w :: <[i:=s]> t).
    change ((w :: t) !! S i) with (t !! i).
    destruct w as [w|]; [|by simpl].
    apply uniq_cons in Hu as [Hw Hu]. rewrite uniq_cons. cbn [vmap]. rewrite IHm. rewrite Hi in *.
    assert (forall v, s = Some v -> v_name w <> v_name v) as Hwv.
    { intros v ->. apply (Hs v w 0%nat); auto. }
    assert (forall v, s0 = Some v -> v_name w <> v_name v) as Hwv0.
    { intros v -> Heq. pose proof (slot_find t i v Hu Hi) as Hf.
      apply find_Some_vmap in Hf. rewrite Heq in Hw. by rewrite Hf in Hw. }
    split; [split; [|done]|].
    + destruct s as [v|], s0 as [v0|]; simpl;
        rewrite ?lookup_insert_ne, ?lookup_delete_ne by (symmetry; eauto); done.
    + destruct s as [v|], s0 as [v0|]; simpl; try done;
        rewrite ?delete_insert_ne by (intros ?; by eapply Hwv0);
        rewrite ?(insert_insert_ne _ (v_name w)) by eauto; done.
Qed.

(** Another slot of a unique table has another name. *)
Lemma uniq_names_ne t i j v w :
  uniq t -> t !! i = Some (Some v) -> t !! j = Some (Some w) -> i <> j -> v_name v <> v_name w.
Proof.
  intros Hu Hi Hj Hne Heq.
  pose proof (slot_find t i v Hu Hi) as H1. pose proof (slot_find t j w Hu Hj) as H2. congruence.
Qed.

Lemma vmap_remove t n i v :
  uniq t -> ubi_find_volume t n = Some (i, v) ->
  uniq (<[i := None]> t) /\ vmap (<[i := None]> t) = delete n (vmap t).
Proof.
  intros Hu Hf. apply find_slot in Hf as [Hi Hn].
  destruct (vmap_set_slot t i None Hu) as [? Hm]; [eauto|done|].
  split; [done|]. rewrite Hm, Hi. by subst n.
Qed.

Lemma vmap_create t i v :
  uniq t -> t !! i = Some None -> vmap t !! v_name v = None ->
  uniq (<[i := Some v]> t) /\ vmap (<[i := Some v]> t) = <[v_name v := v]> (vmap t).
Proof.
  intros Hu Hi Hfresh.
  destruct (vmap_set_slot t i (Some v) Hu) as [? Hm]; [eauto| |by rewrite Hm, Hi].
  intros v' w j [= <-] Hj _ Heq. pose proof (slot_find t j w Hu Hj) as Hf.
  apply find_Some_vmap in Hf. congruence.
Qed.

Lemma alter_slot (t : vtable) i v (f : volume -> volume) :
  t !! i = Some (Some v) -> alter (fmap f) i t = <[i := Some (f v)]> t.
Proof.
  intros Hi. symmetry. apply list_eq. intros j. destruct (decide (i = j)) as [->|Hj].
  - rewrite list_lookup_insert_eq by (eapply lookup_lt_Some; done).
    by rewrite list_lookup_alter_eq, Hi.
  - by rewrite list_lookup_insert_ne, list_lookup_alter_ne by done.
Qed.

Lemma vmap_alter t n i v f :
  uniq t -> ubi_find_volume t n = Some (i, v) ->
  v_name (f v) = n \/ vmap t !! v_name (f v) = None ->
  uniq (alter (fmap f) i t) /\
  vmap (alter (fmap f) i t) = <[v_name (f v) := f v]> (delete n (vmap t)).
Proof.
  intros Hu Hf Hfree. apply find_slot in Hf as [Hi Hn]. rewrite (alter_slot _ _ _ _ Hi).
  destruct (vmap_set_slot t i (Some (f v)) Hu) as [? Hm]; [eauto| |by rewrite Hm, Hi, Hn].
  intros v' w j [= <-] Hj Hne Heq. destruct Hfree as [Hfree|Hfree].
  - eapply (uniq_names_ne t i j); eauto. congruence.
  - pose proof (slot_find t j w Hu Hj) as Hw. apply find_Some_vmap in Hw. congruence.
Qed.
Lemma vmap_update t n i v f :
  uniq t -> ubi_find_volume t n = Some (i, v) -> v_name (f v) = n ->
  uniq (alter (fmap f) i t) /\ vmap (alter (fmap f) i t) = <[n := f v]> (vmap t).
Proof.
  intros Hu Hf Hn. destruct (vmap_alter t n i v f Hu Hf) as [? Hm]; [auto|].
  split; [done|]. rewrite Hm, Hn. by rewrite insert_delete_eq.
Qed.

(** [map_fmap_id]-like facts: dropping the RAM-only flag. *)
Definition stored (t : vtable) : vtable := map (fmap (set_updating false)) t.

Lemma vmap_stored t : vmap (stored t) = set_updating false <$> vmap t.
Proof.
  induction t as [|[v|] t IH]; simpl; [by rewrite fmap_empty| |done].
  rewrite fmap_insert. by rewrite <- IH.
Qed.
Lemma uniq_stored t : uniq (stored t) <-> uniq t.
Proof.
  induction t as [|[v|] t IH]; [done| |done]. change (stored (Some v :: t)) with (Some (set_updating false v) :: stored t).
  rewrite !uniq_cons, IH, vmap_stored, lookup_fmap, fmap_None. done.
Qed.
Lemma stored_idemp t : stored (stored t) = stored t.
Proof. unfold stored. rewrite map_map. apply map_ext. by intros [[]|]. Qed.

Lemma vacant_slot_spec t i : vacant_slot t = Some i -> t !! i = Some None.
Proof.
  revert i; induction t as [|[v|] t IH]; intros i; simpl; [done| |by intros [= <-]].
  destruct (vacant_slot t); simpl; [|done]. intros [= <-]. by apply IH.
Qed.

#[export] Hint Resolve ubi_check_present find_Some_vmap : ubitab.
