(* ===== verification/Shell.v ===== *)
(** The shell commands the flash engines issue, as abstract syntax, with the
    handlers of cmd/ubi.c and cmd/mtd.c, the value [run_command] returns, the
    UBI kernel API the engines call directly, and the environment store. *)
From S2P Require Import Prelude Bytes Flash Ubi.

(** * Commands *)

Inductive command :=
  | UbiDetach
  | UbiPart (part : string)
  | UbiCheck (vol : string)
  | UbiCreate (vol : string) (size : Z) (dynamic : bool) (id : Z)
  | UbiRemove (vol : string)
  | UbiRename (oldname newname : string)
  | UbiWrite (addr : Z) (vol : string) (size : Z)
  | UbiRead (addr : Z) (vol : string) (size : Z)
  | MtdErase (part : string) (off len : Z)
  | MtdRead (part : string) (addr off len : Z)
  | MtdWrite (part : string) (addr off len : Z)
  | Bootm (addr : Z) (conf : string).

Section shell.
Context {P : Platform}.

(** * do_ubi *)

(** Runs [k] on the selected device, or reports that there is none. *)
Definition with_ubi (k : ubi_dev -> ST hw Z) : ST hw Z :=
  let* d := sget h_ubi in
  match d with None => sret 1 | Some u => k u end.

Definition do_ubi_create (vol : string) (size : Z) (dynamic : bool) (id : Z) : ST hw Z :=
  with_ubi (fun u =>
    let size := if size =? 0 then u_avail u * u_leb_size u else size in
    ubi_create_vol u vol size dynamic id).

Definition do_ubi_write (addr : Z) (vol : string) (size : Z) : ST hw Z :=
  with_ubi (fun _ =>
    let* buf := ram_read addr size in ubi_volume_write vol buf).

Definition do_ubi (c : command) : ST hw Z :=
  match c with
  | UbiDetach => ubi_detach
  | UbiPart part => ubi_part part
  | UbiCheck vol => with_ubi (fun u => sret (ubi_check (u_vols u) vol))
  | UbiCreate vol size dynamic id => do_ubi_create vol size dynamic id
  | UbiRemove vol => with_ubi (fun u => ubi_remove_vol u vol)
  | UbiRename oldname newname => with_ubi (fun u => ubi_rename_vol u oldname newname)
  | UbiWrite addr vol size => do_ubi_write addr vol size
  | UbiRead addr vol size => with_ubi (fun _ => ubi_volume_read vol addr size)
  | _ => sret 1
  end.

(** * do_mtd *)

Fixpoint mtd_erase_loop (fuel : nat) (m : mtd_info) (addr len : Z) (ret : Z) : ST hw Z :=
  if len =? 0 then sret (if nz ret && negb (ret =? - EIO) then CMD_RET_FAILURE else CMD_RET_SUCCESS)
  else match fuel with
  | O => sret CMD_RET_FAILURE
  | S fuel' =>
    let* bad := mtd_block_isbad m addr in
    if bad <? 0 then sret CMD_RET_FAILURE
    else if 0 <? bad then mtd_erase_loop fuel' m (addr + m_erasesize m) (len - m_erasesize m) 0
    else
      let* ret := mtd_erase m addr (m_erasesize m) in
      if nz ret && negb (ret =? - EIO) then sret CMD_RET_FAILURE
      else mtd_erase_loop fuel' m (addr + m_erasesize m) (len - m_erasesize m) ret
  end.
Definition do_mtd_erase (part : string) (off len : Z) : ST hw Z :=
  let* m := get_mtd_device_nm part in
  match m with
  | None => sret CMD_RET_FAILURE
  | Some m =>
    if nz (off `mod` m_erasesize m) || nz (len `mod` m_erasesize m) then sret CMD_RET_FAILURE
    else mtd_erase_loop (Z.to_nat (len / m_erasesize m)) m off len 0
  end.

(** The search for the first good block; [None] when it leaves the device,
    where the C loop does not end ([mtd_block_isbad] keeps failing). *)
Fixpoint first_good_block (fuel : nat) (m : mtd_info) (off : Z) : ST hw (option Z) :=
  match fuel with
  | O => sret None
  | S fuel' =>
    let* bad := mtd_block_isbad m off in
    if nz bad then first_good_block fuel' m (off + m_erasesize m) else sret (Some off)
  end.

Definition page_is_empty (l : list Z) : bool := forallb (fun b => b =? 0xff) l.

(** The page loop of [do_mtd_io], NAND device, no OOB data. *)
Fixpoint mtd_io_loop (fuel : nat) (m : mtd_info) (rd : bool) (off remaining buf : Z) : ST hw Z :=
  if remaining =? 0 then sret 0
  else match fuel with
  | O => sret CMD_RET_FAILURE
  | S fuel' =>
    let* bad := (if (off `mod` m_erasesize m =? 0) then mtd_block_isbad m off else sret 0) in
    if nz bad then mtd_io_loop fuel' m rd (off + m_erasesize m) remaining buf
    else if rd then
      let* r := mtd_read m off (m_writesize m) in
      let '(ret, data) := r in
      ram_write buf data ;;;
      if nz ret then sret ret
      else mtd_io_loop fuel' m rd (off + blen data) (remaining - blen data) (buf + blen data)
    else
      let* page := ram_read buf (m_writesize m) in
      let* r := (if page_is_empty page then sret (0, m_writesize m) else mtd_write m off page) in
      let '(ret, retlen) := r in
      if nz ret then sret ret
      else mtd_io_loop fuel' m rd (off + retlen) (remaining - retlen) (buf + retlen)
  end.
Definition do_mtd_io (rd : bool) (part : string) (addr off len : Z) : ST hw Z :=
  let* m := get_mtd_device_nm part in
  match m with
  | None => sret CMD_RET_FAILURE
  | Some m =>
    let user_addr := u32 addr in
    if nz (off `mod` m_writesize m) then sret CMD_RET_FAILURE
    else
      let len := if nz (len `mod` m_writesize m)
                 then (len / m_writesize m + 1) * m_writesize m else len in
      if user_addr =? 0 then sret CMD_RET_FAILURE
      else
        let* g := first_good_block (S (Z.to_nat (m_size m / m_erasesize m))) m off in
        match g with
        | None => sret CMD_RET_FAILURE
        | Some off =>
          let* ret := mtd_io_loop (Z.to_nat (len / m_writesize m + m_size m / m_erasesize m + 1))
                        m rd off len user_addr in
          sret (if nz ret then CMD_RET_FAILURE else CMD_RET_SUCCESS)
        end
  end.

(** * run_command *)

(** [bootm] does not return when it succeeds; a return is a failure. *)
Definition command_code (c : command) : ST hw Z :=
  match c with
  | MtdErase part off len => do_mtd_erase part off len
  | MtdRead part addr off len => do_mtd_io true part addr off len
  | MtdWrite part addr off len => do_mtd_io false part addr off len
  | Bootm _ _ => sret CMD_RET_FAILURE
  | _ => do_ubi c
  end.

(** The parser reduces every command status to 0 or 1. *)
Definition run_command (c : command) : ST hw Z :=
  let* code := command_code c in sret (if nz code then 1 else 0).

(** * UBI kernel API *)

(** [ubi_open_volume_nm] followed by [ubi_close_volume]: the slot and the
    volume, or a negative error.  The first open of a static volume scans it,
    and the descriptor is allocated: both can fail. *)
Definition ubi_open_volume_nm (name : string) : ST hw (Z + (nat * volume)) :=
  let* d := sget h_ubi in
  match d with
  | None => sret (inl (- ENODEV))
  | Some u =>
    match ubi_find_volume (u_vols u) name with
    | None => sret (inl (- ENODEV))
    | Some iv =>
      let* o := next_out in
      if nz (o_err o) then sret (inl (o_err o)) else sret (inr iv)
    end
  end.

(** * Environment *)

Definition env_get_ulong (name : string) (dflt : Z) : ST hw Z :=
  sget (fun h => default dflt (h_env h !! name)).
Definition env_set_ulong (name : string) (val : Z) : ST hw Z :=
  let* o := next_out in
  if nz (o_err o) then sret (o_err o)
  else smod (fun h => set_env (<[name := val]> (h_env h)) h) ;;; sret 0.

Definition CONFIG_ENV_UBI_PART : string := "ubi".
Definition CONFIG_ENV_UBI_VOLUME : string := "ubootenv".
Definition CONFIG_ENV_UBI_VOLUME_REDUND : string := "ubootenv2".
Definition CONFIG_ENV_SIZE : Z := 0x1f000.

(** The exported environment is [CONFIG_ENV_SIZE] bytes of the platform. *)
Definition env_export_buf (n : nat) : list Z := take (Z.to_nat CONFIG_ENV_SIZE) (pf_env n).

Definition env_ubi_save : ST hw Z :=
  let* o := next_out in
  if nz (o_err o) then sret (o_err o)
  else
    let* env_new := sget (fun h => env_export_buf (h_tick h)) in
    let* r := ubi_part CONFIG_ENV_UBI_PART in
    if nz r then sret 1
    else
      let* redund := sget h_env_redund in
      let* w := ubi_volume_write
                  (if redund then CONFIG_ENV_UBI_VOLUME else CONFIG_ENV_UBI_VOLUME_REDUND) env_new in
      if nz w then sret 1
      else smod (set_env_redund (negb redund)) ;;; sret 0.
Definition env_save : ST hw Z :=
  let* r := env_ubi_save in sret (if nz r then - ENODEV else 0).
End shell.
