(* ===== verification/UbiSpec.v ===== *)
(** Specifications of the UBI commands.  [DS Q u h]: device [u] is attached in
    [h]; the table on its flash, and every table a power cut could have exposed
    so far, satisfies [Q]; and the live table is the one on flash unless the
    device is read-only.  Each command preserves [DS Q] as soon as the tables it
    writes satisfy [Q], and acts on the live table as on a finite map. *)
From S2P Require Import Prelude Bytes Flash Ubi UbiTable Shell.

(** * Maps without the RAM-only flag *)

Definition nm (m : gmap string volume) : gmap string volume := set_updating false <$> m.

Lemma nm_insert m n v : nm (<[n := v]> m) = <[n := set_updating false v]> (nm m).
Proof. apply fmap_insert. Qed.
Lemma nm_delete m n : nm (delete n m) = delete n (nm m).
Proof. apply fmap_delete. Qed.
Lemma nm_lookup m n : nm m !! n = set_updating false <$> m !! n.
Proof. apply lookup_fmap. Qed.

(** * What a UBI operation leaves alone *)

(** RAM, registrations, bad blocks, time, and the NAND below [lo]. *)
Record frame (lo : Z) (h h' : hw) : Prop := {
  fr_ram : h_ram h' = h_ram h;
  fr_mtds : h_mtds h' = h_mtds h;
  fr_bad : h_bad h' = h_bad h;
  fr_clock : h_clock h' = h_clock h;
  fr_nand : forall x, x < lo -> h_nand h' x = h_nand h x;
}.
Lemma frame_refl lo h : frame lo h h.
Proof. by split. Qed.
Lemma frame_trans lo h1 h2 h3 : frame lo h1 h2 -> frame lo h2 h3 -> frame lo h1 h3.
Proof. intros [] []. split; try congruence. intros. rewrite fr_nand1, fr_nand0; auto. Qed.
#[export] Hint Resolve frame_refl : ubitab.

(** The geometry of a device. *)
Definition same_geom (u u' : ubi_dev) : Prop :=
  u_mtd u' = u_mtd u /\ u_off u' = u_off u /\ u_size u' = u_size u /\
  u_erasesize u' = u_erasesize u /\ u_writesize u' = u_writesize u /\ u_leb_size u' = u_leb_size u.
Lemma same_geom_refl u : same_geom u u.
Proof. by repeat split. Qed.
Lemma same_geom_trans u1 u2 u3 : same_geom u1 u2 -> same_geom u2 u3 -> same_geom u1 u3.
Proof. unfold same_geom. intuition congruence. Qed.
#[export] Hint Resolve same_geom_refl : ubitab.

Lemma dev_ro_geom u : same_geom u (dev_ro u).
Proof. by repeat split. Qed.
Lemma dev_ro_id u : u_ro u = true -> dev_ro u = u.
Proof. destruct u; simpl. by intros ->. Qed.
#[export] Hint Resolve dev_ro_geom : ubitab.

Section spec.
Context {P : Platform}.
(** A property of the (stored) volume map. *)
Variable Q : gmap string volume -> Prop.

Definition area_ok (off : Z) (ar : Z -> ubi_area) : Prop :=
  exists t, ar off = UA_table t /\ uniq t /\ Q (vmap t).

(** Device [u] is attached and its flash holds [t]. *)
Record FSt (u : ubi_dev) (t : vtable) (h : hw) : Prop := {
  fs_ubi : h_ubi h = Some u;
  fs_area : h_areas h (u_off u) = UA_table t;
  fs_uniq : uniq t;
  fs_Q : Q (vmap t);
  fs_hist : Forall (area_ok (u_off u)) (h_hist h);
}.
Definition DS (u : ubi_dev) (h : hw) : Prop :=
  exists t, FSt u t h /\ uniq (u_vols u) /\ (u_ro u = true \/ stored (u_vols u) = t).

(** ** Layout volume *)

Lemma next_out_spec h (R : outcome -> hw -> Prop) :
  R (pf_out (h_tick h)) (set_tick (S (h_tick h)) h) -> wp next_out R h.
Proof. done. Qed.

Lemma FSt_tick u t h n : FSt u t h -> FSt u t (set_tick n h).
Proof. destruct h. by intros []. Qed.
Lemma frame_tick lo h n : frame lo h (set_tick n h).
Proof. destruct h. by split. Qed.

Lemma upd_dev_spec f u t h (R : unit -> hw -> Prop) :
  FSt u t h -> u_off (f u) = u_off u ->
  (forall h', frame (u_off u) h h' -> FSt (f u) t h' -> R tt h') ->
  wp (upd_dev f) R h.
Proof.
  intros [Hu Ha Hq Hh] Hoff HR. unfold upd_dev. wps. rewrite Hu. apply HR.
  - destruct h. by split.
  - destruct h; simpl in *. split; simpl; rewrite ?Hoff; done.
Qed.

Lemma flash_table_spec u t tn h (R : unit -> hw -> Prop) :
  FSt u t h -> uniq tn -> Q (nm (vmap tn)) ->
  (forall h', frame (u_off u) h h' -> FSt u (stored tn) h' -> R tt h') ->
  wp (flash_table u tn) R h.
Proof.
  intros [Hu Ha Hq Hh] Hun HQ HR. unfold flash_table. wps. apply HR; destruct h; simpl in *.
  - split; simpl; try done. intros x Hx. unfold fill_cells.
    destruct (Z.leb_spec (u_off u) x); [lia|done].
  - assert (area_ok (u_off u) (fun o => if o =? u_off u then UA_table (stored tn) else UA_other)) as Hok.
    { exists (stored tn). rewrite Z.eqb_refl. split; [done|]. split; [by apply uniq_stored|].
      by rewrite vmap_stored. }
    split; simpl; rewrite ?Z.eqb_refl; try done.
    + by apply uniq_stored.
    + by rewrite vmap_stored.
    + constructor; done.
Qed.

Lemma layout_spec u t tn h (R : Z -> hw -> Prop) :
  FSt u t h -> (u_ro u = false -> uniq tn /\ Q (nm (vmap tn))) ->
  (forall h', frame (u_off u) h h' -> u_ro u = false -> FSt u (stored tn) h' -> R 0 h') ->
  (forall r h' t', r < 0 -> frame (u_off u) h h' -> FSt (dev_ro u) t' h' -> R r h') ->
  wp (ubi_update_layout_vol tn) R h.
Proof.
  intros HF HQ Hok Herr. unfold ubi_update_layout_vol. wps. rewrite (fs_ubi _ _ _ HF).
  destruct (u_ro u) eqn:Hro.
  { wps. apply (Herr _ _ t); [done|apply frame_refl|]. by rewrite dev_ro_id. }
  destruct HQ as [Hun HQ]; [done|].
  wps. apply next_out_spec. set (o := pf_out _). set (h1 := set_tick _ h).
  assert (FSt u t h1) as HF1 by by apply FSt_tick.
  assert (frame (u_off u) h h1) as Hfr by apply frame_tick. clearbody h1.
  destruct (nz (o_err o)) eqn:He.
  - apply nz_true in He. assert (o_err o < 0) by (pose proof (pf_err (h_tick h)); unfold o in *; lia).
    wps. destruct (o_late o); wps.
    + eapply flash_table_spec; [done|done|auto|]. intros h2 Hfr2 HF2. wps.
      eapply upd_dev_spec; [done|done|]. intros h3 Hfr3 HF3. wps.
      eapply Herr; [done| |done]. eauto using frame_trans.
    + eapply upd_dev_spec; [done|done|]. intros h3 Hfr3 HF3. wps.
      eapply Herr; [done| |done]. eauto using frame_trans.
  - wps. eapply flash_table_spec; [done|done|auto|]. intros h2 Hfr2 HF2. wps.
    apply Hok; eauto using frame_trans.
Qed.

(** ** Volume management *)

(** From [u] in [h] to [u'] in [h'], both satisfying the device assertion. *)
Record stepped (u : ubi_dev) (h : hw) (u' : ubi_dev) (h' : hw) : Prop := {
  st_frame : frame (u_off u) h h';
  st_geom : same_geom u u';
  st_DS : DS u' h';
}.
Lemma stepped_refl u h : DS u h -> stepped u h u h.
Proof. split; auto with ubitab. Qed.
Lemma stepped_trans u1 h1 u2 h2 u3 h3 :
  stepped u1 h1 u2 h2 -> stepped u2 h2 u3 h3 -> stepped u1 h1 u3 h3.
Proof.
  intros [F1 G1 D1] [F2 G2 D2]. split; [|eauto using same_geom_trans|done].
  destruct G1 as (_ & Ho & _). rewrite Ho in F2. eauto using frame_trans.
Qed.

(** A failed table write: the device is read-only, the live table unchanged. *)
Lemma FSt_ro_DS u t h : FSt (dev_ro u) t h -> uniq (u_vols u) -> DS (dev_ro u) h.
Proof. intros. exists t. split; [done|]. split; [done|]. by left. Qed.
Lemma stepped_ro u h t h' :
  frame (u_off u) h h' -> FSt (dev_ro u) t h' -> uniq (u_vols u) -> stepped u h (dev_ro u) h'.
Proof. split; eauto using FSt_ro_DS with ubitab. Qed.
(** A table write that succeeded and was then adopted by the live device. *)
Lemma FSt_sync_DS u tn h : FSt u (stored tn) h -> u_vols u = tn -> uniq tn -> DS u h.
Proof. intros HF <- Hu. exists (stored (u_vols u)). auto. Qed.

Lemma dev_removed_geom t v u :
  same_geom u (dev_removed t v u) /\ u_vols (dev_removed t v u) = t /\
  u_ro (dev_removed t v u) = u_ro u.
Proof. unfold dev_removed. destruct (0 <? _); by repeat split. Qed.

Lemma remove_spec n u h (R : Z -> hw -> Prop) :
  DS u h ->
  (u_ro u = false -> Q (nm (delete n (vmap (u_vols u))))) ->
  (forall v u' h', stepped u h u' h' -> u_ro u = false -> u_ro u' = false ->
     vmap (u_vols u) !! n = Some v -> vmap (u_vols u') = delete n (vmap (u_vols u)) -> R 0 h') ->
  (forall r u' h', r <> 0 -> stepped u h u' h' -> u_vols u' = u_vols u ->
     u_ro u' = true \/ vmap (u_vols u) !! n = None -> R r h') ->
  wp (ubi_remove_vol u n) R h.
Proof.
  intros HD HQ Hok Herr. pose proof HD as (t & HF & Hun & Hs). unfold ubi_remove_vol.
  destruct (ubi_find_volume (u_vols u) n) as [[i v]|] eqn:Hf.
  2:{ wps. eapply Herr; [done|by apply stepped_refl|done|]. right. by apply find_None_vmap. }
  destruct (u_ro u) eqn:Hro.
  { wps. eapply Herr; [done|by apply stepped_refl|done|]. by left. }
  destruct (vmap_remove _ _ _ _ Hun Hf) as [Hun' Hm]. wps.
  eapply layout_spec; [done|rewrite Hm; auto| |].
  2:{ intros r h' t' Hr Hfr HF'. rewrite (nz_neg r Hr). wps.
      eapply Herr; [lia|by eapply stepped_ro|done|by left]. }
  intros h1 Hfr1 _ HF1. simpl. wps. apply next_out_spec.
  assert (forall k, FSt u (stored (<[i:=None]> (u_vols u))) (set_tick k h1)) as HF2
    by (intros; by apply FSt_tick).
  destruct (nz (o_err _)) eqn:He.
  - apply nz_true in He. wps. eapply upd_dev_spec; [done|done|]. intros h2 Hfr2 HF3. wps.
    eapply (Herr _ (dev_ro u)); [lia| |done|by left].
    eapply stepped_ro; [|done|done]. eauto using frame_trans, frame_tick.
  - wps. destruct (dev_removed_geom (<[i:=None]> (u_vols u)) v u) as (Hg & Hv & Hr).
    eapply upd_dev_spec; [done|apply Hg|]. intros h2 Hfr2 HF3. wps.
    eapply (Hok v (dev_removed _ v u)); [split|done| |by eapply find_Some_vmap|];
      [eauto using frame_trans, frame_tick|done|by eapply FSt_sync_DS|by rewrite Hr|by rewrite Hv].
Qed.

(** A freshly created volume. *)
Definition fresh_vol (u : ubi_dev) (n : string) (bytes : Z) (static : bool) : volume :=
  let pebs := (bytes + u_leb_size u - 1) / u_leb_size u in
  MkVol n static pebs (if static then 0 else pebs * u_leb_size u) false false (fun _ => 0xff).

Lemma create_spec n bytes static id u h (R : Z -> hw -> Prop) :
  DS u h ->
  (u_ro u = false -> Q (nm (<[n := fresh_vol u n bytes static]> (vmap (u_vols u))))) ->
  (id = UBI_VOL_NUM_AUTO \/ (Z.to_nat id < length (u_vols u))%nat) ->
  (forall u' h', stepped u h u' h' -> u_ro u = false -> u_ro u' = false -> vmap (u_vols u) !! n = None ->
     vmap (u_vols u') = <[n := fresh_vol u n bytes static]> (vmap (u_vols u)) ->
     u_avail u' = u_avail u - v_pebs (fresh_vol u n bytes static) ->
     length (u_vols u') = length (u_vols u) -> R 0 h') ->
  (forall r u' h', r <> 0 -> stepped u h u' h' -> u_vols u' = u_vols u -> R r h') ->
  wp (ubi_create_volume u n bytes static id) R h.
Proof.
  intros HD HQ Hid Hok Herr. pose proof HD as (t & HF & Hun & Hs). unfold ubi_create_volume.
  destruct (u_ro u) eqn:Hro; [wps; by eapply Herr; [|by apply stepped_refl|]|].
  assert (forall k h0, FSt u t h0 -> frame (u_off u) h h0 -> stepped u h u (set_tick k h0)) as Hst.
  { intros k h0 HF0 Hfr0. split; [eauto using frame_trans, frame_tick|apply same_geom_refl|].
    exists t. split; [by apply FSt_tick|]. split; [done|]. by rewrite Hro. }
  unfold malloc. wps. apply next_out_spec. wps. destruct (negb _); [wps; eapply Herr; [done|apply Hst; auto using frame_refl|done]|].
  set (h1 := set_tick _ h). assert (FSt u t h1) as HF1 by by apply FSt_tick.
  assert (frame (u_off u) h h1) as Hfr1 by apply frame_tick. clearbody h1.
  assert (stepped u h u h1) as Hst1. { destruct h1. eapply (Hst _ _ HF1 Hfr1). }
  destruct (if id =? _ then _ else _) as [i|] eqn:Hslot; [|wps; by eapply Herr].
  case_bool_decide as Hvac; [wps; by eapply Herr|].
  destruct (existsb _ _) eqn:Hex; [wps; by eapply Herr|].
  destruct (u_avail u <? _) eqn:Hav; [wps; by eapply Herr|].
  assert (u_vols u !! i = Some None) as Hi.
  { destruct (id =? UBI_VOL_NUM_AUTO) eqn:Hauto; [by apply vacant_slot_spec|].
    simplify_eq. destruct Hid as [->|Hid]; [done|].
    destruct (lookup_lt_is_Some_2 _ _ Hid) as [[w|] Hw]; [|done].
    exfalso. apply Hvac. rewrite Hw. simpl. eauto. }
  wps. apply next_out_spec. destruct (nz (o_err _)) eqn:Hfl; [wps; eapply Herr; [by apply nz_true|by apply Hst|done]|].
  wps. apply next_out_spec. wps. destruct (negb _); [wps; eapply Herr; [done|apply Hst; eauto using FSt_tick, frame_trans, frame_tick|done]|].
  apply existsb_vmap_None in Hex.
  destruct (vmap_create (u_vols u) i (fresh_vol u n bytes static) Hun Hi Hex) as [Hun' Hm].
  set (h3 := set_tick _ _). assert (FSt u t h3) as HF3 by by apply FSt_tick, FSt_tick.
  assert (frame (u_off u) h h3) as Hfr3 by eauto using frame_trans, frame_tick. clearbody h3.
  wps. eapply (layout_spec u t (<[i := Some (fresh_vol u n bytes static)]> (u_vols u)));
    [done|rewrite Hm; auto| |].
  2:{ intros r h' t' Hr Hfr HF'. rewrite (nz_neg r Hr). wps.
      eapply Herr; [lia|eapply stepped_ro; eauto using frame_trans|done]. }
  intros h4 Hfr4 _ HF4. simpl. wps. eapply upd_dev_spec; [done|done|]. intros h5 Hfr5 HF5. wps.
  match type of HF5 with FSt ?d _ _ =>
    apply (Hok d); [split|done|done|done|exact Hm|done|apply length_insert];
      [eauto using frame_trans|by repeat split|by eapply FSt_sync_DS]
  end.
Qed.

(** ** Renames *)

Lemma rename_spec l tm u h (R : Z -> hw -> Prop) :
  DS u h -> rename_slots l (u_vols u) = tm ->
  (u_ro u = false -> uniq tm /\ Q (nm (vmap tm))) ->
  (forall u' h', stepped u h u' h' -> u_ro u = false -> u_ro u' = false -> u_vols u' = tm -> R 0 h') ->
  (forall r u' h', r < 0 -> stepped u h u' h' -> u_vols u' = u_vols u -> u_ro u' = true -> R r h') ->
  wp (ubi_rename_volumes u l) R h.
Proof.
  intros HD <- HQ Hok Herr. pose proof HD as (t & HF & Hun & Hs). unfold ubi_rename_volumes. wps.
  eapply layout_spec; [done|done| |].
  - intros h1 Hfr1 Hro HF1. simpl. wps. eapply upd_dev_spec; [done|done|]. intros h2 Hfr2 HF2. wps.
    eapply (Hok (dev_vols _ u)); [split|done|done|done];
      [eauto using frame_trans|by repeat split|by eapply FSt_sync_DS; [..|apply HQ]].
  - intros r h' t' Hr Hfr HF'. rewrite (nz_neg r Hr). wps.
    eapply (Herr _ (dev_ro u)); [done|by eapply stepped_ro|done|done].
Qed.

Lemma vmap_rename t n i v new :
  uniq t -> ubi_find_volume t n = Some (i, v) -> vmap t !! new = None ->
  uniq (rename_slots [(i, new)] t) /\
  vmap (rename_slots [(i, new)] t) = <[new := set_name new v]> (delete n (vmap t)).
Proof. intros Hu Hf Hn. apply (vmap_alter t n i v (set_name new)); auto. Qed.

Lemma rename_vol_spec old new u h (R : Z -> hw -> Prop) :
  DS u h ->
  (forall v, u_ro u = false -> vmap (u_vols u) !! old = Some v ->
     Q (nm (<[new := set_name new v]> (delete old (vmap (u_vols u)))))) ->
  (forall v u' h', stepped u h u' h' -> u_ro u' = false ->
     vmap (u_vols u) !! old = Some v -> vmap (u_vols u) !! new = None ->
     vmap (u_vols u') = <[new := set_name new v]> (delete old (vmap (u_vols u))) -> R 0 h') ->
  (forall r u' h', r <> 0 -> stepped u h u' h' -> u_vols u' = u_vols u -> R r h') ->
  wp (ubi_rename_vol u old new) R h.
Proof.
  intros HD HQ Hok Herr. pose proof HD as (t & HF & Hun & Hs). unfold ubi_rename_vol.
  destruct (ubi_find_volume (u_vols u) old) as [[i v]|] eqn:Hf;
    [|wps; by eapply Herr; [|by apply stepped_refl|]].
  destruct (ubi_check (u_vols u) new =? 0) eqn:Hc;
    [wps; by eapply Herr; [|by apply stepped_refl|]|].
  destruct (u_ro u) eqn:Hro; [wps; by eapply Herr; [|by apply stepped_refl|]|].
  assert (vmap (u_vols u) !! new = None) as Hnew.
  { apply eq_None_not_Some. intros Hs'. apply Z.eqb_neq in Hc. apply Hc. apply ubi_check_0. auto. }
  destruct (vmap_rename _ _ _ _ _ Hun Hf Hnew) as [Hun' Hm].
  pose proof (find_Some_vmap _ _ _ _ Hf) as Hv.
  eapply rename_spec; [done|done|rewrite Hm; auto| |].
  - intros u' h' Hst _ Hro' Hvols. eapply Hok; eauto. by rewrite Hvols.
  - intros r u' h' Hr Hst Hvols _. eapply Herr; [lia|done|done].
Qed.

(** Two renames in one write: [cur] becomes [bak], [cand] becomes [cur]. *)
Definition switched (m : gmap string volume) (cur cand bak : string) (a b : volume) : gmap string volume :=
  <[cur := set_name cur b]> (delete cand (<[bak := set_name bak a]> (delete cur m))).

Lemma vmap_switch t i j cur cand bak a b :
  uniq t -> cur <> cand -> bak <> cur -> bak <> cand ->
  ubi_find_volume t cur = Some (i, a) -> ubi_find_volume t cand = Some (j, b) -> vmap t !! bak = None ->
  uniq (rename_slots [(i, bak); (j, cur)] t) /\
  vmap (rename_slots [(i, bak); (j, cur)] t) = switched (vmap t) cur cand bak a b.
Proof.
  intros Hu Hcc Hbc Hbd Hi Hj Hb.
  destruct (vmap_rename t cur i a bak Hu Hi Hb) as [Hu1 Hm1].
  change (rename_slots [(i, bak); (j, cur)] t) with (rename_slots [(j, cur)] (rename_slots [(i, bak)] t)).
  assert (ubi_find_volume (rename_slots [(i, bak)] t) cand = Some (j, b)) as Hj1.
  { destruct (find_slot _ _ _ _ Hi) as [Hsi Hni]. destruct (find_slot _ _ _ _ Hj) as [Hsj <-].
    apply slot_find; [done|]. simpl. rewrite list_lookup_alter_ne; [done|]. intros ->. congruence. }
  destruct (vmap_rename _ cand j b cur Hu1 Hj1) as [Hu2 Hm2].
  - rewrite Hm1, lookup_insert_ne, lookup_delete_eq by done. done.
  - split; [done|]. by rewrite Hm2, Hm1.
Qed.

(** ** Volume update *)

(** Slot [i], named [n], holds [w]; the rest of the live table is [m]. *)
Record slot_at (n : string) (i : nat) (m : gmap string volume) (w : volume) (u : ubi_dev) : Prop := {
  sa_find : ubi_find_volume (u_vols u) n = Some (i, w);
  sa_map : vmap (u_vols u) = <[n := w]> m;
  sa_uniq : uniq (u_vols u);
}.
(** [f] changes contents only. *)
Definition keeps (f : volume -> volume) : Prop :=
  forall w, v_name (f w) = v_name w /\ v_static (f w) = v_static w /\ v_pebs (f w) = v_pebs w.

Lemma slot_at_alter n i m w u f t :
  slot_at n i m w u -> keeps f -> t = alter (fmap f) i (u_vols u) ->
  uniq t /\ slot_at n i m (f w) (dev_vols t u).
Proof.
  intros [Hf Hm Hu] Hk ->. destruct (find_slot _ _ _ _ Hf) as [Hi Hn].
  destruct (Hk w) as (Hfn & _ & _). rewrite Hn in Hfn.
  destruct (vmap_update (u_vols u) n i w f Hu Hf Hfn) as [Hu' Hm'].
  split; [done|]. split; [|by simpl; rewrite Hm', Hm, insert_insert_eq|done]. simpl.
  rewrite <- Hfn at 1. apply slot_find; [done|]. by rewrite list_lookup_alter_eq, Hi.
Qed.

Lemma upd_slot_spec n i m w u t f h (R : unit -> hw -> Prop) :
  FSt u t h -> slot_at n i m w u -> keeps f ->
  (forall u' h', frame (u_off u) h h' -> same_geom u u' -> u_ro u' = u_ro u -> FSt u' t h' ->
     u_vols u' = alter (fmap f) i (u_vols u) -> slot_at n i m (f w) u' -> R tt h') ->
  wp (upd_slot i f) R h.
Proof.
  intros HF Hs Hk HR. unfold upd_slot. eapply upd_dev_spec; [done|done|]. intros h' Hfr HF'.
  eapply HR; [done| | |exact HF'|done|]; [by repeat split|done|].
  by eapply (slot_at_alter _ _ _ _ _ _ _ Hs Hk eq_refl).
Qed.

Lemma change_record_spec n i m w u t f h (R : Z -> hw -> Prop) :
  FSt u t h -> slot_at n i m w u -> keeps f ->
  (u_ro u = false -> Q (nm (<[n := f w]> m))) ->
  (forall r u' h', frame (u_off u) h h' -> same_geom u u' -> DS u' h' ->
     (r = 0 /\ u_ro u' = false \/ r < 0 /\ u_ro u' = true) -> slot_at n i m (f w) u' -> R r h') ->
  wp (change_record i f) R h.
Proof.
  intros HF Hs Hk HQ HR. unfold change_record. wps. rewrite (fs_ubi _ _ _ HF). wps.
  destruct (slot_at_alter _ _ _ _ _ f _ Hs Hk eq_refl) as [Hun' Hs'].
  pose proof (sa_map _ _ _ _ _ Hs') as Hm'; simpl in Hm'.
  eapply layout_spec; [done|intros; rewrite Hm'; auto| |].
  - intros h1 Hfr1 Hro HF1. wps. eapply upd_slot_spec; [done|done|done|].
    intros u' h2 Hfr2 Hg Hro' HF2 Hv Hs2. wps. eapply HR; [eauto using frame_trans|done| |left|done].
    + eapply FSt_sync_DS; [done|done|done].
    + split; congruence.
  - intros r h1 t' Hr Hfr1 HF1. wps.
    assert (slot_at n i m w (dev_ro u)) as Hs1 by by destruct Hs.
    eapply upd_slot_spec; [done|done|done|].
    intros u' h2 Hfr2 Hg Hro' HF2 Hv Hs2. wps.
    eapply HR; [eauto using frame_trans|eauto using same_geom_trans, dev_ro_geom| |right|done].
    + exists t'. split; [done|]. split; [by destruct Hs2|]. left. by rewrite Hro'.
    + split; [done|]. by rewrite Hro'.
Qed.

(** In-place data changes of a synchronised device. *)
Lemma data_changed_spec n i m w u f h (R : unit -> hw -> Prop) :
  DS u h -> u_ro u = false -> slot_at n i m w u -> keeps f -> Q (nm (<[n := f w]> m)) ->
  (forall u' h', stepped u h u' h' -> u_ro u' = false -> slot_at n i m (f w) u' -> R tt h') ->
  wp (ubi_data_changed i f) R h.
Proof.
  intros (t & HF & Hun & Hsy) Hro Hs Hk HQ HR. unfold ubi_data_changed. wps.
  rewrite (fs_ubi _ _ _ HF). wps.
  destruct (slot_at_alter _ _ _ _ _ f _ Hs Hk eq_refl) as [Hun' Hs'].
  pose proof (sa_map _ _ _ _ _ Hs') as Hm'; simpl in Hm'.
  eapply upd_dev_spec; [done|done|]. intros h1 Hfr1 HF1.
  eapply (flash_table_spec (dev_vols _ u)); [exact HF1|exact Hun'|by rewrite Hm'|].
  intros h2 Hfr2 HF2. eapply (HR (dev_vols _ u)); [split|exact Hro|exact Hs'].
  - eauto using frame_trans.
  - by repeat split.
  - by eapply FSt_sync_DS.
Qed.

Lemma stepped_tick u h u' h' k : stepped u h u' h' -> stepped u h u' (set_tick k h').
Proof.
  intros [F G (t & HF & Hun & Hsy)]. split; [eauto using frame_trans, frame_tick|done|].
  exists t. split; [by apply FSt_tick|done].
Qed.
Lemma DS_tick u h k : DS u h -> DS u (set_tick k h).
Proof. intros HD. apply (stepped_tick u h u h), stepped_refl, HD. Qed.

Lemma stepped_dev_ro u h u' h' (R : unit -> hw -> Prop) :
  stepped u h u' h' ->
  (forall h'', stepped u h (dev_ro u') h'' -> R tt h'') -> wp (upd_dev dev_ro) R h'.
Proof.
  intros Hst HR. pose proof Hst as [F G (t & HF & Hun & Hsy)].
  eapply upd_dev_spec; [done|done|]. intros h2 Hfr2 HF2. apply HR. eapply stepped_trans; [done|].
  by eapply stepped_ro.
Qed.

Lemma slot_at_ro n i m w u : slot_at n i m w u -> slot_at n i m w (dev_ro u).
Proof. by intros []. Qed.

(** Assertion after any part of an update of volume [n] that held [v]. *)
Record updating_at (n : string) (i : nat) (m : gmap string volume) (v : volume)
    (u : ubi_dev) (h : hw) (u' : ubi_dev) (h' : hw) (w : volume) : Prop := {
  ua_stepped : stepped u h u' h';
  ua_slot : slot_at n i m w u';
  ua_static : v_static w = v_static v;
  ua_pebs : v_pebs w = v_pebs v;
}.
(** Whatever the volume [n] holds, the table is acceptable. *)
Definition any_ok (n : string) (m : gmap string volume) : Prop :=
  forall w, v_name w = n -> Q (nm (<[n := w]> m)).

Lemma updating_tick n i m v u h u' h' w k :
  updating_at n i m v u h u' h' w -> updating_at n i m v u h u' (set_tick k h') w.
Proof. intros []. split; auto using stepped_tick. Qed.
Lemma updating_ro n i m v u h u' h' w (R : unit -> hw -> Prop) :
  updating_at n i m v u h u' h' w ->
  (forall h'', updating_at n i m v u h (dev_ro u') h'' w -> R tt h'') -> wp (upd_dev dev_ro) R h'.
Proof.
  intros [Hst Hs Hst' Hp] HR. eapply stepped_dev_ro; [done|]. intros h2 Hst2. apply HR.
  split; auto using slot_at_ro.
Qed.

Lemma slot_at_name n i m w u : slot_at n i m w u -> v_name w = n.
Proof. intros [Hf _ _]. by apply find_slot in Hf as [_ ?]. Qed.

(** Live-only change of the updating flag. *)
Lemma set_updating_spec n i m v u h u' h' w b (R : unit -> hw -> Prop) :
  updating_at n i m v u h u' h' w ->
  (forall u2 h2, updating_at n i m v u h u2 h2 (set_updating b w) -> u_ro u2 = u_ro u' -> R tt h2) ->
  wp (upd_slot i (set_updating b)) R h'.
Proof.
  intros [Hst Hs Hst' Hp] HR. pose proof (st_DS _ _ _ _ Hst) as (t & HF & Hun & Hsy).
  eapply upd_slot_spec; [done|done|by intros [] |].
  intros u2 h2 Hfr Hg Hro HF2 Hv Hs2. eapply (HR u2); [split|done]; try done.
  eapply stepped_trans; [done|]. split; [done|done|].
  exists t. split; [done|]. split; [by destruct Hs2|]. rewrite Hro, Hv.
  destruct Hsy as [?|<-]; [by left|right].
  unfold stored. apply list_eq. intros j. rewrite !list_lookup_fmap.
  destruct (decide (i = j)) as [<-|?].
  - rewrite list_lookup_alter_eq. by destruct (u_vols u' !! i) as [[[]|]|].
  - by rewrite list_lookup_alter_ne.
Qed.

Lemma updating_record n i m v u h u' h' w f (R : Z -> hw -> Prop) :
  updating_at n i m v u h u' h' w -> any_ok n m -> keeps f ->
  (forall r u2 h2, updating_at n i m v u h u2 h2 (f w) ->
     (r = 0 /\ u_ro u2 = false \/ r < 0 /\ u_ro u2 = true) -> R r h2) ->
  wp (change_record i f) R h'.
Proof.
  intros [Hst Hs Hst' Hp] Hany Hk HR. pose proof (st_DS _ _ _ _ Hst) as (t & HF & _).
  destruct (Hk w) as (Hn & Hstat & Hpeb). pose proof (slot_at_name _ _ _ _ _ Hs) as Hnm.
  eapply change_record_spec; [done|done|done|intros _; apply Hany; congruence|].
  intros r u2 h2 Hfr Hg HD Hr Hs2. apply (HR r u2); [split|done]; try congruence.
  eapply stepped_trans; [done|]. by split.
Qed.

Lemma updating_data n i m v u h u' h' w f (R : unit -> hw -> Prop) :
  updating_at n i m v u h u' h' w -> u_ro u' = false -> any_ok n m -> keeps f ->
  (forall u2 h2, updating_at n i m v u h u2 h2 (f w) -> u_ro u2 = false -> R tt h2) ->
  wp (ubi_data_changed i f) R h'.
Proof.
  intros [Hst Hs Hst' Hp] Hro Hany Hk HR. pose proof (st_DS _ _ _ _ Hst) as HD.
  destruct (Hk w) as (Hn & Hstat & Hpeb). pose proof (slot_at_name _ _ _ _ _ Hs) as Hnm.
  eapply data_changed_spec; [done|done|done|done|apply Hany; congruence|].
  intros u2 h2 Hst2 Hro2 Hs2. apply (HR u2); [split|done]; try congruence.
  eauto using stepped_trans.
Qed.

(** After a failed part of an update: volume [n] holds something else. *)
Definition upd_failed n i m v u h (R : Z -> hw -> Prop) : Prop :=
  forall r u' h' w, r < 0 -> updating_at n i m v u h u' h' w -> R r h'.

Lemma keeps_updating b : keeps (set_updating b). Proof. by intros []. Qed.
Lemma keeps_marker b : keeps (set_marker b). Proof. by intros []. Qed.
Lemma keeps_data d : keeps (set_data d). Proof. by intros []. Qed.
Lemma keeps_used k : keeps (fun v => if v_static v then set_used k v else v).
Proof. by intros [? [] ? ? ? ? ?]. Qed.
End spec.
#[export] Hint Resolve keeps_updating keeps_marker keeps_data keeps_used : ubitab.
