(* ===== verification/UbiIo.v ===== *)
(** Specifications of volume writes and reads and of the shell commands built on
    them.  A write that reports success leaves the volume unmarked with the new
    length; whatever happens, only that volume changes.  A read that reports
    success delivers the volume's bytes and touches nothing else. *)
From S2P Require Import Prelude Bytes Flash Ubi UbiTable Shell UbiSpec.

Section io.
Context {P : Platform}.
Variable Q : gmap string volume -> Prop.

Implicit Types (h : hw) (u : ubi_dev).

Lemma malloc_spec h (R : bool -> hw -> Prop) :
  (forall b k, R b (set_tick k h)) -> wp malloc R h.
Proof. intros HR. unfold malloc. wps. apply next_out_spec. wps. apply HR. Qed.
Lemma out_spec h (R : outcome -> hw -> Prop) :
  (forall o k, o_err o <= 0 -> R o (set_tick k h)) -> wp next_out R h.
Proof. intros HR. apply next_out_spec. apply HR. apply pf_err. Qed.

Lemma nz_err_neg o : o_err o <= 0 -> nz (o_err o) = true -> o_err o < 0.
Proof. intros ? ?%nz_true. lia. Qed.

(** * Start of an update *)

Section update.
Context (n : string) (i : nat) (m : gmap string volume) (v : volume) (u : ubi_dev) (h : hw).
Hypothesis Hany : any_ok Q n m.
Abbreviation at_ := (updating_at Q n i m v u h).

Lemma unmap_spec u0 h0 w (R : Z -> hw -> Prop) :
  at_ u0 h0 w ->
  (forall u' h' w', at_ u' h' w' -> u_ro u' = false -> v_upd_marker w' = v_upd_marker w ->
     v_updating w' = v_updating w -> R 0 h') ->
  upd_failed Q n i m v u h R ->
  wp (ubi_unmap_lebs i) R h0.
Proof.
  intros H0 Hok Herr. unfold ubi_unmap_lebs. wps.
  pose proof (st_DS _ _ _ _ _ (ua_stepped _ _ _ _ _ _ _ _ _ _ H0)) as (t & HF & _).
  rewrite (fs_ubi _ _ _ _ HF). destruct (u_ro u0) eqn:Hro; [wps; by eapply Herr|].
  wps. apply out_spec. intros o k' Ho. wps.
  eapply updating_data; [apply updating_tick; done|done|done|auto with ubitab|].
  intros u4 h4 H4 Hro4. destruct (nz (o_err o)) eqn:He.
  - pose proof (nz_err_neg o Ho He). wps. eapply updating_ro; [done|]. intros h5 H5. wps.
    by eapply Herr.
  - wps. by eapply Hok.
Qed.

Lemma start_update_spec u0 h0 w bytes (R : Z -> hw -> Prop) :
  at_ u0 h0 w -> bytes <> 0 -> v_upd_marker w = v_upd_marker v ->
  (forall u' h' w', at_ u' h' w' -> u_ro u' = false -> v_upd_marker w' = true ->
     v_updating w' = true -> R 0 h') ->
  upd_failed Q n i m v u h R ->
  wp (ubi_start_update i v bytes) R h0.
Proof.
  intros H0 Hb Hmk Hok Herr. unfold ubi_start_update. wps.
  eapply set_updating_spec; [done|]. intros u1 h1 H1 _. wps.
  apply malloc_spec. intros b k.
  assert (at_ u1 (set_tick k h1) (set_updating true w)) as H2 by by apply updating_tick.
  destruct b; simpl; [|wps; by eapply Herr]. wps.
  eapply (wp_mono _ (fun r h' => exists u' w', at_ u' h' w' /\ (r = 0 /\ v_upd_marker w' = true /\
                                   v_updating w' = true \/ r < 0))).
  { unfold set_update_marker. destruct (v_upd_marker v) eqn:Hv.
    - wps. eauto 10.
    - eapply updating_record; [done|done|auto with ubitab|].
      intros r u3 h3 H3 [[-> Hro]|[Hr Hro]]; eauto 10. }
  intros r h3 (u3 & w3 & H3 & [(-> & Hm3 & Hu3)|Hr]).
  2:{ rewrite (nz_neg r Hr). wps. by eapply Herr. }
  simpl. wps. eapply unmap_spec; [done| |].
  - intros u4 h4 w4 H4 Hro4 Hm4 Hu4. simpl. rewrite (proj2 (Z.eqb_neq _ _) Hb). wps.
    eapply Hok; [done|done|congruence|congruence].
  - intros r u4 h4 w4 Hr H4. rewrite (nz_neg r Hr). wps. by eapply Herr.
Qed.

(** * The data *)

Lemma write_leb_spec u0 h0 w off chunk (R : Z -> hw -> Prop) :
  at_ u0 h0 w -> u_ro u0 = false ->
  (forall u' h' w', at_ u' h' w' -> u_ro u' = false -> v_upd_marker w' = v_upd_marker w ->
     v_updating w' = v_updating w -> R 0 h') ->
  upd_failed Q n i m v u h R ->
  wp (write_leb i off chunk) R h0.
Proof.
  intros H0 Hro Hok Herr. unfold write_leb. wps. apply out_spec. intros o k Ho.
  destruct (nz (o_err o)) eqn:He.
  - pose proof (nz_err_neg o Ho He). wps.
    eapply updating_data; [apply updating_tick; done|done|done| |].
    { intros w'. by destruct (o_cells o). }
    intros u1 h1 H1 Hro1. wps. destruct (o_late o); wps.
    + eapply updating_ro; [done|]. intros h2 H2. wps. by eapply Herr.
    + by eapply Herr.
  - wps. eapply updating_data; [apply updating_tick; done|done|done|by intros []|].
    intros u1 h1 H1 Hro1. wps. eapply Hok; eauto.
Qed.

Lemma more_update_loop_spec fuel u0 h0 w leb off buf (R : Z -> hw -> Prop) :
  at_ u0 h0 w -> u_ro u0 = false ->
  (forall u' h' w', at_ u' h' w' -> u_ro u' = false -> v_upd_marker w' = v_upd_marker w ->
     v_updating w' = v_updating w -> R 0 h') ->
  upd_failed Q n i m v u h R ->
  wp (more_update_loop fuel leb i off buf) R h0.
Proof.
  revert u0 h0 w off buf. induction fuel as [|fuel IH]; intros u0 h0 w off buf H0 Hro Hok Herr.
  { destruct buf; simpl; wps; [by eapply Hok|by eapply Herr]. }
  destruct buf as [|b buf]; simpl; wps; [by eapply Hok|].
  eapply write_leb_spec; [done|done| |].
  - intros u1 h1 w1 H1 Hro1 Hm1 Hu1. simpl. eapply IH; [done|done| |done].
    intros u2 h2 w2 H2 Hro2 Hm2 Hu2. eapply Hok; eauto; congruence.
  - intros r u1 h1 w1 Hr H1. rewrite (nz_neg r Hr). wps. by eapply Herr.
Qed.

Lemma clear_marker_spec u0 h0 w bytes (R : Z -> hw -> Prop) :
  at_ u0 h0 w -> u_ro u0 = false ->
  (forall u' h' w', at_ u' h' w' -> u_ro u' = false -> v_upd_marker w' = false ->
     v_updating w' = v_updating w -> v_data w' = v_data w ->
     v_used w' = (if v_static v then bytes else v_used w) -> R 0 h') ->
  upd_failed Q n i m v u h R ->
  wp (clear_update_marker i bytes) R h0.
Proof.
  intros H0 Hro Hok Herr. unfold clear_update_marker. wps.
  pose proof H0 as [Hst Hs Hstat Hp]. pose proof (st_DS _ _ _ _ _ Hst) as (t & HF & _).
  eapply upd_slot_spec; [done|done|auto with ubitab|].
  intros u1 h1 Hfr Hg Hro1 HF1 Hv1 Hs1. pose proof (slot_at_name _ _ _ _ _ Hs1) as Hn1.
  eapply change_record_spec; [done|done|auto with ubitab|intros _; by apply Hany|].
  intros r u2 h2 Hfr2 Hg2 HD2 Hr Hs2.
  assert (at_ u2 h2 (set_marker false (if v_static w then set_used bytes w else w))) as H2.
  { split; [|done|destruct (v_static w) eqn:?; simpl; congruence|
            destruct (v_static w) eqn:?; simpl; congruence]. eapply stepped_trans; [done|].
    split; [|by eapply same_geom_trans|done]. destruct Hg as (_ & Ho & _). rewrite Ho in Hfr2.
    eauto using frame_trans. }
  destruct Hr as [[-> Hr]|[Hr _]]; [|by eapply Herr].
  eapply Hok; [done|done| | | |]; rewrite <- ?Hstat; by destruct (v_static w).
Qed.

Lemma more_update_data_spec u0 h0 w buf (R : Z -> hw -> Prop) :
  at_ u0 h0 w ->
  (forall u' h' w', at_ u' h' w' -> u_ro u' = false -> v_upd_marker w' = false ->
     v_updating w' = false ->
     v_used w' = (if v_static v then blen buf else v_used w') -> R (blen buf) h') ->
  upd_failed Q n i m v u h R ->
  wp (ubi_more_update_data u0 i buf) R h0.
Proof.
  intros H0 Hok Herr. unfold ubi_more_update_data.
  destruct (u_ro u0) eqn:Hro; [wps; by eapply Herr|]. wps.
  eapply more_update_loop_spec; [done|done| |].
  2:{ intros r u1 h1 w1 Hr H1. rewrite (nz_neg r Hr). wps. by eapply Herr. }
  intros u1 h1 w1 H1 Hro1 _ _. simpl. wps. apply out_spec. intros o k Ho.
  destruct (nz (o_err o)) eqn:He.
  { wps. eapply Herr; [by apply nz_err_neg|by apply updating_tick]. }
  wps. eapply clear_marker_spec; [by apply updating_tick|done| |].
  2:{ intros r u2 h2 w2 Hr H2. rewrite (nz_neg r Hr). wps. by eapply Herr. }
  intros u2 h2 w2 H2 Hro2 Hm2 Hu2 Hd2 Hus2. simpl. wps.
  eapply set_updating_spec; [done|]. intros u3 h3 H3 Hro3. wps.
  eapply Hok; [done|congruence|done|done|]. simpl. rewrite Hus2. by destruct (v_static v).
Qed.
End update.

(** * ubi_volume_write *)

(** A finished update of volume [v]. *)
Record written (v w : volume) (len : Z) : Prop := {
wr_marker : v_upd_marker w = false;
wr_updating : v_updating w = false;
wr_static : v_static w = v_static v;
wr_pebs : v_pebs w = v_pebs v;
wr_used : v_static v = true -> v_used w = len;
}.

Lemma volume_write_spec n buf u h (R : Z -> hw -> Prop) :
DS Q u h -> any_ok Q n (vmap (u_vols u)) -> blen buf <> 0 ->
(forall v w u' h', stepped Q u h u' h' -> u_ro u' = false -> vmap (u_vols u) !! n = Some v ->
     vmap (u_vols u') = <[n := w]> (vmap (u_vols u)) -> written v w (blen buf) -> R 0 h') ->
  (forall r u' h', r <> 0 -> stepped Q u h u' h' ->
     u' = u \/ (exists w, v_name w = n /\ is_Some (vmap (u_vols u) !! n) /\
                    vmap (u_vols u') = <[n := w]> (vmap (u_vols u))) -> R r h') ->
  wp (ubi_volume_write n buf) R h.
Proof.
  intros HD Hany Hne Hok Herr. pose proof HD as (t & HF & Hun & Hsy).
  unfold ubi_volume_write, ubi_volume_begin_write. wps. rewrite (fs_ubi _ _ _ _ HF).
  destruct (ubi_find_volume (u_vols u) n) as [[i v]|] eqn:Hf;
    [|wps; eapply Herr; [done|by apply stepped_refl|by left]].
  destruct (_ <? blen buf) eqn:Hsz; [wps; eapply Herr; [done|by apply stepped_refl|by left]|].
  pose proof (find_Some_vmap _ _ _ _ Hf) as Hv.
  assert (updating_at Q n i (vmap (u_vols u)) v u h u h v) as H0.
  { split; [by apply stepped_refl|split; [done|by rewrite insert_id|done]|done|done]. }
  assert (upd_failed Q n i (vmap (u_vols u)) v u h (fun err h' => wp (if err <? 0 then sret (- err)
            else if blen buf =? 0 then sret 0 else ubi_volume_continue_write n buf) R h')) as Hfail.
  { intros r u' h' w Hr H1. destruct (Z.ltb_spec r 0); [|lia]. wps.
    pose proof (slot_at_name _ _ _ _ _ (ua_slot _ _ _ _ _ _ _ _ _ _ H1)).
    eapply Herr; [lia|by destruct H1|]. right. exists w.
    split; [done|]. split; [by eexists|]. by destruct H1 as [_ [] _ _]. }
  wps. eapply start_update_spec; [done|done|done|done| |done].
  intros u1 h1 w1 H1 Hro1 Hm1 Hu1. simpl. rewrite (proj2 (Z.eqb_neq _ _) Hne).
  unfold ubi_volume_continue_write. wps.
  pose proof (st_DS _ _ _ _ _ (ua_stepped _ _ _ _ _ _ _ _ _ _ H1)) as (t1 & HF1 & _).
  rewrite (fs_ubi _ _ _ _ HF1). destruct H1 as [Hst1 [Hf1 Hm1' Hun1] Hs1 Hp1].
  rewrite Hf1, Hu1. simpl. wps.
  eapply more_update_data_spec; [done|split; [exact Hst1|by split|done|done]| |].
  2:{ intros r u' h' w Hr H2. destruct (Z.ltb_spec r 0); [|lia]. wps.
      pose proof (slot_at_name _ _ _ _ _ (ua_slot _ _ _ _ _ _ _ _ _ _ H2)).
      eapply Herr; [lia|by destruct H2|]. right. exists w.
      split; [done|]. split; [by eexists|]. by destruct H2 as [_ [] _ _]. }
  intros u2 h2 w2 H2 Hro2 Hm2 Hu2 Hus2. pose proof (blen_nonneg buf).
  destruct (Z.ltb_spec (blen buf) 0); [lia|]. rewrite (proj2 (nz_true (blen buf)) Hne). wps.
  assert (forall h3, stepped Q u h u2 h3 -> R 0 h3) as Hfin.
  { intros h3 Hst3. eapply (Hok v w2 u2); [done|done|done| |].
    - by destruct H2 as [_ [] _ _].
    - destruct H2 as [_ _ Hs2 Hp2]. split; try done. intros Hstat. by rewrite Hus2, Hstat. }
  unfold ubi_check_volume. destruct (v_static w1); wps.
  - apply out_spec. intros o k Ho. wps. destruct (o_err o <? 0) eqn:He; simpl.
    + rewrite He. wps. apply Z.ltb_lt in He. eapply Herr; [lia|by apply stepped_tick; destruct H2|].
      right. exists w2. split; [by eapply slot_at_name; destruct H2|]. split; [by eexists|].
      by destruct H2 as [_ [] _ _].
    + wps. apply Hfin. by apply stepped_tick; destruct H2.
  - simpl. wps. apply Hfin. by destruct H2.
Qed.

(** * ubi_volume_read *)

(** Only RAM in [a, a+n) and the environment change. *)
Record rframe (a n : Z) (h h' : hw) : Prop := {
  rf_ubi : h_ubi h' = h_ubi h;
  rf_areas : h_areas h' = h_areas h;
  rf_hist : h_hist h' = h_hist h;
  rf_nand : h_nand h' = h_nand h;
  rf_mtds : h_mtds h' = h_mtds h;
  rf_bad : h_bad h' = h_bad h;
  rf_clock : h_clock h' = h_clock h;
  rf_ram : forall x, x < a \/ a + n <= x -> h_ram h' x = h_ram h x;
}.
Lemma rframe_refl a n h : rframe a n h h.
Proof. by split. Qed.
Lemma rframe_trans a n h1 h2 h3 : rframe a n h1 h2 -> rframe a n h2 h3 -> rframe a n h1 h3.
Proof. intros [] []. split; try congruence. intros x Hx. rewrite rf_ram1, rf_ram0; auto. Qed.
Lemma rframe_tick a n h k : rframe a n h (set_tick k h).
Proof. destruct h. by split. Qed.
Lemma rframe_env a n h h' e : rframe a n h h' -> rframe a n h (set_env e h').
Proof. destruct h'. intros []. by split. Qed.
Lemma rframe_weaken a n a' n' h h' :
  rframe a n h h' -> a' <= a -> a + n <= a' + n' -> rframe a' n' h h'.
Proof. intros [] ? ?. split; try done. intros. apply rf_ram0. lia. Qed.
Lemma rframe_DS a n u h h' : rframe a n h h' -> DS Q u h -> DS Q u h'.
Proof.
  intros [] (t & [] & ? & ?). exists t. split; [|done]. split; try done; congruence.
Qed.
Lemma ram_write_spec a l h (R : unit -> hw -> Prop) :
  (forall h', rframe a (blen l) h h' -> h_ram h' = mwrite (h_ram h) a l -> R tt h') ->
  wp (ram_write a l) R h.
Proof.
  intros HR. unfold ram_write. wps. apply HR; destruct h; simpl; [|done].
  split; simpl; try done. intros. apply mwrite_outside. lia.
Qed.

Lemma volume_read_loop_spec fuel v leb tbuf lnum off len size buf h (R : Z -> hw -> Prop) :
  (Z.to_nat size <= fuel)%nat -> 0 <= off < leb -> 0 < len <= size -> 0 < tbuf ->
  (forall h', rframe buf size h h' ->
     (forall x, buf <= x < buf + size -> h_ram h' x = v_data v (lnum * leb + off + (x - buf))) ->
     R 0 h') ->
  (forall r h', r <> 0 -> rframe buf size h h' -> R r h') ->
  wp (volume_read_loop fuel v leb tbuf lnum off len size buf) R h.
Proof.
  revert lnum off len size buf h R. induction fuel as [|fuel IH];
    intros lnum off len size buf h R Hf Hoff Hlen Htb Hok Herr; [lia|].
  cbn [volume_read_loop]. set (len1 := if leb <=? off + len then leb - off else len).
  assert (0 < len1 <= size) as Hl1 by (unfold len1; destruct (Z.leb_spec leb (off + len)); lia).
  assert (off + len1 <= leb) as Hl2 by (unfold len1; destruct (Z.leb_spec leb (off + len)); lia).
  clearbody len1. wps. apply out_spec. intros o k Ho. destruct (nz (o_err o)) eqn:He.
  { wps. apply Herr; [apply nz_true in He; lia|apply rframe_tick]. }
  wps. apply ram_write_spec. intros h1 Hfr Hram. rewrite blen_mread in Hfr by lia.
  assert (rframe buf size h h1) as Hfr1.
  { eapply rframe_trans; [apply rframe_tick|]. eapply rframe_weaken; [done|lia|lia]. }
  assert (forall x, buf <= x < buf + len1 -> h_ram h1 x = v_data v (lnum * leb + off + (x - buf))) as Hd.
  { intros x Hx. rewrite Hram. apply mwrite_inside; lia. }
  clear Hram. destruct (size - len1 =? 0) eqn:Hs.
  { wps. apply Hok; [done|]. intros x Hx. apply Hd. lia. }
  apply Z.eqb_neq in Hs.
  apply IH; [lia| | |done| |].
  - destruct (Z.eqb_spec (off + len1) leb); lia.
  - destruct (Z.ltb_spec tbuf (size - len1)); lia.
  - intros h2 Hfr2 Hd2. apply Hok.
    { eapply rframe_trans; [done|]. eapply rframe_weaken; [done|lia|lia]. }
    intros x Hx. destruct (decide (x < buf + len1)).
    + rewrite (rf_ram _ _ _ _ Hfr2) by lia. apply Hd. lia.
    + rewrite Hd2 by lia. f_equal. destruct (Z.eqb_spec (off + len1) leb); lia.
  - intros r h2 Hr Hfr2. apply Herr; [done|].
    eapply rframe_trans; [done|]. eapply rframe_weaken; [done|lia|lia].
Qed.

(** The number of bytes a read of [size] delivers. *)
Definition read_len (v : volume) (size : Z) : Z :=
  let size1 := if size =? 0 then v_used v else size in
  if v_used v <? size1 then v_used v else size1.

Lemma volume_read_spec n buf size u h (R : Z -> hw -> Prop) :
  DS Q u h -> 0 < u_leb_size u -> 0 <= size ->
  (forall v h', vmap (u_vols u) !! n = Some v -> v_upd_marker v = false -> v_updating v = false ->
     rframe buf (read_len v size) h h' ->
     mread (h_ram h') buf (read_len v size) = vol_bytes v (read_len v size) -> R 0 h') ->
  (forall r h', r <> 0 -> rframe buf (default 0 ((fun v => read_len v size) <$> vmap (u_vols u) !! n)) h h' ->
     R r h') ->
  wp (ubi_volume_read n buf size) R h.
Proof.
  intros HD Hleb Hsz Hok Herr. pose proof HD as (t & HF & Hun & Hsy).
  unfold ubi_volume_read. wps. rewrite (fs_ubi _ _ _ _ HF).
  destruct (ubi_find_volume (u_vols u) n) as [[i v]|] eqn:Hf;
    [|wps; apply Herr; [done|]; apply rframe_refl].
  pose proof (find_Some_vmap _ _ _ _ Hf) as Hv. rewrite Hv in Herr. simpl in Herr.
  destruct (v_updating v) eqn:Hupd; [wps; apply Herr; [done|apply rframe_refl]|].
  destruct (v_upd_marker v) eqn:Hmk; [wps; apply Herr; [done|apply rframe_refl]|].
  destruct (v_used v =? 0) eqn:Hz.
  { apply Z.eqb_eq in Hz. wps. assert (read_len v size = 0) as Hrl.
    { unfold read_len. rewrite Hz. destruct (Z.eqb_spec size 0); simpl; [done|].
      destruct (Z.ltb_spec 0 size); lia. }
    apply (Hok v); [done|done|done|apply rframe_refl|]. rewrite Hrl. unfold vol_bytes. by rewrite !mread_0. }
  apply Z.eqb_neq in Hz. cbv zeta. fold (read_len v size).
  specialize (Hok v). set (k := read_len v size) in *. clearbody k. wps.
  apply malloc_spec. intros b k'. destruct b; simpl; [|wps; apply Herr; [done|apply rframe_tick]].
  set (tbuf := if k <? _ then _ else _).
  assert (0 < k -> 0 < tbuf) as Htb.
  { intros Hk. unfold tbuf. destruct (k <? _); [|done]. pose proof (Z.div_le_lower_bound (k + UBI_MIN_IO - 1) UBI_MIN_IO 1).
    unfold UBI_MIN_IO in *. lia. }
  clearbody tbuf. wps. destruct (decide (k <= 0)) as [Hneg|Hrl].
  { replace (Z.to_nat k) with 0%nat by lia. simpl. wps. simpl. wps. apply Herr; [done|apply rframe_tick]. }
  apply volume_read_loop_spec; [lia|lia| |lia| |].
  { destruct (Z.ltb_spec tbuf k); lia. }
  - intros h1 Hfr Hd. simpl. wps.
    assert (rframe buf k h h1) as Hfr1 by (eapply rframe_trans; [apply rframe_tick|done]).
    apply Hok; [done|done|done| |].
    + by apply rframe_env.
    + unfold vol_bytes. apply mread_shift. intros x Hx. destruct h1. simpl in *. rewrite Hd by done. f_equal; lia.
  - intros r h1 Hr Hfr. rewrite (proj2 (nz_true r) Hr). wps. apply Herr; [done|].
    eapply rframe_trans; [apply rframe_tick|done].
Qed.
End io.
