(* ===== verification/ShellSpec.v ===== *)
(** Specifications of the shell commands on a device satisfying [DS], in the
    form the engines use them: [run_command] returns 0 or 1. *)
From S2P Require Import Prelude Bytes Flash Ubi UbiTable Shell UbiSpec UbiIo.

Section rules.
Context {P : Platform}.

Lemma wp_onhw_any {C A} (m : ST hw A) (R : A -> hw * C -> Prop) h c :
  (forall a h', R a (h', c)) -> wp (onhw m) R (h, c).
Proof. intros HR. apply wp_onhw. apply wp_intro. auto. Qed.

Lemma run_command_spec c (R : Z -> hw -> Prop) h :
  wp (command_code c) (fun code h' => R (if nz code then 1 else 0) h') h -> wp (run_command c) R h.
Proof. intros H. unfold run_command. wps. eapply wp_mono; [exact H|]. intros. by wps. Qed.

Lemma with_ubi_spec k u h (R : Z -> hw -> Prop) :
  h_ubi h = Some u -> wp (k u) R h -> wp (with_ubi k) R h.
Proof. intros Hu H. unfold with_ubi. wps. by rewrite Hu. Qed.

End rules.

Section commands.
Context {P : Platform}.
Variable Q : gmap string volume -> Prop.

Lemma DS_ubi u h : DS Q u h -> h_ubi h = Some u.
Proof. by intros (t & [] & _). Qed.
Hint Resolve DS_ubi : core.

Lemma check_spec n u h (R : Z -> hw -> Prop) :
  DS Q u h -> n <> "layout volume"%string ->
  (forall v, vmap (u_vols u) !! n = Some v -> R 0 h) ->
  (vmap (u_vols u) !! n = None -> R 1 h) ->
  wp (run_command (UbiCheck n)) R h.
Proof.
  intros HD Hn Hyes Hno. apply run_command_spec. simpl. eapply with_ubi_spec; [eauto|]. wps.
  destruct (vmap (u_vols u) !! n) as [v|] eqn:Hv.
  - rewrite (ubi_check_present _ _ _ Hv). simpl. by eapply Hyes.
  - rewrite (ubi_check_absent _ _ Hv Hn). simpl. auto.
Qed.

Lemma remove_cmd_spec n u h (R : Z -> hw -> Prop) :
  DS Q u h -> (u_ro u = false -> Q (nm (delete n (vmap (u_vols u))))) ->
  (forall v u' h', stepped Q u h u' h' -> u_ro u = false -> u_ro u' = false ->
     vmap (u_vols u) !! n = Some v -> vmap (u_vols u') = delete n (vmap (u_vols u)) -> R 0 h') ->
  (forall u' h', stepped Q u h u' h' -> u_vols u' = u_vols u ->
     u_ro u' = true \/ vmap (u_vols u) !! n = None -> R 1 h') ->
  wp (run_command (UbiRemove n)) R h.
Proof.
  intros HD HQ Hok Herr. apply run_command_spec. simpl. eapply with_ubi_spec; [eauto|].
  eapply remove_spec; [done|done|exact Hok|].
  intros r u' h' Hr. rewrite (proj2 (nz_true r) Hr). apply Herr.
Qed.

Lemma open_spec n u h (R : Z + nat * volume -> hw -> Prop) :
  DS Q u h ->
  (forall i v k, ubi_find_volume (u_vols u) n = Some (i, v) -> R (inr (i, v)) (set_tick k h)) ->
  (forall e k, e < 0 -> R (inl e) (set_tick k h)) ->
  wp (ubi_open_volume_nm n) R h.
Proof.
  intros HD Hok Herr. unfold ubi_open_volume_nm. wps. rewrite (DS_ubi _ _ HD).
  destruct (ubi_find_volume (u_vols u) n) as [[i v]|] eqn:Hf.
  - wps. apply out_spec. intros o k Ho. destruct (nz (o_err o)) eqn:He; wps.
    + apply Herr. by apply nz_err_neg.
    + by apply Hok.
  - wps. replace h with (set_tick (h_tick h) h) by (by destruct h). by apply Herr.
Qed.


Lemma create_cmd_spec n bytes dynamic id u h (R : Z -> hw -> Prop) :
  DS Q u h -> bytes <> 0 ->
  (u_ro u = false -> Q (nm (<[n := fresh_vol u n bytes (negb dynamic)]> (vmap (u_vols u))))) ->
  (id = UBI_VOL_NUM_AUTO \/ (Z.to_nat id < length (u_vols u))%nat) ->
  (forall u' h', stepped Q u h u' h' -> u_ro u = false -> u_ro u' = false -> vmap (u_vols u) !! n = None ->
     vmap (u_vols u') = <[n := fresh_vol u n bytes (negb dynamic)]> (vmap (u_vols u)) ->
     u_avail u' = u_avail u - v_pebs (fresh_vol u n bytes (negb dynamic)) ->
     length (u_vols u') = length (u_vols u) -> R 0 h') ->
  (forall u' h', stepped Q u h u' h' -> u_vols u' = u_vols u -> R 1 h') ->
  wp (run_command (UbiCreate n bytes dynamic id)) R h.
Proof.
  intros HD Hb HQ Hid Hok Herr. apply run_command_spec. simpl. unfold do_ubi_create.
  eapply with_ubi_spec; [eauto|]. rewrite (proj2 (Z.eqb_neq _ _) Hb). unfold ubi_create_vol.
  destruct (nz (verify_mkvol_req _ _ _ _)) eqn:Hv.
  - wps. rewrite Hv. eapply Herr; [by apply stepped_refl|done].
  - eapply create_spec; [done|done|done|exact Hok|].
    intros r u' h' Hr. rewrite (proj2 (nz_true r) Hr). apply Herr.
Qed.

Lemma rename_cmd_spec old new u h (R : Z -> hw -> Prop) :
  DS Q u h ->
  (forall v, u_ro u = false -> vmap (u_vols u) !! old = Some v ->
     Q (nm (<[new := set_name new v]> (delete old (vmap (u_vols u)))))) ->
  (forall v u' h', stepped Q u h u' h' -> u_ro u' = false ->
     vmap (u_vols u) !! old = Some v -> vmap (u_vols u) !! new = None ->
     vmap (u_vols u') = <[new := set_name new v]> (delete old (vmap (u_vols u))) -> R 0 h') ->
  (forall u' h', stepped Q u h u' h' -> u_vols u' = u_vols u -> R 1 h') ->
  wp (run_command (UbiRename old new)) R h.
Proof.
  intros HD HQ Hok Herr. apply run_command_spec. simpl. eapply with_ubi_spec; [eauto|].
  eapply rename_vol_spec; [done|done|exact Hok|].
  intros r u' h' Hr. rewrite (proj2 (nz_true r) Hr). apply Herr.
Qed.

Lemma write_cmd_spec addr n size u h (R : Z -> hw -> Prop) :
  DS Q u h -> any_ok Q n (vmap (u_vols u)) -> 0 < size ->
  (forall v w u' h', stepped Q u h u' h' -> u_ro u' = false -> vmap (u_vols u) !! n = Some v ->
     vmap (u_vols u') = <[n := w]> (vmap (u_vols u)) -> v_name w = n -> written v w size -> R 0 h') ->
  (forall u' h', stepped Q u h u' h' ->
     u' = u \/ (exists w, v_name w = n /\ is_Some (vmap (u_vols u) !! n) /\
                    vmap (u_vols u') = <[n := w]> (vmap (u_vols u))) -> R 1 h') ->
  wp (run_command (UbiWrite addr n size)) R h.
Proof.
  intros HD Hany Hsz Hok Herr. apply run_command_spec. simpl. unfold do_ubi_write.
  eapply with_ubi_spec; [eauto|]. unfold ram_read. wps.
  eapply volume_write_spec; [done|done|rewrite blen_mread; lia| |].
  - intros v w u' h' Hst Hro Hv Hm Hw. rewrite blen_mread in Hw by lia.
    eapply Hok; eauto. apply (vmap_named (u_vols u')). by rewrite Hm, lookup_insert_eq.
  - intros r u' h' Hr. rewrite (proj2 (nz_true r) Hr). apply Herr.
Qed.

Lemma read_cmd_spec addr n size u h (R : Z -> hw -> Prop) :
  DS Q u h -> 0 < u_leb_size u -> 0 < size ->
  (forall v h', vmap (u_vols u) !! n = Some v -> v_upd_marker v = false ->
     rframe addr size h h' -> DS Q u h' ->
     mread (h_ram h') addr (read_len v size) = vol_bytes v (read_len v size) -> R 0 h') ->
  (forall h', rframe addr size h h' -> DS Q u h' -> R 1 h') ->
  wp (run_command (UbiRead addr n size)) R h.
Proof.
  intros HD Hleb Hsz Hok Herr. apply run_command_spec. simpl. eapply with_ubi_spec; [eauto|].
  assert (forall v, vmap (u_vols u) !! n = Some v -> read_len v size <= size) as Hrl.
  { intros v Hv. unfold read_len. rewrite (proj2 (Z.eqb_neq size 0)) by lia.
    destruct (Z.ltb_spec (v_used v) size); lia. }
  eapply volume_read_spec; [done|done|lia| |].
  - intros v h' Hv Hm Hu Hfr Hd. simpl. specialize (Hrl v Hv).
    assert (rframe addr size h h') by (eapply rframe_weaken; [done|lia|lia]).
    eapply Hok; eauto using rframe_DS.
  - intros r h' Hr Hfr. rewrite (proj2 (nz_true r) Hr).
    assert (rframe addr size h h').
    { eapply rframe_weaken; [done|lia|]. destruct (vmap (u_vols u) !! n) as [v|]; simpl; [|lia].
      specialize (Hrl v eq_refl). lia. }
    eauto using rframe_DS.
Qed.
End commands.
