(* ===== verification/Bl2.v ===== *)
(** The pinned BL2: candidate construction from a preloader, its re-check, the
    check of the installed BL2, and the preloader check (cmd/ursusubi.c). *)
From S2P Require Import Prelude Bytes Fip Flash.

Definition URSUS_UBI_PRELOADER_MAX : Z := 0x00020000.
Definition URSUS_UBI_BL2_SIZE : Z := 0x00020000.
Definition URSUS_BL2_PRELOADER_OFF : Z := 0x00000800.

(** [ursus_bl2_candidate_buf] (the address of the allocated buffer, in RAM) and
    [ursus_bl2_candidate_ok]. *)
Record bl2_ctx := MkBl2 { bl2_buf : option Z; bl2_ok : bool }.

(** 0xff up to 0x800, the preloader, 0xff up to 128 KiB. *)
Definition bl2_image (preloader : list Z) : list Z :=
  repeat 0xff (Z.to_nat URSUS_BL2_PRELOADER_OFF) ++ preloader ++
  repeat 0xff (Z.to_nat (URSUS_UBI_BL2_SIZE - URSUS_BL2_PRELOADER_OFF - blen preloader)).

Section bl2.
Context {P : Platform} {X : Ext} {B : Board}.
(** The address [memalign] returns for the candidate buffer. *)
Variable memalign_addr : Z.

Definition ursus_ubi_validate_preloader (addr len : Z) : ST hw Z :=
  if (len =? 0) || (URSUS_UBI_PRELOADER_MAX <? len) then sret (- EFBIG)
  else if addr =? 0 then sret (- ENOMEM)
  else
    let* buf := ram_read addr len in
    if (len <? FIP_HDR) || nz (le32 0 buf - URSUS_FIP_MAGIC) then sret (- EINVAL)
    else if negb (memeq (sha256 buf) preloader_sha256) then sret (- EBADMSG)
    else sret 0.

(** The three structural checks read the buffer back from RAM. *)
Definition ursus_ubi_prepare_bl2_candidate (addr len : Z) (c : bl2_ctx) : ST hw (Z * bl2_ctx) :=
  let c := MkBl2 (bl2_buf c) false in
  if (len =? 0) || (URSUS_UBI_BL2_SIZE - URSUS_BL2_PRELOADER_OFF <? len) then sret (- EFBIG, c)
  else
    let* ok := (match bl2_buf c with Some _ => sret true | None => malloc end) in
    if negb ok then sret (- ENOMEM, c)
    else
      let dst := default memalign_addr (bl2_buf c) in
      let c := MkBl2 (Some dst) false in
      if addr =? 0 then sret (- ENOMEM, c)
      else
        ram_write dst (repeat 0xff (Z.to_nat URSUS_UBI_BL2_SIZE)) ;;;
        let* src := ram_read addr len in
        ram_write (dst + URSUS_BL2_PRELOADER_OFF) src ;;;
        let* prefix := ram_read dst URSUS_BL2_PRELOADER_OFF in
        if negb (forallb (fun b => b =? 0xff) prefix) then sret (- EBADMSG, c)
        else
          let* copy := ram_read (dst + URSUS_BL2_PRELOADER_OFF) len in
          let* src' := ram_read addr len in
          if negb (memeq copy src') then sret (- EBADMSG, c)
          else
            let* pad := ram_read (dst + URSUS_BL2_PRELOADER_OFF + len)
                          (URSUS_UBI_BL2_SIZE - URSUS_BL2_PRELOADER_OFF - len) in
            if negb (forallb (fun b => b =? 0xff) pad) then sret (- EBADMSG, c)
            else
              let* img := ram_read dst URSUS_UBI_BL2_SIZE in
              if negb (memeq (sha256 img) bl2_image_sha256) then sret (- EBADMSG, c)
              else sret (0, MkBl2 (Some dst) true).

Definition ursus_ubi_bl2_candidate_valid (c : bl2_ctx) : bool := bl2_ok c.
Definition ursus_ubi_bl2_candidate_addr (c : bl2_ctx) : Z :=
  if bl2_ok c then default 0 (bl2_buf c) else 0.

(** Re-hash of the candidate. *)
Definition ursus_verify_bl2_candidate (c : bl2_ctx) : ST hw (Z * bl2_ctx) :=
  match bl2_buf c with
  | Some dst =>
    if negb (bl2_ok c) then sret (- EINVAL, c)
    else
      let* img := ram_read dst URSUS_UBI_BL2_SIZE in
      if negb (memeq (sha256 img) bl2_image_sha256) then sret (- EBADMSG, MkBl2 (Some dst) false)
      else sret (0, c)
  | None => sret (- EINVAL, c)
  end.

(** The BL2 at NAND 0..128 KiB is the pinned one. *)
Definition ursus_ubi_installed_bl2_matches_pin : ST hw Z :=
  let* nand := ursus_find_master_nand in
  match nand with
  | None => sret (- ENODEV)
  | Some nand =>
    let* ok := malloc in
    if negb ok then sret (- ENOMEM)
    else
      let* r := ursus_read_exact nand 0 URSUS_UBI_BL2_SIZE in
      let '(ret, buf) := r in
      if nz ret then sret ret
      else sret (if memeq (sha256 buf) bl2_image_sha256 then 0 else - EBADMSG)
  end.
End bl2.
