(* ===== verification/ReadOnly.v ===== *)
(** Machine code that changes nothing but the operation counter, as a type class
    resolved on the structure of the program. *)
From S2P Require Import Prelude Bytes Fip Flash Ubi Shell Bl2 UbiSpec.

Class ReadOnly {A} (m : ST hw A) : Prop := read_only h : exists k, snd (m h) = set_tick k h.

Lemma set_tick_id h : set_tick (h_tick h) h = h.
Proof. by destruct h. Qed.
Lemma set_tick_twice k j h : set_tick k (set_tick j h) = set_tick k h.
Proof. by destruct h. Qed.

#[export] Instance sret_ro {A} (a : A) : ReadOnly (sret a).
Proof. intros h. exists (h_tick h). by rewrite set_tick_id. Qed.
#[export] Instance sget_ro {A} (f : hw -> A) : ReadOnly (sget f).
Proof. intros h. exists (h_tick h). by rewrite set_tick_id. Qed.
#[export] Instance sbind_ro {A B} (m : ST hw A) (k : A -> ST hw B) :
  ReadOnly m -> (forall a, ReadOnly (k a)) -> ReadOnly (sbind m k).
Proof.
  intros Hm Hk h. unfold sbind. destruct (Hm h) as [i ->].
  destruct (Hk (fst (m h)) (set_tick i h)) as [j ->]. exists j. apply set_tick_twice.
Qed.
#[export] Instance if_ro {A} (b : bool) (m n : ST hw A) : ReadOnly m -> ReadOnly n -> ReadOnly (if b then m else n).
Proof. by destruct b. Qed.
#[export] Instance option_ro {A B} (o : option B) (m : B -> ST hw A) (n : ST hw A) :
  (forall b, ReadOnly (m b)) -> ReadOnly n -> ReadOnly (match o with Some b => m b | None => n end).
Proof. by destruct o. Qed.
#[export] Instance pair_ro {A B C} (p : B * C) (m : B -> C -> ST hw A) :
  (forall b c, ReadOnly (m b c)) -> ReadOnly (let '(b, c) := p in m b c).
Proof. by destruct p. Qed.

Lemma wp_ro {A} (m : ST hw A) `{!ReadOnly m} (R : A -> hw -> Prop) h :
  (forall a k, R a (set_tick k h)) -> wp m R h.
Proof.
  intros HR. apply wp_intro. intros a h' Heq. destruct (read_only (m := m) h) as [k Hk].
  rewrite Heq in Hk. simpl in Hk. subst. apply HR.
Qed.
(** The same, with the returned value. *)
Lemma wp_ro_val {A} (m : ST hw A) `{!ReadOnly m} (R : A -> hw -> Prop) h :
  (forall k, snd (m h) = set_tick k h -> R (fst (m h)) (set_tick k h)) -> wp m R h.
Proof.
  intros HR. apply wp_intro. intros a h' Heq. destruct (read_only (m := m) h) as [k Hk].
  specialize (HR k Hk). rewrite Heq in HR, Hk. simpl in *. by subst.
Qed.

Section instances.
Context {P : Platform} {X : Ext} {B : Board}.

#[export] Instance next_out_ro : ReadOnly next_out.
Proof. intros h. by eexists. Qed.
#[export] Instance malloc_ro : ReadOnly malloc.
Proof. unfold malloc. apply _. Qed.
#[export] Instance ram_read_ro a n : ReadOnly (ram_read a n).
Proof. apply sget_ro. Qed.
#[export] Instance get_timer_ro b : ReadOnly (get_timer b).
Proof. apply sget_ro. Qed.
#[export] Instance get_mtd_ro n : ReadOnly (get_mtd_device_nm n).
Proof. apply sget_ro. Qed.
#[export] Instance find_nand_ro : ReadOnly ursus_find_master_nand.
Proof. apply sget_ro. Qed.
#[export] Instance mtd_read_ro m a n : ReadOnly (mtd_read m a n).
Proof. unfold mtd_read. apply _. Qed.
#[export] Instance mtd_block_isbad_ro m a : ReadOnly (mtd_block_isbad m a).
Proof. unfold mtd_block_isbad. apply _. Qed.
#[export] Instance read_exact_ro m a n : ReadOnly (ursus_read_exact m a n).
Proof. unfold ursus_read_exact. apply _. Qed.
#[export] Instance read_range_loop_ro k m p a n acc : ReadOnly (read_range_loop k m p a n acc).
Proof. revert a n acc. induction k; intros; simpl; apply _. Qed.
#[export] Instance read_range_ro m a n : ReadOnly (ursus_read_range m a n).
Proof. unfold ursus_read_range. apply _. Qed.
#[export] Instance bad_in_range_loop_ro k m a e : ReadOnly (bad_in_range_loop k m a e).
Proof. revert a. induction k; intros; simpl; apply _. Qed.
#[export] Instance bad_in_range_ro m a n : ReadOnly (ursus_bad_in_range m a n).
Proof. apply bad_in_range_loop_ro. Qed.
#[export] Instance bl2_pin_ro : ReadOnly ursus_ubi_installed_bl2_matches_pin.
Proof. unfold ursus_ubi_installed_bl2_matches_pin. apply _. Qed.
#[export] Instance preloader_ro a n : ReadOnly (ursus_ubi_validate_preloader a n).
Proof. unfold ursus_ubi_validate_preloader. apply _. Qed.
#[export] Instance verify_bl2_ro c : ReadOnly (ursus_verify_bl2_candidate c).
Proof. unfold ursus_verify_bl2_candidate. apply _. Qed.
#[export] Instance open_volume_ro n : ReadOnly (ubi_open_volume_nm n).
Proof. unfold ubi_open_volume_nm. apply _. Qed.
#[export] Instance run_check_ro n : ReadOnly (run_command (UbiCheck n)).
Proof. unfold run_command, command_code, do_ubi, with_ubi. apply _. Qed.
End instances.
