(* ===== verification/FlashSpec.v ===== *)
(** What the flash access helpers deliver: exact reads, ranged reads through
    page-sized transfers, and the bad-block scan. *)
From S2P Require Import Prelude Bytes Flash ReadOnly.

Section flash_spec.
Context {P : Platform}.

(** A successful exact read returns the bytes of the flash. *)
Lemma read_exact_val m off len (R : Z * list Z -> hw -> Prop) h :
  0 <= len ->
  (forall ret data k, (ret = 0 -> data = mread (h_nand h) (m_off m + off) len) ->
     R (ret, data) (set_tick k h)) ->
  wp (ursus_read_exact m off len) R h.
Proof.
  intros Hlen HR. apply wp_ro_val; [apply _|]. intros k Hk. revert Hk.
  unfold ursus_read_exact, mtd_read, sbind, sret, sget, next_out. simpl.
  destruct (_ || _); simpl; [intros; by apply HR|].
  destruct (Z.eqb_spec len 0) as [->|Hne]; simpl; [intros; apply HR; by rewrite mread_0|].
  set (o := pf_out (h_tick h)). intros Hk. apply HR.
  destruct (_ && _) eqn:Hb; [|done]. apply andb_true_iff in Hb as [_ Hb%Z.eqb_eq]. intros _.
  destruct h. simpl in *. destruct (o_len o) as [n|] eqn:Ho; simpl in *; [|done].
  unfold blen in Hb. rewrite length_mread in Hb. f_equal. lia.
Qed.

(** * Ranged reads *)

Lemma read_range_loop_val m page : 0 < page -> forall fuel off len acc h,
  0 <= off -> 0 <= len ->
  wp (read_range_loop fuel m page off len acc)
     (fun r h' => (exists k, h' = set_tick k h) /\
        (fst r = 0 -> snd r = acc ++ mread (h_nand h) (m_off m + off) len)) h.
Proof.
  intros Hp. induction fuel as [|fuel IH]; intros off len acc h Hoff Hlen; cbn [read_range_loop];
    destruct (Z.eqb_spec len 0) as [->|Hne].
  1,3: wps; split; [exists (h_tick h); by rewrite set_tick_id|]; intros _; simpl; by rewrite mread_0, app_nil_r.
  { wps. split; [exists (h_tick h); by rewrite set_tick_id|done]. }
  cbv zeta. pose proof (Z.mod_pos_bound off page Hp). pose proof (Z.mod_pos_bound len page Hp).
  pose proof (Z.mod_le len page). pose proof (Z.mod_le off page). pose proof (Z.mod_le URSUS_READ_CHUNK page).
  assert (forall r h' k0 d n, (exists k, h' = set_tick k (set_tick k0 h)) /\
      (fst r = 0 -> snd r = (acc ++ d) ++ mread (h_nand (set_tick k0 h)) (m_off m + (off + n)) (len - n)) ->
      0 <= n <= len -> d = mread (h_nand h) (m_off m + off) n ->
      (exists k, h' = set_tick k h) /\
      (fst r = 0 -> snd r = acc ++ mread (h_nand h) (m_off m + off) len)) as Hstep.
  { intros r h' k0 d n [[k ->] Hr] Hn ->. rewrite set_tick_twice. split; [eauto|]. intros Hz.
    rewrite Hr, <- app_assoc by done. f_equal. rewrite Z.add_assoc.
    replace len with (n + (len - n)) at 2 by lia. rewrite mread_app by lia. by destruct h. }
  destruct (_ && _) eqn:Hd.
  - apply andb_true_iff in Hd as [Hd%Z.eqb_eq Hd2%Z.leb_le].
    set (direct := if _ <? _ then _ else _).
    assert (0 <= direct <= len).
    { unfold direct, URSUS_READ_CHUNK in *. destruct (_ <? _) eqn:Hc; [|lia]. apply Z.ltb_lt in Hc.
      pose proof (Z.mod_pos_bound 1048576 page Hp). lia. }
    wps. apply read_exact_val; [lia|]. intros ret data k Hdat. destruct (nz ret) eqn:Hr.
    { wps. split; [eauto|]. simpl. intros ->. done. }
    apply nz_false in Hr. eapply wp_mono; [apply IH; lia|]. intros r h' Hpost.
    eapply Hstep; [exact Hpost|lia|auto].
  - wps. apply read_exact_val; [lia|]. intros ret data k Hdat. destruct (nz ret) eqn:Hr.
    { wps. split; [eauto|]. simpl. intros ->. done. }
    apply nz_false in Hr. eapply wp_mono; [apply IH; lia|]. intros r h' Hpost.
    eapply Hstep; [exact Hpost|lia|]. rewrite Hdat, slice_mread by (done || lia). f_equal. lia.
Qed.

Lemma read_range_val m off len h :
  0 <= m_writesize m -> 0 <= off -> 0 <= len ->
  wp (ursus_read_range m off len)
     (fun r h' => (exists k, h' = set_tick k h) /\
        (fst r = 0 -> snd r = mread (h_nand h) (m_off m + off) len)) h.
Proof.
  intros Hw Hoff Hlen. unfold ursus_read_range. wps. apply wp_ro; [apply _|]. intros ok k.
  destruct ok; simpl; [|wps; split; [eauto|done]].
  eapply wp_mono; [apply read_range_loop_val; try done|].
  - destruct (nz _) eqn:Hz; [apply nz_true in Hz; lia|lia].
  - intros r h' [[k' ->] Hr]. rewrite set_tick_twice. split; [eauto|]. by destruct h.
Qed.

(** * Bad blocks *)

Lemma block_isbad_val m ofs (R : Z -> hw -> Prop) h :
  0 <= ofs <= m_size m ->
  (forall ret k, (ret < 0 \/ ret = if h_bad h ((m_off m + ofs) / m_erasesize m) then 1 else 0) ->
     R ret (set_tick k h)) ->
  wp (mtd_block_isbad m ofs) R h.
Proof.
  intros Hofs HR. apply wp_ro_val; [apply _|]. intros k Hk. revert Hk.
  unfold mtd_block_isbad, sbind, sret, sget, next_out. simpl.
  destruct (Z.ltb_spec ofs 0); [lia|]. destruct (Z.ltb_spec (m_size m) ofs); [lia|]. simpl.
  pose proof (pf_err (h_tick h)) as He.
  destruct (nz _) eqn:Hz; simpl; intros Hk; apply HR; [left; apply nz_true in Hz; lia|].
  right. by destruct h.
Qed.

Lemma bad_in_range_loop_val m es : 0 < es -> m_erasesize m = es -> (m_off m) `mod` es = 0 ->
  forall fuel off fin h,
  0 <= off -> off `mod` es = 0 -> fin <= m_size m -> m_size m + es < 2 ^ 64 ->
  fin - off <= Z.of_nat fuel * es ->
  wp (bad_in_range_loop fuel m off fin)
     (fun r h' => (exists k, h' = set_tick k h) /\
        (r = 0 -> forall x, off <= x < fin -> h_bad h ((m_off m + x) / es) = false) /\
        (0 < r -> exists x, off <= x < fin /\ h_bad h ((m_off m + x) / es) = true)) h.
Proof.
  intros Hes Hm Hmo. induction fuel as [|fuel IH]; intros off fin h Hoff Hal Hfin Hsz Hfuel; cbn [bad_in_range_loop].
  { wps. split; [exists (h_tick h); by rewrite set_tick_id|]. split; intros; lia. }
  destruct (Z.ltb_spec off fin) as [Hlt|Hge].
  2:{ wps. split; [exists (h_tick h); by rewrite set_tick_id|]. split; intros; lia. }
  wps. apply block_isbad_val; [lia|]. intros ret k Hret. rewrite Hm in *.
  destruct (Z.ltb_spec ret 0). { wps. split; [eauto|]. split; intros; lia. }
  destruct Hret as [?|Hret]; [lia|].
  destruct (Z.ltb_spec 0 ret).
  { wps. split; [eauto|]. split; intros; [lia|]. exists off. split; [lia|]. destruct (h_bad h _); [done|lia]. }
  assert (h_bad h ((m_off m + off) / es) = false) as Hgood by (destruct (h_bad h _); [lia|done]).
  rewrite u64_small by lia. eapply wp_mono; [apply IH; try lia|].
  { rewrite <- (Z.mul_1_l es) at 1. by rewrite Z_mod_plus_full. }
  intros r h' ([k' ->] & Hz0 & Hz1). rewrite set_tick_twice.
  assert (h_bad (set_tick k h) = h_bad h) as Hb by by destruct h. rewrite Hb in *.
  split; [eauto|]. split.
  - intros Hr x Hx. destruct (Z.ltb_spec x (off + es)) as [Hin|Hout]; [|apply Hz0; lia].
    replace ((m_off m + x) / es) with ((m_off m + off) / es); [done|].
    apply Z.div_exact in Hal; [|lia]. apply Z.div_exact in Hmo; [|lia].
    rewrite Hal, Hmo, <- Z.mul_add_distr_l, (Z.mul_comm es), Z.div_mul by lia.
    apply Z.div_unique with (r := x - off); [lia|]. lia.
  - intros Hr. destruct (Hz1 Hr) as (x & ? & ?). exists x. split; [lia|done].
Qed.
End flash_spec.
