(* ===== verification/Jobs.v ===== *)
(** What the three flash engines (boot FIP update, FIT update, stock-to-UBI
    migration) have in common: the transaction states they report, the error
    codes they build, and the stage-machine protocol their step functions
    follow (announce a stage, hold it, run it), as an interface with its laws
    and the theorem that a polling loop over such a machine ends. *)
From S2P Require Import Prelude Bytes Flash.

Inductive transaction_state := COMPLETION_PROVEN | WRITE_STATE_UNKNOWN | IN_PROGRESS | NOT_STARTED.
#[export] Instance transaction_state_dec : EqDecision transaction_state.
Proof. solve_decision. Defined.

(** [snprintf(error_code, 48, ...)]. *)
Definition clip48 (s : string) : string := String.substring 0 47 s.

(** The stage's name, "_ERR_" and the negated return value. *)
Definition fail_code (name : string) (ret : Z) : string :=
  clip48 (name ++ "_ERR_" ++ pretty (if nz ret then - ret else EIO)).

(** * The protocol *)

(** A stage machine over the context type [C]: its flags, its hold time, its
    stages, and a rank that bounds how many stages are left. *)
Class StageMachine (C : Type) := {
  sm_active : C -> bool;
  sm_announced : C -> bool;
  sm_announced_at : C -> Z;
  sm_announce : Z -> C -> C;
  sm_unannounce : C -> C;
  sm_hold : Z;
  sm_idle : C -> Z;
  sm_stage : C -> ST (hw * C) Z;
  sm_result : C -> Z;
  sm_left : C -> nat;
}.

(** The step function of every engine: idle, announce, hold, or run a stage. *)
Definition sm_step {C} `{StageMachine C} : ST (hw * C) Z :=
  let* c := ctx id in
  if negb (sm_active c) then sret (sm_idle c)
  else if negb (sm_announced c) then
    let* now := onhw (get_timer 0) in onctx (sm_announce now) ;;; sret 0
  else
    let* held := onhw (get_timer (sm_announced_at c)) in
    if held <? sm_hold then sret 0
    else onctx sm_unannounce ;;; sm_stage c.

(** The blocking loop of every engine's command. *)
Fixpoint sm_loop {C} `{StageMachine C} (fuel : nat) : ST (hw * C) (option Z) :=
  let* c := ctx id in
  if negb (sm_active c) then sret (Some (sm_result c))
  else match fuel with
  | O => sret None
  | S fuel' =>
    let* ret := sm_step in
    if ret <? 0 then sret (Some ret)
    else onhw (mdelay 10) ;;; sm_loop fuel'
  end.

(** The laws: announcing stores the time and changes neither the activity nor
    the rank, and a stage ends the job or moves it forward, unannounced. *)
Class StageMachineLaws C `{StageMachine C} := {
  sm_announce_law c t : sm_active (sm_announce t c) = sm_active c /\
    sm_announced (sm_announce t c) = true /\ sm_announced_at (sm_announce t c) = t /\
    sm_left (sm_announce t c) = sm_left c;
  sm_hold_law : 0 < sm_hold <= 2 ^ 63;
  sm_stage_law h c : sm_active c = true ->
    wp (sm_stage c) (fun _ s => sm_active (snd s) = false \/
         (sm_announced (snd s) = false /\ (sm_left (snd s) < sm_left c)%nat)) (h, sm_unannounce c);
}.

Section termination.
Context {C : Type} `{SM : StageMachineLaws C}.

(** Polls one stage takes: the announcement, the hold at 10 ms per poll, the stage. *)
Definition polls : nat := Z.to_nat (sm_hold / 10) + 3.

Definition ends (fuel : nat) (s : hw * C) : Prop := is_Some (fst (sm_loop fuel s)).

Lemma sm_loop_inactive fuel h c : sm_active c = false -> ends fuel (h, c).
Proof.
  intros Ha. unfold ends.
  destruct fuel; simpl; unfold sbind, ctx, sget, sret; simpl; rewrite Ha; simpl; eauto.
Qed.
Lemma sm_loop_more fuel h c :
  sm_active c = true ->
  wp sm_step (fun r s => 0 <= r -> ends fuel (set_clock (h_clock (fst s) + 10) (fst s), snd s)) (h, c) ->
  ends (S fuel) (h, c).
Proof.
  intros Ha Hw. unfold ends. simpl. unfold sbind, ctx, sget at 1. simpl.
  rewrite Ha. simpl. destruct (sm_step (h, c)) as [r [h' c']] eqn:E. simpl.
  destruct (r <? 0) eqn:Hr; simpl; [unfold sret; simpl; eauto|].
  apply (wp_run _ _ _ _ _ Hw E). lia.
Qed.

Lemma ends_mono d m s : ends m s -> ends (m + d) s.
Proof.
  revert s. induction m as [|m IHm]; intros [h c] He; simpl in *.
  - unfold ends in He. simpl in He. unfold sbind, ctx, sget, sret in He. simpl in He.
    destruct (sm_active c) eqn:E; simpl in He; [by destruct He|]. by apply sm_loop_inactive.
  - destruct (sm_active c) eqn:E; [|by apply (sm_loop_inactive (S (m + d)))].
    unfold ends in *. simpl in *. unfold sbind, ctx, sget in *. simpl in *. rewrite E in *. simpl in *.
    destruct (sm_step (h, c)) as [r s']. simpl in *. destruct (r <? 0); [done|]. apply IHm, He.
Qed.
Lemma ends_le m n s : (m <= n)%nat -> ends m s -> ends n s.
Proof. intros Hle He. replace n with (m + (n - m))%nat by lia. by apply ends_mono. Qed.

(** What a stage leaves: a finished job, or one with fewer stages left. *)
Definition moved (c c' : C) : Prop :=
  sm_active c' = false \/ (sm_announced c' = false /\ (sm_left c' < sm_left c)%nat).

(** Holding: the clock is [10 * k] past the announcement. *)
Lemma sm_loop_held (next : nat) c :
  sm_active c = true -> sm_announced c = true ->
  (forall h' c', moved c c' -> ends next (h', c')) ->
  forall j h (k : nat), u64 (h_clock h - sm_announced_at c) = 10 * Z.of_nat k ->
    sm_hold <= 10 * Z.of_nat (k + j) -> 10 * Z.of_nat k < sm_hold + 10 ->
    forall fuel, (S j + next <= fuel)%nat -> ends fuel (h, c).
Proof.
  intros Ha Hn Hnext. induction j as [|j IH]; intros h k Hk Hj Hlt [|fuel] Hf; try lia;
    (apply sm_loop_more; [done|]; unfold sm_step; wps; unfold id; rewrite Ha, Hn; cbn [negb]; wps; unfold get_timer; wps; rewrite Hk);
    destruct (10 * Z.of_nat k <? sm_hold) eqn:Hh; try lia;
    try (wps; eapply wp_mono; [by apply sm_stage_law|]; intros r [h' c'] Hs _; simpl in *;
         eapply ends_le; [|by apply Hnext]; lia).
  wps. intros _. simpl. apply (IH _ (S k)); try lia.
  destruct h; simpl in *. destruct sm_hold_law.
  replace (h_clock + 10 - sm_announced_at c) with (h_clock - sm_announced_at c + 10) by lia.
  unfold u64 in *. rewrite Z.add_mod, Hk by lia.
  change (10 `mod` 2 ^ 64) with 10. rewrite Z.mod_small; lia.
Qed.

(** The loop ends within [polls] polls per stage left, whatever the stages do. *)
Lemma sm_loop_ends h c :
  sm_announced c = false -> ends (S (sm_left c) * polls) (h, c).
Proof.
  remember (sm_left c) as n eqn:En. revert h c En.
  induction (lt_wf n) as [n _ IH]. intros h c -> Hn.
  destruct (sm_active c) eqn:Ha; [|by apply sm_loop_inactive].
  replace (S (sm_left c) * polls)%nat
    with (S (S (S (Z.to_nat (sm_hold / 10))) + sm_left c * polls)) by (unfold polls; lia).
  apply sm_loop_more; [done|]. unfold sm_step. wps. unfold id. rewrite Ha, Hn. cbn [negb]. unfold get_timer. wps. intros _. simpl.
  destruct (sm_announce_law c (u64 (h_clock h - 0))) as (Ha' & Hn' & Ht & Hl).
  destruct sm_hold_law. assert (0 <= sm_hold / 10) by (apply Z.div_pos; lia).
  pose proof (Z.mod_pos_bound sm_hold 10). pose proof (Z.div_mod sm_hold 10).
  rewrite Ha in Ha'. apply (sm_loop_held (sm_left c * polls) _ Ha' Hn')
    with (j := S (Z.to_nat (sm_hold / 10))) (k := 1%nat); try lia.
  - intros h' c' [Hd|[Hd Hlt]]; [by apply sm_loop_inactive|]. rewrite Hl in Hlt.
    eapply ends_le; [|by apply (IH (sm_left c'))]. nia.
  - rewrite Ht. destruct h; simpl. unfold u64. rewrite Z.sub_0_r, Zminus_mod_idemp_r.
    by replace (h_clock + 10 - h_clock) with 10 by lia.
Qed.
End termination.

(** * Runs *)

(** What the rest of the system may do between two polls: use RAM, the clock and
    the environment variables; the flash, its driver state and the device list
    belong to the job. *)
Record idle_move (h h' : hw) : Prop := {
  im_nand : h_nand h' = h_nand h;
  im_erased : h_erased h' = h_erased h;
  im_areas : h_areas h' = h_areas h;
  im_hist : h_hist h' = h_hist h;
  im_mtds : h_mtds h' = h_mtds h;
  im_ubi : h_ubi h' = h_ubi h;
  im_bad : h_bad h' = h_bad h;
}.

Inductive poll_run {C} `{StageMachine C} (s0 : hw * C) : hw * C -> Prop :=
  | poll_refl : poll_run s0 s0
  | poll_step s : poll_run s0 s -> poll_run s0 (snd (sm_step s))
  | poll_idle h h' c : poll_run s0 (h, c) -> idle_move h h' -> poll_run s0 (h', c).

Section runs.
Context {C : Type} `{StageMachine C}.

(** An invariant of the stages, closed under announcing, is one of the machine. *)
Lemma sm_step_inv (I : hw * C -> Prop) h c :
  (forall t, sm_active c = true -> I (h, sm_announce t c)) ->
  (sm_active c = true -> wp (sm_stage c) (fun _ s => I s) (h, sm_unannounce c)) ->
  I (h, c) -> wp sm_step (fun _ s => I s) (h, c).
Proof.
  intros Ha Hs HI. unfold sm_step. wps. unfold id. destruct (sm_active c); simpl; [|by wps].
  destruct (sm_announced c); simpl; unfold get_timer; wps; [|by apply Ha].
  destruct (_ <? _); wps; [done|by apply Hs].
Qed.
Lemma poll_run_inv (I : hw * C -> Prop) s0 s :
  (forall h c t, I (h, c) -> sm_active c = true -> I (h, sm_announce t c)) ->
  (forall h c, I (h, c) -> sm_active c = true -> wp (sm_stage c) (fun _ s => I s) (h, sm_unannounce c)) ->
  (forall h h' c, I (h, c) -> idle_move h h' -> I (h', c)) ->
  I s0 -> poll_run s0 s -> I s.
Proof.
  intros Ha Hs He H0. induction 1 as [|[h c] _ IH|h h' c _ IH Hm]; [done| |eauto].
  destruct (sm_step (h, c)) as [r s'] eqn:E.
  refine (wp_run _ _ _ _ _ (sm_step_inv I h c _ _ IH) E); eauto.
Qed.

(** The blocking loop is one of the runs. *)
Lemma sm_loop_run fuel s0 s : poll_run s0 s -> poll_run s0 (snd (sm_loop fuel s)).
Proof.
  revert s. induction fuel as [|fuel IH]; intros s Hr; simpl.
  - unfold sbind, ctx, sget, sret. simpl. by destruct (negb _).
  - unfold sbind, ctx, sget, sret at 1. simpl. destruct (negb _); [done|].
    pose proof (poll_step s0 s Hr) as H1.
    destruct (sm_step s) as [r [h c]]. simpl in *. destruct (r <? 0); [done|].
    apply IH. simpl. eapply poll_idle; [exact H1|]. by destruct h.
Qed.
End runs.
