(* ===== verification/FipUpdate.v ===== *)
(** The UrsusBoot/Vanilla FIP updater of cmd/ursusupdate.c: the stage machine
    that replaces the boot FIP, in the stock layout (raw NAND) or in the UBI
    layout (staged volume, atomic rename, post-commit verify, rollback).
    One definition per stage; [ursus_fip_update_step] dispatches. *)
From S2P Require Import Prelude Bytes Fip Flash Ubi Shell Bl2 Jobs.

(** * State *)

Inductive ursus_update_stage :=
  | URSUS_UP_IDLE | URSUS_UP_PRECHECK
  | URSUS_UP_STOCK_BACKUP | URSUS_UP_STOCK_ERASE | URSUS_UP_STOCK_WRITE | URSUS_UP_STOCK_VERIFY
  | URSUS_UP_UBI_ATTACH | URSUS_UP_UBI_STAGE_PREP | URSUS_UP_UBI_STAGE_WRITE
  | URSUS_UP_UBI_STAGE_VERIFY | URSUS_UP_UBI_PROMOTE | URSUS_UP_UBI_VERIFY | URSUS_UP_UBI_ROLLBACK
  | URSUS_UP_COMPLETE | URSUS_UP_FAILED.
#[export] Instance update_stage_dec : EqDecision ursus_update_stage.
Proof. solve_decision. Defined.

Inductive ubi_fip_mode_t :=
  URSUS_UBI_FIP_NORMAL | URSUS_UBI_FIP_REPAIR_MISSING | URSUS_UBI_FIP_REPAIR_INVALID.
#[export] Instance ubi_fip_mode_dec : EqDecision ubi_fip_mode_t.
Proof. solve_decision. Defined.

(** [struct ursus_update_ctx], then the file's other static variables. *)
Record update_ctx := MkUp {
  up_kind : ursus_fip_kind;
  up_stage : ursus_update_stage;
  up_failed_stage : ursus_update_stage;
  up_last_success_stage : ursus_update_stage;
  up_addr : Z;
  up_len : Z;
  up_error : Z;
  up_active : bool;
  up_announced : bool;
  up_announced_at : Z;
  up_ubi_layout : bool;
  up_ubi_fip_mode : ubi_fip_mode_t;
  up_ubi_fip_invalid_ret : Z;
  up_commit_started : bool;
  up_write_started : bool;
  up_error_code : string;
  up_digest : list Z;
  up_stock_candidate : option (list Z);
  up_stock_readback : option (list Z);
  up_nand : option mtd_info;
  up_ubi_part_mtd : option mtd_info;
  up_parts_ready : bool;
}.

Definition set_up_stage (v : ursus_update_stage) (c : update_ctx) : update_ctx :=
  let 'MkUp x0 _ x2 x3 x4 x5 x6 x7 x8 x9 x10 x11 x12 x13 x14 x15 x16 x17 x18 x19 x20 x21 := c in
  MkUp x0 v x2 x3 x4 x5 x6 x7 x8 x9 x10 x11 x12 x13 x14 x15 x16 x17 x18 x19 x20 x21.
Definition set_up_failed_stage (v : ursus_update_stage) (c : update_ctx) : update_ctx :=
  let 'MkUp x0 x1 _ x3 x4 x5 x6 x7 x8 x9 x10 x11 x12 x13 x14 x15 x16 x17 x18 x19 x20 x21 := c in
  MkUp x0 x1 v x3 x4 x5 x6 x7 x8 x9 x10 x11 x12 x13 x14 x15 x16 x17 x18 x19 x20 x21.
Definition set_up_last_success_stage (v : ursus_update_stage) (c : update_ctx) : update_ctx :=
  let 'MkUp x0 x1 x2 _ x4 x5 x6 x7 x8 x9 x10 x11 x12 x13 x14 x15 x16 x17 x18 x19 x20 x21 := c in
  MkUp x0 x1 x2 v x4 x5 x6 x7 x8 x9 x10 x11 x12 x13 x14 x15 x16 x17 x18 x19 x20 x21.
Definition set_up_error (v : Z) (c : update_ctx) : update_ctx :=
  let 'MkUp x0 x1 x2 x3 x4 x5 _ x7 x8 x9 x10 x11 x12 x13 x14 x15 x16 x17 x18 x19 x20 x21 := c in
  MkUp x0 x1 x2 x3 x4 x5 v x7 x8 x9 x10 x11 x12 x13 x14 x15 x16 x17 x18 x19 x20 x21.
Definition set_up_active (v : bool) (c : update_ctx) : update_ctx :=
  let 'MkUp x0 x1 x2 x3 x4 x5 x6 _ x8 x9 x10 x11 x12 x13 x14 x15 x16 x17 x18 x19 x20 x21 := c in
  MkUp x0 x1 x2 x3 x4 x5 x6 v x8 x9 x10 x11 x12 x13 x14 x15 x16 x17 x18 x19 x20 x21.
Definition set_up_announced (v : bool) (c : update_ctx) : update_ctx :=
  let 'MkUp x0 x1 x2 x3 x4 x5 x6 x7 _ x9 x10 x11 x12 x13 x14 x15 x16 x17 x18 x19 x20 x21 := c in
  MkUp x0 x1 x2 x3 x4 x5 x6 x7 v x9 x10 x11 x12 x13 x14 x15 x16 x17 x18 x19 x20 x21.
Definition set_up_announced_at (v : Z) (c : update_ctx) : update_ctx :=
  let 'MkUp x0 x1 x2 x3 x4 x5 x6 x7 x8 _ x10 x11 x12 x13 x14 x15 x16 x17 x18 x19 x20 x21 := c in
  MkUp x0 x1 x2 x3 x4 x5 x6 x7 x8 v x10 x11 x12 x13 x14 x15 x16 x17 x18 x19 x20 x21.
Definition set_up_ubi_layout (v : bool) (c : update_ctx) : update_ctx :=
  let 'MkUp x0 x1 x2 x3 x4 x5 x6 x7 x8 x9 _ x11 x12 x13 x14 x15 x16 x17 x18 x19 x20 x21 := c in
  MkUp x0 x1 x2 x3 x4 x5 x6 x7 x8 x9 v x11 x12 x13 x14 x15 x16 x17 x18 x19 x20 x21.
Definition set_up_ubi_fip_mode (v : ubi_fip_mode_t) (c : update_ctx) : update_ctx :=
  let 'MkUp x0 x1 x2 x3 x4 x5 x6 x7 x8 x9 x10 _ x12 x13 x14 x15 x16 x17 x18 x19 x20 x21 := c in
  MkUp x0 x1 x2 x3 x4 x5 x6 x7 x8 x9 x10 v x12 x13 x14 x15 x16 x17 x18 x19 x20 x21.
Definition set_up_ubi_fip_invalid_ret (v : Z) (c : update_ctx) : update_ctx :=
  let 'MkUp x0 x1 x2 x3 x4 x5 x6 x7 x8 x9 x10 x11 _ x13 x14 x15 x16 x17 x18 x19 x20 x21 := c in
  MkUp x0 x1 x2 x3 x4 x5 x6 x7 x8 x9 x10 x11 v x13 x14 x15 x16 x17 x18 x19 x20 x21.
Definition set_up_commit_started (v : bool) (c : update_ctx) : update_ctx :=
  let 'MkUp x0 x1 x2 x3 x4 x5 x6 x7 x8 x9 x10 x11 x12 _ x14 x15 x16 x17 x18 x19 x20 x21 := c in
  MkUp x0 x1 x2 x3 x4 x5 x6 x7 x8 x9 x10 x11 x12 v x14 x15 x16 x17 x18 x19 x20 x21.
Definition set_up_write_started (v : bool) (c : update_ctx) : update_ctx :=
  let 'MkUp x0 x1 x2 x3 x4 x5 x6 x7 x8 x9 x10 x11 x12 x13 _ x15 x16 x17 x18 x19 x20 x21 := c in
  MkUp x0 x1 x2 x3 x4 x5 x6 x7 x8 x9 x10 x11 x12 x13 v x15 x16 x17 x18 x19 x20 x21.
Definition set_up_error_code (v : string) (c : update_ctx) : update_ctx :=
  let 'MkUp x0 x1 x2 x3 x4 x5 x6 x7 x8 x9 x10 x11 x12 x13 x14 _ x16 x17 x18 x19 x20 x21 := c in
  MkUp x0 x1 x2 x3 x4 x5 x6 x7 x8 x9 x10 x11 x12 x13 x14 v x16 x17 x18 x19 x20 x21.
Definition set_up_stock_candidate (v : option (list Z)) (c : update_ctx) : update_ctx :=
  let 'MkUp x0 x1 x2 x3 x4 x5 x6 x7 x8 x9 x10 x11 x12 x13 x14 x15 x16 _ x18 x19 x20 x21 := c in
  MkUp x0 x1 x2 x3 x4 x5 x6 x7 x8 x9 x10 x11 x12 x13 x14 x15 x16 v x18 x19 x20 x21.
Definition set_up_stock_readback (v : option (list Z)) (c : update_ctx) : update_ctx :=
  let 'MkUp x0 x1 x2 x3 x4 x5 x6 x7 x8 x9 x10 x11 x12 x13 x14 x15 x16 x17 _ x19 x20 x21 := c in
  MkUp x0 x1 x2 x3 x4 x5 x6 x7 x8 x9 x10 x11 x12 x13 x14 x15 x16 x17 v x19 x20 x21.
Definition set_up_nand (v : option mtd_info) (c : update_ctx) : update_ctx :=
  let 'MkUp x0 x1 x2 x3 x4 x5 x6 x7 x8 x9 x10 x11 x12 x13 x14 x15 x16 x17 x18 _ x20 x21 := c in
  MkUp x0 x1 x2 x3 x4 x5 x6 x7 x8 x9 x10 x11 x12 x13 x14 x15 x16 x17 x18 v x20 x21.
Definition set_up_ubi_part_mtd (v : option mtd_info) (c : update_ctx) : update_ctx :=
  let 'MkUp x0 x1 x2 x3 x4 x5 x6 x7 x8 x9 x10 x11 x12 x13 x14 x15 x16 x17 x18 x19 _ x21 := c in
  MkUp x0 x1 x2 x3 x4 x5 x6 x7 x8 x9 x10 x11 x12 x13 x14 x15 x16 x17 x18 x19 v x21.
Definition set_up_parts_ready (v : bool) (c : update_ctx) : update_ctx :=
  let 'MkUp x0 x1 x2 x3 x4 x5 x6 x7 x8 x9 x10 x11 x12 x13 x14 x15 x16 x17 x18 x19 x20 _ := c in
  MkUp x0 x1 x2 x3 x4 x5 x6 x7 x8 x9 x10 x11 x12 x13 x14 x15 x16 x17 x18 x19 x20 v.

(** [memset(&ursus_up, 0, sizeof(ursus_up))]: the other statics stay. *)
Definition up_zero (c : update_ctx) : update_ctx :=
  MkUp URSUS_FIP_KIND_URSUS URSUS_UP_IDLE URSUS_UP_IDLE URSUS_UP_IDLE 0 0 0 false false 0
    false URSUS_UBI_FIP_NORMAL 0 false false "" [] None None
    (up_nand c) (up_ubi_part_mtd c) (up_parts_ready c).
Definition up_init : update_ctx :=
  up_zero (MkUp URSUS_FIP_KIND_URSUS URSUS_UP_IDLE URSUS_UP_IDLE URSUS_UP_IDLE 0 0 0 false false 0
    false URSUS_UBI_FIP_NORMAL 0 false false "" [] None None None None false).

Definition fst_t : Type := hw * update_ctx.

(** * Names *)

Definition ursus_update_stage_name (s : ursus_update_stage) : string :=
  match s with
  | URSUS_UP_IDLE => "IDLE" | URSUS_UP_PRECHECK => "PRECHECK"
  | URSUS_UP_STOCK_BACKUP => "STOCK_BACKUP" | URSUS_UP_STOCK_ERASE => "STOCK_ERASE"
  | URSUS_UP_STOCK_WRITE => "STOCK_WRITE" | URSUS_UP_STOCK_VERIFY => "STOCK_VERIFY"
  | URSUS_UP_UBI_ATTACH => "UBI_ATTACH" | URSUS_UP_UBI_STAGE_PREP => "UBI_STAGE_PREP"
  | URSUS_UP_UBI_STAGE_WRITE => "UBI_STAGE_WRITE" | URSUS_UP_UBI_STAGE_VERIFY => "UBI_STAGE_VERIFY"
  | URSUS_UP_UBI_PROMOTE => "UBI_PROMOTE" | URSUS_UP_UBI_VERIFY => "UBI_VERIFY"
  | URSUS_UP_UBI_ROLLBACK => "UBI_ROLLBACK" | URSUS_UP_COMPLETE => "COMPLETE"
  | URSUS_UP_FAILED => "FAILED"
  end.

Definition ursus_update_percent_value (s : ursus_update_stage) : Z :=
  match s with
  | URSUS_UP_IDLE => 0 | URSUS_UP_PRECHECK => 5
  | URSUS_UP_STOCK_BACKUP => 20 | URSUS_UP_STOCK_ERASE => 45
  | URSUS_UP_STOCK_WRITE => 70 | URSUS_UP_STOCK_VERIFY => 92
  | URSUS_UP_UBI_ATTACH => 18 | URSUS_UP_UBI_STAGE_PREP => 30
  | URSUS_UP_UBI_STAGE_WRITE => 50 | URSUS_UP_UBI_STAGE_VERIFY => 70
  | URSUS_UP_UBI_PROMOTE => 85 | URSUS_UP_UBI_VERIFY => 95
  | URSUS_UP_UBI_ROLLBACK => 90 | URSUS_UP_COMPLETE => 100 | URSUS_UP_FAILED => 100
  end.

Definition ursus_update_detail_text (c : update_ctx) (s : ursus_update_stage) : string :=
  match s with
  | URSUS_UP_PRECHECK => "Validate FIP, board, SoC, NAND geometry and layout"
  | URSUS_UP_STOCK_BACKUP => "Build 512 KiB stock bootloader candidate preserving prefix and tcboot env"
  | URSUS_UP_STOCK_ERASE => "Erase stock bootloader mtd0 span"
  | URSUS_UP_STOCK_WRITE => "Write preserved stock bootloader candidate with new UrsusBoot FIP"
  | URSUS_UP_STOCK_VERIFY => "Read back and compare complete 512 KiB stock bootloader span"
  | URSUS_UP_UBI_ATTACH => "Attach native UBI"
  | URSUS_UP_UBI_STAGE_PREP =>
    match up_ubi_fip_mode c with
    | URSUS_UBI_FIP_REPAIR_MISSING => "Create fip.new; active fip is missing; preserve fip.old"
    | URSUS_UBI_FIP_REPAIR_INVALID => "Create fip.new; preserve fip.old and quarantine invalid fip"
    | URSUS_UBI_FIP_NORMAL => "Create fip.new while current fip remains bootable"
    end
  | URSUS_UP_UBI_STAGE_WRITE => "Write fip.new"
  | URSUS_UP_UBI_STAGE_VERIFY => "Read back and validate fip.new"
  | URSUS_UP_UBI_PROMOTE =>
    match up_ubi_fip_mode c with
    | URSUS_UBI_FIP_REPAIR_MISSING => "Promote fip.new to missing fip; preserve fip.old"
    | URSUS_UBI_FIP_REPAIR_INVALID => "Atomically quarantine invalid fip as fip.bad and promote fip.new"
    | URSUS_UBI_FIP_NORMAL => "Atomically rename fip to fip.old and fip.new to fip"
    end
  | URSUS_UP_UBI_VERIFY => "Verify promoted fip"
  | URSUS_UP_UBI_ROLLBACK =>
    match up_ubi_fip_mode c with
    | URSUS_UBI_FIP_REPAIR_INVALID => "Restore quarantined invalid fip; keep fip.old untouched"
    | _ => "Rollback promoted fip to previous fip.old"
    end
  | URSUS_UP_COMPLETE =>
    if is_vanilla (up_kind c)
    then "Vanilla U-Boot is in fip (UrsusBoot kept as fip.old); reboot is operator-controlled"
    else "UrsusBoot update complete; reboot is operator-controlled"
  | URSUS_UP_FAILED =>
    if is_vanilla (up_kind c) then "Vanilla U-Boot replacement failed" else "UrsusBoot update failed"
  | URSUS_UP_IDLE => "Idle"
  end.

Definition ursus_fip_update_failed_stage (c : update_ctx) : string :=
  match up_failed_stage c with URSUS_UP_IDLE => "NONE" | s => ursus_update_stage_name s end.
Definition ursus_fip_update_error_code (c : update_ctx) : string :=
  if bool_decide (up_error_code c = "") then "NONE" else up_error_code c.
Definition ursus_fip_update_active (c : update_ctx) : bool := up_active c.
Definition ursus_fip_update_complete (c : update_ctx) : bool :=
  bool_decide (up_stage c = URSUS_UP_COMPLETE).
Definition ursus_fip_update_failed (c : update_ctx) : bool :=
  bool_decide (up_stage c = URSUS_UP_FAILED).

Definition ursus_fip_update_transaction_state (c : update_ctx) : transaction_state :=
  match up_stage c with
  | URSUS_UP_COMPLETE => COMPLETION_PROVEN
  | URSUS_UP_FAILED => if up_write_started c then WRITE_STATE_UNKNOWN else NOT_STARTED
  | _ => if up_active c && up_write_started c then IN_PROGRESS else NOT_STARTED
  end.

Definition ursus_update_fail_reason (ret : Z) (code : string) : ST fst_t Z :=
  let err := if nz ret then ret else - EIO in
  onctx (fun c =>
    set_up_active false (set_up_stage URSUS_UP_FAILED
      (set_up_error_code (if bool_decide (up_error_code c = "") then clip48 code else up_error_code c)
        (set_up_failed_stage (up_stage c) (set_up_error err c))))) ;;;
  sret err.

Definition ursus_update_fail (ret : Z) : ST fst_t Z :=
  let* s := ctx up_stage in ursus_update_fail_reason ret (fail_code (ursus_update_stage_name s) ret).

(** [last_success_stage] and the next stage. *)
Definition advance (last next : ursus_update_stage) : ST fst_t Z :=
  onctx (fun c => set_up_stage next (set_up_last_success_stage last c)) ;;; sret 0.

Section engine.
Context {P : Platform} {X : Ext} {B : Board}.

(** * Partition registration and attachment *)

Definition ursus_update_parts : list (string * Z * Z) :=
  [("ursus-update-ubi"%string, URSUS_UBI_BASE, URSUS_UBI_SIZE)].

Definition nand_geometry_ok (m : mtd_info) : bool :=
  negb (nz (m_size m - URSUS_NAND_SIZE) || nz (m_erasesize m - 0x20000)
        || nz (m_writesize m - 0x800)).

Definition ursus_update_register_ubi_part : ST fst_t Z :=
  let* ready := ctx up_parts_ready in
  if ready then sret 0
  else
    let* nand := onhw ursus_find_master_nand in
    onctx (set_up_nand nand) ;;;
    match nand with
    | None => sret (- ENODEV)
    | Some nand =>
      if negb (nand_geometry_ok nand) then sret (- EINVAL)
      else
        let* full := onhw (get_mtd_device_nm "ursus-ubi-full") in
        match full with
        | Some m => onctx (fun c => set_up_parts_ready true (set_up_ubi_part_mtd (Some m) c)) ;;; sret 0
        | None =>
          onctx (set_up_ubi_part_mtd None) ;;;
          let* ret := onhw (add_mtd_partitions nand ursus_update_parts) in
          if nz ret then sret ret
          else
            let* part := onhw (get_mtd_device_nm "ursus-update-ubi") in
            match part with
            | None => sret (- ENODEV)
            | Some m => onctx (fun c => set_up_parts_ready true (set_up_ubi_part_mtd (Some m) c)) ;;; sret 0
            end
        end
    end.

(** Does the attached device sit on the registered partition? *)
Definition attached_on (u : ubi_dev) (m : option mtd_info) : bool :=
  match m with Some m => bool_decide (u_mtd u = m_name m) | None => false end.

Definition ursus_update_ensure_ubi_attachment : ST fst_t Z :=
  let* ret := ursus_update_register_ubi_part in
  if nz ret then sret ret
  else
    let* part := ctx up_ubi_part_mtd in
    let* ubi := onhw (sget h_ubi) in
    match ubi with
    | Some u =>
      if negb (attached_on u part) || nz (u_size u - URSUS_UBI_SIZE)
         || nz (u_erasesize u - 0x20000) || nz (u_writesize u - 0x800)
      then sret (- EXDEV) else sret 0
    | None =>
      let* ret := onhw (run_command (UbiPart (match part with Some m => m_name m | None => ""%string end))) in
      if nz ret then sret ret
      else
        let* ubi := onhw (sget h_ubi) in
        match ubi with
        | None => sret (- ENODEV)
        | Some u => if negb (attached_on u part) then sret (- EXDEV) else sret 0
        end
    end.

(** [is_ubi] is stored only when the header could be read. *)
Definition ursus_detect_ubi_layout : ST fst_t (Z * option bool) :=
  let* nand := onhw ursus_find_master_nand in
  onctx (set_up_nand nand) ;;;
  match nand with
  | None => sret (- ENODEV, None)
  | Some nand =>
    if negb (nand_geometry_ok nand) then sret (- EINVAL, None)
    else
      let* r := onhw (ursus_read_exact nand URSUS_UBI_BASE 4) in
      let '(ret, hdr) := r in
      if nz ret then sret (ret, None) else sret (0, Some (memeq hdr (bytes_of "UBI#")))
  end.

(** * Validation of a RAM image *)

Definition validate_kind_at (addr len : Z) (stock_limit : bool) (kind : ursus_fip_kind) : ST hw Z :=
  let* ok := malloc in
  let* buf := ram_read addr len in
  sret (ursus_fip_validate_kind ok addr buf stock_limit kind).

(** * The active FIP volume *)

Definition set_mode (m : ubi_fip_mode_t) (inv : Z) : ST fst_t unit :=
  onctx (fun c => set_up_ubi_fip_mode m (set_up_ubi_fip_invalid_ret inv c)).

Definition ursus_ubi_classify_active_fip : ST fst_t Z :=
  set_mode URSUS_UBI_FIP_NORMAL 0 ;;;
  let* r := onhw (run_command (UbiCheck "fip")) in
  if nz r then set_mode URSUS_UBI_FIP_REPAIR_MISSING 0 ;;; sret 0
  else
    let* d := onhw (ubi_open_volume_nm "fip") in
    match d with
    | inl e => set_mode URSUS_UBI_FIP_REPAIR_INVALID e ;;; sret 0
    | inr (_, v) =>
      let used := u64 (v_used v) in
      if (used =? 0) || (URSUS_UBI_FIP_VOL_SIZE <? used)
      then set_mode URSUS_UBI_FIP_REPAIR_INVALID (- EFBIG) ;;; sret 0
      else
        let* ret := onhw (run_command (UbiRead URSUS_UBI_READBACK_ADDR "fip" used)) in
        if nz ret then set_mode URSUS_UBI_FIP_REPAIR_INVALID (- EIO) ;;; sret 0
        else
          let* ok := onhw malloc in
          let* buf := onhw (ram_read URSUS_UBI_READBACK_ADDR used) in
          match ursus_fip_validate_current ok buf with
          | inl e => set_mode URSUS_UBI_FIP_REPAIR_INVALID e ;;; sret 0
          | inr dend => if nz (dend - used)
                        then set_mode URSUS_UBI_FIP_REPAIR_INVALID (- EINVAL) ;;; sret 0
                        else sret 0
          end
    end.

(** Available PEBs and the LEBs a 1 MiB volume needs. *)
Definition ursus_ubi_fip_new_headroom : ST hw (Z + (Z * Z)) :=
  let* d := sget h_ubi in
  match d with
  | None => sret (inl (- ENODEV))
  | Some u => sret (inr (u_avail u, (URSUS_UBI_FIP_VOL_SIZE + u_leb_size u - 1) / u_leb_size u))
  end.

(** [current] becomes [backup] and [candidate] becomes [current], in one
    volume-table write. *)
Definition ursus_ubi_atomic_switch (current candidate backup : string) : ST hw Z :=
  let* d := sget h_ubi in
  match d with
  | None => sret (- ENODEV)
  | Some u =>
    let* old := ubi_open_volume_nm current in
    match old with
    | inl e => sret e
    | inr (i, _) =>
      let* new := ubi_open_volume_nm candidate in
      match new with
      | inl e => sret e
      | inr (j, _) => ubi_rename_volumes u [(i, backup); (j, current)]
      end
    end
  end.

(** * Vanilla environment reset *)

Definition URSUS_VANILLA_ENV_RESET_LEN : Z := 0x800.

(** One volume: zeros written, then read back. *)
Definition vanilla_reset_env_vol (vol : string) : ST hw Z :=
  let* r := run_command (UbiCheck vol) in
  if nz r then sret (- ENOENT)
  else
    ram_write URSUS_UBI_READBACK_ADDR (repeat 0 (Z.to_nat URSUS_VANILLA_ENV_RESET_LEN)) ;;;
    let* ret := run_command (UbiWrite URSUS_UBI_READBACK_ADDR vol URSUS_VANILLA_ENV_RESET_LEN) in
    if nz ret then sret (- EIO)
    else
      ram_write URSUS_UBI_READBACK_ADDR (repeat 0xa5 (Z.to_nat URSUS_VANILLA_ENV_RESET_LEN)) ;;;
      let* ret := run_command (UbiRead URSUS_UBI_READBACK_ADDR vol URSUS_VANILLA_ENV_RESET_LEN) in
      let* buf := ram_read URSUS_UBI_READBACK_ADDR URSUS_VANILLA_ENV_RESET_LEN in
      if nz ret || negb (forallb (fun b => b =? 0) buf) then sret (- EIO) else sret 0.
Definition ursus_vanilla_reset_env : ST hw Z :=
  let* r := vanilla_reset_env_vol "ubootenv" in
  if nz r then sret r else vanilla_reset_env_vol "ubootenv2".

(** * Stages *)

Definition step_precheck : ST fst_t Z :=
  let* r := ursus_detect_ubi_layout in
  let '(ret, is_ubi) := r in
  (match is_ubi with Some b => onctx (set_up_ubi_layout b) | None => sret tt end) ;;;
  if nz ret then ursus_update_fail_reason ret "PRECHECK_LAYOUT_DETECT_FAILED"
  else
    let* c := ctx id in
    let* ret := onhw (validate_kind_at (up_addr c) (up_len c) (negb (up_ubi_layout c)) (up_kind c)) in
    if nz ret then ursus_update_fail_reason ret "PRECHECK_FIP_VALIDATE_FAILED"
    else
      let* ret := (if is_vanilla (up_kind c) then onhw ursus_ubi_installed_bl2_matches_pin else sret 0) in
      if nz ret then ursus_update_fail_reason ret "PRECHECK_INSTALLED_BL2_NOT_PINNED"
      else advance URSUS_UP_PRECHECK
             (if up_ubi_layout c then URSUS_UP_UBI_ATTACH else URSUS_UP_STOCK_BACKUP).

(** The first 0x800 bytes and the last 16 KiB of [old] around the new FIP. *)
Definition stock_candidate_of (old fip : list Z) : list Z :=
  slice 0 URSUS_STOCK_FIP_OFF old ++ fip ++
  repeat 0xff (Z.to_nat (URSUS_STOCK_FIP_MAX - blen fip)) ++
  slice URSUS_STOCK_ENV_OFF (URSUS_STOCK_BOOT_SIZE - URSUS_STOCK_ENV_OFF) old.

(** [memset] and [memcpy] on a heap buffer. *)
Definition buf_set (buf : list Z) (off : Z) (l : list Z) : list Z :=
  take (Z.to_nat off) buf ++ l ++ drop (Z.to_nat off + length l) buf.

(** The stages of the stock layout need the master device that PRECHECK stored. *)
Definition with_nand (k : mtd_info -> ST fst_t Z) : ST fst_t Z :=
  let* n := ctx up_nand in
  match n with Some n => k n | None => ursus_update_fail (- ENODEV) end.

Definition step_stock_backup : ST fst_t Z := with_nand (fun nand =>
  let* ret := onhw (ursus_bad_in_range nand 0 URSUS_STOCK_BOOT_SIZE) in
  if nz ret then ursus_update_fail (if ret <? 0 then ret else - EIO)
  else
    let* ok1 := onhw malloc in
    let* ok2 := onhw malloc in
    onctx (fun c => set_up_stock_candidate (if ok1 then Some [] else None)
                      (set_up_stock_readback (if ok2 then Some [] else None) c)) ;;;
    if negb ok1 || negb ok2 then ursus_update_fail (- ENOMEM)
    else
      let* r := onhw (ursus_read_exact nand 0 URSUS_STOCK_BOOT_SIZE) in
      let '(ret, old) := r in
      onctx (set_up_stock_candidate (Some old)) ;;;
      if nz ret then ursus_update_fail ret
      else
        let* ok := onhw malloc in
        match ursus_fip_validate_current ok (slice URSUS_STOCK_FIP_OFF URSUS_STOCK_FIP_MAX old) with
        | inl e => ursus_update_fail e
        | inr old_end =>
          if URSUS_STOCK_FIP_MAX <=? old_end then ursus_update_fail (- EINVAL)
          else
            let cand := buf_set old URSUS_STOCK_FIP_OFF (repeat 0xff (Z.to_nat URSUS_STOCK_FIP_MAX)) in
            onctx (set_up_stock_candidate (Some cand)) ;;;
            let* c := ctx id in
            if up_addr c =? 0 then ursus_update_fail (- ENOMEM)
            else
              let* src := onhw (ram_read (up_addr c) (up_len c)) in
              onctx (set_up_stock_candidate (Some (buf_set cand URSUS_STOCK_FIP_OFF src))) ;;;
              advance URSUS_UP_STOCK_BACKUP URSUS_UP_STOCK_ERASE
        end).

Definition step_stock_erase : ST fst_t Z := with_nand (fun nand =>
  onctx (fun c => set_up_commit_started true (set_up_write_started true c)) ;;;
  let* ret := onhw (mtd_erase nand 0 URSUS_STOCK_BOOT_SIZE) in
  if nz ret then ursus_update_fail ret
  else advance URSUS_UP_STOCK_ERASE URSUS_UP_STOCK_WRITE).

Definition step_stock_write : ST fst_t Z := with_nand (fun nand =>
  let* cand := ctx up_stock_candidate in
  let* r := onhw (mtd_write nand 0 (default [] cand)) in
  let '(ret, written) := r in
  if nz ret || nz (written - URSUS_STOCK_BOOT_SIZE)
  then ursus_update_fail (if nz ret then ret else - EIO)
  else advance URSUS_UP_STOCK_WRITE URSUS_UP_STOCK_VERIFY).

Definition step_stock_verify : ST fst_t Z := with_nand (fun nand =>
  let* cand := ctx up_stock_candidate in
  let* r := onhw (ursus_read_exact nand 0 URSUS_STOCK_BOOT_SIZE) in
  let '(ret, rb) := r in
  onctx (set_up_stock_readback (Some rb)) ;;;
  if nz ret || negb (memeq (default [] cand) rb)
  then ursus_update_fail (if nz ret then ret else - EBADMSG)
  else
    onctx (fun c =>
      set_up_stock_readback None (set_up_stock_candidate None
        (set_up_active false (set_up_stage URSUS_UP_COMPLETE
          (set_up_last_success_stage URSUS_UP_STOCK_VERIFY c))))) ;;;
    sret 1).

Definition step_ubi_attach : ST fst_t Z :=
  let* ret := ursus_update_ensure_ubi_attachment in
  if nz ret then ursus_update_fail_reason ret
                   (if ret =? - EXDEV then "UBI_ATTACHMENT_MISMATCH" else "UBI_ATTACH_FAILED")
  else
    let* ret := ursus_ubi_classify_active_fip in
    if nz ret then ursus_update_fail_reason ret "UBI_ACTIVE_FIP_CLASSIFY_FAILED"
    else
      let* c := ctx id in
      if negb (bool_decide (up_ubi_fip_mode c = URSUS_UBI_FIP_NORMAL)) && is_vanilla (up_kind c)
      then if bool_decide (up_ubi_fip_mode c = URSUS_UBI_FIP_REPAIR_MISSING)
           then ursus_update_fail_reason (- ENOENT) "UBI_ACTIVE_FIP_MISSING"
           else ursus_update_fail_reason (- EBADMSG) "UBI_ACTIVE_FIP_INVALID"
      else advance URSUS_UP_UBI_ATTACH URSUS_UP_UBI_STAGE_PREP.

(** [if (!run_command("ubi check v")) run_command("ubi remove v")]. *)
Definition check_remove (vol : string) : ST hw unit :=
  let* r := run_command (UbiCheck vol) in
  if nz r then sret tt else let* _r := run_command (UbiRemove vol) in sret tt.

Definition step_ubi_stage_create : ST fst_t Z :=
  let* ret := onhw (run_command (UbiCreate "fip.new" 0x100000 false UBI_VOL_NUM_AUTO)) in
  if nz ret then ursus_update_fail ret
  else advance URSUS_UP_UBI_STAGE_PREP URSUS_UP_UBI_STAGE_WRITE.

Definition step_ubi_stage_prep : ST fst_t Z :=
  onctx (set_up_write_started true) ;;;
  let* c := ctx id in
  let mode := up_ubi_fip_mode c in
  onhw (check_remove "fip.new") ;;;
  (if bool_decide (mode = URSUS_UBI_FIP_NORMAL) then onhw (check_remove "fip.old") else sret tt) ;;;
  onhw (check_remove "fip.bad") ;;;
  let* hr := onhw ursus_ubi_fip_new_headroom in
  match hr with
  | inl e => ursus_update_fail_reason e "UBI_HEADROOM_UNKNOWN"
  | inr (avail, need) =>
    if (avail <? need) && bool_decide (mode = URSUS_UBI_FIP_REPAIR_INVALID)
       && nz (up_ubi_fip_invalid_ret c + ENODEV) then
      let* ret := onhw (run_command (UbiRemove "fip")) in
      if nz ret then ursus_update_fail_reason ret "RECOVERY_INVALID_FIP_REMOVE_FAILED"
      else
        onctx (set_up_ubi_fip_mode URSUS_UBI_FIP_REPAIR_MISSING) ;;;
        let* hr := onhw ursus_ubi_fip_new_headroom in
        match hr with
        | inl e => ursus_update_fail_reason e "UBI_HEADROOM_UNKNOWN"
        | inr (avail, need) =>
          if avail <? need then ursus_update_fail_reason (- ENOSPC) "UBI_NO_SPACE_FOR_FIP_NEW"
          else step_ubi_stage_create
        end
    else if avail <? need then ursus_update_fail_reason (- ENOSPC) "UBI_NO_SPACE_FOR_FIP_NEW"
    else step_ubi_stage_create
  end.

Definition step_ubi_stage_write : ST fst_t Z :=
  let* c := ctx id in
  let* ret := onhw (run_command (UbiWrite (up_addr c) "fip.new" (up_len c))) in
  if nz ret then ursus_update_fail ret
  else advance URSUS_UP_UBI_STAGE_WRITE URSUS_UP_UBI_STAGE_VERIFY.

Definition step_ubi_stage_verify : ST fst_t Z :=
  let* c := ctx id in
  let* ret := onhw (run_command (UbiRead URSUS_UBI_READBACK_ADDR "fip.new" (up_len c))) in
  if nz ret then ursus_update_fail ret
  else
    let* ret := onhw (validate_kind_at URSUS_UBI_READBACK_ADDR (up_len c) false (up_kind c)) in
    if nz ret then ursus_update_fail ret
    else if up_addr c =? 0 then ursus_update_fail (- ENOMEM)
    else
      let* src := onhw (ram_read (up_addr c) (up_len c)) in
      let* rb := onhw (ram_read URSUS_UBI_READBACK_ADDR (up_len c)) in
      if negb (memeq src rb) then ursus_update_fail (- EBADMSG)
      else advance URSUS_UP_UBI_STAGE_VERIFY URSUS_UP_UBI_PROMOTE.

Definition step_ubi_promote : ST fst_t Z :=
  onctx (set_up_commit_started true) ;;;
  let* mode := ctx up_ubi_fip_mode in
  match mode with
  | URSUS_UBI_FIP_REPAIR_MISSING =>
    let* ret := onhw (run_command (UbiRename "fip.new" "fip")) in
    if nz ret then ursus_update_fail_reason ret "RECOVERY_FIP_RENAME_FAILED"
    else advance URSUS_UP_UBI_PROMOTE URSUS_UP_UBI_VERIFY
  | URSUS_UBI_FIP_REPAIR_INVALID =>
    let* ret := onhw (ursus_ubi_atomic_switch "fip" "fip.new" "fip.bad") in
    if nz ret then ursus_update_fail_reason ret "RECOVERY_INVALID_FIP_PROMOTE_FAILED"
    else advance URSUS_UP_UBI_PROMOTE URSUS_UP_UBI_VERIFY
  | URSUS_UBI_FIP_NORMAL =>
    let* ret := onhw (ursus_ubi_atomic_switch "fip" "fip.new" "fip.old") in
    if nz ret then ursus_update_fail ret
    else advance URSUS_UP_UBI_PROMOTE URSUS_UP_UBI_VERIFY
  end.

(** The check that decides between completion and rollback. *)
Definition postcommit_check (c : update_ctx) : ST hw Z :=
  let* ret := run_command (UbiRead URSUS_UBI_READBACK_ADDR "fip" (up_len c)) in
  if nz ret then sret ret
  else validate_kind_at URSUS_UBI_READBACK_ADDR (up_len c) false (up_kind c).

Definition step_ubi_verify : ST fst_t Z :=
  let* c := ctx id in
  let* ret := onhw (postcommit_check c) in
  if nz ret then
    if bool_decide (up_ubi_fip_mode c = URSUS_UBI_FIP_REPAIR_MISSING) then
      onhw (check_remove "fip.bad") ;;;
      let* _q := onhw (run_command (UbiRename "fip" "fip.bad")) in
      ursus_update_fail_reason ret "RECOVERY_FIP_POSTCOMMIT_VERIFY_FAILED"
    else advance URSUS_UP_UBI_VERIFY URSUS_UP_UBI_ROLLBACK
  else
    let* env := (if is_vanilla (up_kind c) then onhw ursus_vanilla_reset_env else sret 0) in
    if nz env then advance URSUS_UP_UBI_VERIFY URSUS_UP_UBI_ROLLBACK
    else onctx (fun c => set_up_active false (set_up_stage URSUS_UP_COMPLETE c)) ;;; sret 1.

Definition step_ubi_rollback : ST fst_t Z :=
  let* mode := ctx up_ubi_fip_mode in
  match mode with
  | URSUS_UBI_FIP_REPAIR_INVALID =>
    let* ret := onhw (ursus_ubi_atomic_switch "fip" "fip.bad" "fip.new") in
    if nz ret then ursus_update_fail_reason ret "RECOVERY_INVALID_FIP_ROLLBACK_FAILED"
    else ursus_update_fail (- EBADMSG)
  | URSUS_UBI_FIP_REPAIR_MISSING =>
    ursus_update_fail_reason (- EINVAL) "RECOVERY_MISSING_FIP_ROLLBACK_UNREACHABLE"
  | URSUS_UBI_FIP_NORMAL =>
    onhw (check_remove "fip.bad") ;;;
    let* ret := onhw (ursus_ubi_atomic_switch "fip" "fip.old" "fip.bad") in
    if nz ret then ursus_update_fail ret else ursus_update_fail (- EBADMSG)
  end.

(** * The stage machine *)

Definition URSUS_UPDATE_STAGE_HOLD_MS : Z := 250.

Definition step_stage (s : ursus_update_stage) : ST fst_t Z :=
  match s with
  | URSUS_UP_PRECHECK => step_precheck
  | URSUS_UP_STOCK_BACKUP => step_stock_backup
  | URSUS_UP_STOCK_ERASE => step_stock_erase
  | URSUS_UP_STOCK_WRITE => step_stock_write
  | URSUS_UP_STOCK_VERIFY => step_stock_verify
  | URSUS_UP_UBI_ATTACH => step_ubi_attach
  | URSUS_UP_UBI_STAGE_PREP => step_ubi_stage_prep
  | URSUS_UP_UBI_STAGE_WRITE => step_ubi_stage_write
  | URSUS_UP_UBI_STAGE_VERIFY => step_ubi_stage_verify
  | URSUS_UP_UBI_PROMOTE => step_ubi_promote
  | URSUS_UP_UBI_VERIFY => step_ubi_verify
  | URSUS_UP_UBI_ROLLBACK => step_ubi_rollback
  | _ => ursus_update_fail (- EINVAL)
  end.

Definition ursus_fip_update_step : ST fst_t Z :=
  let* c := ctx id in
  if negb (up_active c) then
    sret (match up_stage c with
          | URSUS_UP_COMPLETE => 1 | URSUS_UP_FAILED => up_error c | _ => 0 end)
  else if negb (up_announced c) then
    let* now := onhw (get_timer 0) in
    onctx (fun c => set_up_announced_at now (set_up_announced true c)) ;;; sret 0
  else
    let* held := onhw (get_timer (up_announced_at c)) in
    if held <? URSUS_UPDATE_STAGE_HOLD_MS then sret 0
    else onctx (set_up_announced false) ;;; step_stage (up_stage c).

Definition ursus_fip_update_start_kind (addr len : Z) (kind : ursus_fip_kind) : ST fst_t Z :=
  let* act := ctx up_active in
  if act then sret (- EBUSY)
  else
    onctx up_zero ;;;
    let* r := ursus_detect_ubi_layout in
    match r with
    | (ret, None) => sret ret
    | (_, Some is_ubi) =>
      let* ret := onhw (validate_kind_at addr len (negb is_ubi) kind) in
      if nz ret then sret ret
      else
        let* ret := (if is_vanilla kind then onhw ursus_ubi_installed_bl2_matches_pin else sret 0) in
        if nz ret then sret ret
        else if addr =? 0 then sret (- ENOMEM)
        else
          let* buf := onhw (ram_read addr len) in
          onctx (fun c =>
            MkUp kind URSUS_UP_PRECHECK (up_failed_stage c) (up_last_success_stage c) addr len
              (up_error c) true (up_announced c) (up_announced_at c) is_ubi (up_ubi_fip_mode c)
              (up_ubi_fip_invalid_ret c) (up_commit_started c) (up_write_started c)
              (up_error_code c) (sha256 buf) (up_stock_candidate c) (up_stock_readback c)
              (up_nand c) (up_ubi_part_mtd c) (up_parts_ready c)) ;;;
          sret 0
    end.

Definition ursus_fip_update_start (addr len : Z) : ST fst_t Z :=
  ursus_fip_update_start_kind addr len URSUS_FIP_KIND_URSUS.
Definition ursus_vanilla_fip_update_start (addr len : Z) : ST fst_t Z :=
  ursus_fip_update_start_kind addr len URSUS_FIP_KIND_VANILLA.

(** The loop of [ursus_update_run]; [None] when the fuel runs out. *)
Fixpoint update_run_loop (fuel : nat) : ST fst_t (option Z) :=
  let* act := ctx up_active in
  if negb act then
    let* c := ctx id in
    sret (Some (if ursus_fip_update_complete c then 0 else up_error c))
  else match fuel with
  | O => sret None
  | S fuel' =>
    let* ret := ursus_fip_update_step in
    if ret <? 0 then sret (Some ret)
    else onhw (mdelay 10) ;;; update_run_loop fuel'
  end.
Definition ursus_update_run (fuel : nat) (addr len : Z) (kind : ursus_fip_kind) : ST fst_t (option Z) :=
  let* ret := ursus_fip_update_start_kind addr len kind in
  if nz ret then sret (Some ret) else update_run_loop fuel.

(** * The shell command *)

Inductive update_args :=
  | UpCheck (addr len : Z) | UpWrite (addr len : Z)
  | UpVanillaCheck (addr len : Z) | UpVanillaWrite (addr len : Z) (confirm : string)
  | UpOther.

Definition cmd_ret (r : Z) : Z := if nz r then CMD_RET_FAILURE else CMD_RET_SUCCESS.

Definition do_ursusupdate (fuel : nat) (a : update_args) : ST fst_t (option Z) :=
  match a with
  | UpCheck addr len =>
    let* r := ursus_detect_ubi_layout in
    match r with
    | (_, None) => sret (Some CMD_RET_FAILURE)
    | (_, Some is_ubi) =>
      let* ret := onhw (validate_kind_at addr len (negb is_ubi) URSUS_FIP_KIND_URSUS) in
      sret (Some (cmd_ret ret))
    end
  | UpWrite addr len =>
    let* r := ursus_update_run fuel addr len URSUS_FIP_KIND_URSUS in sret (cmd_ret <$> r)
  | UpVanillaCheck addr len =>
    let* r := ursus_detect_ubi_layout in
    match r with
    | (_, None) => sret (Some CMD_RET_FAILURE)
    | (_, Some is_ubi) =>
      let* ret := onhw (validate_kind_at addr len (negb is_ubi) URSUS_FIP_KIND_VANILLA) in
      if nz ret then sret (Some CMD_RET_FAILURE)
      else let* ret := onhw ursus_ubi_installed_bl2_matches_pin in sret (Some (cmd_ret ret))
    end
  | UpVanillaWrite addr len confirm =>
    if bool_decide (confirm = "REPLACE-URSUSBOOT-WITH-VANILLA"%string) then
      let* r := ursus_update_run fuel addr len URSUS_FIP_KIND_VANILLA in sret (cmd_ret <$> r)
    else sret (Some CMD_RET_USAGE)
  | UpOther => sret (Some CMD_RET_USAGE)
  end.
End engine.
