(* ===== verification/FipSafety.v ===== *)
(** Power-loss safety of the UBI FIP update.

    The invariant [K] of a run over a healthy active [fip]: every volume table
    that is or was on flash has an unmarked [fip] whose content is either the
    original FIP or the validated candidate; stage by stage it records which
    volumes hold what.  [K] is preserved by every step of the engine and by the
    moves of its environment. *)
From S2P Require Import Prelude Bytes Fip FipTheory Flash Ubi UbiTable Shell UbiSpec UbiIo ShellSpec Bl2 ReadOnly FipUpdate.

(** * Rules shared by the engine proofs *)

Section rules.
Context {P : Platform} {X : Ext} {B : Board}.

Lemma fail_reason_spec ret code h c (R : Z -> fst_t -> Prop) :
  (forall r c', up_addr c' = up_addr c -> up_len c' = up_len c -> up_kind c' = up_kind c ->
     up_ubi_fip_mode c' = up_ubi_fip_mode c -> up_write_started c' = up_write_started c ->
     up_stage c' = URSUS_UP_FAILED -> up_active c' = false -> R r (h, c')) ->
  wp (ursus_update_fail_reason ret code) R (h, c).
Proof. intros HR. unfold ursus_update_fail_reason. wps. destruct c. apply HR; done. Qed.
Lemma fail_spec ret h c (R : Z -> fst_t -> Prop) :
  (forall r c', up_addr c' = up_addr c -> up_len c' = up_len c -> up_kind c' = up_kind c ->
     up_ubi_fip_mode c' = up_ubi_fip_mode c -> up_write_started c' = up_write_started c ->
     up_stage c' = URSUS_UP_FAILED -> up_active c' = false -> R r (h, c')) ->
  wp (ursus_update_fail ret) R (h, c).
Proof. intros HR. unfold ursus_update_fail. wps. by apply fail_reason_spec. Qed.
Lemma advance_spec last next h c (R : Z -> fst_t -> Prop) :
  R 0 (h, set_up_stage next (set_up_last_success_stage last c)) -> wp (advance last next) R (h, c).
Proof. intros HR. unfold advance. by wps. Qed.

#[export] Instance validate_kind_at_ro a n l k : ReadOnly (validate_kind_at a n l k).
Proof. unfold validate_kind_at. apply _. Qed.

(** What a successful validation says of the RAM image. *)
Definition image_ok (kind : ursus_fip_kind) (stock_limit : bool) (img : list Z) : Prop :=
  exists ok addr, addr <> 0 /\ ursus_fip_validate_kind ok addr img stock_limit kind = 0.
Lemma validate_kind_at_spec a n l k h (R : Z -> hw -> Prop) :
  (forall t, image_ok k l (mread (h_ram h) a n) -> R 0 (set_tick t h)) ->
  (forall r t, r <> 0 -> R r (set_tick t h)) ->
  wp (validate_kind_at a n l k) R h.
Proof.
  intros Hok Herr. unfold validate_kind_at. wps. apply malloc_spec. intros b t. wps.
  unfold ram_read. wps.
  destruct (decide (ursus_fip_validate_kind b a (mread (h_ram (set_tick t h)) a n) l k = 0)) as [H|H].
  - rewrite H. apply Hok. exists b, a. destruct h. split; [|exact H]. intros ->. by destruct k, l.
  - by apply Herr.
Qed.
End rules.

(** * Commands on a device satisfying [DS] *)

Section commands.
Context {P : Platform} {X : Ext} {B : Board}.
Variable Q : gmap string volume -> Prop.

(** After [check_remove n]: [n] is gone, or the device is read-only and unchanged. *)
Definition removed (n : string) (u u' : ubi_dev) : Prop :=
  (vmap (u_vols u') = delete n (vmap (u_vols u)) /\ u_ro u' = u_ro u) \/
  (u_ro u' = true /\ u_vols u' = u_vols u).

Lemma check_remove_spec n u h (R : unit -> hw -> Prop) :
  DS Q u h -> n <> "layout volume"%string ->
  (u_ro u = false -> Q (nm (delete n (vmap (u_vols u))))) ->
  (forall u' h', stepped Q u h u' h' -> removed n u u' -> R tt h') ->
  wp (check_remove n) R h.
Proof.
  intros HD Hn HQ HR. unfold check_remove. wps. eapply check_spec; [done|done| |].
  - intros v Hv. simpl. wps. eapply remove_cmd_spec; [done|done| |].
    + intros v' u' h' Hst Hro Hro' _ Hm. wps. apply (HR u'); [done|]. left. split; congruence.
    + intros u' h' Hst Hv' [Hro|Hnone]; wps; [apply (HR u'); [done|by right]|congruence].
  - intros Hnone. simpl. wps. apply (HR u); [by apply stepped_refl|].
    left. by rewrite delete_id.
Qed.

Lemma atomic_switch_spec cur cand bak u h (R : Z -> hw -> Prop) :
  DS Q u h -> cur <> cand -> bak <> cur -> bak <> cand ->
  (u_ro u = false -> vmap (u_vols u) !! bak = None) ->
  (forall a b, u_ro u = false -> vmap (u_vols u) !! cur = Some a -> vmap (u_vols u) !! cand = Some b ->
     Q (nm (switched (vmap (u_vols u)) cur cand bak a b))) ->
  (forall a b u' h', stepped Q u h u' h' -> u_ro u' = false ->
     vmap (u_vols u) !! cur = Some a -> vmap (u_vols u) !! cand = Some b ->
     vmap (u_vols u') = switched (vmap (u_vols u)) cur cand bak a b -> R 0 h') ->
  (forall r u' h', r < 0 -> stepped Q u h u' h' -> u_vols u' = u_vols u -> R r h') ->
  wp (ursus_ubi_atomic_switch cur cand bak) R h.
Proof.
  intros HD H1 H2 H3 Hbak HQ Hok Herr. unfold ursus_ubi_atomic_switch. wps.
  rewrite (DS_ubi _ _ _ HD). wps.
  assert (forall k, stepped Q u h u (set_tick k h)) as Hst by (intros; apply stepped_tick, stepped_refl, HD).
  eapply open_spec; [done| |intros; wps; by eapply Herr].
  intros i a k Hi. wps. eapply open_spec; [by apply DS_tick| |].
  2:{ intros. wps. eapply Herr; [done|rewrite set_tick_twice; apply Hst|done]. }
  intros j b k' Hj. rewrite set_tick_twice.
  pose proof HD as (t & _ & Hun & _).
  pose proof (find_Some_vmap _ _ _ _ Hi) as Ha. pose proof (find_Some_vmap _ _ _ _ Hj) as Hb.
  assert (u_ro u = false -> uniq (rename_slots [(i, bak); (j, cur)] (u_vols u)) /\
            vmap (rename_slots [(i, bak); (j, cur)] (u_vols u)) = switched (vmap (u_vols u)) cur cand bak a b) as Hsw.
  { intros Hro. apply vmap_switch; auto. }
  eapply rename_spec; [by apply DS_tick|done| | |].
  - intros Hro. destruct (Hsw Hro) as [Hu' Hm']. split; [done|]. rewrite Hm'. auto.
  - intros u' h' Hst' Hro Hro' Hv'. eapply (Hok a b u'); [eauto using stepped_trans|done|done|done|].
    rewrite Hv'. by apply Hsw.
  - intros r u' h' Hr Hst' Hv' _. eapply (Herr r u'); eauto using stepped_trans.
Qed.
End commands.

(** * The invariant *)

Section invariant.
Context {P : Platform} {X : Ext} {B : Board}.
(** The candidate in RAM, the kind of update, and the [fip] volume the update
    starts from. *)
Context (addr len : Z) (kind : ursus_fip_kind) (cand : list Z) (v0 : volume).

(** The candidate does not overlap the 1 MiB readback buffer. *)
Definition ram_disjoint : Prop :=
  addr + len <= URSUS_UBI_READBACK_ADDR \/ URSUS_UBI_READBACK_ADDR + URSUS_UBI_FIP_VOL_SIZE <= addr.

Definition Orig (v : volume) : Prop :=
  v_upd_marker v = false /\ v_used v = v_used v0 /\ v_data v = v_data v0.
Definition IsCand (v : volume) : Prop :=
  v_upd_marker v = false /\ v_used v = len /\ vol_bytes v len = cand /\ image_ok kind false cand.
Definition Good (v : volume) : Prop := Orig v \/ IsCand v.
(** The boot FIP of a volume table is intact. *)
Definition fip_safe (m : gmap string volume) : Prop := exists v, m !! "fip" = Some v /\ Good v.

(** Now and at every past moment. *)
Definition hist_safe (h : hw) : Prop :=
  Forall (area_ok fip_safe URSUS_UBI_BASE) (h_areas h :: h_hist h).

Definition is_update_part (n : string) : Prop := n = "ursus-ubi-full"%string \/ n = "ursus-update-ubi"%string.
(** Registered devices: the update partitions and the master sit where the
    tables put them. *)
Definition mtds_ok (l : list mtd_info) : Prop :=
  Forall (fun m => (is_update_part (m_name m) -> m_off m = URSUS_UBI_BASE) /\
                   (m_part m = false -> m_off m = 0)) l.

(** A device attached on an update partition. *)
Definition dev_sane (t : vtable) (u : ubi_dev) : Prop :=
  u_off u = URSUS_UBI_BASE /\ u_leb_size u = UBI_LEB_SIZE /\ uniq (u_vols u) /\
  (u_ro u = true \/ stored (u_vols u) = t).

(** Before the attachment. *)
Record unattached (h : hw) (c : update_ctx) : Prop := {
  un_table : exists t, h_areas h URSUS_UBI_BASE = UA_table t /\ uniq t /\ stored t = t /\
    (exists v, vmap t !! "fip" = Some v /\ Orig v) /\
    (forall u, h_ubi h = Some u -> is_update_part (u_mtd u) -> dev_sane t u);
  un_hdr : mread (h_nand h) URSUS_UBI_BASE 4 = bytes_of "UBI#";
  un_mtds : mtds_ok (h_mtds h);
  un_part : forall m, up_ubi_part_mtd c = Some m -> is_update_part (m_name m);
  un_ready : up_parts_ready c = true -> is_Some (up_ubi_part_mtd c);
}.

(** The attached device with its live table. *)
Definition on_dev (h : hw) (F : ubi_dev -> gmap string volume -> Prop) : Prop :=
  exists u, DS fip_safe u h /\ u_off u = URSUS_UBI_BASE /\ u_leb_size u = UBI_LEB_SIZE /\
            F u (vmap (u_vols u)).

Definition at_vol (m : gmap string volume) (n : string) (F : volume -> Prop) : Prop :=
  exists v, m !! n = Some v /\ F v.

Definition stage_facts (s : ursus_update_stage) (h : hw) (c : update_ctx) : Prop :=
  match s with
  | URSUS_UP_PRECHECK | URSUS_UP_UBI_ATTACH => unattached h c
  | URSUS_UP_UBI_STAGE_PREP =>
    on_dev h (fun u m => u_ro u = true \/ at_vol m "fip" Orig)
  | URSUS_UP_UBI_STAGE_WRITE =>
    on_dev h (fun u m => u_ro u = false /\ at_vol m "fip" Orig /\ m !! "fip.old" = None /\
                         at_vol m "fip.new" (fun v => v_static v = true))
  | URSUS_UP_UBI_STAGE_VERIFY =>
    on_dev h (fun u m => u_ro u = false /\ at_vol m "fip" Orig /\ m !! "fip.old" = None /\
                         at_vol m "fip.new" (fun v => v_used v = len /\ v_upd_marker v = false))
  | URSUS_UP_UBI_PROMOTE =>
    on_dev h (fun u m => u_ro u = false /\ at_vol m "fip" Orig /\ m !! "fip.old" = None /\
                         at_vol m "fip.new" IsCand)
  | URSUS_UP_UBI_VERIFY | URSUS_UP_COMPLETE =>
    on_dev h (fun u m => u_ro u = false /\ at_vol m "fip" IsCand /\ at_vol m "fip.old" Orig)
  | URSUS_UP_UBI_ROLLBACK =>
    on_dev h (fun u m => at_vol m "fip" IsCand /\ at_vol m "fip.old" Orig)
  | URSUS_UP_IDLE | URSUS_UP_FAILED => True
  | _ => False
  end.

Record K (h : hw) (c : update_ctx) : Prop := {
  k_addr : up_addr c = addr;
  k_len : up_len c = len;
  k_kind : up_kind c = kind;
  k_ram : mread (h_ram h) addr len = cand;
  k_hist : hist_safe h;
  k_stage : stage_facts (up_stage c) h c;
}.

(** Runs whose active FIP was classified healthy. *)
Definition watched (c : update_ctx) : Prop :=
  up_ubi_fip_mode c = URSUS_UBI_FIP_NORMAL \/ up_stage c = URSUS_UP_PRECHECK \/
  up_stage c = URSUS_UP_UBI_ATTACH.
Definition J (s : fst_t) : Prop := watched (snd s) -> K (fst s) (snd s).

Hypothesis Hlen : 0 < len <= URSUS_UBI_FIP_VOL_SIZE.
Hypothesis Hdisj : ram_disjoint.
Hypothesis Hv0 : 0 <= v_used v0.
Hypothesis Haddr : addr <> 0.

(** ** Closure properties of [fip_safe] *)

Lemma Orig_upd v b : Orig (set_updating b v) <-> Orig v.
Proof. by destruct v. Qed.
Lemma IsCand_upd v b : IsCand (set_updating b v) <-> IsCand v.
Proof. by destruct v. Qed.
Lemma Orig_name v n : Orig (set_name n v) <-> Orig v.
Proof. by destruct v. Qed.
Lemma IsCand_name v n : IsCand (set_name n v) <-> IsCand v.
Proof. by destruct v. Qed.

Lemma fip_safe_nm m : fip_safe (nm m) <-> fip_safe m.
Proof.
  unfold fip_safe, Good. split.
  - intros (v & Hv & HG). rewrite nm_lookup in Hv. destruct (m !! "fip") as [w|] eqn:Hm; [|done].
    simpl in Hv. simplify_eq. rewrite Orig_upd, IsCand_upd in HG. eauto.
  - intros (v & Hv & HG). exists (set_updating false v). rewrite nm_lookup, Hv, Orig_upd, IsCand_upd. auto.
Qed.
Lemma fip_safe_other m m' : m' !! "fip" = m !! "fip" -> fip_safe m -> fip_safe m'.
Proof. unfold fip_safe. by intros ->. Qed.

(** A synchronised device: its live table is safe. *)
Lemma live_safe u h : DS fip_safe u h -> u_ro u = false -> fip_safe (vmap (u_vols u)).
Proof.
  intros (t & HF & _ & [?|Hs]) Hro; [congruence|]. pose proof (fs_Q _ _ _ _ HF) as HQ.
  rewrite <- Hs, vmap_stored in HQ. by apply (fip_safe_nm (vmap (u_vols u))) in HQ.
Qed.
Lemma safe_delete u h n :
  DS fip_safe u h -> n <> "fip"%string -> u_ro u = false -> fip_safe (nm (delete n (vmap (u_vols u)))).
Proof.
  intros HD Hn Hro. apply fip_safe_nm. eapply fip_safe_other; [|by eapply live_safe].
  by rewrite lookup_delete_ne.
Qed.
Lemma safe_insert u h n v :
  DS fip_safe u h -> n <> "fip"%string -> u_ro u = false -> fip_safe (nm (<[n := v]> (vmap (u_vols u)))).
Proof.
  intros HD Hn Hro. apply fip_safe_nm. eapply fip_safe_other; [|by eapply live_safe].
  by rewrite lookup_insert_ne.
Qed.

(** RAM facts. *)
Lemma ram_keep a n h h' :
  rframe a n h h' -> a = URSUS_UBI_READBACK_ADDR -> n <= URSUS_UBI_FIP_VOL_SIZE ->
  mread (h_ram h') addr len = mread (h_ram h) addr len.
Proof.
  intros Hfr -> Hn. apply mread_ext. intros x Hx. apply (rf_ram _ _ _ _ Hfr).
  unfold ram_disjoint in Hdisj. lia.
Qed.

Lemma K_tick h c k : K h c -> K (set_tick k h) c.
Proof.
  intros []. split; try done; [by destruct h|by destruct h|].
  unfold stage_facts in *. destruct (up_stage c); try done;
    try (destruct k_stage0 as (u & HD & Ho & Hl & HF); exists u; split; [by apply DS_tick|done]).
  all: destruct k_stage0; by destruct h.
Qed.

(** ** Steps *)

Definition post (r : Z) (s : fst_t) : Prop := J s.
Lemma K_post h c r : K h c -> post r (h, c).
Proof. by intros HK _. Qed.

(** Facts every later stage keeps. *)
Definition base_facts (h : hw) (c : update_ctx) : Prop :=
  up_addr c = addr /\ up_len c = len /\ up_kind c = kind /\
  mread (h_ram h) addr len = cand /\ hist_safe h.

Lemma K_base h c : K h c -> base_facts h c.
Proof. by intros []. Qed.

Lemma fail_post ret code h c : base_facts h c -> wp (ursus_update_fail_reason ret code) post (h, c).
Proof.
  intros (? & ? & ? & ? & ?). apply fail_reason_spec. intros r c' Ha Hl Hk Hm Hw Hs _. apply K_post.
  split; try congruence. by rewrite Hs.
Qed.
Lemma fail_post' ret h c : base_facts h c -> wp (ursus_update_fail ret) post (h, c).
Proof. intros HK. unfold ursus_update_fail. wps. by apply fail_post. Qed.

Lemma DS_hist u h : DS fip_safe u h -> u_off u = URSUS_UBI_BASE -> hist_safe h.
Proof.
  intros (t & [] & _) Ho. unfold hist_safe. rewrite <- Ho. constructor; [|done]. by exists t.
Qed.

(** The next stage, from the facts of the device. *)
Lemma advance_post last next h c :
  K h c -> stage_facts next h c ->
  next <> URSUS_UP_PRECHECK -> next <> URSUS_UP_UBI_ATTACH ->
  wp (advance last next) post (h, c).
Proof.
  intros [] Hf H1 H2. apply advance_spec. apply K_post. split; try done; try by destruct c.
  replace (up_stage _) with next by by destruct c. by destruct next.
Qed.

Lemma detect_spec h c (R : Z * option bool -> fst_t -> Prop) :
  (forall r ob k nd, mread (h_nand h) URSUS_UBI_BASE 4 = bytes_of "UBI#" -> mtds_ok (h_mtds h) ->
     (r = 0 /\ ob = Some true \/ r <> 0 /\ ob = None) -> R (r, ob) (set_tick k h, set_up_nand nd c)) ->
  mread (h_nand h) URSUS_UBI_BASE 4 = bytes_of "UBI#" -> mtds_ok (h_mtds h) ->
  wp ursus_detect_ubi_layout R (h, c).
Proof.
  intros HR Hhdr Hm. unfold ursus_detect_ubi_layout. wps. unfold ursus_find_master_nand. wps.
  destruct (find _ (h_mtds h)) as [nd|] eqn:Hfind.
  2:{ wps. replace h with (set_tick (h_tick h) h) by by destruct h. apply HR; auto. }
  destruct (negb (nand_geometry_ok nd)).
  { wps. replace h with (set_tick (h_tick h) h) by by destruct h. apply HR; auto. }
  assert (m_off nd = 0) as Hoff.
  { apply find_some in Hfind as [Hin Hb]. apply andb_true_iff in Hb as [Hb _].
    unfold mtds_ok in Hm. rewrite List.Forall_forall in Hm. destruct (Hm nd Hin) as [_ Hp].
    apply Hp. by apply negb_true_iff in Hb. }
  wps. unfold ursus_read_exact, mtd_read. wps. destruct (_ || _).
  { wps. simpl. wps. replace h with (set_tick (h_tick h) h) by by destruct h. apply HR; auto. }
  simpl. wps. apply out_spec. intros o k Ho. wps.
  assert (h_nand (set_tick k h) = h_nand h) as -> by by destruct h. rewrite Hoff, Z.add_0_l.
  destruct (negb (nz _) && (blen _ =? 4)) eqn:Hc; simpl; wps; [|apply HR; auto].
  apply andb_true_iff in Hc as [_ Hl%Z.eqb_eq]. apply HR; [done|done|left]. split; [done|].
  destruct (o_len o) as [l|]; cbn [from_option] in *; unfold id in *.
  - assert (mread (h_nand h) URSUS_UBI_BASE l = mread (h_nand h) URSUS_UBI_BASE 4) as ->.
    { unfold blen in Hl. rewrite length_mread in Hl. unfold mread. by replace (Z.to_nat l) with (Z.to_nat 4) by lia. }
    by rewrite Hhdr.
  - by rewrite Hhdr.
Qed.

Lemma unattached_ext h c c' :
  up_ubi_part_mtd c' = up_ubi_part_mtd c -> up_parts_ready c' = up_parts_ready c ->
  unattached h c -> unattached h c'.
Proof. intros H1 H2 []. split; rewrite ?H1, ?H2; done. Qed.

Lemma precheck_post h c :
  K h c -> up_stage c = URSUS_UP_PRECHECK -> wp step_precheck post (h, c).
Proof.
  intros HK Hs. pose proof HK as [Ha Hl Hk Hr Hh Hst]. rewrite Hs in Hst.
  unfold step_precheck. wps. eapply detect_spec; [|apply Hst|apply Hst].
  intros r ob k nd _ _ Hcase.
  assert (K (set_tick k h) (set_up_nand nd c)) as HK1.
  { apply K_tick. split; try by destruct c. replace (up_stage _) with URSUS_UP_PRECHECK by by destruct c.
    by eapply unattached_ext; [..|exact Hst]; destruct c. }
  destruct Hcase as [[-> ->]|[Hr1 ->]].
  2:{ wps. rewrite (proj2 (nz_true r) Hr1). apply fail_post. by apply K_base. }
  simpl. wps. set (c2 := set_up_ubi_layout true (set_up_nand nd c)).
  assert (K (set_tick k h) c2 /\ up_stage c2 = URSUS_UP_PRECHECK /\ up_ubi_layout c2 = true) as (HK2 & Hs2 & Hl2).
  { destruct HK1 as [? ? ? ? ? Hf]. unfold c2. split; [split|]; try by destruct c.
    replace (up_stage (set_up_nand nd c)) with URSUS_UP_PRECHECK in Hf by by destruct c.
    replace (up_stage _) with URSUS_UP_PRECHECK by by destruct c.
    by eapply unattached_ext; [..|exact Hf]; destruct c. }
  clearbody c2. clear HK1. simpl. set (h2 := set_tick k h) in *. clearbody h2.
  eapply validate_kind_at_spec; [|intros r t Hr2; rewrite (proj2 (nz_true r) Hr2); apply fail_post; by apply K_base, K_tick].
  intros t _. simpl. wps.
  assert (forall k', wp (advance URSUS_UP_PRECHECK URSUS_UP_UBI_ATTACH) post (set_tick k' h2, c2)) as Hadv.
  { intros k'. apply (K_tick _ _ k') in HK2. destruct HK2 as [? ? ? ? ? Hf]. rewrite Hs2 in Hf.
    apply advance_spec. apply K_post. split; try by destruct c2.
    replace (up_stage _) with URSUS_UP_UBI_ATTACH by by destruct c2.
    by eapply unattached_ext; [..|exact Hf]; destruct c2. }
  rewrite Hl2. destruct (is_vanilla (up_kind c2)).
  - wps. apply wp_ro; [apply _|]. intros a k'. rewrite set_tick_twice.
    destruct (nz a); [apply fail_post; by apply K_base, K_tick|]. apply Hadv.
  - wps. simpl. apply Hadv.
Qed.

(** ** Attachment *)

Lemma get_mtd_named n l m :
  find (fun m => bool_decide (m_name m = n)) l = Some m -> In m l /\ m_name m = n.
Proof. intros [Hin Hb]%find_some. by apply bool_decide_eq_true in Hb. Qed.
Lemma mtds_ok_part n l m :
  mtds_ok l -> is_update_part n -> find (fun m => bool_decide (m_name m = n)) l = Some m ->
  m_off m = URSUS_UBI_BASE /\ m_name m = n.
Proof.
  intros Hm Hn [Hin <-]%get_mtd_named. split; [|done]. unfold mtds_ok in Hm.
  rewrite List.Forall_forall in Hm. by apply Hm.
Qed.

(** The context facts that survive until the attachment is done. *)
Definition at_attach (r : Z) (s : fst_t) : Prop :=
  K (fst s) (snd s) /\ up_stage (snd s) = URSUS_UP_UBI_ATTACH /\
  (r = 0 -> is_Some (up_ubi_part_mtd (snd s))).

Lemma at_attach_ctx r h c c' :
  K h c -> up_stage c = URSUS_UP_UBI_ATTACH -> up_stage c' = URSUS_UP_UBI_ATTACH ->
  up_addr c' = up_addr c -> up_len c' = up_len c -> up_kind c' = up_kind c ->
  (forall m, up_ubi_part_mtd c' = Some m -> is_update_part (m_name m)) ->
  (up_parts_ready c' = true -> is_Some (up_ubi_part_mtd c')) ->
  (r = 0 -> is_Some (up_ubi_part_mtd c')) -> at_attach r (h, c').
Proof.
  intros [] Hs Hs' Ha Hl Hk Hp Hr Hz. rewrite Hs in *. repeat split; simpl; try congruence; auto.
  rewrite Hs'. destruct k_stage0 as [Ht Hhdr Hm _ _]. by split.
Qed.

Lemma register_spec h c :
  K h c -> up_stage c = URSUS_UP_UBI_ATTACH -> wp ursus_update_register_ubi_part at_attach (h, c).
Proof.
  intros HK Hs. pose proof HK as [_ _ _ _ _ Hst]. rewrite Hs in Hst. destruct Hst as [Ht Hhdr Hm Hp Hrd].
  unfold ursus_update_register_ubi_part. wps. destruct (up_parts_ready c) eqn:Hready.
  { wps. split; [done|]. by split; auto. }
  wps. unfold ursus_find_master_nand. wps.
  destruct (find _ (h_mtds h)) as [nd|] eqn:Hnd.
  2:{ wps. eapply at_attach_ctx; [done|done|..]; destruct c; simpl in *; try done; congruence. }
  destruct (negb (nand_geometry_ok nd)).
  { wps. eapply at_attach_ctx; [done|done|..]; destruct c; simpl in *; try done; congruence. }
  wps. unfold get_mtd_device_nm. wps. destruct (find (fun m => bool_decide _) (h_mtds h)) as [m|] eqn:Hfull.
  { wps. destruct (mtds_ok_part _ _ _ Hm (or_introl eq_refl) Hfull) as [_ Hn].
    eapply at_attach_ctx; [done|done|..]; destruct c; simpl in *; try done.
    intros m' [= <-]. by left. }
  wps. unfold add_mtd_partitions. wps. apply out_spec. intros o k Ho.
  destruct (nz (o_err o)) eqn:He.
  { wps. rewrite He. wps. eapply at_attach_ctx; [by apply K_tick|done|..]; destruct c; simpl in *; try done; try congruence.
    apply nz_true in He. lia. }
  wps. simpl. wps. set (h1 := set_mtds _ _).
  assert (K h1 c /\ mtds_ok (h_mtds h1)) as [HK1 Hm1].
  { assert (mtds_ok (h_mtds h1)) as Hm1.
    { unfold h1. destruct h; simpl in *. apply Forall_app. split; [done|]. constructor; [|done]. simpl.
      apply find_some in Hnd as [Hin Hb]. apply andb_true_iff in Hb as [Hb%negb_true_iff _].
      unfold mtds_ok in Hm. rewrite List.Forall_forall in Hm. destruct (Hm nd Hin) as [_ Hz].
      rewrite (Hz Hb). done. }
    split; [|done]. destruct HK as [? ? ? ? ? Hf]. split; try done; try (unfold h1; by destruct h). rewrite Hs in *.
    destruct Hf. unfold h1 in *. destruct h; simpl in *. by split. }
  clearbody h1. destruct (find _ (h_mtds h1)) as [m|] eqn:Hup; wps.
  - destruct (mtds_ok_part _ _ _ Hm1 (or_intror eq_refl) Hup) as [_ Hn].
    eapply at_attach_ctx; [exact HK1|done|..]; destruct c; simpl in *; try done.
    intros m' [= <-]. by right.
  - eapply at_attach_ctx; [exact HK1|done|..]; destruct c; simpl in *; try done; congruence.
Qed.

(** Attached: the live [fip] is the original unless the device is read-only. *)
Definition attached_orig (h : hw) : Prop :=
  on_dev h (fun u m => u_ro u = true \/ at_vol m "fip" Orig).

Lemma sane_attached h t u :
  h_ubi h = Some u -> h_areas h URSUS_UBI_BASE = UA_table t -> uniq t ->
  at_vol (vmap t) "fip" Orig -> hist_safe h -> dev_sane t u -> attached_orig h.
Proof.
  intros Hu Ha Ht (v & Hv & HO) Hh (Ho & Hl & Hun & Hsy). exists u.
  assert (DS fip_safe u h) as HD.
  { exists t. split; [|done]. split; rewrite ?Ho; try done.
    - exists v. split; [done|by left].
    - unfold hist_safe in Hh. by inversion Hh. }
  repeat split; auto. destruct Hsy as [?|Hsy]; [by left|right].
  rewrite <- Hsy, vmap_stored, lookup_fmap in Hv.
  destruct (vmap (u_vols u) !! "fip") as [w|] eqn:Hw; [|done]. simpl in Hv. simplify_eq.
  exists w. split; [done|]. by apply (Orig_upd w false).
Qed.

Definition attach_done (r : Z) (s : fst_t) : Prop :=
  up_addr (snd s) = addr /\ up_len (snd s) = len /\ up_kind (snd s) = kind /\
  mread (h_ram (fst s)) addr len = cand /\ hist_safe (fst s) /\
  (r = 0 -> attached_orig (fst s)).

Lemma ubi_part_spec n h t (R : Z -> hw -> Prop) :
  h_ubi h = None -> h_areas h URSUS_UBI_BASE = UA_table t -> uniq t -> stored t = t ->
  at_vol (vmap t) "fip" Orig -> hist_safe h -> mtds_ok (h_mtds h) -> is_update_part n ->
  (forall h', h_ram h' = h_ram h -> attached_orig h' -> hist_safe h' -> R 0 h') ->
  (forall h', h_ram h' = h_ram h -> hist_safe h' -> R 1 h') ->
  wp (run_command (UbiPart n)) R h.
Proof.
  intros Hu Ha Ht Hst HO Hh Hm Hn Hok Herr. apply run_command_spec. simpl. unfold ubi_part. wps.
  rewrite Hu. unfold ubi_detach, get_mtd_device_nm. wps.
  assert (set_ubi None h = h) as -> by (destruct h; simpl in *; by subst).
  destruct (find _ (h_mtds h)) as [m|] eqn:Hf; [|wps; simpl; by apply Herr].
  destruct (mtds_ok_part _ _ _ Hm Hn Hf) as [Hoff Hname].
  unfold ubi_dev_scan. wps. apply out_spec. intros o k Ho. destruct (nz (o_err o)) eqn:He.
  { wps. apply nz_true in He. rewrite (proj2 (nz_true _)) by lia. by apply Herr; destruct h. }
  wps. rewrite Hoff. assert (h_areas (set_tick k h) URSUS_UBI_BASE = UA_table t) as -> by by destruct h.
  rewrite Ht. simpl. destruct (pf_pebs <? table_pebs t); wps; simpl; [by apply Herr; destruct h|].
  apply Hok; [by destruct h| |by destruct h].
  eapply (sane_attached _ t); [by destruct h|by destruct h|done|done|by destruct h|].
  repeat split; simpl; auto.
  - change (uniq (stored t)). by apply uniq_stored.
  - right. change (stored (stored t) = t). by rewrite stored_idemp.
Qed.

Lemma ensure_attachment_spec h c :
  K h c -> up_stage c = URSUS_UP_UBI_ATTACH ->
  wp ursus_update_ensure_ubi_attachment attach_done (h, c).
Proof.
  intros HK Hs. unfold ursus_update_ensure_ubi_attachment. wps.
  eapply wp_mono; [by apply register_spec|]. clear. intros r [h c] (HK & Hs & Hp). simpl in *.
  pose proof HK as [Ha Hl Hk Hr Hh Hst]. rewrite Hs in Hst. destruct Hst as [(t & HT & Hu & Hst & HO & Hdev) _ Hm Hpart _].
  destruct (nz r) eqn:Hnz; [wps; by repeat split; auto; intros ->|].
  apply nz_false in Hnz. destruct (Hp Hnz) as [m Hpm]. specialize (Hpart m Hpm). wps. rewrite Hpm.
  destruct (h_ubi h) as [u|] eqn:Hubi.
  - destruct (negb (attached_on u (Some m)) || _ || _ || _) eqn:Hc; wps; repeat split; auto; try done.
    intros _. apply orb_false_iff in Hc as [Hc _]. apply orb_false_iff in Hc as [Hc _].
    apply orb_false_iff in Hc as [Hc%negb_false_iff _]. simpl in Hc. apply bool_decide_eq_true in Hc.
    eapply sane_attached; [done|done|done|done|done|]. apply Hdev; [done|by rewrite Hc].
  - wps. eapply ubi_part_spec; [done|done|done|done|done|done|done|done| |].
    + intros h' Hram Hatt Hh'. simpl. wps.
      assert (forall r', attach_done r' (h', c)) as Hdone.
      { intros r'. repeat split; simpl; auto. by rewrite Hram. }
      destruct (h_ubi h') as [u|]; [|wps; apply Hdone]. destruct (negb _); wps; apply Hdone.
    + intros h' Hram Hh'. simpl. wps. repeat split; simpl; auto; [by rewrite Hram|done].
Qed.

Lemma on_dev_rframe h h' a n F : rframe a n h h' -> on_dev h F -> on_dev h' F.
Proof. intros Hfr (u & HD & H). exists u. split; [by eapply rframe_DS|done]. Qed.
Lemma hist_rframe h h' a n : rframe a n h h' -> hist_safe h -> hist_safe h'.
Proof. intros []. unfold hist_safe. by rewrite rf_hist, rf_areas. Qed.

Lemma base_rframe h h' c n :
  rframe URSUS_UBI_READBACK_ADDR n h h' -> n <= URSUS_UBI_FIP_VOL_SIZE -> base_facts h c -> base_facts h' c.
Proof.
  intros Hfr Hn (? & ? & ? & Hr & Hh). split; [done|]. split; [done|]. split; [done|]. split.
  - rewrite <- Hr. by eapply ram_keep.
  - by eapply hist_rframe.
Qed.

Lemma leb_pos (u : ubi_dev) : u_leb_size u = UBI_LEB_SIZE -> 0 < u_leb_size u.
Proof. intros ->. done. Qed.

Lemma classify_spec h c :
  base_facts h c -> attached_orig h ->
  wp ursus_ubi_classify_active_fip
     (fun r s => r = 0 /\ base_facts (fst s) (snd s) /\ attached_orig (fst s)) (h, c).
Proof.
  intros Hb Ho. unfold ursus_ubi_classify_active_fip, set_mode. wps.
  assert (forall md inv h' (c1 : update_ctx), base_facts h' c1 ->
            base_facts h' (set_up_ubi_fip_mode md (set_up_ubi_fip_invalid_ret inv c1))) as Hmd.
  { intros md inv h' c1. by destruct c1. }
  set (c1 := set_up_ubi_fip_mode _ _). assert (base_facts h c1) as Hb1 by by apply Hmd. clearbody c1.
  pose proof Ho as (u & HD & Hoff & Hl & _).
  eapply check_spec; [done|done| |intros _; simpl; wps; simpl; auto].
  intros v Hv. simpl. wps.
  assert (forall k h', base_facts h' c1 -> base_facts (set_tick k h') c1) as Hbt by (intros k h'; by destruct h').
  assert (forall k h', attached_orig h' -> attached_orig (set_tick k h')) as Hot.
  { intros k h' (u' & HD' & H'). exists u'. split; [by apply DS_tick|done]. }
  eapply open_spec; [done| |intros; simpl; wps; simpl; auto].
  intros i w k Hf. simpl. destruct (_ || _) eqn:Hsz; [wps; simpl; auto|].
  apply orb_false_iff in Hsz as [Hz%Z.eqb_neq Hs%Z.ltb_ge].
  set (used := u64 (v_used w)) in *. assert (0 < used <= URSUS_UBI_FIP_VOL_SIZE) as Hused.
  { pose proof (u64_range (v_used w)). unfold used in *. lia. }
  clearbody used. wps. eapply read_cmd_spec; [by apply DS_tick|by apply leb_pos|lia| |].
  - intros v' h1 Hv' Hmk Hfr HD1 Hd. simpl. wps.
    assert (base_facts h1 c1 /\ attached_orig h1) as [Hb2 Ho2].
    { split; [eapply base_rframe; [exact Hfr|lia|by apply Hbt]|eapply on_dev_rframe; [exact Hfr|by apply Hot]]. }
    apply malloc_spec. intros b k'. wps. unfold ram_read. wps.
    destruct (ursus_fip_validate_current _ _); [wps; simpl; auto|]. destruct (nz _); wps; simpl; auto.
  - intros h1 Hfr HD1. simpl. wps. simpl. split; [done|].
    split; [apply Hmd; eapply base_rframe; [exact Hfr|lia|by apply Hbt]|eapply on_dev_rframe; [exact Hfr|by apply Hot]].
Qed.

Lemma attach_post h c :
  K h c -> up_stage c = URSUS_UP_UBI_ATTACH -> wp step_ubi_attach post (h, c).
Proof.
  intros HK Hs. unfold step_ubi_attach. wps.
  eapply wp_mono; [by apply ensure_attachment_spec|]. clear h c HK Hs. intros r [h c] (Ha & Hl & Hk & Hr & Hh & Hatt).
  simpl in *. destruct (nz r) eqn:Hnz; [by apply fail_post|]. apply nz_false in Hnz.
  wps. eapply wp_mono; [apply classify_spec; [by repeat split|auto]|].
  clear h c Ha Hl Hk Hr Hh Hatt. intros r' [h c] (-> & (Ha & Hl & Hk & Hr & Hh) & Hatt). simpl in *. wps.
  destruct (_ && _).
  - case_bool_decide; by apply fail_post.
  - apply advance_spec. apply K_post. split; by destruct c.
Qed.

(** ** The staged volume *)

Lemma removed_rw n u u' :
  removed n u u' -> u_ro u' = false -> u_ro u = false /\ vmap (u_vols u') = delete n (vmap (u_vols u)).
Proof. intros [[Hm Hr]|[Hr _]] H; [split; congruence|congruence]. Qed.

(** The device side of a stage. *)
Definition dev_at (u : ubi_dev) (h : hw) : Prop :=
  DS fip_safe u h /\ u_off u = URSUS_UBI_BASE /\ u_leb_size u = UBI_LEB_SIZE.
Lemma stepped_at u h u' h' : dev_at u h -> stepped fip_safe u h u' h' -> dev_at u' h'.
Proof. intros (HD & Ho & Hl) [_ (_ & Ho' & _ & _ & _ & Hl') HD']. unfold dev_at. split; [done|]. split; congruence. Qed.
Lemma base_stepped u h u' h' c :
  stepped fip_safe u h u' h' -> dev_at u h -> base_facts h c -> base_facts h' c.
Proof.
  intros Hst Hat (? & ? & ? & Hr & Hh). pose proof (stepped_at _ _ _ _ Hat Hst) as (HD' & Ho' & _).
  split; [done|]. split; [done|]. split; [done|]. split; [|by eapply DS_hist].
  by rewrite (fr_ram _ _ _ (st_frame _ _ _ _ _ Hst)).
Qed.

(** [check_remove] of a volume other than [fip]. *)
Lemma check_remove_at n u h (R : unit -> hw -> Prop) :
  dev_at u h -> n <> "fip"%string -> n <> "layout volume"%string ->
  (forall u' h', stepped fip_safe u h u' h' -> dev_at u' h' -> removed n u u' -> R tt h') ->
  wp (check_remove n) R h.
Proof.
  intros Hat Hn Hl HR. pose proof Hat as (HD & _). eapply check_remove_spec; [done|done| |].
  - intros Hro. by eapply safe_delete.
  - intros u' h' Hst Hrm. eapply (HR u'); [done|by eapply stepped_at|done].
Qed.

Lemma stage_prep_post h c :
  K h c -> up_ubi_fip_mode c = URSUS_UBI_FIP_NORMAL -> up_stage c = URSUS_UP_UBI_STAGE_PREP ->
  wp step_ubi_stage_prep post (h, c).
Proof.
  intros HK Hmode Hs. pose proof (K_base _ _ HK) as Hb0. pose proof (k_stage _ _ HK) as Hst. rewrite Hs in Hst.
  destruct Hst as (u0 & HD0 & Ho0 & Hl0 & HF0). assert (dev_at u0 h) as Hat0 by by repeat split.
  unfold step_ubi_stage_prep. wps. set (c1 := set_up_write_started true c).
  assert (base_facts h c1 /\ up_ubi_fip_mode c1 = URSUS_UBI_FIP_NORMAL) as [Hb1 Hm1] by by destruct c.
  clearbody c1. unfold id. rewrite Hm1. rewrite bool_decide_true by done. rewrite bool_decide_false by done.
  eapply check_remove_at; [done|done|done|]. intros u1 h1 Hst1 Hat1 Hrm1.
  eapply (base_stepped _ _ _ _ _ Hst1 Hat0) in Hb1. wps.
  eapply check_remove_at; [done|done|done|]. intros u2 h2 Hst2 Hat2 Hrm2.
  eapply (base_stepped _ _ _ _ _ Hst2 Hat1) in Hb1. wps.
  eapply check_remove_at; [done|done|done|]. intros u3 h3 Hst3 Hat3 Hrm3.
  eapply (base_stepped _ _ _ _ _ Hst3 Hat2) in Hb1. wps. pose proof Hat3 as (HD3 & Ho3 & Hl3).
  unfold ursus_ubi_fip_new_headroom. wps. rewrite (DS_ubi _ _ _ HD3). wps.
  rewrite andb_false_r. simpl. destruct (_ <? _); [by apply fail_post|].
  unfold step_ubi_stage_create. wps.
  eapply create_cmd_spec; [done|done|intros; by eapply safe_insert|by left| |].
  - intros u4 h4 Hst4 Hro3 Hro4 _ Hm4 _ _. simpl.
    eapply (base_stepped _ _ _ _ _ Hst4 Hat3) in Hb1.
    destruct (stepped_at _ _ _ _ Hat3 Hst4) as (HD4 & Ho4 & Hl4).
    destruct (removed_rw _ _ _ Hrm3 Hro3) as [Hro2 Hmm3]. destruct (removed_rw _ _ _ Hrm2 Hro2) as [Hro1 Hmm2].
    destruct (removed_rw _ _ _ Hrm1 Hro1) as [Hro0 Hmm1].
    destruct HF0 as [?|(v & Hv & HO)]; [congruence|].
    assert (stage_facts URSUS_UP_UBI_STAGE_WRITE h4 c1) as Hf.
    { exists u4. split; [done|]. split; [done|]. split; [done|]. rewrite Hm4, Hmm3, Hmm2, Hmm1. split; [done|].
      split; [exists v; split; [|done]; by simplify_map_eq|]. split; [by simplify_map_eq|].
      eexists. split; [by apply lookup_insert_eq|done]. }
    apply advance_spec. apply K_post. destruct Hb1 as (? & ? & ? & ? & ?). split; by destruct c1.
  - intros u4 h4 Hst4 _. simpl. apply fail_post'. by eapply base_stepped.
Qed.

(** A stage that only needs the device facts it leaves. *)
Lemma advance_at last next h c :
  base_facts h c -> stage_facts next h c -> next <> URSUS_UP_PRECHECK -> next <> URSUS_UP_UBI_ATTACH ->
  wp (advance last next) post (h, c).
Proof.
  intros (? & ? & ? & ? & ?) Hf Hn1 Hn2. apply advance_spec. apply K_post. split; try by destruct c.
  replace (up_stage _) with next by by destruct c. by destruct next.
Qed.

Lemma any_ok_other u h n :
  DS fip_safe u h -> u_ro u = false -> n <> "fip"%string -> any_ok fip_safe n (vmap (u_vols u)).
Proof. intros HD Hro Hn w _. by eapply safe_insert. Qed.

Lemma stage_write_post h c :
  K h c -> up_stage c = URSUS_UP_UBI_STAGE_WRITE -> wp step_ubi_stage_write post (h, c).
Proof.
  intros HK Hs. pose proof (K_base _ _ HK) as Hb. pose proof (k_stage _ _ HK) as Hst. rewrite Hs in Hst.
  destruct Hst as (u & HD & Ho & Hl & Hro & (v & Hv & HO) & Hold & (w & Hw & Hws)).
  unfold step_ubi_stage_write. wps. unfold id. rewrite (k_len _ _ HK).
  eapply write_cmd_spec; [done|by eapply any_ok_other|lia| |].
  - intros v' w' u' h' Hst' Hro' Hv' Hm' Hn' Hwr. simpl. rewrite Hw in Hv'. simplify_eq.
    destruct (stepped_at u h u' h' ltac:(by repeat split) Hst') as (HD' & Ho' & Hl').
    apply advance_at; [by eapply base_stepped| |done|done].
    exists u'. split; [done|]. split; [done|]. split; [done|]. rewrite Hm'. split; [done|].
    split; [exists v; split; [by simplify_map_eq|done]|]. split; [by simplify_map_eq|].
    exists w'. split; [by simplify_map_eq|]. destruct Hwr. auto.
  - intros u' h' Hst' _. simpl. apply fail_post'. by eapply base_stepped.
Qed.

Lemma stage_verify_post h c :
  K h c -> up_stage c = URSUS_UP_UBI_STAGE_VERIFY -> wp step_ubi_stage_verify post (h, c).
Proof.
  intros HK Hs. pose proof (K_base _ _ HK) as Hb. pose proof (k_stage _ _ HK) as Hst. rewrite Hs in Hst.
  destruct Hst as (u & HD & Ho & Hl & Hro & HO & Hold & (w & Hw & Hwu & Hwm)).
  unfold step_ubi_stage_verify. wps. unfold id. rewrite (k_len _ _ HK), (k_addr _ _ HK), (k_kind _ _ HK).
  eapply read_cmd_spec; [done|by apply leb_pos|lia| |].
  2:{ intros h' Hfr HD'. simpl. apply fail_post'. eapply base_rframe; [done|lia|done]. }
  intros v' h' Hv' _ Hfr HD' Hd. rewrite Hw in Hv'. simplify_eq. simpl. wps.
  assert (read_len v' len = len) as Hrl.
  { unfold read_len. rewrite Hwu. rewrite (proj2 (Z.eqb_neq len 0)) by lia. by rewrite Z.ltb_irrefl. }
  rewrite Hrl in Hd. assert (base_facts h' c) as Hb' by (eapply base_rframe; [done|lia|done]).
  eapply validate_kind_at_spec; [|intros r t Hr; rewrite (proj2 (nz_true r) Hr); apply fail_post'; by destruct h'].
  intros t Hv. simpl. rewrite (proj2 (Z.eqb_neq addr 0) Haddr). wps. unfold ram_read. wps.
  assert (h_ram (set_tick t h') = h_ram h') as -> by by destruct h'.
  assert (base_facts (set_tick t h') c) as Hb2 by by destruct h'.
  destruct (memeq _ _) eqn:Hmem; simpl; [|by apply fail_post'].
  apply memeq_eq in Hmem. pose proof Hb' as (_ & _ & _ & Hr & _). rewrite Hr in Hmem.
  apply advance_at; [done| |done|done].
  exists u. split; [by apply DS_tick|]. split; [done|]. split; [done|]. split; [done|]. split; [done|].
  split; [done|]. exists v'. split; [done|]. split; [done|]. split; [done|].
  rewrite <- Hd, <- Hmem. split; [done|]. by rewrite <- Hmem in Hv.
Qed.

(** ** Commit, check, rollback *)

Lemma fip_safe_switched m cand_n bak a b :
  bak <> "fip"%string -> Good b -> fip_safe (nm (switched m "fip" cand_n bak a b)).
Proof.
  intros Hb HG. apply fip_safe_nm. exists (set_name "fip" b). unfold switched.
  split; [by apply lookup_insert_eq|]. unfold Good in *. by rewrite Orig_name, IsCand_name.
Qed.

Lemma promote_post h c :
  K h c -> up_ubi_fip_mode c = URSUS_UBI_FIP_NORMAL -> up_stage c = URSUS_UP_UBI_PROMOTE ->
  wp step_ubi_promote post (h, c).
Proof.
  intros HK Hmode Hs. pose proof (K_base _ _ HK) as Hb. pose proof (k_stage _ _ HK) as Hst. rewrite Hs in Hst.
  destruct Hst as (u & HD & Ho & Hl & Hro & (v & Hv & HO) & Hold & (w & Hw & HC)).
  unfold step_ubi_promote. wps. set (c1 := set_up_commit_started true c).
  assert (base_facts h c1 /\ up_ubi_fip_mode c1 = URSUS_UBI_FIP_NORMAL) as [Hb1 Hm1] by by destruct c.
  clearbody c1. rewrite Hm1. wps.
  eapply atomic_switch_spec; [done|done|done|done|done| | |].
  - intros a b _ Ha Hb'. apply fip_safe_switched; [done|]. simplify_eq. by right.
  - intros a b u' h' Hst' Hro' Ha Hb' Hm'.
    assert (a = v) as -> by congruence. assert (b = w) as -> by congruence. simpl.
    destruct (stepped_at u h u' h' ltac:(by repeat split) Hst') as (HD' & Ho' & Hl').
    apply advance_at; [by eapply base_stepped| |done|done].
    exists u'. split; [done|]. split; [done|]. split; [done|]. rewrite Hm'. unfold switched. split; [done|].
    split; [exists (set_name "fip" w)|exists (set_name "fip.old" v)];
      (split; [by simplify_map_eq|]); [by apply IsCand_name|by apply Orig_name].
  - intros r u' h' Hr Hst' _. rewrite (nz_neg r Hr). apply fail_post'. by eapply base_stepped.
Qed.

Definition cand_ram (h : hw) : Prop := mread (h_ram h) addr len = cand.
Lemma cand_ram_rframe n h h' :
  rframe URSUS_UBI_READBACK_ADDR n h h' -> n <= URSUS_UBI_FIP_VOL_SIZE -> cand_ram h -> cand_ram h'.
Proof. unfold cand_ram. intros Hfr Hn <-. by eapply ram_keep. Qed.
Lemma cand_ram_stepped u h u' h' : stepped fip_safe u h u' h' -> cand_ram h -> cand_ram h'.
Proof. intros [Hf _ _]. unfold cand_ram. by rewrite (fr_ram _ _ _ Hf). Qed.
Lemma dev_at_rframe a n u h h' : rframe a n h h' -> dev_at u h -> dev_at u h'.
Proof. intros Hfr (HD & ?). split; [by eapply rframe_DS|done]. Qed.

(** Only volume [n] may have changed. *)
Definition env_done (n : string) (u : ubi_dev) (r : Z) (h : hw) : Prop :=
  exists u', dev_at u' h /\ cand_ram h /\ (r = 0 -> u_ro u' = false) /\
    forall x, x <> n -> vmap (u_vols u') !! x = vmap (u_vols u) !! x.

Lemma reset_env_vol_spec n u h :
  dev_at u h -> cand_ram h -> u_ro u = false -> n <> "fip"%string -> n <> "layout volume"%string ->
  wp (vanilla_reset_env_vol n) (env_done n u) h.
Proof.
  intros Hat Hr Hro Hn Hnl. unfold vanilla_reset_env_vol. wps.
  assert (forall r h', r <> 0 -> dev_at u h' -> cand_ram h' -> env_done n u r h') as Herr.
  { intros r h' Hne ? ?. exists u. split; [done|]. split; [done|]. split; [done|]. done. }
  eapply check_spec; [by apply Hat|done| |intros _; cif; wps; by apply Herr].
  intros v Hv. cif. wps. apply ram_write_spec. intros h1 Hfr1 _.
  assert (blen (repeat 0 (Z.to_nat URSUS_VANILLA_ENV_RESET_LEN)) = 0x800) as Hl0 by done.
  assert (blen (repeat 0xa5 (Z.to_nat URSUS_VANILLA_ENV_RESET_LEN)) = 0x800) as Hl1 by done.
  rewrite Hl0 in Hfr1. apply (dev_at_rframe _ _ _ _ _ Hfr1) in Hat as Hat1.
  apply (cand_ram_rframe _ _ _ Hfr1) in Hr as Hr1; [|done]. wps. pose proof Hat1 as (HD1 & _ & _).
  eapply write_cmd_spec; [done|by eapply any_ok_other|done| |].
  2:{ intros u' h' Hst' Hc. cif. wps. exists u'. split; [by eapply stepped_at|].
      split; [by eapply cand_ram_stepped|]. split; [done|]. intros x Hx.
      destruct Hc as [->|(w & _ & _ & ->)]; [done|]. by rewrite lookup_insert_ne. }
  intros v' w u2 h2 Hst2 Hro2 _ Hm2 _ _. cif. wps.
  apply ram_write_spec. intros h3 Hfr3 _. rewrite Hl1 in Hfr3.
  assert (dev_at u2 h3) as Hat3 by (eapply dev_at_rframe; [done|by eapply stepped_at]).
  assert (cand_ram h3) as Hr3 by (eapply cand_ram_rframe; [done|done|by eapply cand_ram_stepped]).
  assert (forall r h', dev_at u2 h' -> cand_ram h' -> env_done n u r h') as Hdone.
  { intros r h' ? ?. exists u2. split; [done|]. split; [done|]. split; [done|].
    intros x Hx. by rewrite Hm2, lookup_insert_ne. }
  wps. eapply read_cmd_spec; [by apply Hat3|apply leb_pos, Hat3|done| |].
  - intros v2 h4 _ _ Hfr4 _ _. unfold ram_read. wps. destruct (_ || _); wps; apply Hdone;
      solve [by eapply dev_at_rframe|by eapply cand_ram_rframe].
  - intros h4 Hfr4 _. unfold ram_read. wps. destruct (_ || _); wps; apply Hdone;
      solve [by eapply dev_at_rframe|by eapply cand_ram_rframe].
Qed.

Lemma reset_env_spec u h :
  dev_at u h -> cand_ram h -> u_ro u = false ->
  wp ursus_vanilla_reset_env (fun r h' => exists u', dev_at u' h' /\ cand_ram h' /\
    (r = 0 -> u_ro u' = false) /\
    forall x, x <> "ubootenv"%string -> x <> "ubootenv2"%string ->
      vmap (u_vols u') !! x = vmap (u_vols u) !! x) h.
Proof.
  intros Hat Hr Hro. unfold ursus_vanilla_reset_env. wps.
  eapply wp_mono; [by apply reset_env_vol_spec|]. intros r h1 (u1 & Hat1 & Hr1 & Hro1 & Hm1).
  destruct (nz r) eqn:Hnz; [wps; exists u1; split; [done|]; split; [done|]; split; auto|].
  apply nz_false in Hnz. eapply wp_mono; [by apply reset_env_vol_spec; auto|].
  intros r2 h2 (u2 & Hat2 & Hr2 & Hro2 & Hm2). exists u2. split; [done|]. split; [done|]. split; [done|].
  intros x Hx1 Hx2. by rewrite Hm2, Hm1.
Qed.

Lemma verify_post h c :
  K h c -> up_ubi_fip_mode c = URSUS_UBI_FIP_NORMAL -> up_stage c = URSUS_UP_UBI_VERIFY ->
  wp step_ubi_verify post (h, c).
Proof.
  intros HK Hmode Hs. pose proof (K_base _ _ HK) as Hb. pose proof (k_stage _ _ HK) as Hst. rewrite Hs in Hst.
  destruct Hst as (u & HD & Ho & Hl & Hro & HC & HO).
  unfold step_ubi_verify. wps. unfold id. rewrite Hmode, bool_decide_false by done.
  assert (forall h' k, rframe URSUS_UBI_READBACK_ADDR len h h' ->
    base_facts (set_tick k h') c /\ dev_at u (set_tick k h')) as Hkeep.
  { intros h' k Hfr. assert (rframe URSUS_UBI_READBACK_ADDR len h (set_tick k h')) as Hfr'
      by (eapply rframe_trans; [done|apply rframe_tick]).
    split; [eapply base_rframe; [done|lia|done]|eapply dev_at_rframe; [done|by repeat split]]. }
  assert (forall h' k, rframe URSUS_UBI_READBACK_ADDR len h h' ->
    wp (advance URSUS_UP_UBI_VERIFY URSUS_UP_UBI_ROLLBACK) post (set_tick k h', c)) as Hroll.
  { intros h' k Hfr. destruct (Hkeep h' k Hfr) as [Hb' (HD' & _ & _)].
    apply advance_at; [done| |done|done]. exists u. by repeat split. }
  unfold postcommit_check. wps. rewrite (k_len _ _ HK).
  eapply read_cmd_spec; [done|by apply leb_pos|lia| |].
  2:{ intros h' Hfr _. simpl. wps. simpl. rewrite <- (set_tick_id h'). by apply Hroll. }
  intros v' h' _ _ Hfr _ _. simpl. eapply validate_kind_at_spec.
  2:{ intros r t Hr. rewrite (proj2 (nz_true r) Hr). by apply Hroll. }
  intros t _. simpl. wps. destruct (Hkeep h' t Hfr) as [Hb' Hat'].
  assert (forall h2 u2, dev_at u2 h2 -> cand_ram h2 ->
    (forall x, x <> "ubootenv"%string -> x <> "ubootenv2"%string ->
      vmap (u_vols u2) !! x = vmap (u_vols u) !! x) ->
    base_facts h2 c /\ at_vol (vmap (u_vols u2)) "fip" IsCand /\ at_vol (vmap (u_vols u2)) "fip.old" Orig) as Hfin.
  { intros h2 u2 (HD2 & Ho2 & Hl2) Hr2 Hm2. destruct Hb as (? & ? & ? & _ & _).
    split; [by repeat split; auto; eapply DS_hist|]. unfold at_vol. by rewrite !Hm2. }
  assert (forall h2 u2, base_facts h2 c -> dev_at u2 h2 -> u_ro u2 = false ->
    at_vol (vmap (u_vols u2)) "fip" IsCand -> at_vol (vmap (u_vols u2)) "fip.old" Orig ->
    post 1 (h2, set_up_active false (set_up_stage URSUS_UP_COMPLETE c))) as Hcomp.
  { intros h2 u2 (? & ? & ? & ? & ?) (? & ? & ?) ? ? ?. apply K_post. split; try by destruct c.
    replace (up_stage _) with URSUS_UP_COMPLETE by by destruct c. exists u2. by repeat split. }
  destruct (is_vanilla (up_kind c)).
  - wps. eapply wp_mono; [apply reset_env_spec; [done|apply Hb'|done]|].
    intros r h2 (u2 & Hat2 & Hr2 & Hro2 & Hm2). destruct (Hfin h2 u2 Hat2 Hr2 Hm2) as (Hb2 & HC2 & HO2).
    destruct (nz r) eqn:Hnz.
    + apply advance_at; [done| |done|done]. destruct Hat2 as (? & ? & ?). exists u2. by repeat split.
    + wps. apply nz_false in Hnz. by eapply Hcomp; auto.
  - wps. cif. wps. destruct (Hfin _ u Hat' ltac:(apply Hb') ltac:(done)) as (Hb2 & HC2 & HO2). by eapply Hcomp.
Qed.

Lemma rollback_post h c :
  K h c -> up_ubi_fip_mode c = URSUS_UBI_FIP_NORMAL -> up_stage c = URSUS_UP_UBI_ROLLBACK ->
  wp step_ubi_rollback post (h, c).
Proof.
  intros HK Hmode Hs. pose proof (K_base _ _ HK) as Hb. pose proof (k_stage _ _ HK) as Hst. rewrite Hs in Hst.
  destruct Hst as (u & HD & Ho & Hl & (v & Hv & HC) & (w & Hw & HO)).
  assert (dev_at u h) as Hat by by repeat split.
  unfold step_ubi_rollback. wps. rewrite Hmode. wps.
  eapply check_remove_at; [done|done|done|]. intros u1 h1 Hst1 Hat1 Hrm.
  eapply (base_stepped _ _ _ _ _ Hst1 Hat) in Hb. wps.
  eapply atomic_switch_spec; [by apply Hat1|done|done|done| | | |].
  - intros Hro. destruct (removed_rw _ _ _ Hrm Hro) as [_ ->]. apply lookup_delete_eq.
  - intros a b Hro Ha Hb'. destruct (removed_rw _ _ _ Hrm Hro) as [_ Hm1].
    apply fip_safe_switched; [done|]. left. rewrite Hm1 in Hb'. by simplify_map_eq.
  - intros a b u2 h2 Hst2 _ _ _ _. simpl. apply fail_post'. by eapply base_stepped.
  - intros r u2 h2 Hr Hst2 _. rewrite (nz_neg r Hr). apply fail_post'. by eapply base_stepped.
Qed.

(** ** All steps *)

(** Runs that left the healthy mode stay out of it. *)
Definition away (c : update_ctx) : Prop :=
  up_ubi_fip_mode c <> URSUS_UBI_FIP_NORMAL /\ up_stage c <> URSUS_UP_PRECHECK /\
  up_stage c <> URSUS_UP_UBI_ATTACH.
Lemma away_unwatched c : away c <-> ~ watched c.
Proof. unfold away, watched. destruct (decide (up_ubi_fip_mode c = URSUS_UBI_FIP_NORMAL)),
  (decide (up_stage c = URSUS_UP_PRECHECK)), (decide (up_stage c = URSUS_UP_UBI_ATTACH)); tauto. Qed.

Lemma fail_away ret code h c :
  away c -> wp (ursus_update_fail_reason ret code) (fun _ s => away (snd s)) (h, c).
Proof. intros (Hm & _). apply fail_reason_spec. intros r c' _ _ _ Hm' _ Hs _. unfold away. simpl. by rewrite Hm', Hs. Qed.
Lemma advance_away last next h c :
  away c -> next <> URSUS_UP_PRECHECK -> next <> URSUS_UP_UBI_ATTACH ->
  wp (advance last next) (fun _ s => away (snd s)) (h, c).
Proof. intros (Hm & _) H1' H2'. apply advance_spec. unfold away. by destruct c. Qed.

(** Context-only execution: machine operations return anything. *)
Ltac away_step :=
  lazymatch goal with
  | |- wp (onhw _) _ _ => apply wp_onhw_any; intros
  | |- wp (ursus_update_fail_reason _ _) _ _ => apply fail_away
  | |- wp (ursus_update_fail _) _ _ => unfold ursus_update_fail
  | |- wp (advance _ _) _ _ => apply advance_away
  | |- wp (if ?b then _ else _) _ _ => destruct b eqn:?
  | |- wp (match ?x with _ => _ end) _ _ => destruct x eqn:?
  | |- wp _ _ _ => wp1
  end.

Lemma step_stage_away h c :
  away c -> wp (step_stage (up_stage c)) (fun _ s => away (snd s)) (h, c).
Proof.
  intros Ha. pose proof Ha as (Hm & Hs1 & Hs2). destruct (up_stage c) eqn:Hs; simpl; try done.
  all: unfold step_stock_backup, step_stock_erase, step_stock_write, step_stock_verify,
         step_ubi_stage_prep, step_ubi_stage_create, step_ubi_stage_write, step_ubi_stage_verify,
         step_ubi_promote, step_ubi_verify, step_ubi_rollback, with_nand.
  all: repeat (away_step; cbn beta); try done.
  all: unfold away; destruct c; simpl in *; repeat split; congruence.
Qed.

Lemma K_announced h c a t : K h c -> K h (set_up_announced_at t (set_up_announced a c)).
Proof.
  intros [? ? ? ? ? Hf]. split; try by destruct c.
  replace (up_stage _) with (up_stage c) by by destruct c. destruct (up_stage c); try exact Hf;
    (eapply unattached_ext; [..|exact Hf]; by destruct c).
Qed.
Lemma K_announced' h c a : K h c -> K h (set_up_announced a c).
Proof.
  intros HK. apply (K_announced h c a (up_announced_at c)) in HK. by destruct c.
Qed.

Lemma step_stage_J h c :
  J (h, c) -> wp (step_stage (up_stage c)) post (h, c).
Proof.
  intros HJ. destruct (decide (up_ubi_fip_mode c = URSUS_UBI_FIP_NORMAL \/
    up_stage c = URSUS_UP_PRECHECK \/ up_stage c = URSUS_UP_UBI_ATTACH)) as [Hw|Hw].
  2:{ eapply wp_mono; [by apply step_stage_away, away_unwatched|].
      intros r [h' c'] Ha Hw'. simpl in *. by apply away_unwatched in Ha. }
  pose proof (HJ Hw) as HK. simpl in HK. pose proof (k_stage _ _ HK) as Hf.
  destruct (up_stage c) eqn:Hs; simpl in Hf |- *; try done;
    try (by apply fail_post', K_base); try (by apply precheck_post); try (by apply attach_post);
    destruct Hw as [Hm|[?|?]]; try done.
  - by apply stage_prep_post.
  - by apply stage_write_post.
  - by apply stage_verify_post.
  - by apply promote_post.
  - by apply verify_post.
  - by apply rollback_post.
Qed.

Lemma step_J h c : J (h, c) -> wp ursus_fip_update_step post (h, c).
Proof.
  intros HJ. unfold ursus_fip_update_step. wps. unfold id. destruct (negb (up_active c)); [by wps|].
  assert (forall a t, J (h, set_up_announced_at t (set_up_announced a c))) as HJ1.
  { intros a t Hw. apply K_announced, HJ. by destruct c. }
  assert (forall a, J (h, set_up_announced a c)) as HJ2.
  { intros a Hw. apply K_announced', HJ. by destruct c. }
  destruct (negb (up_announced c)).
  { wps. unfold get_timer. wps. apply HJ1. }
  wps. unfold get_timer. wps. destruct (_ <? _); [by wps|]. wps.
  replace (up_stage c) with (up_stage (set_up_announced false c)) by by destruct c.
  by apply step_stage_J.
Qed.

(** Between two steps: time passes and RAM outside the candidate changes. *)
Record env_move (h h' : hw) : Prop := {
  em_ubi : h_ubi h' = h_ubi h;
  em_areas : h_areas h' = h_areas h;
  em_hist : h_hist h' = h_hist h;
  em_nand : h_nand h' = h_nand h;
  em_mtds : h_mtds h' = h_mtds h;
  em_clock : h_clock h <= h_clock h';
  em_ram : mread (h_ram h') addr len = mread (h_ram h) addr len;
}.
Lemma env_move_J h h' c : env_move h h' -> J (h, c) -> J (h', c).
Proof.
  intros [Hu Ha Hh Hn Hm Hc Hr] HJ Hw. destruct (HJ Hw) as [? ? ? ? Hs Hf]. simpl in *.
  split; try congruence; [unfold hist_safe; by rewrite Ha, Hh|].
  assert (forall u, DS fip_safe u h -> DS fip_safe u h') as HDS.
  { intros u (t & [] & ?). exists t. split; [|done]. split; congruence. }
  destruct (up_stage c); try done;
    try (destruct Hf as (u & HD & HF); exists u; split; [auto|done]).
  all: destruct Hf; split; rewrite ?Hu, ?Ha, ?Hn, ?Hm; done.
Qed.

(** Runs of the engine: its steps interleaved with environment moves. *)
Inductive fip_run (s0 : fst_t) : fst_t -> Prop :=
  | fip_run_refl : fip_run s0 s0
  | fip_run_step s : fip_run s0 s -> fip_run s0 (snd (ursus_fip_update_step s))
  | fip_run_env h h' c : fip_run s0 (h, c) -> env_move h h' -> fip_run s0 (h', c).

Lemma fip_run_J s0 s : J s0 -> fip_run s0 s -> J s.
Proof.
  intros H0. induction 1 as [|[h c] _ IH|h h' c _ IH He]; [done| |by eapply env_move_J].
  destruct (ursus_fip_update_step (h, c)) as [r s'] eqn:Heq. simpl.
  by eapply (wp_run _ _ _ _ _ (step_J h c IH)) in Heq.
Qed.
End invariant.

(** * Start of an update *)

Section start.
Context {P : Platform} {X : Ext} {B : Board}.

(** Before the update: the flash holds a UBI volume table with the [fip]
    volume [v0], unmarked; nothing has been written yet. *)
Record healthy (h : hw) (c : update_ctx) (v0 : volume) : Prop := {
  he_un : unattached v0 h c;
  he_hist : h_hist h = [];
}.

Lemma image_ok_len k l img : image_ok k l img -> 0 < blen img <= URSUS_UBI_FIP_VOL_SIZE.
Proof.
  intros (ok & a & _ & Hv). apply validate_kind_unpacked in Hv as [raw Hu].
  by apply bl33_unpack_ok in Hu as [].
Qed.

Lemma start_spec addr len kind h c v0 :
  healthy h c v0 ->
  wp (ursus_fip_update_start_kind addr len kind)
     (fun r s => r = 0 ->
        K addr len kind (mread (h_ram h) addr len) v0 (fst s) (snd s) /\
        up_ubi_fip_mode (snd s) = URSUS_UBI_FIP_NORMAL /\
        0 < len <= URSUS_UBI_FIP_VOL_SIZE /\ addr <> 0 \/ up_active c = true) (h, c).
Proof.
  intros [Hun Hh]. unfold ursus_fip_update_start_kind. wps.
  destruct (up_active c) eqn:Hact; [wps; by right|]. wps.
  assert (unattached v0 h (up_zero c)) as Hun' by (eapply unattached_ext; [..|exact Hun]; by destruct c).
  eapply (detect_spec (P := P)); [|apply Hun|apply Hun].
  intros r ob k nd _ _ [[-> ->]|[Hr ->]]; [|by wps].
  wps. eapply validate_kind_at_spec; [|intros r t Hr; rewrite (proj2 (nz_true r) Hr); by wps].
  intros t Hok. cif. rewrite set_tick_twice.
  assert (h_ram (set_tick k h) = h_ram h) as Hram by by destruct h. rewrite Hram in Hok.
  pose proof (image_ok_len _ _ _ Hok) as Hl. unfold blen in Hl. rewrite length_mread in Hl.
  assert (forall k', K addr len kind (mread (h_ram h) addr len) v0 (set_tick k' h)
    (let c' := set_up_nand nd (up_zero c) in
     MkUp kind URSUS_UP_PRECHECK (up_failed_stage c') (up_last_success_stage c') addr len
       (up_error c') true (up_announced c') (up_announced_at c') true (up_ubi_fip_mode c')
       (up_ubi_fip_invalid_ret c') (up_commit_started c') (up_write_started c')
       (up_error_code c') (sha256 (mread (h_ram (set_tick k' h)) addr len)) (up_stock_candidate c')
       (up_stock_readback c') (up_nand c') (up_ubi_part_mtd c') (up_parts_ready c'))) as HK.
  { intros k'. apply K_tick. split; simpl; try done.
    - unfold hist_safe. rewrite Hh. constructor; [|done].
      destruct Hun as [(tb & Ha & Hu & _ & (v & Hv & HO) & _) _ _ _ _]. exists tb.
      split; [done|]. split; [done|]. exists v. split; [done|by left].
    - eapply unattached_ext; [..|exact Hun']; by destruct c. }
  assert (forall k', wp (if addr =? 0 then sret (- ENOMEM) else
            let* buf := onhw (ram_read addr len) in
            onctx (fun c' => MkUp kind URSUS_UP_PRECHECK (up_failed_stage c') (up_last_success_stage c')
              addr len (up_error c') true (up_announced c') (up_announced_at c') true (up_ubi_fip_mode c')
              (up_ubi_fip_invalid_ret c') (up_commit_started c') (up_write_started c')
              (up_error_code c') (sha256 buf) (up_stock_candidate c') (up_stock_readback c')
              (up_nand c') (up_ubi_part_mtd c') (up_parts_ready c')) ;;; sret 0)
     (fun r s => r = 0 ->
        K addr len kind (mread (h_ram h) addr len) v0 (fst s) (snd s) /\
        up_ubi_fip_mode (snd s) = URSUS_UBI_FIP_NORMAL /\
        0 < len <= URSUS_UBI_FIP_VOL_SIZE /\ addr <> 0 \/ false = true)
     (set_tick k' h, set_up_nand nd (up_zero c))) as Htail.
  { intros k'. destruct (addr =? 0) eqn:Ha; [by wps|]. wps. unfold ram_read. wps. intros _. left.
    split; [apply HK|]. split; [done|]. apply Z.eqb_neq in Ha. lia. }
  destruct (is_vanilla kind).
  - wps. apply wp_ro; [apply _|]. intros a k'. rewrite set_tick_twice.
    destruct (nz a) eqn:Hnz; [wps; intros ->; done|]. apply Htail.
  - wps. cif. apply Htail.
Qed.
End start.

(** * Runs of the command-line loop are runs of the engine *)

Section loop.
Context {P : Platform} {X : Ext} {B : Board}.

Lemma update_run_loop_run addr len fuel s0 s :
  fip_run addr len s0 s -> fip_run addr len s0 (snd (update_run_loop fuel s)).
Proof.
  revert s. induction fuel as [|fuel IH]; intros s Hr; simpl.
  - unfold sbind, ctx, sget, sret. simpl. by destruct (negb _).
  - unfold sbind, ctx, sget, sret at 1. simpl. destruct (negb _); [done|].
    pose proof (fip_run_step addr len s0 s Hr) as H1.
    destruct (ursus_fip_update_step s) as [r [h c]]. simpl in *. destruct (r <? 0); [done|].
    apply IH. simpl. eapply fip_run_env; [exact H1|]. destruct h. simpl. split; simpl; lia || done.
Qed.
End loop.
