(* ===== verification/UbiEngine.v ===== *)
(** The UBI side of UrsusBoot (cmd/ursusubi.c): static state, partition
    registration, volume probes and manifest, rootfs_data sizing, the boot path
    from the [fit] volume, and the settings reset.  The migration and the FIT
    update engines, in [Migration] and [FitUpdate], share this state. *)
From S2P Require Import Prelude Bytes Fip Flash Ubi Shell Bl2.

(** * State *)

Inductive ursus_migration_stage :=
  | URSUS_MIG_IDLE | URSUS_MIG_PRECHECK | URSUS_MIG_BACKUP_BOSA | URSUS_MIG_BACKUP_RI
  | URSUS_MIG_BACKUP_FIP | URSUS_MIG_FORMAT_UBI | URSUS_MIG_ATTACH_UBI | URSUS_MIG_CREATE_VOLUMES
  | URSUS_MIG_WRITE_BOSA | URSUS_MIG_WRITE_RI | URSUS_MIG_WRITE_FIP | URSUS_MIG_WRITE_FIT
  | URSUS_MIG_VERIFY_BOSA | URSUS_MIG_VERIFY_RI | URSUS_MIG_VERIFY_FIP | URSUS_MIG_VERIFY_FIT
  | URSUS_MIG_COMMIT_BL2 | URSUS_MIG_VERIFY_BL2 | URSUS_MIG_COMPLETE | URSUS_MIG_FAILED.
#[export] Instance migration_stage_dec : EqDecision ursus_migration_stage.
Proof. solve_decision. Defined.

(** [enum ursus_update_stage] of cmd/ursusubi.c. *)
Inductive fit_update_stage :=
  | URSUS_UPD_IDLE | URSUS_UPD_PRECHECK | URSUS_UPD_STAGE_PREP | URSUS_UPD_STAGE_WRITE
  | URSUS_UPD_STAGE_VERIFY | URSUS_UPD_PROMOTE | URSUS_UPD_FINAL_VERIFY
  | URSUS_UPD_COMPLETE | URSUS_UPD_FAILED.
#[export] Instance fit_update_stage_dec : EqDecision fit_update_stage.
Proof. solve_decision. Defined.

(** [struct ursus_migration_ctx]. *)
Record migration_ctx := MkMig {
  mig_stage : ursus_migration_stage;
  mig_failed_stage : ursus_migration_stage;
  mig_last_success_stage : ursus_migration_stage;
  mig_fit_addr : Z;
  mig_fit_len : Z;
  mig_preloader_addr : Z;
  mig_preloader_len : Z;
  mig_fip_len : Z;
  mig_error : Z;
  mig_active : bool;
  mig_announced : bool;
  mig_commit_started : bool;
  mig_write_started : bool;
  mig_error_code : string;
  mig_announced_at : Z;
}.
Definition set_mig_stage (v : ursus_migration_stage) (c : migration_ctx) : migration_ctx :=
  let 'MkMig _ x1 x2 x3 x4 x5 x6 x7 x8 x9 x10 x11 x12 x13 x14 := c in MkMig v x1 x2 x3 x4 x5 x6 x7 x8 x9 x10 x11 x12 x13 x14.
Definition set_mig_failed_stage (v : ursus_migration_stage) (c : migration_ctx) : migration_ctx :=
  let 'MkMig x0 _ x2 x3 x4 x5 x6 x7 x8 x9 x10 x11 x12 x13 x14 := c in MkMig x0 v x2 x3 x4 x5 x6 x7 x8 x9 x10 x11 x12 x13 x14.
Definition set_mig_last_success_stage (v : ursus_migration_stage) (c : migration_ctx) : migration_ctx :=
  let 'MkMig x0 x1 _ x3 x4 x5 x6 x7 x8 x9 x10 x11 x12 x13 x14 := c in MkMig x0 x1 v x3 x4 x5 x6 x7 x8 x9 x10 x11 x12 x13 x14.
Definition set_mig_fip_len (v : Z) (c : migration_ctx) : migration_ctx :=
  let 'MkMig x0 x1 x2 x3 x4 x5 x6 _ x8 x9 x10 x11 x12 x13 x14 := c in MkMig x0 x1 x2 x3 x4 x5 x6 v x8 x9 x10 x11 x12 x13 x14.
Definition set_mig_error (v : Z) (c : migration_ctx) : migration_ctx :=
  let 'MkMig x0 x1 x2 x3 x4 x5 x6 x7 _ x9 x10 x11 x12 x13 x14 := c in MkMig x0 x1 x2 x3 x4 x5 x6 x7 v x9 x10 x11 x12 x13 x14.
Definition set_mig_active (v : bool) (c : migration_ctx) : migration_ctx :=
  let 'MkMig x0 x1 x2 x3 x4 x5 x6 x7 x8 _ x10 x11 x12 x13 x14 := c in MkMig x0 x1 x2 x3 x4 x5 x6 x7 x8 v x10 x11 x12 x13 x14.
Definition set_mig_announced (v : bool) (c : migration_ctx) : migration_ctx :=
  let 'MkMig x0 x1 x2 x3 x4 x5 x6 x7 x8 x9 _ x11 x12 x13 x14 := c in MkMig x0 x1 x2 x3 x4 x5 x6 x7 x8 x9 v x11 x12 x13 x14.
Definition set_mig_commit_started (v : bool) (c : migration_ctx) : migration_ctx :=
  let 'MkMig x0 x1 x2 x3 x4 x5 x6 x7 x8 x9 x10 _ x12 x13 x14 := c in MkMig x0 x1 x2 x3 x4 x5 x6 x7 x8 x9 x10 v x12 x13 x14.
Definition set_mig_write_started (v : bool) (c : migration_ctx) : migration_ctx :=
  let 'MkMig x0 x1 x2 x3 x4 x5 x6 x7 x8 x9 x10 x11 _ x13 x14 := c in MkMig x0 x1 x2 x3 x4 x5 x6 x7 x8 x9 x10 x11 v x13 x14.
Definition set_mig_error_code (v : string) (c : migration_ctx) : migration_ctx :=
  let 'MkMig x0 x1 x2 x3 x4 x5 x6 x7 x8 x9 x10 x11 x12 _ x14 := c in MkMig x0 x1 x2 x3 x4 x5 x6 x7 x8 x9 x10 x11 x12 v x14.
Definition set_mig_announced_at (v : Z) (c : migration_ctx) : migration_ctx :=
  let 'MkMig x0 x1 x2 x3 x4 x5 x6 x7 x8 x9 x10 x11 x12 x13 _ := c in MkMig x0 x1 x2 x3 x4 x5 x6 x7 x8 x9 x10 x11 x12 x13 v.

(** [struct ursus_update_ctx] of cmd/ursusubi.c. *)
Record fit_update_ctx := MkUpd {
  upd_stage : fit_update_stage;
  upd_failed_stage : fit_update_stage;
  upd_last_success_stage : fit_update_stage;
  upd_fit_addr : Z;
  upd_fit_len : Z;
  upd_error : Z;
  upd_active : bool;
  upd_announced : bool;
  upd_fit_present : bool;
  upd_fit_old_present : bool;
  upd_direct_mode : bool;
  upd_keep_settings : bool;
  upd_write_started : bool;
  upd_error_code : string;
  upd_fit_pebs : Z;
  upd_announced_at : Z;
}.
Definition set_upd_stage (v : fit_update_stage) (c : fit_update_ctx) : fit_update_ctx :=
  let 'MkUpd _ x1 x2 x3 x4 x5 x6 x7 x8 x9 x10 x11 x12 x13 x14 x15 := c in MkUpd v x1 x2 x3 x4 x5 x6 x7 x8 x9 x10 x11 x12 x13 x14 x15.
Definition set_upd_failed_stage (v : fit_update_stage) (c : fit_update_ctx) : fit_update_ctx :=
  let 'MkUpd x0 _ x2 x3 x4 x5 x6 x7 x8 x9 x10 x11 x12 x13 x14 x15 := c in MkUpd x0 v x2 x3 x4 x5 x6 x7 x8 x9 x10 x11 x12 x13 x14 x15.
Definition set_upd_last_success_stage (v : fit_update_stage) (c : fit_update_ctx) : fit_update_ctx :=
  let 'MkUpd x0 x1 _ x3 x4 x5 x6 x7 x8 x9 x10 x11 x12 x13 x14 x15 := c in MkUpd x0 x1 v x3 x4 x5 x6 x7 x8 x9 x10 x11 x12 x13 x14 x15.
Definition set_upd_error (v : Z) (c : fit_update_ctx) : fit_update_ctx :=
  let 'MkUpd x0 x1 x2 x3 x4 _ x6 x7 x8 x9 x10 x11 x12 x13 x14 x15 := c in MkUpd x0 x1 x2 x3 x4 v x6 x7 x8 x9 x10 x11 x12 x13 x14 x15.
Definition set_upd_active (v : bool) (c : fit_update_ctx) : fit_update_ctx :=
  let 'MkUpd x0 x1 x2 x3 x4 x5 _ x7 x8 x9 x10 x11 x12 x13 x14 x15 := c in MkUpd x0 x1 x2 x3 x4 x5 v x7 x8 x9 x10 x11 x12 x13 x14 x15.
Definition set_upd_announced (v : bool) (c : fit_update_ctx) : fit_update_ctx :=
  let 'MkUpd x0 x1 x2 x3 x4 x5 x6 _ x8 x9 x10 x11 x12 x13 x14 x15 := c in MkUpd x0 x1 x2 x3 x4 x5 x6 v x8 x9 x10 x11 x12 x13 x14 x15.
Definition set_upd_fit_present (v : bool) (c : fit_update_ctx) : fit_update_ctx :=
  let 'MkUpd x0 x1 x2 x3 x4 x5 x6 x7 _ x9 x10 x11 x12 x13 x14 x15 := c in MkUpd x0 x1 x2 x3 x4 x5 x6 x7 v x9 x10 x11 x12 x13 x14 x15.
Definition set_upd_fit_old_present (v : bool) (c : fit_update_ctx) : fit_update_ctx :=
  let 'MkUpd x0 x1 x2 x3 x4 x5 x6 x7 x8 _ x10 x11 x12 x13 x14 x15 := c in MkUpd x0 x1 x2 x3 x4 x5 x6 x7 x8 v x10 x11 x12 x13 x14 x15.
Definition set_upd_direct_mode (v : bool) (c : fit_update_ctx) : fit_update_ctx :=
  let 'MkUpd x0 x1 x2 x3 x4 x5 x6 x7 x8 x9 _ x11 x12 x13 x14 x15 := c in MkUpd x0 x1 x2 x3 x4 x5 x6 x7 x8 x9 v x11 x12 x13 x14 x15.
Definition set_upd_write_started (v : bool) (c : fit_update_ctx) : fit_update_ctx :=
  let 'MkUpd x0 x1 x2 x3 x4 x5 x6 x7 x8 x9 x10 x11 _ x13 x14 x15 := c in MkUpd x0 x1 x2 x3 x4 x5 x6 x7 x8 x9 x10 x11 v x13 x14 x15.
Definition set_upd_error_code (v : string) (c : fit_update_ctx) : fit_update_ctx :=
  let 'MkUpd x0 x1 x2 x3 x4 x5 x6 x7 x8 x9 x10 x11 x12 _ x14 x15 := c in MkUpd x0 x1 x2 x3 x4 x5 x6 x7 x8 x9 x10 x11 x12 v x14 x15.
Definition set_upd_fit_pebs (v : Z) (c : fit_update_ctx) : fit_update_ctx :=
  let 'MkUpd x0 x1 x2 x3 x4 x5 x6 x7 x8 x9 x10 x11 x12 x13 _ x15 := c in MkUpd x0 x1 x2 x3 x4 x5 x6 x7 x8 x9 x10 x11 x12 x13 v x15.
Definition set_upd_announced_at (v : Z) (c : fit_update_ctx) : fit_update_ctx :=
  let 'MkUpd x0 x1 x2 x3 x4 x5 x6 x7 x8 x9 x10 x11 x12 x13 x14 _ := c in MkUpd x0 x1 x2 x3 x4 x5 x6 x7 x8 x9 x10 x11 x12 x13 x14 v.

(** The file's static variables. *)
Record ubi_ctx := MkUctx {
  us_mtd_ready : bool;
  us_master : option mtd_info;
  us_boot_reason : string;
  us_bl2 : bl2_ctx;
  us_mig : migration_ctx;
  us_upd : fit_update_ctx;
}.
Definition set_us_mtd_ready (v : bool) (c : ubi_ctx) : ubi_ctx :=
  let 'MkUctx _ x1 x2 x3 x4 x5 := c in MkUctx v x1 x2 x3 x4 x5.
Definition set_us_master (v : option mtd_info) (c : ubi_ctx) : ubi_ctx :=
  let 'MkUctx x0 _ x2 x3 x4 x5 := c in MkUctx x0 v x2 x3 x4 x5.
Definition set_us_boot_reason (v : string) (c : ubi_ctx) : ubi_ctx :=
  let 'MkUctx x0 x1 _ x3 x4 x5 := c in MkUctx x0 x1 v x3 x4 x5.
Definition set_us_bl2 (v : bl2_ctx) (c : ubi_ctx) : ubi_ctx :=
  let 'MkUctx x0 x1 x2 _ x4 x5 := c in MkUctx x0 x1 x2 v x4 x5.
Definition set_us_mig (v : migration_ctx) (c : ubi_ctx) : ubi_ctx :=
  let 'MkUctx x0 x1 x2 x3 _ x5 := c in MkUctx x0 x1 x2 x3 v x5.
Definition set_us_upd (v : fit_update_ctx) (c : ubi_ctx) : ubi_ctx :=
  let 'MkUctx x0 x1 x2 x3 x4 _ := c in MkUctx x0 x1 x2 x3 x4 v.

Definition mig_zero : migration_ctx :=
  MkMig URSUS_MIG_IDLE URSUS_MIG_IDLE URSUS_MIG_IDLE 0 0 0 0 0 0 false false false false "" 0.
Definition upd_zero : fit_update_ctx :=
  MkUpd URSUS_UPD_IDLE URSUS_UPD_IDLE URSUS_UPD_IDLE 0 0 0 false false false false false false false "" 0 0.
Definition uctx_init : ubi_ctx := MkUctx false None "NOT_RUN" (MkBl2 None false) mig_zero upd_zero.

Definition ubi_t : Type := hw * ubi_ctx.

(** * Layout constants of the file *)

Definition URSUS_STOCK_BOSA_OFF : Z := 0x051c0000.
Definition URSUS_STOCK_RI_OFF : Z := 0x05200000.
Definition URSUS_BOARD_DATA_SIZE : Z := 0x00040000.
Definition URSUS_UBI_STAGED_HEADROOM_LEBS : Z := 20.
Definition URSUS_UBI_ROOTFS_FREE_RESERVE_LEBS : Z := 16.
Definition URSUS_UBI_BOOT_ADDR : Z := 0x90000000.
Definition URSUS_MIG_BOSA_ADDR : Z := 0x98000000.
Definition URSUS_MIG_RI_ADDR : Z := 0x98040000.
Definition URSUS_MIG_FIP_ADDR : Z := 0x98100000.
Definition URSUS_MIG_STAGE_HOLD_MS : Z := 350.
Definition URSUS_FIT_MAX : Z := 0x04000000.

Section ubi_engine.
Context {P : Platform} {X : Ext} {B : Board}.

(** * Partitions *)

Definition ursus_ubi_parts : list (string * Z * Z) :=
  [("ursus-ubi-bl2"%string, 0, URSUS_UBI_BL2_SIZE);
   ("ursus-ubi-full"%string, URSUS_UBI_BASE, URSUS_UBI_SIZE)].

Definition ursus_ubi_register_mtd : ST ubi_t Z :=
  let* ready := ctx us_mtd_ready in
  if ready then sret 0
  else
    let* nand := onhw ursus_find_master_nand in
    onctx (set_us_master nand) ;;;
    match nand with
    | None => sret (- ENODEV)
    | Some nand =>
      if nz (m_size nand - URSUS_NAND_SIZE) || nz (m_erasesize nand - 0x20000)
         || nz (m_writesize nand - 0x800) then sret (- EINVAL)
      else
        let* ret := onhw (add_mtd_partitions nand ursus_ubi_parts) in
        if nz ret then sret ret
        else
          let* bl2 := onhw (get_mtd_device_nm "ursus-ubi-bl2") in
          match bl2 with
          | None => sret (- ENODEV)
          | Some _ =>
            let* full := onhw (get_mtd_device_nm "ursus-ubi-full") in
            match full with
            | None => sret (- ENODEV)
            | Some _ => onctx (set_us_mtd_ready true) ;;; sret 0
            end
          end
    end.

(** * Comparisons and probes *)

Definition ursus_mem_equal (a b len : Z) : ST hw Z :=
  if (a =? 0) || (b =? 0) then sret (- ENOMEM)
  else
    let* x := ram_read a len in
    let* y := ram_read b len in
    sret (if memeq x y then 0 else - EBADMSG).

Definition ursus_current_fip_length (nand : mtd_info) : ST hw (Z + Z) :=
  let* ok := malloc in
  if negb ok then sret (inl (- ENOMEM))
  else
    let* r := ursus_read_range nand URSUS_STOCK_FIP_OFF URSUS_FIP_TOC_READ in
    let '(ret, toc) := r in
    if nz ret then sret (inl (- EINVAL)) else sret (ursus_current_fip_length_toc toc).

(** 64 bytes of FDT header; sizeof(struct fdt_header) is 40. *)
Definition ursus_fit_header_at (addr : Z) : ST hw bool :=
  if addr =? 0 then sret false
  else
    let* fit := ram_read addr 64 in
    sret (negb (nz (fdt_check_header fit)) && (40 <=? fdt_totalsize fit)).

Definition ursus_ubi_volume_fip_valid (name : string) : ST hw bool :=
  let* r := run_command (UbiRead URSUS_UBI_READBACK_ADDR name URSUS_FIP_TOC_READ) in
  if nz r then sret false
  else
    let* buf := ram_read URSUS_UBI_READBACK_ADDR URSUS_FIP_TOC_READ in
    sret (ursus_fip_buffer_valid buf).

Definition ursus_ubi_volume_fit_valid (name : string) : ST hw bool :=
  let* r := run_command (UbiRead URSUS_UBI_READBACK_ADDR name 0x40) in
  if nz r then sret false else ursus_fit_header_at URSUS_UBI_READBACK_ADDR.

Record volume_diag := MkDiag {
  dg_present : bool; dg_valid : bool; dg_id : Z; dg_static : bool; dg_used : Z; dg_pebs : Z }.
Definition no_diag : volume_diag := MkDiag false false (-1) false 0 0.

Definition ursus_ubi_fill_volume_diag (name : string) (validate_fip : bool) : ST hw volume_diag :=
  let* d := ubi_open_volume_nm name in
  match d with
  | inl _ => sret no_diag
  | inr (i, v) =>
    let* ok := (if validate_fip then ursus_ubi_volume_fip_valid name else ursus_ubi_volume_fit_valid name) in
    sret (MkDiag true ok (Z.of_nat i) (v_static v) (v_used v) (v_pebs v))
  end.

Record ubi_diag := MkUbiDiag {
  ud_free_pebs : Z; ud_leb_size : Z; ud_fip : volume_diag; ud_fit : volume_diag; ud_fit_old : volume_diag }.

Definition ursus_ubi_probe_diag : ST ubi_t (Z + ubi_diag) :=
  let* ret := ursus_ubi_register_mtd in
  if nz ret then sret (inl ret)
  else
    let* _d := onhw (run_command UbiDetach) in
    let* ret := onhw (run_command (UbiPart "ursus-ubi-full")) in
    if nz ret then sret (inl ret)
    else
      let* ubi := onhw (sget h_ubi) in
      match ubi with
      | None => sret (inl (- ENODEV))
      | Some u =>
        let* fip := onhw (ursus_ubi_fill_volume_diag "fip" true) in
        let* fit := onhw (ursus_ubi_fill_volume_diag "fit" false) in
        let* old := onhw (ursus_ubi_fill_volume_diag "fit.old" false) in
        sret (inr (MkUbiDiag (u_avail u) (u_leb_size u) fip fit old))
      end.

(** [fip_ok] and [fit_ok]. *)
Definition ursus_ubi_probe : ST ubi_t (Z * (bool * bool)) :=
  let* r := ursus_ubi_probe_diag in
  match r with
  | inl ret => sret (ret, (false, false))
  | inr d =>
    sret (0, (dg_present (ud_fip d) && dg_valid (ud_fip d),
              (dg_present (ud_fit d) && dg_valid (ud_fit d)) ||
              (dg_present (ud_fit_old d) && dg_valid (ud_fit_old d))))
  end.

(** * Boot *)

Definition ursus_set_boot_reason (r : string) : ST ubi_t unit :=
  onctx (set_us_boot_reason (String.substring 0 31 r)).
Definition boot_fail (r : string) (ret : Z) : ST ubi_t Z :=
  ursus_set_boot_reason r ;;; sret (if nz ret then ret else - EIO).

(** The volume booted from: [fit], or [fit.old] when there is no [fit]. *)
Definition boot_volume : ST hw (option string) :=
  let* r := run_command (UbiCheck "fit") in
  if nz r then
    let* r := run_command (UbiCheck "fit.old") in
    if nz r then sret None else sret (Some "fit.old"%string)
  else sret (Some "fit"%string).

(** Returns only when the boot did not happen. *)
Definition ursus_ubi_boot : ST ubi_t Z :=
  ursus_set_boot_reason "BOOT_IN_PROGRESS" ;;;
  let* ret := ursus_ubi_register_mtd in
  if nz ret then boot_fail "MTD_REGISTER_FAILED" ret
  else
    let* _d := onhw (run_command UbiDetach) in
    let* ret := onhw (run_command (UbiPart "ursus-ubi-full")) in
    if nz ret then boot_fail "UBI_ATTACH_FAILED" ret
    else
      let* c := onhw (run_command (UbiCheck "fip")) in
      let* ok := (if nz c then sret false else onhw (ursus_ubi_volume_fip_valid "fip")) in
      if negb ok then boot_fail "FIP_INVALID" (- EBADMSG)
      else
        let* vol := onhw boot_volume in
        match vol with
        | None => boot_fail "FIT_MISSING" (- ENOENT)
        | Some fitvol =>
          let* ret := onhw (run_command (UbiRead URSUS_UBI_BOOT_ADDR fitvol 0)) in
          if nz ret then boot_fail "FIT_READ_FAILED" ret
          else
            let* len := onhw (env_get_ulong "filesize" 0) in
            if (len =? 0) || (URSUS_FIT_MAX <? len) then boot_fail "FIT_SIZE_INVALID" (- EFBIG)
            else
              let* fit := onhw (ram_read URSUS_UBI_BOOT_ADDR (Z.min len 64)) in
              let ret := fdt_check_header fit in
              if nz ret then boot_fail "FIT_HEADER_INVALID" ret
              else
                let* ret := onhw (run_command (Bootm URSUS_UBI_BOOT_ADDR "")) in
                boot_fail "BOOTM_RETURNED" ret
        end.

(** * Manifest and rootfs_data *)

Fixpoint manifest_names (l : list string) : ST hw Z :=
  match l with
  | [] => sret 0
  | n :: l' =>
    let* d := ubi_open_volume_nm n in
    match d with inl e => sret e | inr _ => manifest_names l' end
  end.
Definition core_names : list string :=
  ["ubootenv"; "ubootenv2"; "bosa"; "ri"; "fip"; "rootfs_data"]%string.

Definition ursus_ubi_verify_volume_manifest (require_fit : bool) : ST hw Z :=
  let* ubi := sget h_ubi in
  match ubi with
  | None => sret (- ENODEV)
  | Some u =>
    let* ret := manifest_names core_names in
    if nz ret then sret ret
    else
      let* ret := (if require_fit then manifest_names ["fit"%string] else sret 0) in
      if nz ret then sret ret
      else
        let* d := ubi_open_volume_nm "rootfs_data" in
        match d with
        | inl e => sret e
        | inr (_, v) =>
          if v_static v || (v_pebs v =? 0) || (v_pebs v * u_leb_size u =? 0)
          then sret (- EINVAL) else sret 0
        end
  end.

Definition ursus_ubi_store_rootfs_data_max (bytes : Z) : ST hw Z :=
  let* old := env_get_ulong "rootfs_data_max" 0 in
  if old =? bytes then sret 0
  else
    let* r := env_set_ulong "rootfs_data_max" bytes in
    if nz r then sret (- EIO)
    else
      let* r := env_save in
      if nz r then sret (- EIO) else sret 0.

(** The size of rootfs_data in bytes. *)
Definition ursus_ubi_current_rootfs_data : ST hw (Z + Z) :=
  let* ubi := sget h_ubi in
  let* d := ubi_open_volume_nm "rootfs_data" in
  match d, ubi with
  | inr (_, v), Some u => sret (inr (v_pebs v * u_leb_size u))
  | inl e, _ => sret (inl e)
  | _, None => sret (inl (- ENODEV))
  end.

Definition ursus_ubi_create_clean_rootfs_data (persist_env : bool) : ST hw (Z * Z) :=
  let* ubi := sget h_ubi in
  match ubi with
  | None => sret (- ENODEV, 0)
  | Some u =>
    if u_leb_size u =? 0 then sret (- ENODEV, 0)
    else if u_avail u <=? URSUS_UBI_ROOTFS_FREE_RESERVE_LEBS then sret (- ENOSPC, 0)
    else
      let target_lebs := u_avail u - URSUS_UBI_ROOTFS_FREE_RESERVE_LEBS in
      let target_bytes := target_lebs * u_leb_size u in
      let* ret := run_command (UbiCreate "rootfs_data" target_bytes true 6) in
      if nz ret then sret (ret, 0)
      else
        (if persist_env then let* _r := ursus_ubi_store_rootfs_data_max target_bytes in sret tt
         else sret tt) ;;;
        sret (0, target_bytes)
  end.

Definition ursus_ubi_reset_settings : ST ubi_t Z :=
  let* ret := ursus_ubi_register_mtd in
  if nz ret then sret ret
  else
    let* _d := onhw (run_command UbiDetach) in
    let* ret := onhw (run_command (UbiPart "ursus-ubi-full")) in
    if nz ret then sret ret
    else
      let* c := onhw (run_command (UbiCheck "rootfs_data")) in
      let* ret := (if nz c then sret 0 else onhw (run_command (UbiRemove "rootfs_data"))) in
      if nz ret then sret ret
      else
        let* r := onhw (ursus_ubi_create_clean_rootfs_data true) in
        if nz (fst r) then sret (fst r)
        else onhw (run_command (UbiCheck "rootfs_data")).
End ubi_engine.
