(* ===== verification/NoFlash.v ===== *)
(** Machine code that leaves the flash alone: it may use RAM, the environment,
    the device list and the UBI attachment, but changes no cell, no volume table
    and no erased mark.  A type class resolved on the structure of the program. *)
From S2P Require Import Prelude Bytes Fip Flash Ubi Shell Bl2 ReadOnly UbiEngine.

Record flash_same (h h' : hw) : Prop := {
  fs_nand : h_nand h' = h_nand h;
  fs_erased : h_erased h' = h_erased h;
  fs_areas : h_areas h' = h_areas h;
  fs_hist : h_hist h' = h_hist h;
  fs_mtds : h_mtds h' = h_mtds h;
  fs_bad : h_bad h' = h_bad h;
}.
#[export] Instance flash_same_refl : Reflexive flash_same.
Proof. by split. Qed.
#[export] Instance flash_same_trans : Transitive flash_same.
Proof. intros ? ? ? [] []. split; congruence. Qed.

Class NoFlash {A} (m : ST hw A) : Prop := no_flash h : flash_same h (snd (m h)).

#[export] Instance ro_nf {A} (m : ST hw A) : ReadOnly m -> NoFlash m | 10.
Proof. intros Hm h. destruct (Hm h) as [k ->]. by destruct h. Qed.
#[export] Instance sret_nf {A} (a : A) : NoFlash (sret a).
Proof. by intros h. Qed.
#[export] Instance sget_nf {A} (f : hw -> A) : NoFlash (sget f).
Proof. by intros h. Qed.
#[export] Instance sbind_nf {A B} (m : ST hw A) (k : A -> ST hw B) :
  NoFlash m -> (forall a, NoFlash (k a)) -> NoFlash (sbind m k).
Proof. intros Hm Hk h. unfold sbind. etrans; [apply (Hm h)|]. apply (Hk (fst (m h))). Qed.
#[export] Instance if_nf {A} (b : bool) (m n : ST hw A) : NoFlash m -> NoFlash n -> NoFlash (if b then m else n).
Proof. by destruct b. Qed.
#[export] Instance option_nf {A B} (o : option B) (m : B -> ST hw A) (n : ST hw A) :
  (forall b, NoFlash (m b)) -> NoFlash n -> NoFlash (match o with Some b => m b | None => n end).
Proof. by destruct o. Qed.
#[export] Instance sum_nf {A B C} (o : B + C) (m : B -> ST hw A) (n : C -> ST hw A) :
  (forall b, NoFlash (m b)) -> (forall c, NoFlash (n c)) ->
  NoFlash (match o with inl b => m b | inr c => n c end).
Proof. by destruct o. Qed.
#[export] Instance pair_nf {A B C} (p : B * C) (m : B -> C -> ST hw A) :
  (forall b c, NoFlash (m b c)) -> NoFlash (let '(b, c) := p in m b c).
Proof. by destruct p. Qed.

Lemma wp_nf {A} (m : ST hw A) `{!NoFlash m} (R : A -> hw -> Prop) h :
  (forall a h', flash_same h h' -> R a h') -> wp m R h.
Proof.
  intros HR. apply wp_intro. intros a h' E. apply HR. pose proof (no_flash (m := m) h) as Hf. by rewrite E in Hf.
Qed.
Lemma wp_onhw_nf {C A} (m : ST hw A) `{!NoFlash m} (R : A -> hw * C -> Prop) h c :
  (forall a h', flash_same h h' -> R a (h', c)) -> wp (onhw m) R (h, c).
Proof. intros HR. apply wp_onhw. by apply wp_nf. Qed.

Section instances.
Context {P : Platform} {X : Ext} {B : Board}.

#[export] Instance ram_write_nf a l : NoFlash (ram_write a l).
Proof. intros h. by destruct h. Qed.
#[export] Instance set_env_nf f : NoFlash (smod (fun h => set_env (f h) h)).
Proof. intros h. by destruct h. Qed.
#[export] Instance detach_nf : NoFlash ubi_detach.
Proof. intros h. by destruct h. Qed.
#[export] Instance read_loop_nf k v leb tb ln off len size buf :
  NoFlash (volume_read_loop k v leb tb ln off len size buf).
Proof. revert ln off len size buf. induction k; intros; simpl; apply _. Qed.
#[export] Instance volume_read_nf n a sz : NoFlash (ubi_volume_read n a sz).
Proof. unfold ubi_volume_read. apply _. Qed.
#[export] Instance run_detach_nf : NoFlash (run_command UbiDetach).
Proof. unfold run_command. simpl. apply _. Qed.
#[export] Instance run_read_nf a n sz : NoFlash (run_command (UbiRead a n sz)).
Proof. unfold run_command. simpl. unfold with_ubi. apply _. Qed.
#[export] Instance env_set_nf n v : NoFlash (env_set_ulong n v).
Proof. unfold env_set_ulong. apply _. Qed.
#[export] Instance manifest_names_nf l : NoFlash (manifest_names l).
Proof. induction l as [|n l IH]; simpl; apply _. Qed.
#[export] Instance manifest_nf b : NoFlash (ursus_ubi_verify_volume_manifest b).
Proof.
  unfold ursus_ubi_verify_volume_manifest. repeat (apply sbind_nf || apply option_nf || apply if_nf || apply sum_nf || apply _ || intros).
Qed.
#[export] Instance fip_valid_nf n : NoFlash (ursus_ubi_volume_fip_valid n).
Proof. unfold ursus_ubi_volume_fip_valid. apply _. Qed.
End instances.
