(* ===== verification/Migration.v ===== *)
(** The migration from the stock layout to UBI (cmd/ursusubi.c): board data and
    the running FIP are copied to RAM, the UBI region is erased and formatted,
    seven volumes are created, written and read back, and the pinned BL2 is
    written last.  One definition per stage. *)
From S2P Require Import Prelude Bytes Fip Flash Ubi Shell Bl2 Jobs UbiEngine.

Definition ursus_mig_stage_name (s : ursus_migration_stage) : string :=
  match s with
  | URSUS_MIG_PRECHECK => "PRECHECK" | URSUS_MIG_BACKUP_BOSA => "BACKUP_BOSA"
  | URSUS_MIG_BACKUP_RI => "BACKUP_RI" | URSUS_MIG_BACKUP_FIP => "BACKUP_FIP"
  | URSUS_MIG_FORMAT_UBI => "FORMAT_UBI" | URSUS_MIG_ATTACH_UBI => "ATTACH_UBI"
  | URSUS_MIG_CREATE_VOLUMES => "CREATE_VOLUMES" | URSUS_MIG_WRITE_BOSA => "WRITE_BOSA"
  | URSUS_MIG_WRITE_RI => "WRITE_RI" | URSUS_MIG_WRITE_FIP => "WRITE_FIP"
  | URSUS_MIG_WRITE_FIT => "WRITE_FIT" | URSUS_MIG_VERIFY_BOSA => "VERIFY_BOSA"
  | URSUS_MIG_VERIFY_RI => "VERIFY_RI" | URSUS_MIG_VERIFY_FIP => "VERIFY_FIP"
  | URSUS_MIG_VERIFY_FIT => "VERIFY_FIT" | URSUS_MIG_COMMIT_BL2 => "COMMIT_BL2"
  | URSUS_MIG_VERIFY_BL2 => "VERIFY_BL2" | URSUS_MIG_COMPLETE => "COMPLETE"
  | URSUS_MIG_FAILED => "FAILED" | URSUS_MIG_IDLE => "IDLE"
  end.

Definition ursus_mig_detail (s : ursus_migration_stage) : string :=
  match s with
  | URSUS_MIG_PRECHECK => "Validate NAND and BL2 candidate"
  | URSUS_MIG_BACKUP_BOSA => "Read bosa into RAM"
  | URSUS_MIG_BACKUP_RI => "Read ri into RAM"
  | URSUS_MIG_BACKUP_FIP => "Preserve current UrsusBoot FIP in RAM"
  | URSUS_MIG_FORMAT_UBI => "Format NAND region for UBI"
  | URSUS_MIG_ATTACH_UBI => "Attach UBI"
  | URSUS_MIG_CREATE_VOLUMES => "Create seven required UBI volumes"
  | URSUS_MIG_WRITE_BOSA => "Write bosa"
  | URSUS_MIG_WRITE_RI => "Write ri"
  | URSUS_MIG_WRITE_FIP => "Write UrsusBoot FIP"
  | URSUS_MIG_WRITE_FIT => "Write OpenWrt FIT"
  | URSUS_MIG_VERIFY_BOSA => "Read back bosa"
  | URSUS_MIG_VERIFY_RI => "Read back ri"
  | URSUS_MIG_VERIFY_FIP => "Read back UrsusBoot FIP"
  | URSUS_MIG_VERIFY_FIT => "Read back OpenWrt FIT and verify volume manifest"
  | URSUS_MIG_COMMIT_BL2 => "Write complete 128 KiB BL2 last"
  | URSUS_MIG_VERIFY_BL2 => "Read back complete BL2"
  | URSUS_MIG_COMPLETE => "OpenWrt UBI migration complete"
  | URSUS_MIG_FAILED => "Migration stopped by error"
  | URSUS_MIG_IDLE => "Idle"
  end.

Definition ursus_mig_percent (s : ursus_migration_stage) : Z :=
  match s with
  | URSUS_MIG_PRECHECK => 3 | URSUS_MIG_BACKUP_BOSA => 8 | URSUS_MIG_BACKUP_RI => 12
  | URSUS_MIG_BACKUP_FIP => 18 | URSUS_MIG_FORMAT_UBI => 25 | URSUS_MIG_ATTACH_UBI => 35
  | URSUS_MIG_CREATE_VOLUMES => 42 | URSUS_MIG_WRITE_BOSA => 48 | URSUS_MIG_WRITE_RI => 53
  | URSUS_MIG_WRITE_FIP => 59 | URSUS_MIG_WRITE_FIT => 67 | URSUS_MIG_VERIFY_BOSA => 76
  | URSUS_MIG_VERIFY_RI => 80 | URSUS_MIG_VERIFY_FIP => 84 | URSUS_MIG_VERIFY_FIT => 88
  | URSUS_MIG_COMMIT_BL2 => 93 | URSUS_MIG_VERIFY_BL2 => 97 | URSUS_MIG_COMPLETE => 100
  | URSUS_MIG_FAILED => 0 | URSUS_MIG_IDLE => 0
  end.

Definition onmig (f : migration_ctx -> migration_ctx) : ST ubi_t unit :=
  onctx (fun c => set_us_mig (f (us_mig c)) c).

Definition ursus_mig_fail (ret : Z) : ST ubi_t Z :=
  let err := if nz ret then ret else - EIO in
  onmig (fun m =>
    set_mig_announced false (set_mig_active false (set_mig_stage URSUS_MIG_FAILED
      (set_mig_error_code (fail_code (ursus_mig_stage_name (mig_stage m)) ret)
        (set_mig_failed_stage (mig_stage m) (set_mig_error err m)))))) ;;;
  sret err.

Definition mig_advance (last next : ursus_migration_stage) : ST ubi_t Z :=
  onmig (fun m => set_mig_stage next (set_mig_last_success_stage last m)) ;;; sret 0.

Definition ursus_ubi_migration_start (fit_addr fit_len preloader_addr preloader_len : Z) : ST ubi_t Z :=
  let* m := ctx us_mig in
  if mig_active m then sret (- EBUSY)
  else if (fit_len =? 0) || (URSUS_FIT_MAX <? fit_len) then sret (- EFBIG)
  else
    onmig (fun _ =>
      MkMig URSUS_MIG_PRECHECK URSUS_MIG_IDLE URSUS_MIG_IDLE fit_addr fit_len preloader_addr
        preloader_len 0 0 true false false false "" 0) ;;;
    sret 0.

Definition ursus_ubi_migration_active (m : migration_ctx) : bool := mig_active m.
Definition ursus_ubi_migration_complete (m : migration_ctx) : bool :=
  bool_decide (mig_stage m = URSUS_MIG_COMPLETE).
Definition ursus_ubi_migration_failed (m : migration_ctx) : bool :=
  bool_decide (mig_stage m = URSUS_MIG_FAILED).
Definition ursus_ubi_migration_failed_stage (m : migration_ctx) : string :=
  match mig_failed_stage m with URSUS_MIG_IDLE => "NONE" | s => ursus_mig_stage_name s end.
Definition ursus_ubi_migration_last_success_stage (m : migration_ctx) : string :=
  ursus_mig_stage_name (mig_last_success_stage m).
Definition ursus_ubi_migration_error_code (m : migration_ctx) : string :=
  if bool_decide (mig_error_code m = "") then "NONE" else mig_error_code m.
Definition ursus_ubi_migration_transaction_state (m : migration_ctx) : transaction_state :=
  match mig_stage m with
  | URSUS_MIG_COMPLETE => COMPLETION_PROVEN
  | URSUS_MIG_FAILED => if mig_write_started m then WRITE_STATE_UNKNOWN else NOT_STARTED
  | _ => if mig_active m && mig_write_started m then IN_PROGRESS else NOT_STARTED
  end.

Section migration.
Context {P : Platform} {X : Ext} {B : Board}.

(** Runs [m] and fails the migration when it reports an error. *)
Definition mig_try (m : ST ubi_t Z) (k : ST ubi_t Z) : ST ubi_t Z :=
  let* ret := m in if nz ret then ursus_mig_fail ret else k.

(** The stages use the master device that [ursus_ubi_register_mtd] stored. *)
Definition with_master (k : mtd_info -> ST ubi_t Z) : ST ubi_t Z :=
  let* n := ctx us_master in
  match n with Some n => k n | None => ursus_mig_fail (- ENODEV) end.

(** [ret < 0 ? ret : -EIO] on a bad-block query. *)
Definition mig_try_bad (nand : mtd_info) (off len : Z) (k : ST ubi_t Z) : ST ubi_t Z :=
  let* ret := onhw (ursus_bad_in_range nand off len) in
  if nz ret then ursus_mig_fail (if ret <? 0 then ret else - EIO) else k.

Definition verify_bl2 : ST ubi_t Z :=
  let* b := ctx us_bl2 in
  let* r := onhw (ursus_verify_bl2_candidate b) in
  onctx (set_us_bl2 (snd r)) ;;; sret (fst r).

Definition mig_precheck : ST ubi_t Z :=
  let* m := ctx us_mig in
  mig_try (onhw (ursus_ubi_validate_preloader (mig_preloader_addr m) (mig_preloader_len m)))
  (mig_try ursus_ubi_register_mtd
  (with_master (fun nand =>
    mig_try_bad nand 0 0x80000
    (mig_try_bad nand URSUS_STOCK_BOSA_OFF URSUS_BOARD_DATA_SIZE
    (mig_try_bad nand URSUS_STOCK_RI_OFF URSUS_BOARD_DATA_SIZE
    (mig_try verify_bl2 (mig_advance URSUS_MIG_PRECHECK URSUS_MIG_BACKUP_BOSA))))))).

Definition mig_backup_bosa : ST ubi_t Z := with_master (fun nand =>
  mig_try (onhw (read_range_to nand URSUS_STOCK_BOSA_OFF URSUS_BOARD_DATA_SIZE URSUS_MIG_BOSA_ADDR))
    (mig_advance URSUS_MIG_BACKUP_BOSA URSUS_MIG_BACKUP_RI)).
Definition mig_backup_ri : ST ubi_t Z := with_master (fun nand =>
  mig_try (onhw (read_range_to nand URSUS_STOCK_RI_OFF URSUS_BOARD_DATA_SIZE URSUS_MIG_RI_ADDR))
    (mig_advance URSUS_MIG_BACKUP_RI URSUS_MIG_BACKUP_FIP)).
Definition mig_backup_fip : ST ubi_t Z := with_master (fun nand =>
  let* r := onhw (ursus_current_fip_length nand) in
  match r with
  | inl e => ursus_mig_fail e
  | inr len =>
    onmig (set_mig_fip_len len) ;;;
    if URSUS_UBI_FIP_VOL_SIZE <? len then ursus_mig_fail (- EFBIG)
    else mig_try (onhw (read_range_to nand URSUS_STOCK_FIP_OFF len URSUS_MIG_FIP_ADDR))
           (mig_advance URSUS_MIG_BACKUP_FIP URSUS_MIG_FORMAT_UBI)
  end).

(** [run_command] inside [mig_try]. *)
Definition mig_cmd (c : command) (k : ST ubi_t Z) : ST ubi_t Z := mig_try (onhw (run_command c)) k.

Definition mig_format_ubi : ST ubi_t Z :=
  onmig (set_mig_write_started true) ;;;
  let* _d := onhw (run_command UbiDetach) in
  mig_cmd (MtdErase "ursus-ubi-full" 0 0xffe0000) (mig_advance URSUS_MIG_FORMAT_UBI URSUS_MIG_ATTACH_UBI).

Definition mig_attach_ubi : ST ubi_t Z :=
  mig_cmd (UbiPart "ursus-ubi-full") (mig_advance URSUS_MIG_ATTACH_UBI URSUS_MIG_CREATE_VOLUMES).

Definition mig_create_volumes : ST ubi_t Z :=
  let* m := ctx us_mig in
  mig_cmd (UbiCreate "ubootenv" 0x1f000 true 0)
  (mig_cmd (UbiCreate "ubootenv2" 0x1f000 true 1)
  (mig_cmd (UbiCreate "bosa" 0x40000 true 2)
  (mig_cmd (UbiCreate "ri" 0x40000 true 3)
  (mig_cmd (UbiCreate "fip" 0x100000 false 4)
  (mig_cmd (UbiCreate "fit" (mig_fit_len m) true 5)
  (mig_try (let* r := onhw (ursus_ubi_create_clean_rootfs_data false) in sret (fst r))
  (mig_cmd (UbiCheck "ubootenv")
  (mig_cmd (UbiCheck "ubootenv2")
  (mig_cmd (UbiCheck "bosa")
  (mig_cmd (UbiCheck "ri")
  (mig_cmd (UbiCheck "fip")
  (mig_cmd (UbiCheck "fit")
  (mig_cmd (UbiCheck "rootfs_data")
  (mig_try (onhw (ursus_ubi_verify_volume_manifest true))
     (mig_advance URSUS_MIG_CREATE_VOLUMES URSUS_MIG_WRITE_BOSA))))))))))))))).

Definition mig_write_bosa : ST ubi_t Z :=
  mig_cmd (UbiWrite URSUS_MIG_BOSA_ADDR "bosa" URSUS_BOARD_DATA_SIZE)
    (mig_advance URSUS_MIG_WRITE_BOSA URSUS_MIG_WRITE_RI).
Definition mig_write_ri : ST ubi_t Z :=
  mig_cmd (UbiWrite URSUS_MIG_RI_ADDR "ri" URSUS_BOARD_DATA_SIZE)
    (mig_advance URSUS_MIG_WRITE_RI URSUS_MIG_WRITE_FIP).
Definition mig_write_fip : ST ubi_t Z :=
  let* m := ctx us_mig in
  mig_cmd (UbiWrite URSUS_MIG_FIP_ADDR "fip" (mig_fip_len m))
    (mig_advance URSUS_MIG_WRITE_FIP URSUS_MIG_WRITE_FIT).
Definition mig_write_fit : ST ubi_t Z :=
  let* m := ctx us_mig in
  mig_cmd (UbiWrite (mig_fit_addr m) "fit" (mig_fit_len m))
    (mig_advance URSUS_MIG_WRITE_FIT URSUS_MIG_VERIFY_BOSA).

(** [if (ret || ursus_mem_equal(...)) fail(ret ? ret : -EBADMSG)]. *)
Definition mig_readback (c : command) (addr len : Z) (k : ST ubi_t Z) : ST ubi_t Z :=
  let* ret := onhw (run_command c) in
  let* ne := (if nz ret then sret 1 else onhw (ursus_mem_equal addr URSUS_UBI_READBACK_ADDR len)) in
  if nz ne then ursus_mig_fail (if nz ret then ret else - EBADMSG) else k.

Definition mig_verify_bosa : ST ubi_t Z :=
  mig_readback (UbiRead URSUS_UBI_READBACK_ADDR "bosa" URSUS_BOARD_DATA_SIZE)
    URSUS_MIG_BOSA_ADDR URSUS_BOARD_DATA_SIZE (mig_advance URSUS_MIG_VERIFY_BOSA URSUS_MIG_VERIFY_RI).
Definition mig_verify_ri : ST ubi_t Z :=
  mig_readback (UbiRead URSUS_UBI_READBACK_ADDR "ri" URSUS_BOARD_DATA_SIZE)
    URSUS_MIG_RI_ADDR URSUS_BOARD_DATA_SIZE (mig_advance URSUS_MIG_VERIFY_RI URSUS_MIG_VERIFY_FIP).
Definition mig_verify_fip : ST ubi_t Z :=
  let* m := ctx us_mig in
  mig_readback (UbiRead URSUS_UBI_READBACK_ADDR "fip" (mig_fip_len m))
    URSUS_MIG_FIP_ADDR (mig_fip_len m) (mig_advance URSUS_MIG_VERIFY_FIP URSUS_MIG_VERIFY_FIT).
Definition mig_verify_fit : ST ubi_t Z :=
  let* m := ctx us_mig in
  mig_readback (UbiRead URSUS_UBI_READBACK_ADDR "fit" (mig_fit_len m)) (mig_fit_addr m) (mig_fit_len m)
  (mig_cmd (UbiCheck "rootfs_data")
  (let* r := onhw ursus_ubi_current_rootfs_data in
   match r with
   | inl e => ursus_mig_fail e
   | inr rootfs_bytes =>
     let* _w := onhw (ursus_ubi_store_rootfs_data_max rootfs_bytes) in
     mig_try (onhw (ursus_ubi_verify_volume_manifest true))
       (mig_advance URSUS_MIG_VERIFY_FIT URSUS_MIG_COMMIT_BL2)
   end)).

Definition mig_commit_bl2 : ST ubi_t Z :=
  onmig (set_mig_commit_started true) ;;;
  let* _d := onhw (run_command UbiDetach) in
  mig_cmd (MtdErase "ursus-ubi-bl2" 0 0x20000)
  (let* b := ctx us_bl2 in
   mig_cmd (MtdWrite "ursus-ubi-bl2" (default 0 (bl2_buf b)) 0 0x20000)
     (mig_advance URSUS_MIG_COMMIT_BL2 URSUS_MIG_VERIFY_BL2)).

Definition mig_verify_bl2 : ST ubi_t Z :=
  let* b := ctx us_bl2 in
  mig_readback (MtdRead "ursus-ubi-bl2" URSUS_UBI_READBACK_ADDR 0 0x20000)
    (default 0 (bl2_buf b)) URSUS_UBI_BL2_SIZE
    (onmig (fun m => set_mig_error 0 (set_mig_active false (set_mig_stage URSUS_MIG_COMPLETE
       (set_mig_last_success_stage URSUS_MIG_VERIFY_BL2 m)))) ;;;
     sret 1).

Definition mig_stage_step (s : ursus_migration_stage) : ST ubi_t Z :=
  match s with
  | URSUS_MIG_PRECHECK => mig_precheck
  | URSUS_MIG_BACKUP_BOSA => mig_backup_bosa
  | URSUS_MIG_BACKUP_RI => mig_backup_ri
  | URSUS_MIG_BACKUP_FIP => mig_backup_fip
  | URSUS_MIG_FORMAT_UBI => mig_format_ubi
  | URSUS_MIG_ATTACH_UBI => mig_attach_ubi
  | URSUS_MIG_CREATE_VOLUMES => mig_create_volumes
  | URSUS_MIG_WRITE_BOSA => mig_write_bosa
  | URSUS_MIG_WRITE_RI => mig_write_ri
  | URSUS_MIG_WRITE_FIP => mig_write_fip
  | URSUS_MIG_WRITE_FIT => mig_write_fit
  | URSUS_MIG_VERIFY_BOSA => mig_verify_bosa
  | URSUS_MIG_VERIFY_RI => mig_verify_ri
  | URSUS_MIG_VERIFY_FIP => mig_verify_fip
  | URSUS_MIG_VERIFY_FIT => mig_verify_fit
  | URSUS_MIG_COMMIT_BL2 => mig_commit_bl2
  | URSUS_MIG_VERIFY_BL2 => mig_verify_bl2
  | _ => ursus_mig_fail (- EINVAL)
  end.

Definition ursus_ubi_migration_step : ST ubi_t Z :=
  let* m := ctx us_mig in
  if negb (mig_active m) then
    sret (match mig_stage m with
          | URSUS_MIG_COMPLETE => 1 | URSUS_MIG_FAILED => mig_error m | _ => 0 end)
  else if negb (mig_announced m) then
    let* now := onhw (get_timer 0) in
    onmig (fun m => set_mig_announced_at now (set_mig_announced true m)) ;;; sret 0
  else
    let* held := onhw (get_timer (mig_announced_at m)) in
    if held <? URSUS_MIG_STAGE_HOLD_MS then sret 0
    else onmig (set_mig_announced false) ;;; mig_stage_step (mig_stage m).

(** The loop of [ursus_ubi_migrate_from_stock]; [None] when the fuel runs out. *)
Fixpoint migrate_loop (fuel : nat) : ST ubi_t (option Z) :=
  let* m := ctx us_mig in
  if negb (ursus_ubi_migration_active m) then
    sret (Some (if ursus_ubi_migration_complete m then 0 else mig_error m))
  else match fuel with
  | O => sret None
  | S fuel' =>
    let* ret := ursus_ubi_migration_step in
    if ret <? 0 then sret (Some ret) else onhw (mdelay 10) ;;; migrate_loop fuel'
  end.
Definition ursus_ubi_migrate_from_stock (fuel : nat) (fit_addr fit_len preloader_addr preloader_len : Z)
    : ST ubi_t (option Z) :=
  let* ret := ursus_ubi_migration_start fit_addr fit_len preloader_addr preloader_len in
  if nz ret then sret (Some ret) else migrate_loop fuel.
End migration.
