(* ===== verification/FitUpdate.v ===== *)
(** The update of the [fit] volume in the UBI layout (cmd/ursusubi.c): staged
    through [fit.new] with [fit.old] as the fallback when the free space allows
    it, directly into [fit] otherwise.  One definition per stage. *)
From S2P Require Import Prelude Bytes Fip Flash Ubi Shell Bl2 Jobs UbiEngine.

Definition ursus_upd_stage_name (s : fit_update_stage) : string :=
  match s with
  | URSUS_UPD_PRECHECK => "PRECHECK" | URSUS_UPD_STAGE_PREP => "STAGE_PREP"
  | URSUS_UPD_STAGE_WRITE => "STAGE_WRITE" | URSUS_UPD_STAGE_VERIFY => "STAGE_VERIFY"
  | URSUS_UPD_PROMOTE => "PROMOTE" | URSUS_UPD_FINAL_VERIFY => "FINAL_VERIFY"
  | URSUS_UPD_COMPLETE => "COMPLETE" | URSUS_UPD_FAILED => "FAILED" | URSUS_UPD_IDLE => "IDLE"
  end.
Definition ursus_upd_detail (s : fit_update_stage) : string :=
  match s with
  | URSUS_UPD_PRECHECK => "Validate UBI, UrsusBoot FIP and OpenWrt image"
  | URSUS_UPD_STAGE_PREP => "Prepare safe update target volume"
  | URSUS_UPD_STAGE_WRITE => "Write OpenWrt candidate"
  | URSUS_UPD_STAGE_VERIFY => "Read back and verify OpenWrt candidate"
  | URSUS_UPD_PROMOTE => "Activate staged candidate and preserve previous fit where space allows"
  | URSUS_UPD_FINAL_VERIFY => "Verify active fit and apply OpenWrt settings policy"
  | URSUS_UPD_COMPLETE => "OpenWrt image verified; manual reboot available"
  | URSUS_UPD_FAILED =>
    "Update stopped; UrsusBoot Recovery remains available; staged mode preserves fit fallback"
  | URSUS_UPD_IDLE => "Idle"
  end.
Definition ursus_upd_percent (s : fit_update_stage) : Z :=
  match s with
  | URSUS_UPD_PRECHECK => 5 | URSUS_UPD_STAGE_PREP => 15 | URSUS_UPD_STAGE_WRITE => 35
  | URSUS_UPD_STAGE_VERIFY => 60 | URSUS_UPD_PROMOTE => 75 | URSUS_UPD_FINAL_VERIFY => 90
  | URSUS_UPD_COMPLETE => 100 | URSUS_UPD_FAILED => 100 | URSUS_UPD_IDLE => 0
  end.

Definition onupd (f : fit_update_ctx -> fit_update_ctx) : ST ubi_t unit :=
  onctx (fun c => set_us_upd (f (us_upd c)) c).

Definition ursus_upd_fail_reason (ret : Z) (code : string) : ST ubi_t Z :=
  let err := if nz ret then ret else - EIO in
  onupd (fun u =>
    set_upd_announced false (set_upd_active false (set_upd_stage URSUS_UPD_FAILED
      (set_upd_error_code (if bool_decide (upd_error_code u = "") then clip48 code else upd_error_code u)
        (set_upd_failed_stage (upd_stage u) (set_upd_error err u)))))) ;;;
  sret err.
Definition ursus_upd_fail (ret : Z) : ST ubi_t Z :=
  let* u := ctx us_upd in
  ursus_upd_fail_reason ret (fail_code (ursus_upd_stage_name (upd_stage u)) ret).
Definition upd_advance (last next : fit_update_stage) : ST ubi_t Z :=
  onupd (fun u => set_upd_stage next (set_upd_last_success_stage last u)) ;;; sret 0.

Definition ursus_ubi_update_active (u : fit_update_ctx) : bool := upd_active u.
Definition ursus_ubi_update_complete (u : fit_update_ctx) : bool :=
  bool_decide (upd_stage u = URSUS_UPD_COMPLETE).
Definition ursus_ubi_update_failed (u : fit_update_ctx) : bool :=
  bool_decide (upd_stage u = URSUS_UPD_FAILED).
Definition ursus_ubi_update_failed_stage (u : fit_update_ctx) : string :=
  match upd_failed_stage u with URSUS_UPD_IDLE => "NONE" | s => ursus_upd_stage_name s end.
Definition ursus_ubi_update_last_success_stage (u : fit_update_ctx) : string :=
  ursus_upd_stage_name (upd_last_success_stage u).
Definition ursus_ubi_update_error_code (u : fit_update_ctx) : string :=
  if bool_decide (upd_error_code u = "") then "NONE" else upd_error_code u.
Definition ursus_ubi_update_transaction_state (u : fit_update_ctx) : transaction_state :=
  match upd_stage u with
  | URSUS_UPD_COMPLETE => COMPLETION_PROVEN
  | URSUS_UPD_FAILED => if upd_write_started u then WRITE_STATE_UNKNOWN else NOT_STARTED
  | _ => if upd_active u && upd_write_started u then IN_PROGRESS else NOT_STARTED
  end.

Section fit_update.
Context {P : Platform} {X : Ext} {B : Board}.

(** The FDT header at [addr] (40 bytes are inspected). *)
Definition fdt_header_ret (addr : Z) : ST hw Z :=
  let* fit := ram_read addr 64 in sret (fdt_check_header fit).

Definition ursus_ubi_update_start (fit_addr fit_len : Z) (keep_settings : bool) : ST ubi_t Z :=
  let* c := ctx id in
  if upd_active (us_upd c) || mig_active (us_mig c) then sret (- EBUSY)
  else if (fit_len =? 0) || (URSUS_FIT_MAX <? fit_len) then sret (- EFBIG)
  else
    let* r := onhw (fdt_header_ret fit_addr) in
    if nz r then sret (- ENOEXEC)
    else
      onupd (fun _ =>
        MkUpd URSUS_UPD_PRECHECK URSUS_UPD_IDLE URSUS_UPD_IDLE fit_addr fit_len 0 true false false
          false false keep_settings false "" 0 0) ;;;
      sret 0.

(** * Stages *)

(** The PEBs reserved for a volume, when it can be opened. *)
Definition open_pebs (vol : string) : ST hw (option Z) :=
  let* d := ubi_open_volume_nm vol in
  sret (match d with inl _ => None | inr (_, v) => Some (v_pebs v) end).

(** How much room there is: [Some true] for a direct update, [Some false] for a
    staged one, [None] when neither fits.  The counters are unsigned int. *)
Definition fit_headroom (avail reclaim fit_pebs required : Z) : option bool :=
  let current_headroom := u32 (avail + reclaim) in
  if u32 (required + URSUS_UBI_STAGED_HEADROOM_LEBS) <=? current_headroom then Some false
  else
    let preserve := Z.min current_headroom URSUS_UBI_ROOTFS_FREE_RESERVE_LEBS in
    if u32 (required + preserve) <=? u32 (current_headroom + fit_pebs) then Some true else None.

Definition upd_precheck : ST ubi_t Z :=
  let* ret := ursus_ubi_register_mtd in
  if nz ret then ursus_upd_fail_reason ret "PRECHECK_MTD_REGISTER_FAILED"
  else
    let* _d := onhw (run_command UbiDetach) in
    let* ret := onhw (run_command (UbiPart "ursus-ubi-full")) in
    if nz ret then ursus_upd_fail_reason ret "PRECHECK_UBI_ATTACH_FAILED"
    else
      let* c := onhw (run_command (UbiCheck "fip")) in
      let* ok := (if nz c then sret false else onhw (ursus_ubi_volume_fip_valid "fip")) in
      if negb ok then ursus_upd_fail_reason (- EBADMSG) "PRECHECK_FIP_INVALID"
      else
        let* ret := onhw (ursus_ubi_verify_volume_manifest false) in
        if nz ret then ursus_upd_fail_reason ret "PRECHECK_VOLUME_MANIFEST_INVALID"
        else
          let* ubi := onhw (sget h_ubi) in
          match ubi with
          | None => ursus_upd_fail_reason (- ENODEV) "PRECHECK_UBI_DEVICE_UNAVAILABLE"
          | Some u =>
            if u_leb_size u =? 0
            then ursus_upd_fail_reason (- ENODEV) "PRECHECK_UBI_DEVICE_UNAVAILABLE"
            else
              let* c := ctx us_upd in
              let required := u32 ((upd_fit_len c + u_leb_size u - 1) / u_leb_size u) in
              let* old := onhw (open_pebs "fit.old") in
              (match old with Some _ => onupd (set_upd_fit_old_present true) | None => sret tt end) ;;;
              let* new := onhw (open_pebs "fit.new") in
              let reclaim := u32 (default 0 old + default 0 new) in
              let* fit := onhw (open_pebs "fit") in
              (match fit with
               | Some p => onupd (fun c => set_upd_fit_pebs p (set_upd_fit_present true c))
               | None => sret tt
               end) ;;;
              let* c := ctx us_upd in
              match fit_headroom (u_avail u) reclaim (upd_fit_pebs c) required with
              | None => ursus_upd_fail_reason (- ENOSPC) "PRECHECK_INSUFFICIENT_UBI_HEADROOM"
              | Some direct =>
                onupd (set_upd_direct_mode direct) ;;;
                upd_advance URSUS_UPD_PRECHECK URSUS_UPD_STAGE_PREP
              end
          end.

(** The volume that receives the image. *)
Definition upd_target (u : fit_update_ctx) : string :=
  if upd_direct_mode u then "fit" else "fit.new".

(** [!run_command("ubi check v") && run_command("ubi remove v")]: the removal failed. *)
Definition remove_failed (vol : string) : ST hw bool :=
  let* r := run_command (UbiCheck vol) in
  if nz r then sret false
  else let* r := run_command (UbiRemove vol) in sret (nz r).

Definition upd_stage_prep : ST ubi_t Z :=
  onupd (set_upd_write_started true) ;;;
  let* u := ctx us_upd in
  let* bad := onhw (remove_failed "fit.new") in
  if bad then ursus_upd_fail (- EIO)
  else
    let* bad := onhw (remove_failed "fit.old") in
    if bad then ursus_upd_fail (- EIO)
    else
      let* bad := (if upd_direct_mode u then onhw (remove_failed "fit") else sret false) in
      if bad then ursus_upd_fail (- EIO)
      else
        let* ret := onhw (run_command (UbiCreate (upd_target u) (upd_fit_len u) true UBI_VOL_NUM_AUTO)) in
        if nz ret then ursus_upd_fail ret
        else upd_advance URSUS_UPD_STAGE_PREP URSUS_UPD_STAGE_WRITE.

Definition upd_stage_write : ST ubi_t Z :=
  let* u := ctx us_upd in
  let* ret := onhw (run_command (UbiWrite (upd_fit_addr u) (upd_target u) (upd_fit_len u))) in
  if nz ret then ursus_upd_fail ret
  else upd_advance URSUS_UPD_STAGE_WRITE URSUS_UPD_STAGE_VERIFY.

(** Read back [vol], compare with the image, check the header. *)
Definition upd_readback (vol : string) (k : ST ubi_t Z) : ST ubi_t Z :=
  let* u := ctx us_upd in
  let* ret := onhw (run_command (UbiRead URSUS_UBI_READBACK_ADDR vol (upd_fit_len u))) in
  let* ne := (if nz ret then sret 1
              else onhw (ursus_mem_equal (upd_fit_addr u) URSUS_UBI_READBACK_ADDR (upd_fit_len u))) in
  if nz ne then ursus_upd_fail (if nz ret then ret else - EBADMSG)
  else
    let* r := onhw (fdt_header_ret URSUS_UBI_READBACK_ADDR) in
    if nz r then ursus_upd_fail (- ENOEXEC) else k.

Definition upd_stage_verify : ST ubi_t Z :=
  let* u := ctx us_upd in
  upd_readback (upd_target u)
    (upd_advance URSUS_UPD_STAGE_VERIFY
       (if upd_direct_mode u then URSUS_UPD_FINAL_VERIFY else URSUS_UPD_PROMOTE)).

Definition upd_promote : ST ubi_t Z :=
  let* r := onhw (run_command (UbiCheck "fit")) in
  let* ret := (if nz r then sret 0 else onhw (run_command (UbiRename "fit" "fit.old"))) in
  if nz ret then ursus_upd_fail ret
  else
    let* ret := onhw (run_command (UbiRename "fit.new" "fit")) in
    if nz ret then ursus_upd_fail ret
    else upd_advance URSUS_UPD_PROMOTE URSUS_UPD_FINAL_VERIFY.

(** The settings policy of FINAL_VERIFY. *)
Definition upd_settings (keep : bool) : ST ubi_t Z :=
  if negb keep then ursus_ubi_reset_settings
  else
    let* r := onhw ursus_ubi_current_rootfs_data in
    match r with
    | inl e => sret e
    | inr rootfs_bytes =>
      let* _w := onhw (ursus_ubi_store_rootfs_data_max rootfs_bytes) in sret 0
    end.

Definition upd_final_verify : ST ubi_t Z :=
  upd_readback "fit"
    (let* u := ctx us_upd in
     let* ret := upd_settings (upd_keep_settings u) in
     if nz ret then ursus_upd_fail ret
     else
       let* ret := onhw (ursus_ubi_verify_volume_manifest true) in
       if nz ret then ursus_upd_fail ret
       else
         onupd (fun u => set_upd_error 0 (set_upd_active false (set_upd_stage URSUS_UPD_COMPLETE
           (set_upd_last_success_stage URSUS_UPD_FINAL_VERIFY u)))) ;;;
         sret 1).

(** * The stage machine *)

Definition upd_stage_step (s : fit_update_stage) : ST ubi_t Z :=
  match s with
  | URSUS_UPD_PRECHECK => upd_precheck
  | URSUS_UPD_STAGE_PREP => upd_stage_prep
  | URSUS_UPD_STAGE_WRITE => upd_stage_write
  | URSUS_UPD_STAGE_VERIFY => upd_stage_verify
  | URSUS_UPD_PROMOTE => upd_promote
  | URSUS_UPD_FINAL_VERIFY => upd_final_verify
  | _ => ursus_upd_fail (- EINVAL)
  end.

Definition ursus_ubi_update_step : ST ubi_t Z :=
  let* u := ctx us_upd in
  if negb (upd_active u) then
    sret (match upd_stage u with
          | URSUS_UPD_COMPLETE => 1 | URSUS_UPD_FAILED => upd_error u | _ => 0 end)
  else if negb (upd_announced u) then
    let* now := onhw (get_timer 0) in
    onupd (fun u => set_upd_announced_at now (set_upd_announced true u)) ;;; sret 0
  else
    let* held := onhw (get_timer (upd_announced_at u)) in
    if held <? URSUS_MIG_STAGE_HOLD_MS then sret 0
    else onupd (set_upd_announced false) ;;; upd_stage_step (upd_stage u).

(** The loop of [ursus_ubi_update_fit]; [None] when the fuel runs out. *)
Fixpoint update_fit_loop (fuel : nat) : ST ubi_t (option Z) :=
  let* u := ctx us_upd in
  if negb (ursus_ubi_update_active u) then
    sret (Some (if ursus_ubi_update_complete u then 0 else upd_error u))
  else match fuel with
  | O => sret None
  | S fuel' =>
    let* ret := ursus_ubi_update_step in
    if ret <? 0 then sret (Some ret) else onhw (mdelay 10) ;;; update_fit_loop fuel'
  end.
Definition ursus_ubi_update_fit (fuel : nat) (fit_addr fit_len : Z) : ST ubi_t (option Z) :=
  let* ret := ursus_ubi_update_start fit_addr fit_len true in
  if nz ret then sret (Some ret) else update_fit_loop fuel.

Definition do_ursusubiboot : ST ubi_t Z :=
  let* r := ursus_ubi_boot in sret (if nz r then CMD_RET_FAILURE else CMD_RET_SUCCESS).
End fit_update.
