(* ===== verification/Bench.v ===== *)
(** A concrete machine on which the definitions are evaluated: a fault-free
    platform, an LZMA decoder and digest that accept the bench image, a NAND in
    the UBI layout and a candidate FIP in RAM. *)
From S2P Require Import Prelude Bytes Fip Flash Ubi Shell Bl2 FipUpdate.

#[export] Program Instance bench_platform : Platform := {|
  pf_out := fun _ => fine;
  pf_raw := fun _ _ => 0;
  pf_env := fun _ => repeat 0 (Z.to_nat CONFIG_ENV_SIZE);
  pf_pebs := 200;
  pf_beb_level := 0;
  pf_beb_pebs := 0;
|}.
Next Obligation. done. Qed.

(** 64 KiB of BL33 with the identity strings at its start. *)
Definition bench_ids : list Z :=
  bytes_of "U-Boot 2026.07-UrsusBoot-bench nokia,xg-040g-md airoha,an7581".
Definition bench_raw : list Z := bench_ids ++ repeat 0 (Z.to_nat 0x10000 - length bench_ids).
#[export] Instance bench_ext : Ext := {|
  sha256 := fun l => take 32 (l ++ repeat 0 32);
  lzmaBuffToBuffDecompress := fun _ _ => (0, bench_raw);
  fdt_check_header := fun l => if memeq (take 4 l) [0xd0; 0x0d; 0xfe; 0xed] then 0 else -9;
  fdt_totalsize := fun _ => 64;
|}.
#[export] Existing Instance md_board.

(** A table-of-contents entry, and a FIP with a single NT_FW entry. *)
Definition mk_entry (uuid : list Z) (off size : Z) : list Z :=
  uuid ++ le_encode 8 off ++ le_encode 8 size ++ le_encode 8 0.
Definition mk_fip (nt : list Z) : list Z :=
  le_encode 4 URSUS_FIP_MAGIC ++ le_encode 4 URSUS_FIP_SERIAL ++ le_encode 8 0 ++
  mk_entry ursus_nt_fw_uuid URSUS_FIP_TOC_MIN (blen nt) ++
  mk_entry (repeat 0 16) (URSUS_FIP_TOC_MIN + blen nt) 0 ++
  repeat 0 (Z.to_nat (URSUS_FIP_TOC_MIN - (FIP_HDR + 2 * FIP_ENT))) ++ nt.

(** LZMA header: properties, then the uncompressed size. *)
Definition bench_nt : list Z := [0x5d; 0; 0; 0x80; 0] ++ le_encode 8 0x10000.
Definition bench_fip : list Z := mk_fip bench_nt.
Definition bench_addr : Z := 0x88000000.
Definition bench_len : Z := 1037.

Definition bench_v0 : volume :=
  MkVol "fip" true 9 bench_len false false (mwrite (fun _ => 0xff) 0 bench_fip).
Definition bench_table : vtable := Some bench_v0 :: repeat None 7.
Definition bench_nand : mtd_info := MkMtd "spi-nand0" false true 0 URSUS_NAND_SIZE 0x20000 0x800.
Definition bench_hw : hw :=
  MkHw 0 0 (mwrite (fun _ => 0) bench_addr bench_fip)
    (mwrite (fun _ => 0xff) URSUS_UBI_BASE (bytes_of "UBI#"))
    (fun _ => false) (fun _ => false)
    [bench_nand; MkMtd "ubi" true true URSUS_UBI_BASE URSUS_UBI_SIZE 0x20000 0x800]
    (fun o => if o =? URSUS_UBI_BASE then UA_table bench_table else UA_other)
    None [] ∅ false.
