(* ===== verification/FlashThms.v ===== *)
(** Claims about the flash access helpers, with their concrete instances. *)
From S2P Require Import Prelude Bytes Fip Flash ReadOnly FlashSpec Bench.

Section claims.
Context {P : Platform}.

(** C25: a ranged read returns exactly the requested bytes or an error, whatever the
    platform does: for any offset and length, aligned or not, the concatenation of
    the page-sized and chunked transfers of [ursus_read_range] equals the flash
    contents of the range, and nothing but the operation counter changes. *)
Theorem read_range_exact m off len h :
  0 <= m_writesize m -> 0 <= off -> 0 <= len ->
  wp (ursus_read_range m off len)
     (fun r h' => (exists k, h' = set_tick k h) /\
        (fst r = 0 -> snd r = mread (h_nand h) (m_off m + off) len)) h.
Proof. apply read_range_val. Qed.

(** The bad-block scan is exact.  When [ursus_bad_in_range] answers 0, every
    byte of the range lies in a good eraseblock; when it answers 1, an eraseblock
    the range touches is bad; its loop covers the range with at most len/es + 2
    queries, also when the start is not block-aligned. *)
Lemma bad_in_range_exact m start len h :
  0 < m_erasesize m -> (m_off m) `mod` m_erasesize m = 0 -> 0 <= start -> 0 <= len ->
  start + len <= m_size m -> m_size m + m_erasesize m < 2 ^ 64 ->
  wp (ursus_bad_in_range m start len)
     (fun r h' => (exists k, h' = set_tick k h) /\
        (r = 0 -> forall x, start <= x < start + len -> h_bad h ((m_off m + x) / m_erasesize m) = false) /\
        (0 < r -> exists x, start - start `mod` m_erasesize m <= x < start + len /\
           h_bad h ((m_off m + x) / m_erasesize m) = true)) h.
Proof.
  intros Hes Hmo Hst Hlen Hsz H64. unfold ursus_bad_in_range. rewrite u64_small by lia.
  pose proof (Z.mod_pos_bound start (m_erasesize m) Hes). pose proof (Z.mod_le start (m_erasesize m)).
  eapply wp_mono; [apply (bad_in_range_loop_val m (m_erasesize m)); try done; try lia|].
  - rewrite Zminus_mod, Zmod_mod, Z.sub_diag. apply Z.mod_0_l. lia.
  - pose proof (Z.div_mod len (m_erasesize m)). pose proof (Z.mod_pos_bound len (m_erasesize m) Hes).
    assert (0 <= len / m_erasesize m) by (apply Z.div_pos; lia). rewrite Z2Nat.id by lia. nia.
  - intros r h' (Hk & Hz & Hp). split; [done|]. split; [|done]. intros Hr x Hx. apply Hz; [done|lia].
Qed.
End claims.

Lemma read_range_exact_witness :
  wp (ursus_read_range bench_nand 0x1fffe 0x1003)
     (fun r h' => (exists k, h' = set_tick k bench_hw) /\
        (fst r = 0 -> snd r = mread (h_nand bench_hw) (m_off bench_nand + 0x1fffe) 0x1003)) bench_hw.
Proof. apply (read_range_exact bench_nand 0x1fffe 0x1003 bench_hw); vm_compute; congruence. Defined.
(** The same read, evaluated: it succeeds and crosses the UBI header. *)
Example read_range_runs :
  fst (fst (ursus_read_range bench_nand 0x1fffe 0x1003 bench_hw)) = 0 /\
  slice 0 7 (snd (fst (ursus_read_range bench_nand 0x1fffe 0x1003 bench_hw))) =
    [0xff; 0xff] ++ bytes_of "UBI#" ++ [0xff].
Proof. by vm_compute. Qed.

Lemma bad_in_range_exact_witness :
  wp (ursus_bad_in_range bench_nand 0x051c0000 0x40000)
     (fun r h' => (exists k, h' = set_tick k bench_hw) /\
        (r = 0 -> forall x, 0x051c0000 <= x < 0x051c0000 + 0x40000 ->
           h_bad bench_hw ((m_off bench_nand + x) / m_erasesize bench_nand) = false) /\
        (0 < r -> exists x, 0x051c0000 - 0x051c0000 `mod` m_erasesize bench_nand <= x < 0x051c0000 + 0x40000 /\
           h_bad bench_hw ((m_off bench_nand + x) / m_erasesize bench_nand) = true)) bench_hw.
Proof. apply (bad_in_range_exact bench_nand 0x051c0000 0x40000 bench_hw); vm_compute; congruence. Defined.
