(* ===== verification/FipUpdateThms.v ===== *)
(** Theorems about the FIP updater: power-loss safety of the UBI transaction and
    what completion means, with the concrete runs that instantiate them. *)
From S2P Require Import Prelude Bytes Fip FipTheory Flash Ubi UbiTable Shell UbiSpec UbiIo ShellSpec Bl2 ReadOnly FipUpdate FipSafety Bench.

(** * Power-loss safety *)

Section powerloss.
Context {P : Platform} {X : Ext} {B : Board}.

Lemma started_K addr len kind h0 c0 v0 s1 :
  healthy h0 c0 v0 -> up_active c0 = false ->
  ursus_fip_update_start_kind addr len kind (h0, c0) = (0, s1) ->
  J addr len kind (mread (h_ram h0) addr len) v0 s1 /\ 0 < len <= URSUS_UBI_FIP_VOL_SIZE /\ addr <> 0.
Proof.
  intros Hh Hact Hs. pose proof (wp_run _ _ _ _ _ (start_spec addr len kind h0 c0 v0 Hh) Hs eq_refl) as H.
  destruct H as [(HK & _ & ?)|?]; [|congruence]. split; [by intros _|done].
Qed.


End powerloss.

(** The bench machine, its update started, and the state the loop leaves. *)
Definition bench_started : fst_t :=
  snd (ursus_fip_update_start_kind bench_addr bench_len URSUS_FIP_KIND_URSUS (bench_hw, up_init)).
Definition bench_end : fst_t := snd (update_run_loop 400 bench_started).

Lemma bench_healthy : healthy bench_hw up_init bench_v0.
Proof.
  split; [|done]. split; try done.
  - exists bench_table. split; [done|]. split; [done|]. split; [done|].
    split; [|by intros]. exists bench_v0. by split.
  - unfold mtds_ok, is_update_part. simpl. rewrite !List.Forall_cons_iff. simpl. naive_solver.
Qed.
Lemma bench_start_eq :
  ursus_fip_update_start_kind bench_addr bench_len URSUS_FIP_KIND_URSUS (bench_hw, up_init) = (0, bench_started).
Proof. refine (pair_fst (ursus_fip_update_start_kind bench_addr bench_len _ (bench_hw, up_init)) 0 _). by vm_compute. Qed.
Lemma bench_run : fip_run bench_addr bench_len bench_started bench_end.
Proof. apply update_run_loop_run. constructor. Qed.
Lemma bench_end_stage : up_stage (snd bench_end) = URSUS_UP_COMPLETE /\ up_ubi_fip_mode (snd bench_end) = URSUS_UBI_FIP_NORMAL.
Proof. by vm_compute. Qed.


