(* ===== verification/FipStock.v ===== *)
(** The stock-layout path of the FIP updater: what the 512 KiB bootloader span
    holds when an update of it completes. *)
From S2P Require Import Prelude Bytes Fip FipTheory Flash Ubi Shell ShellSpec Bl2 Jobs ReadOnly FlashSpec FipUpdate FipSafety Bench.

(** * The candidate *)

Lemma buf_set_twice (n M : nat) (old img : list Z) b :
  (n + M <= length old)%nat -> (length img <= M)%nat ->
  let cand := take n old ++ repeat b M ++ drop (n + length (repeat b M)) old in
  take n cand ++ img ++ drop (n + length img) cand =
  take n old ++ img ++ repeat b (M - length img) ++ drop (n + M) old.
Proof.
  intros Hn Hm. cbv zeta. rewrite repeat_length.
  assert (length (take n old) = n) as Hl by (rewrite length_take; lia).
  rewrite take_app_le by lia. rewrite (take_ge (take n old)) by lia. do 2 f_equal.
  rewrite drop_app_ge by lia. rewrite Hl. replace (n + length img - n)%nat with (length img) by lia.
  rewrite drop_app_le by (rewrite repeat_length; lia). f_equal.
  replace (repeat b M) with (repeat b (length img + (M - length img))) by (f_equal; lia).
  rewrite repeat_app. by rewrite drop_app_ge, repeat_length, Nat.sub_diag by (rewrite repeat_length; lia).
Qed.

(** The two copies of STOCK_BACKUP build the reference candidate. *)
Lemma stock_candidate_built old img :
  blen old = URSUS_STOCK_BOOT_SIZE -> blen img <= URSUS_STOCK_FIP_MAX ->
  buf_set (buf_set old URSUS_STOCK_FIP_OFF (repeat 0xff (Z.to_nat URSUS_STOCK_FIP_MAX)))
    URSUS_STOCK_FIP_OFF img = stock_candidate_of old img.
Proof.
  unfold blen. intros Hold Himg. unfold buf_set at 1. unfold buf_set, stock_candidate_of, slice.
  rewrite buf_set_twice.
  - change (Z.to_nat 0) with O. rewrite drop_0. do 3 f_equal.
    + f_equal. unfold blen. lia.
    + rewrite take_ge; [f_equal; unfold URSUS_STOCK_FIP_MAX, URSUS_STOCK_ENV_OFF, URSUS_STOCK_FIP_OFF; lia|].
      rewrite length_drop. lia.
  - unfold URSUS_STOCK_FIP_MAX, URSUS_STOCK_BOOT_SIZE, URSUS_STOCK_ENV_OFF, URSUS_STOCK_FIP_OFF in *. lia.
  - lia.
Qed.

(** * Flash writes leave RAM and the device list alone *)

Section frame.
Context {P : Platform}.

Lemma mtd_write_frame m to buf (R : Z * Z -> hw -> Prop) h :
  (forall r h', h_ram h' = h_ram h -> h_mtds h' = h_mtds h -> R r h') -> wp (mtd_write m to buf) R h.
Proof.
  intros HR. apply wp_intro. intros r h'. unfold mtd_write, sbind, sret, next_out, smod. simpl.
  destruct (_ || _); [intros [= <- <-]; by apply HR|].
  destruct (blen buf =? 0); [intros [= <- <-]; by apply HR|]. intros [= <- <-]. apply HR; by destruct h.
Qed.
Lemma mtd_erase_frame m a n (R : Z -> hw -> Prop) h :
  (forall r h', h_ram h' = h_ram h -> h_mtds h' = h_mtds h -> R r h') -> wp (mtd_erase m a n) R h.
Proof.
  intros HR. apply wp_intro. intros r h'. unfold mtd_erase, sbind, sret, next_out, smod. simpl.
  destruct (_ || _); [intros [= <- <-]; by apply HR|].
  destruct (n =? 0); [intros [= <- <-]; by apply HR|]. intros [= <- <-]. apply HR; by destruct h.
Qed.
End frame.

(** * The invariant of a stock update *)

Definition master (h : hw) : option mtd_info := find (fun m => negb (m_part m) && m_nand m) (h_mtds h).

Section stock.
Context {P : Platform} {X : Ext} {B : Board}.
Variables (addr len : Z) (nand : mtd_info) (old img : list Z).
#[local] Opaque mread repeat.
Hypothesis Hold : blen old = URSUS_STOCK_BOOT_SIZE.

Definition boot_span (h : hw) : list Z := mread (h_nand h) (m_off nand) URSUS_STOCK_BOOT_SIZE.
(** The flash as it was, in the stock layout. *)
Definition untouched (h : hw) : Prop :=
  boot_span h = old /\ mread (h_nand h) (m_off nand + URSUS_UBI_BASE) 4 <> bytes_of "UBI#".

Definition stock_fact (h : hw) (c : update_ctx) : Prop :=
  match up_stage c with
  | URSUS_UP_PRECHECK | URSUS_UP_STOCK_BACKUP => untouched h
  | URSUS_UP_STOCK_ERASE | URSUS_UP_STOCK_WRITE | URSUS_UP_STOCK_VERIFY =>
    up_stock_candidate c = Some (stock_candidate_of old img)
  | URSUS_UP_COMPLETE => boot_span h = stock_candidate_of old img
  | URSUS_UP_FAILED | URSUS_UP_IDLE => True
  | _ => False
  end.

Record SI (s : fst_t) : Prop := {
  si_master : master (fst s) = Some nand;
  si_ram : mread (h_ram (fst s)) addr len = img;
  si_ctx : up_kind (snd s) = URSUS_FIP_KIND_URSUS /\ up_addr (snd s) = addr /\
    up_len (snd s) = len /\ up_nand (snd s) = Some nand;
  si_len : 0 <= len /\ blen img < URSUS_STOCK_FIP_MAX;
  si_fact : stock_fact (fst s) (snd s);
}.

(** A machine that differs in its operation counter only. *)
Lemma SI_tick k h c : SI (h, c) -> SI (set_tick k h, c).
Proof. intros []. destruct h. by split. Qed.

Lemma fail_SI ret h c h0 :
  SI (h0, c) -> h_ram h = h_ram h0 -> h_mtds h = h_mtds h0 ->
  wp (ursus_update_fail ret) (fun _ s => SI s) (h, c).
Proof.
  intros [Hm Hr Hc Hl _] Er Em. unfold ursus_update_fail, ursus_update_fail_reason. wps.
  unfold master in Hm. simpl in *. split; unfold master; simpl; rewrite ?Er, ?Em; try done; by destruct c.
Qed.
Lemma fail_reason_SI ret code h c :
  SI (h, c) -> wp (ursus_update_fail_reason ret code) (fun _ s => SI s) (h, c).
Proof. intros []. unfold ursus_update_fail_reason. wps. split; try done; by destruct c. Qed.
Lemma advance_SI last next h c h0 c0 :
  SI (h0, c0) -> h_ram h = h_ram h0 -> h_mtds h = h_mtds h0 ->
  up_kind c = up_kind c0 /\ up_addr c = up_addr c0 /\ up_len c = up_len c0 /\ up_nand c = up_nand c0 ->
  stock_fact h (set_up_stage next c) ->
  wp (advance last next) (fun _ s => SI s) (h, c).
Proof.
  intros [Hm Hr Hc Hl _] Er Em Ec Hf. unfold advance. wps. unfold master in Hm. simpl in *.
  destruct c, c0; simpl in *. unfold stock_fact in *. simpl in *.
  split; unfold master; simpl; rewrite ?Er, ?Em; try done. destruct_and!. by subst.
Qed.

(** Detection on an untouched flash answers "stock". *)
Lemma detect_SI h c (R : Z * option bool -> fst_t -> Prop) :
  SI (h, c) -> untouched h ->
  (forall ret k, ret <> 0 -> R (ret, None) (set_tick k h, c)) ->
  (forall k, R (0, Some false) (set_tick k h, c)) ->
  wp ursus_detect_ubi_layout R (h, c).
Proof.
  intros [Hm Hr (Hk & Ha & Hl & Hn) Hlen _] [_ Hu] HN HS.
  unfold ursus_detect_ubi_layout, ursus_find_master_nand. wps. simpl in Hm, Hn. unfold master in Hm. rewrite Hm.
  wps. assert (set_up_nand (Some nand) c = c) as -> by by destruct c; simpl in *; subst.
  assert (forall ret, ret <> 0 -> R (ret, None) (h, c)) as HN'.
  { intros ret. specialize (HN ret (h_tick h)). by rewrite set_tick_id in HN. }
  destruct (negb _); [wps; by apply HN'|]. wps. apply read_exact_val; [lia|]. intros ret hdr k Hdat.
  destruct (nz ret) eqn:Hz; [wps; by apply HN, nz_true|]. apply nz_false in Hz. wps.
  rewrite (Hdat Hz). destruct (memeq _ _) eqn:Hm'; [by apply memeq_eq in Hm'|]. apply HS.
Qed.

Lemma stock_precheck h c : SI (h, c) -> up_stage c = URSUS_UP_PRECHECK ->
  wp step_precheck (fun _ s => SI s) (h, c).
Proof.
  intros HI Hst. assert (untouched h) as Hu.
  { destruct HI as [_ _ _ _ Hf]. unfold stock_fact in Hf. simpl in Hf. by rewrite Hst in Hf. }
  unfold step_precheck. wps. apply detect_SI; [done|done|intros ret k Hret|intros k]; wps.
  { apply nz_true in Hret. rewrite Hret. by apply fail_reason_SI, SI_tick. }
  change (nz 0) with false. cbv iota. wps. apply wp_ro; [apply validate_kind_at_ro|]. intros ret j.
  rewrite set_tick_twice. unfold id.
  assert (SI (set_tick j h, set_up_ubi_layout false c)) as HI'.
  { apply (SI_tick j) in HI as [? ? ? ? Hf]. by split; destruct c. }
  destruct (nz ret); [by apply fail_reason_SI|].
  replace (up_kind (set_up_ubi_layout false c)) with URSUS_FIP_KIND_URSUS
    by (destruct HI as [_ _ [Hk _] _ _]; by destruct c). simpl is_vanilla. cbv iota. wps.
  change (nz 0) with false. cbv iota.
  replace (up_ubi_layout (set_up_ubi_layout false c)) with false by by destruct c.
  eapply advance_SI; [exact HI'|done..|]. unfold stock_fact. destruct c, h. simpl. done.
Qed.

Lemma stock_backup h c : SI (h, c) -> up_stage c = URSUS_UP_STOCK_BACKUP ->
  wp step_stock_backup (fun _ s => SI s) (h, c).
Proof.
  intros HI Hst. assert (untouched h) as [Hspan Hu].
  { destruct HI as [_ _ _ _ Hf]. unfold stock_fact in Hf. simpl in Hf. by rewrite Hst in Hf. }
  pose proof HI as [_ Hram (_ & Ha & Hl & Hn) [Hlen Himg] _]. simpl in *.
  assert (forall ret k c', up_kind c' = up_kind c -> up_addr c' = up_addr c -> up_len c' = up_len c ->
    up_nand c' = up_nand c -> up_stage c' = up_stage c ->
    wp (ursus_update_fail ret) (fun _ s => SI s) (set_tick k h, c')) as Hfail.
  { intros ret k c' Ek Ea El En Es. apply (fail_SI _ _ _ (set_tick k h)); [|done..].
    apply (SI_tick k) in HI as [? ? ? ? Hf]. split; simpl in *; try congruence; try done.
    unfold stock_fact in *. rewrite Es, Hst. rewrite Hst in Hf. by destruct h. }
  unfold step_stock_backup, with_nand. wps. rewrite Hn. wps. apply wp_ro; [apply _|]. intros ret k.
  destruct (nz ret); [by apply Hfail|]. wps. apply wp_ro; [apply _|]. intros ok1 k1. wps.
  apply wp_ro; [apply _|]. intros ok2 k2. rewrite !set_tick_twice. wps.
  destruct (negb ok1 || negb ok2); [apply Hfail; by destruct c|]. wps.
  apply read_exact_val; [unfold URSUS_STOCK_BOOT_SIZE; lia|]. intros ret1 data k3 Hdat.
  rewrite set_tick_twice. wps. destruct (nz ret1) eqn:Hr1; [apply Hfail; by destruct c|]. wps.
  apply nz_false in Hr1. rewrite (Hdat Hr1). rewrite Z.add_0_r.
  assert (h_nand (set_tick k2 h) = h_nand h) as -> by by destruct h. fold (boot_span h). rewrite Hspan.
  apply wp_ro; [apply _|]. intros ok k4. rewrite set_tick_twice.
  destruct (ursus_fip_validate_current _ _) as [e|dend]; [apply Hfail; by destruct c|].
  destruct (_ <=? dend); [apply Hfail; by destruct c|]. wps. unfold id.
  replace (up_addr _) with addr by by destruct c. replace (up_len _) with len by by destruct c.
  destruct (addr =? 0); [apply Hfail; by destruct c|]. unfold ram_read. wps.
  assert (mread (h_ram (set_tick k4 h)) addr len = img) as -> by by destruct h.
  rewrite stock_candidate_built by (done || lia).
  eapply (advance_SI _ _ _ _ (set_tick k4 h) c); [by apply SI_tick|done..| |];
    destruct c; [done|]. unfold stock_fact. done.
Qed.

Lemma stock_erase h c : SI (h, c) -> up_stage c = URSUS_UP_STOCK_ERASE ->
  wp step_stock_erase (fun _ s => SI s) (h, c).
Proof.
  intros HI Hst. pose proof HI as [_ _ (_ & _ & _ & Hn) _ Hf]. simpl in *.
  unfold stock_fact in Hf. rewrite Hst in Hf.
  unfold step_stock_erase, with_nand. wps. rewrite Hn. wps. apply mtd_erase_frame. intros ret h' Er Em.
  assert (SI (h, set_up_commit_started true (set_up_write_started true c))) as HI'
    by (destruct HI as [? ? ? ? Hf']; split; try done; by destruct c).
  destruct (nz ret); [by eapply fail_SI|].
  eapply advance_SI; [exact HI'|done..|]. destruct c. by unfold stock_fact.
Qed.

Lemma stock_write h c : SI (h, c) -> up_stage c = URSUS_UP_STOCK_WRITE ->
  wp step_stock_write (fun _ s => SI s) (h, c).
Proof.
  intros HI Hst. pose proof HI as [_ _ (_ & _ & _ & Hn) _ Hf]. simpl in *.
  unfold stock_fact in Hf. rewrite Hst in Hf.
  unfold step_stock_write, with_nand. wps. rewrite Hn. wps. apply mtd_write_frame.
  intros [ret wr] h' Er Em. destruct (_ || _); [by eapply fail_SI|].
  eapply advance_SI; [exact HI|done..|]. destruct c. by unfold stock_fact.
Qed.

Lemma stock_verify h c : SI (h, c) -> up_stage c = URSUS_UP_STOCK_VERIFY ->
  wp step_stock_verify (fun _ s => SI s) (h, c).
Proof.
  intros HI Hst. pose proof HI as [_ _ (_ & _ & _ & Hn) _ Hf]. simpl in *.
  unfold stock_fact in Hf. rewrite Hst in Hf.
  unfold step_stock_verify, with_nand. wps. rewrite Hn. wps.
  apply read_exact_val; [unfold URSUS_STOCK_BOOT_SIZE; lia|]. intros ret rb k Hdat. wps.
  rewrite Hf. simpl default. destruct (_ || _) eqn:Hc.
  { apply (fail_SI _ _ _ h); [|by destruct h..]. destruct HI as [? ? ? ? Hf']. split; try done; by destruct c. }
  apply orb_false_iff in Hc as [Hr%nz_false Hm%negb_false_iff%memeq_eq]. wps.
  apply (SI_tick k) in HI as [Hma Hra Hcx Hle _]. split; simpl; try done; try by destruct c.
  destruct c. unfold stock_fact. simpl. unfold boot_span.
  rewrite Hm, (Hdat Hr), Z.add_0_r. by destruct h.
Qed.

Lemma stock_step h c : SI (h, c) -> wp ursus_fip_update_step (fun _ s => SI s) (h, c).
Proof.
  intros HI. unfold ursus_fip_update_step. wps. unfold id. destruct (up_active c) eqn:Ha; simpl; [|by wps].
  destruct (up_announced c); simpl; wps.
  2:{ unfold get_timer. wps. destruct HI. by split; destruct c. }
  unfold get_timer. wps. destruct (_ <? _); [by wps|]. wps.
  assert (SI (h, set_up_announced false c)) as HI' by (destruct HI; by split; destruct c).
  assert (up_stage (set_up_announced false c) = up_stage c) as Hs by by destruct c.
  rewrite <- Hs. destruct (up_stage (set_up_announced false c)) eqn:E; simpl;
    first [by apply stock_precheck|by apply stock_backup|by apply stock_erase|by apply stock_write
          |by apply stock_verify|by eapply fail_SI|idtac];
    destruct HI' as [_ _ _ _ Hf]; unfold stock_fact in Hf; simpl in Hf; by rewrite E in Hf.
Qed.

Lemma stock_run s0 s : SI s0 -> fip_run addr len s0 s -> SI s.
Proof.
  intros H0. induction 1 as [|[h c] _ IH|h h' c _ IH He]; [done| |].
  - destruct (ursus_fip_update_step (h, c)) as [r s'] eqn:Heq.
    exact (wp_run _ _ _ _ _ (stock_step h c IH) Heq).
  - destruct IH as [Hm Hr Hc Hl Hf], He as [_ _ _ En Em _ Er]. cbn [fst snd] in *. unfold master in Hm.
    split; cbn [fst snd]; [unfold master; by rewrite Em|by rewrite Er|exact Hc|exact Hl|].
    unfold stock_fact, untouched, boot_span in *. by rewrite En.
Qed.
End stock.

(** * Start *)

Section start.
Context {P : Platform} {X : Ext} {B : Board}.
#[local] Opaque mread repeat.

(** A machine in the stock layout: the master NAND has no UBI header. *)
Definition stock_layout (nand : mtd_info) (h : hw) : Prop :=
  master h = Some nand /\ mread (h_nand h) (m_off nand + URSUS_UBI_BASE) 4 <> bytes_of "UBI#".

Lemma accepted_stock ok a buf k :
  ursus_fip_validate_kind ok a buf true k = 0 ->
  k = URSUS_FIP_KIND_URSUS /\ 0 < blen buf < URSUS_STOCK_FIP_MAX.
Proof.
  intros Hv. pose proof (validate_kind_unpacked _ _ _ _ _ Hv) as [raw [? _ _]%bl33_unpack_ok].
  destruct k; simpl in Hv; [|done]. split; [done|]. unfold ursus_fip_validate in Hv.
  destruct (a =? 0); [done|]. unfold ursus_fip_validate_buf in Hv. simpl in Hv.
  destruct (Z.leb_spec URSUS_STOCK_FIP_MAX (blen buf)); [done|lia].
Qed.

Lemma stock_start addr len kind h c nand :
  stock_layout nand h -> up_active c = false ->
  wp (ursus_fip_update_start_kind addr len kind)
     (fun r s => r = 0 -> SI addr len nand (boot_span nand h) (mread (h_ram h) addr len) s) (h, c).
Proof.
  intros [Hm Hu] Ha. unfold ursus_fip_update_start_kind. wps. rewrite Ha. wps.
  unfold ursus_detect_ubi_layout, ursus_find_master_nand. wps. unfold master in Hm. rewrite Hm. wps.
  destruct (negb _); [by wps|]. wps. apply read_exact_val; [lia|]. intros ret hdr k Hdat.
  destruct (nz ret) eqn:Hz; [wps; intros ->; done|]. apply nz_false in Hz. wps.
  rewrite (Hdat Hz). destruct (memeq _ _) eqn:Hm'; [by apply memeq_eq in Hm'|]. simpl negb.
  unfold validate_kind_at. wps. apply wp_ro; [apply _|]. intros ok k1. unfold ram_read. wps.
  rewrite set_tick_twice. destruct (nz (ursus_fip_validate_kind _ _ _ _ _)) eqn:Hv.
  { wps. intros E. by rewrite E in Hv. }
  apply nz_false, accepted_stock in Hv as [-> Hlen].
  assert (h_ram (set_tick k1 h) = h_ram h) as Er by by destruct h. rewrite Er in *.
  assert (0 < len).
  { destruct (Z.ltb_spec 0 len); [done|]. rewrite mread_0 in Hlen by lia. unfold blen in Hlen. simpl in Hlen. lia. }
  simpl is_vanilla. cbv iota. wps. change (nz 0) with false. cbv iota.
  destruct (addr =? 0); [by wps|]. wps. intros _. split; cbn [fst snd].
  - unfold master. by destruct h.
  - by rewrite Er.
  - by destruct c.
  - split; [lia|apply Hlen].
  - unfold stock_fact, untouched, boot_span. simpl. by destruct h.
Qed.
End start.

(** * Claims *)

Section claims.
Context {P : Platform} {X : Ext} {B : Board}.

(** C5: a completed stock-layout update changed the FIP and nothing else.  Start an
    update on a machine without a UBI header and interleave its steps with any
    RAM and clock activity outside the candidate, on any platform.  If the engine
    reports COMPLETE, the 512 KiB bootloader span of the NAND is byte for byte the
    old prefix (0x800 bytes), the image from RAM, 0xff up to the environment, and
    the old vendor environment (the last 16 KiB). *)
Theorem stock_update_complete_correct addr len kind h0 c0 nand s1 s :
  stock_layout nand h0 -> up_active c0 = false ->
  ursus_fip_update_start_kind addr len kind (h0, c0) = (0, s1) ->
  fip_run addr len s1 s -> up_stage (snd s) = URSUS_UP_COMPLETE ->
  boot_span nand (fst s) = stock_candidate_of (boot_span nand h0) (mread (h_ram h0) addr len).
Proof.
  intros Hst Ha Hs Hr Hc.
  pose proof (wp_run _ _ _ _ _ (stock_start addr len kind h0 c0 nand Hst Ha) Hs eq_refl) as HI.
  assert (blen (boot_span nand h0) = URSUS_STOCK_BOOT_SIZE) as Hb by (apply blen_mread; unfold URSUS_STOCK_BOOT_SIZE; lia).
  destruct (stock_run _ _ _ _ _ Hb _ _ HI Hr) as [_ _ _ _ Hf]. unfold stock_fact in Hf. by rewrite Hc in Hf.
Qed.
End claims.

(** ** A concrete run *)

(** The stock machine: the bench FIP at 0x800 and no UBI header; the new image has
    a longer BL33 payload. *)
Definition stock_new_fip : list Z := mk_fip (bench_nt ++ [1; 2; 3]).
Definition stock_hw : hw :=
  MkHw 0 0 (mwrite (fun _ => 0) bench_addr stock_new_fip)
    (mwrite (fun x => x `mod` 251) URSUS_STOCK_FIP_OFF bench_fip)
    (fun _ => false) (fun _ => false) [bench_nand] (fun _ => UA_other) None [] ∅ false.
(** The cells the platform programs: the new image over erased cells, around it
    what the flash held. *)
Definition stock_cells : Z -> Z :=
  mwrite (fun x => if (URSUS_STOCK_FIP_OFF <=? x) && (x <? URSUS_STOCK_ENV_OFF) then 0xff else x `mod` 251)
    URSUS_STOCK_FIP_OFF stock_new_fip.
Program Definition stock_platform : Platform := {|
  pf_out := fun _ => Outcome 0 false (Some stock_cells) None;
  pf_raw := fun _ _ => 0; pf_env := fun _ => []; pf_pebs := 0; pf_beb_level := 0; pf_beb_pebs := 0;
|}.
Next Obligation. done. Qed.

Section stock_bench.
#[local] Existing Instance stock_platform | 0.
Definition stock_started : fst_t :=
  snd (ursus_fip_update_start_kind bench_addr 1040 URSUS_FIP_KIND_URSUS (stock_hw, up_init)).
Definition stock_end : fst_t := snd (update_run_loop 200 stock_started).
End stock_bench.

Lemma stock_bench_layout : stock_layout bench_nand stock_hw.
Proof. split; [done|]. by vm_compute. Qed.
Lemma stock_bench_start :
  @ursus_fip_update_start_kind stock_platform _ _ bench_addr 1040 URSUS_FIP_KIND_URSUS (stock_hw, up_init)
  = (0, stock_started).
Proof. refine (pair_fst (@ursus_fip_update_start_kind stock_platform _ _ bench_addr 1040 _ (stock_hw, up_init)) 0 _). by vm_compute. Qed.
Lemma stock_bench_run : @fip_run stock_platform _ _ bench_addr 1040 stock_started stock_end.
Proof. apply update_run_loop_run. constructor. Qed.
Lemma stock_bench_complete : up_stage (snd stock_end) = URSUS_UP_COMPLETE.
Proof. by vm_compute. Qed.

Lemma stock_update_complete_correct_witness :
  boot_span bench_nand (fst stock_end) =
  stock_candidate_of (boot_span bench_nand stock_hw) (mread (h_ram stock_hw) bench_addr 1040).
Proof.
  exact (@stock_update_complete_correct stock_platform _ _ bench_addr 1040 URSUS_FIP_KIND_URSUS stock_hw up_init
    bench_nand stock_started stock_end stock_bench_layout eq_refl stock_bench_start stock_bench_run
    stock_bench_complete).
Defined.
