(* ===== verification/JobThms.v ===== *)
(** Termination of the three flash engines: each follows the stage-machine
    protocol of [Jobs], so each blocking command loop ends on every platform. *)
From S2P Require Import Prelude Bytes Fip Flash Ubi Shell Bl2 Jobs FipUpdate UbiEngine Migration FitUpdate ShellSpec Bench.

(** One step of symbolic execution where the machine may do anything. *)
Ltac any1 :=
  lazymatch goal with
  | |- wp (onhw _) _ (_, _) => apply wp_onhw_any; intros; cbn beta
  | |- wp (if ?b then _ else _) _ _ => destruct b
  | |- wp (match ?x with _ => _ end) _ _ => destruct x
  | |- wp (let '_ := ?x in _) _ _ => destruct x
  | _ => wp1; cbn beta
  end.

(** * The boot FIP update *)

Section fip.
Context {P : Platform} {X : Ext} {B : Board}.

Definition up_left (c : update_ctx) : nat :=
  match up_stage c with
  | URSUS_UP_PRECHECK => 8 | URSUS_UP_UBI_ATTACH => 7 | URSUS_UP_UBI_STAGE_PREP => 6
  | URSUS_UP_UBI_STAGE_WRITE => 5 | URSUS_UP_UBI_STAGE_VERIFY => 4 | URSUS_UP_UBI_PROMOTE => 3
  | URSUS_UP_UBI_VERIFY => 2 | URSUS_UP_UBI_ROLLBACK => 1
  | URSUS_UP_STOCK_BACKUP => 4 | URSUS_UP_STOCK_ERASE => 3 | URSUS_UP_STOCK_WRITE => 2
  | URSUS_UP_STOCK_VERIFY => 1 | _ => 0
  end.

#[export] Instance fip_machine : StageMachine update_ctx := {|
  sm_active := up_active; sm_announced := up_announced; sm_announced_at := up_announced_at;
  sm_announce := fun now c => set_up_announced_at now (set_up_announced true c);
  sm_unannounce := set_up_announced false;
  sm_hold := URSUS_UPDATE_STAGE_HOLD_MS;
  sm_idle := fun c => match up_stage c with
                      | URSUS_UP_COMPLETE => 1 | URSUS_UP_FAILED => up_error c | _ => 0 end;
  sm_stage := fun c => step_stage (up_stage c);
  sm_result := fun c => if ursus_fip_update_complete c then 0 else up_error c;
  sm_left := up_left |}.

Lemma fip_step_sm : ursus_fip_update_step = sm_step.
Proof. done. Qed.
Lemma fip_loop_sm fuel s : update_run_loop fuel s = sm_loop fuel s.
Proof.
  revert s. induction fuel as [|fuel IH]; intros [h c]; simpl; unfold sbind, ctx, sget; simpl;
    destruct (up_active c); simpl; try done.
  rewrite <- fip_step_sm. destruct (_ <? 0); [done|]. apply IH.
Qed.

(** A stage that has run: the job is over, or unannounced at a later stage. *)
Definition up_moved (n : nat) (c : update_ctx) : Prop :=
  up_active c = false \/ (up_announced c = false /\ (up_left c < n)%nat).

Lemma fail_moved n ret h c : wp (ursus_update_fail ret) (fun _ s => up_moved n (snd s)) (h, c).
Proof. unfold ursus_update_fail, ursus_update_fail_reason. wps. left. by destruct c. Qed.
Lemma fail_reason_moved n ret code h c :
  wp (ursus_update_fail_reason ret code) (fun _ s => up_moved n (snd s)) (h, c).
Proof. unfold ursus_update_fail_reason. wps. left. by destruct c. Qed.
Lemma advance_moved n last next h c :
  up_announced c = false -> (up_left (set_up_stage next c) < n)%nat ->
  wp (advance last next) (fun _ s => up_moved n (snd s)) (h, c).
Proof. unfold advance. intros. wps. right. destruct c. simpl in *. by unfold up_left in *. Qed.


(** Helpers that touch the context leave the announcement alone. *)
Definition quiet {A} (m : ST fst_t A) : Prop :=
  forall h c, up_announced c = false -> wp m (fun _ s => up_announced (snd s) = false) (h, c).
Lemma wp_quiet {A} (m : ST fst_t A) (Q : A -> fst_t -> Prop) h c :
  quiet m -> up_announced c = false ->
  (forall a h' c', up_announced c' = false -> Q a (h', c')) -> wp m Q (h, c).
Proof. intros Hq Hc H. eapply wp_mono; [by apply Hq|]. intros a [h' c']. apply H. Qed.

Ltac quiet_tac := intros h c Hc; repeat any1; simpl; try done; by destruct c.
Lemma set_mode_quiet m r : quiet (set_mode m r).
Proof. unfold set_mode. quiet_tac. Qed.
Lemma detect_quiet : quiet ursus_detect_ubi_layout.
Proof. unfold ursus_detect_ubi_layout. quiet_tac. Qed.
Lemma register_quiet : quiet ursus_update_register_ubi_part.
Proof. unfold ursus_update_register_ubi_part. quiet_tac. Qed.
Lemma ensure_quiet : quiet ursus_update_ensure_ubi_attachment.
Proof.
  intros h c Hc. unfold ursus_update_ensure_ubi_attachment. wps.
  apply (wp_quiet _ _ _ _ register_quiet Hc). intros r h' c' Hc'. repeat any1; done.
Qed.
Lemma classify_quiet : quiet ursus_ubi_classify_active_fip.
Proof.
  intros h c Hc. unfold ursus_ubi_classify_active_fip, set_mode. repeat any1; destruct c; done.
Qed.

(** Runs a stage to its end on every branch. *)
Ltac stage_tac :=
  repeat first
    [ apply fail_moved | apply fail_reason_moved
    | lazymatch goal with
      | |- wp ursus_detect_ubi_layout _ _ => apply (wp_quiet _ _ _ _ detect_quiet); [done|intros]
      | |- wp ursus_update_ensure_ubi_attachment _ _ => apply (wp_quiet _ _ _ _ ensure_quiet); [done|intros]
      | |- wp ursus_ubi_classify_active_fip _ _ => apply (wp_quiet _ _ _ _ classify_quiet); [done|intros]
      end
    | apply advance_moved; repeat match goal with c : update_ctx |- _ => destruct c end;
      unfold up_left, id; simpl in *; repeat case_match; done || lia
    | any1 ].

Lemma precheck_moves h c : up_announced c = false ->
  wp step_precheck (fun _ s => up_moved 8 (snd s)) (h, c).
Proof. intros Hc. unfold step_precheck. stage_tac. Qed.
Lemma stock_moves h c : up_announced c = false ->
  wp step_stock_backup (fun _ s => up_moved 4 (snd s)) (h, c) /\
  wp step_stock_erase (fun _ s => up_moved 3 (snd s)) (h, c) /\
  wp step_stock_write (fun _ s => up_moved 2 (snd s)) (h, c) /\
  wp step_stock_verify (fun _ s => up_moved 1 (snd s)) (h, c).
Proof.
  intros Hc. unfold step_stock_backup, step_stock_erase, step_stock_write, step_stock_verify, with_nand.
  repeat split; stage_tac. left. by destruct c.
Qed.
Lemma attach_moves h c : up_announced c = false ->
  wp step_ubi_attach (fun _ s => up_moved 7 (snd s)) (h, c).
Proof. intros Hc. unfold step_ubi_attach. stage_tac. Qed.
Lemma create_moves h c : up_announced c = false ->
  wp step_ubi_stage_create (fun _ s => up_moved 6 (snd s)) (h, c).
Proof. intros Hc. unfold step_ubi_stage_create. stage_tac. Qed.
Lemma prep_moves h c : up_announced c = false ->
  wp step_ubi_stage_prep (fun _ s => up_moved 6 (snd s)) (h, c).
Proof.
  intros Hc. unfold step_ubi_stage_prep.
  repeat first [apply fail_moved | apply fail_reason_moved | apply create_moves; by destruct c | any1].
Qed.
Lemma ubi_moves h c : up_announced c = false ->
  wp step_ubi_stage_write (fun _ s => up_moved 5 (snd s)) (h, c) /\
  wp step_ubi_stage_verify (fun _ s => up_moved 4 (snd s)) (h, c) /\
  wp step_ubi_promote (fun _ s => up_moved 3 (snd s)) (h, c) /\
  wp step_ubi_verify (fun _ s => up_moved 2 (snd s)) (h, c) /\
  wp step_ubi_rollback (fun _ s => up_moved 1 (snd s)) (h, c).
Proof.
  intros Hc. unfold step_ubi_stage_write, step_ubi_stage_verify, step_ubi_promote, step_ubi_verify,
    step_ubi_rollback.
  repeat split; stage_tac; left; by destruct c.
Qed.

#[export] Instance fip_machine_laws : StageMachineLaws update_ctx.
Proof.
  split.
  - intros [] t. by repeat split.
  - simpl. unfold URSUS_UPDATE_STAGE_HOLD_MS. lia.
  - intros h c _. simpl. set (c0 := set_up_announced false c).
    assert (up_announced c0 = false) as Hc by by destruct c. clearbody c0.
    unfold up_left. destruct (up_stage c); simpl;
      first [ apply fail_moved | by apply precheck_moves | by apply stock_moves
            | by apply attach_moves | by apply prep_moves | by apply ubi_moves ].
Qed.

Lemma detect_ctx h c :
  wp ursus_detect_ubi_layout (fun r s => (exists n, snd s = set_up_nand n c) /\
    (snd r = None -> fst r <> 0)) (h, c).
Proof.
  unfold ursus_detect_ubi_layout. wps. apply wp_intro. intros nand h' _. wps.
  destruct nand as [nand|]; [|wps; by eauto]. destruct (negb _); [wps; by eauto|]. wps.
  apply wp_intro. intros [ret hdr] h'' _. destruct (nz ret) eqn:Hr; wps; simpl; [|by eauto].
  split; [eauto|]. intros _. by apply nz_true.
Qed.

(** The state [ursus_fip_update_start_kind] leaves has at most eight stages ahead. *)
Lemma start_left addr len kind h c :
  wp (ursus_fip_update_start_kind addr len kind)
    (fun r s => up_active (snd s) = true -> up_active c = false ->
       up_announced (snd s) = false /\ (up_left (snd s) <= 8)%nat) (h, c).
Proof.
  unfold ursus_fip_update_start_kind. wps. destruct (up_active c) eqn:Ha; [by wps|]. wps.
  eapply wp_mono; [apply detect_ctx|]. intros r [h' c'] [[n Hn] _]. simpl in Hn. subst c'.
  destruct c. unfold up_left. simpl. repeat any1; simpl; intros; done || lia.
Qed.

Lemma update_run_ends addr len kind h c fuel :
  up_active c = false -> (252 <= fuel)%nat ->
  is_Some (fst (ursus_update_run fuel addr len kind (h, c))).
Proof.
  intros Ha Hf. unfold ursus_update_run, sbind. pose proof (start_left addr len kind h c) as Hw.
  destruct (ursus_fip_update_start_kind addr len kind (h, c)) as [r [h' c']] eqn:E.
  pose proof (wp_run _ _ _ _ _ Hw E) as Hl. simpl in *. destruct (nz r); [unfold sret; simpl; eauto|].
  rewrite fip_loop_sm. destruct (up_active c') eqn:Ha'.
  - destruct (Hl eq_refl Ha) as [Hn Hle].
    eapply (ends_le (S (sm_left c') * polls)); [|by apply sm_loop_ends]. etrans; [|exact Hf].
    change (sm_left c') with (up_left c'). change polls with 28%nat. lia.
  - by apply sm_loop_inactive.
Qed.
End fip.

(** * The migration *)

Section mig.
Context {P : Platform} {X : Ext} {B : Board}.

Definition mig_left (c : ubi_ctx) : nat :=
  match mig_stage (us_mig c) with
  | URSUS_MIG_PRECHECK => 17 | URSUS_MIG_BACKUP_BOSA => 16 | URSUS_MIG_BACKUP_RI => 15
  | URSUS_MIG_BACKUP_FIP => 14 | URSUS_MIG_FORMAT_UBI => 13 | URSUS_MIG_ATTACH_UBI => 12
  | URSUS_MIG_CREATE_VOLUMES => 11 | URSUS_MIG_WRITE_BOSA => 10 | URSUS_MIG_WRITE_RI => 9
  | URSUS_MIG_WRITE_FIP => 8 | URSUS_MIG_WRITE_FIT => 7 | URSUS_MIG_VERIFY_BOSA => 6
  | URSUS_MIG_VERIFY_RI => 5 | URSUS_MIG_VERIFY_FIP => 4 | URSUS_MIG_VERIFY_FIT => 3
  | URSUS_MIG_COMMIT_BL2 => 2 | URSUS_MIG_VERIFY_BL2 => 1 | _ => 0
  end.

Definition mig_machine : StageMachine ubi_ctx := {|
  sm_active := fun c => mig_active (us_mig c);
  sm_announced := fun c => mig_announced (us_mig c);
  sm_announced_at := fun c => mig_announced_at (us_mig c);
  sm_announce := fun now c =>
    set_us_mig (set_mig_announced_at now (set_mig_announced true (us_mig c))) c;
  sm_unannounce := fun c => set_us_mig (set_mig_announced false (us_mig c)) c;
  sm_hold := URSUS_MIG_STAGE_HOLD_MS;
  sm_idle := fun c => match mig_stage (us_mig c) with
    | URSUS_MIG_COMPLETE => 1 | URSUS_MIG_FAILED => mig_error (us_mig c) | _ => 0 end;
  sm_stage := fun c => mig_stage_step (mig_stage (us_mig c));
  sm_result := fun c => if ursus_ubi_migration_complete (us_mig c) then 0 else mig_error (us_mig c);
  sm_left := mig_left |}.
#[local] Existing Instance mig_machine.

Lemma mig_step_sm : ursus_ubi_migration_step = sm_step.
Proof. done. Qed.
Lemma mig_loop_sm fuel s : migrate_loop fuel s = sm_loop fuel s.
Proof.
  revert s. induction fuel as [|fuel IH]; intros [h c]; simpl; unfold sbind, ctx, sget; simpl;
    unfold ursus_ubi_migration_active; destruct (mig_active _); simpl; try done.
  rewrite <- mig_step_sm. destruct (_ <? 0); [done|]. apply IH.
Qed.

Definition mig_moved (n : nat) (c : ubi_ctx) : Prop :=
  mig_active (us_mig c) = false \/ (mig_announced (us_mig c) = false /\ (mig_left c < n)%nat).

Lemma mig_fail_moved n ret h c : wp (ursus_mig_fail ret) (fun _ s => mig_moved n (snd s)) (h, c).
Proof. unfold ursus_mig_fail, onmig. wps. left. by destruct c as [? ? ? ? [] ?]. Qed.
Lemma mig_advance_moved n last next h c :
  mig_announced (us_mig c) = false ->
  (mig_left (set_us_mig (set_mig_stage next (us_mig c)) c) < n)%nat ->
  wp (mig_advance last next) (fun _ s => mig_moved n (snd s)) (h, c).
Proof.
  unfold mig_advance, onmig. intros. wps. right. destruct c as [? ? ? ? [] ?]. simpl in *. done.
Qed.

Lemma register_mig h c :
  wp ursus_ubi_register_mtd (fun _ s => us_mig (snd s) = us_mig c /\ us_upd (snd s) = us_upd c) (h, c).
Proof. unfold ursus_ubi_register_mtd. repeat any1; by destruct c. Qed.

Ltac mig_tac :=
  repeat first
    [ apply mig_fail_moved
    | lazymatch goal with
      | |- wp ursus_ubi_register_mtd _ (_, ?c) =>
        eapply wp_mono; [apply register_mig|]; let E := fresh "E" in intros ? [? ?] [E _]; simpl in E
      end
    | apply mig_advance_moved; unfold mig_left; repeat match goal with c : ubi_ctx |- _ => destruct c end;
      simpl in *; subst; try done; repeat match goal with m : migration_ctx |- _ => destruct m end;
      simpl in *; done || lia
    | any1 ].

Lemma mig_stage_moves h c : mig_announced (us_mig c) = false ->
  wp (mig_stage_step (mig_stage (us_mig c))) (fun _ s => mig_moved (mig_left c) (snd s)) (h, c).
Proof.
  intros Hc. unfold mig_left. destruct (mig_stage (us_mig c)); try apply mig_fail_moved; simpl;
  unfold mig_precheck, mig_backup_bosa, mig_backup_ri, mig_backup_fip, mig_format_ubi, mig_attach_ubi,
    mig_create_volumes, mig_write_bosa, mig_write_ri, mig_write_fip, mig_write_fit, mig_verify_bosa,
    mig_verify_ri, mig_verify_fip, mig_verify_fit, mig_commit_bl2, mig_verify_bl2, mig_readback,
    with_master, mig_cmd, mig_try, mig_try_bad, verify_bl2, onmig; mig_tac.
  left. by destruct c as [? ? ? ? [] ?].
Qed.

Definition mig_machine_laws : StageMachineLaws ubi_ctx.
Proof.
  split.
  - intros [? ? ? ? [] ?] t. by repeat split.
  - simpl. unfold URSUS_MIG_STAGE_HOLD_MS. lia.
  - intros h c _. simpl.
    eapply wp_mono; [|intros r s Hm; exact Hm].
    replace (mig_stage (us_mig c)) with (mig_stage (us_mig (set_us_mig (set_mig_announced false (us_mig c)) c)))
      by by destruct c as [? ? ? ? [] ?].
    replace (mig_left c) with (mig_left (set_us_mig (set_mig_announced false (us_mig c)) c))
      by by destruct c as [? ? ? ? [] ?].
    apply mig_stage_moves. by destruct c as [? ? ? ? [] ?].
Qed.
#[local] Existing Instance mig_machine_laws.

Lemma migrate_ends fa fl pa pl h c fuel :
  mig_active (us_mig c) = false -> (684 <= fuel)%nat ->
  is_Some (fst (ursus_ubi_migrate_from_stock fuel fa fl pa pl (h, c))).
Proof.
  intros Ha Hf. unfold ursus_ubi_migrate_from_stock, ursus_ubi_migration_start, sbind, ctx, sget. simpl.
  rewrite Ha. destruct (_ || _); simpl; [unfold sret; simpl; eauto|].
  unfold sbind, onmig, onctx, smod, sret. simpl. rewrite mig_loop_sm.
  eapply (ends_le (18 * polls)); [by change (18 * polls)%nat with 684%nat|].
  match goal with
  | |- ends _ (_, ?c) => replace 18%nat with (S (sm_left c)); [apply (sm_loop_ends h c)|]
  end; by destruct c.
Qed.
End mig.

(** * The FIT update *)

Section upd.
Context {P : Platform} {X : Ext} {B : Board}.

Definition upd_left (c : ubi_ctx) : nat :=
  match upd_stage (us_upd c) with
  | URSUS_UPD_PRECHECK => 6 | URSUS_UPD_STAGE_PREP => 5 | URSUS_UPD_STAGE_WRITE => 4
  | URSUS_UPD_STAGE_VERIFY => 3 | URSUS_UPD_PROMOTE => 2 | URSUS_UPD_FINAL_VERIFY => 1 | _ => 0
  end.

Definition upd_machine : StageMachine ubi_ctx := {|
  sm_active := fun c => upd_active (us_upd c);
  sm_announced := fun c => upd_announced (us_upd c);
  sm_announced_at := fun c => upd_announced_at (us_upd c);
  sm_announce := fun now c =>
    set_us_upd (set_upd_announced_at now (set_upd_announced true (us_upd c))) c;
  sm_unannounce := fun c => set_us_upd (set_upd_announced false (us_upd c)) c;
  sm_hold := URSUS_MIG_STAGE_HOLD_MS;
  sm_idle := fun c => match upd_stage (us_upd c) with
    | URSUS_UPD_COMPLETE => 1 | URSUS_UPD_FAILED => upd_error (us_upd c) | _ => 0 end;
  sm_stage := fun c => upd_stage_step (upd_stage (us_upd c));
  sm_result := fun c => if ursus_ubi_update_complete (us_upd c) then 0 else upd_error (us_upd c);
  sm_left := upd_left |}.
#[local] Existing Instance upd_machine.

Lemma upd_step_sm : ursus_ubi_update_step = sm_step.
Proof. done. Qed.
Lemma upd_loop_sm fuel s : update_fit_loop fuel s = sm_loop fuel s.
Proof.
  revert s. induction fuel as [|fuel IH]; intros [h c]; simpl; unfold sbind, ctx, sget; simpl;
    unfold ursus_ubi_update_active; destruct (upd_active _); simpl; try done.
  rewrite <- upd_step_sm. destruct (_ <? 0); [done|]. apply IH.
Qed.

Definition upd_moved (n : nat) (c : ubi_ctx) : Prop :=
  upd_active (us_upd c) = false \/ (upd_announced (us_upd c) = false /\ (upd_left c < n)%nat).

Lemma upd_fail_reason_moved n ret code h c :
  wp (ursus_upd_fail_reason ret code) (fun _ s => upd_moved n (snd s)) (h, c).
Proof. unfold ursus_upd_fail_reason, onupd. wps. left. by destruct c as [? ? ? ? ? []]. Qed.
Lemma upd_fail_moved n ret h c : wp (ursus_upd_fail ret) (fun _ s => upd_moved n (snd s)) (h, c).
Proof. unfold ursus_upd_fail. wps. apply upd_fail_reason_moved. Qed.
Lemma upd_advance_moved n last next h c :
  upd_announced (us_upd c) = false ->
  (upd_left (set_us_upd (set_upd_stage next (us_upd c)) c) < n)%nat ->
  wp (upd_advance last next) (fun _ s => upd_moved n (snd s)) (h, c).
Proof.
  unfold upd_advance, onupd. intros. wps. right. destruct c as [? ? ? ? ? []]. simpl in *. done.
Qed.
Lemma settings_upd keep h c :
  wp (upd_settings keep) (fun _ s => us_upd (snd s) = us_upd c) (h, c).
Proof.
  unfold upd_settings, ursus_ubi_reset_settings. destruct (negb keep); [|repeat any1; done].
  wps. eapply wp_mono; [apply register_mig|]. intros ? [? ?] [_ E]. simpl in E. repeat any1; done.
Qed.

Ltac upd_leaf :=
  unfold upd_left, id; repeat match goal with c : ubi_ctx |- _ => destruct c end;
  simpl in *; subst; try done; repeat match goal with m : fit_update_ctx |- _ => destruct m end;
  simpl in *; repeat case_match; done || lia.
Ltac upd_tac :=
  repeat first
    [ apply upd_fail_moved | apply upd_fail_reason_moved
    | lazymatch goal with
      | |- wp ursus_ubi_register_mtd _ (_, ?c) =>
        eapply wp_mono; [apply register_mig|]; let E := fresh "E" in intros ? [? ?] [_ E]; simpl in E
      | |- wp (upd_settings _) _ (_, ?c) =>
        eapply wp_mono; [apply settings_upd|]; let E := fresh "E" in intros ? [? ?] E; simpl in E
      end
    | apply upd_advance_moved; upd_leaf
    | any1 ].

Lemma upd_stage_moves h c : upd_announced (us_upd c) = false ->
  wp (upd_stage_step (upd_stage (us_upd c))) (fun _ s => upd_moved (upd_left c) (snd s)) (h, c).
Proof.
  intros Hc. unfold upd_left. destruct (upd_stage (us_upd c)); try apply upd_fail_moved; simpl;
  unfold upd_precheck, upd_stage_prep, upd_stage_write, upd_stage_verify, upd_promote, upd_final_verify,
    upd_readback, onupd; upd_tac; left; upd_leaf.
Qed.

Definition upd_machine_laws : StageMachineLaws ubi_ctx.
Proof.
  split.
  - intros [? ? ? ? ? []] t. by repeat split.
  - simpl. unfold URSUS_MIG_STAGE_HOLD_MS. lia.
  - intros h c _. simpl.
    eapply wp_mono; [|intros r s Hm; exact Hm].
    replace (upd_stage (us_upd c)) with (upd_stage (us_upd (set_us_upd (set_upd_announced false (us_upd c)) c)))
      by by destruct c as [? ? ? ? ? []].
    replace (upd_left c) with (upd_left (set_us_upd (set_upd_announced false (us_upd c)) c))
      by by destruct c as [? ? ? ? ? []].
    apply upd_stage_moves. by destruct c as [? ? ? ? ? []].
Qed.
#[local] Existing Instance upd_machine_laws.

Lemma update_fit_ends fa fl h c fuel :
  upd_active (us_upd c) = false -> (266 <= fuel)%nat ->
  is_Some (fst (ursus_ubi_update_fit fuel fa fl (h, c))).
Proof.
  intros Ha Hf. unfold ursus_ubi_update_fit, ursus_ubi_update_start, sbind, ctx, sget. simpl.
  rewrite Ha. simpl. destruct (mig_active _); [unfold sret; simpl; eauto|].
  destruct (_ || _); [unfold sret; simpl; eauto|]. simpl.
  destruct (nz (fdt_check_header _)); [unfold sret; simpl; eauto|].
  unfold sbind, onupd, onctx, smod, sret. simpl. rewrite upd_loop_sm.
  eapply (ends_le (7 * polls)); [by change (7 * polls)%nat with 266%nat|].
  match goal with
  | |- ends _ (?h, ?c) => replace 7%nat with (S (sm_left c)); [apply (sm_loop_ends h c)|]
  end; by destruct c.
Qed.
End upd.

(** * Claims *)

Section claims.
Context {P : Platform} {X : Ext} {B : Board}.

End claims.

