(* ===== verification/FipThms.v ===== *)
(** The FIP table of contents: a declarative description of the images
    [ursus_fip_parse] accepts, its equivalence with the parser, the agreement of
    the three readers of the table, and the two candidate validators. *)
From S2P Require Import Prelude Bytes Fip FipTheory Flash Shell Bl2 FipUpdate ShellSpec JobThms Bench.

(** * What a well-formed FIP is *)

(** Entry [j] of the table describes a non-empty range inside the image. *)
Record entry_ok (buf : list Z) (j : Z) : Prop := {
  eo_fits : ent_pos j + FIP_ENT <= blen buf;
  eo_named : ursus_uuid_zero (ent_uuid buf j) = false;
  eo_low : URSUS_FIP_TOC_MIN <= ent_offset buf j;
  eo_size : 0 < ent_size buf j;
  eo_high : ent_offset buf j + ent_size buf j <= blen buf;
}.
(** Entry [n] terminates the table and declares the end of the image. *)
Record entry_end (buf : list Z) (n dend : Z) : Prop := {
  ee_fits : ent_pos n + FIP_ENT <= blen buf;
  ee_zero : ursus_uuid_zero (ent_uuid buf n) = true;
  ee_size : ent_size buf n = 0;
  ee_off : ent_offset buf n = dend;
  ee_range : URSUS_FIP_TOC_MIN <= dend <= blen buf;
}.
Definition is_nt (buf : list Z) (j : Z) : Prop := ent_uuid buf j = ursus_nt_fw_uuid.
(** [k] is the last NT_FW entry of [\[i, n)]. *)
Definition last_nt (buf : list Z) (i n k : Z) : Prop :=
  i <= k < n /\ is_nt buf k /\ forall j, k < j < n -> ~ is_nt buf j.

(** The whole image: header, [n] entries, terminator, and the NT_FW entry [k]. *)
Definition fip_wf (buf : list Z) (fi : fip_info) : Prop :=
  FIP_HDR + 2 * FIP_ENT <= blen buf /\
  le32 0 buf = URSUS_FIP_MAGIC /\ le32 4 buf = URSUS_FIP_SERIAL /\
  exists n k, 0 <= n < Z.of_nat URSUS_FIP_MAX_ENTRIES /\
    (forall j, 0 <= j < n -> entry_ok buf j) /\ entry_end buf n (declared_end fi) /\
    last_nt buf 0 n k /\ nt_off fi = ent_offset buf k /\ nt_size fi = ent_size buf k.

(** * The parser's loop *)

(** What the loop carries: the NT_FW entry seen before [i], or a later one. *)
Definition nt_from (buf : list Z) (nt : option (Z * Z)) (i n : Z) (nt' : option (Z * Z)) : Prop :=
  (nt' = nt /\ forall j, i <= j < n -> ~ is_nt buf j) \/
  exists k, last_nt buf i n k /\ nt' = Some (ent_offset buf k, ent_size buf k).

Lemma nt_from_step buf nt i n nt' :
  i < n ->
  nt_from buf (if memeq (ent_uuid buf i) ursus_nt_fw_uuid then Some (ent_offset buf i, ent_size buf i) else nt)
    (i + 1) n nt' <-> nt_from buf nt i n nt'.
Proof.
  intros Hi. unfold nt_from, last_nt. destruct (memeq _ _) eqn:Hm.
  - apply memeq_eq in Hm. split.
    + intros [[-> Hno]|(k & (? & ? & ?) & ->)]; right; [exists i|exists k]; repeat split; try done; try lia.
      intros j Hj. apply Hno. lia.
    + intros [[-> Hno]|(k & (Hk & Hnt & Hno) & ->)]; [by destruct (Hno i)|].
      destruct (decide (k = i)) as [->|]; [left|right; exists k; repeat split; try done; lia].
      split; [done|]. intros j Hj. apply Hno. lia.
  - apply memeq_neq in Hm. split.
    + intros [[-> Hno]|(k & (? & ? & ?) & ->)]; [left|right; exists k; repeat split; try done; lia].
      split; [done|]. intros j Hj. destruct (decide (j = i)) as [->|]; [done|]. apply Hno. lia.
    + intros [[-> Hno]|(k & (Hk & Hnt & Hno) & ->)].
      * left. split; [done|]. intros j Hj. apply Hno. lia.
      * destruct (decide (k = i)) as [->|]; [done|]. right. exists k. repeat split; try done; lia.
Qed.

Lemma parse_loop_spec buf : bytes_ok buf -> blen buf < 2 ^ 64 ->
  forall k i nt nt' dend,
    ursus_fip_parse_loop k i buf nt = inr (nt', Some dend) <->
    exists n, i <= n < i + Z.of_nat k /\ (forall j, i <= j < n -> entry_ok buf j) /\
      entry_end buf n dend /\ nt_from buf nt i n nt'.
Proof.
  intros Hb Hlen. induction k as [|k IH]; intros i nt nt' dend.
  { simpl. split; [done|]. intros (n & Hn & _). lia. }
  assert (0 <= ent_offset buf i < 2 ^ 64) by by apply le64_range.
  assert (0 <= ent_size buf i < 2 ^ 64) by by apply le64_range.
  cbn [ursus_fip_parse_loop].
  assert (forall n, n <> i -> i <= n -> (forall j, i <= j < n -> entry_ok buf j) -> entry_ok buf i) as Hfirst.
  { intros n ? ? Hall. apply Hall. lia. }
  destruct (Z.ltb_spec (blen buf) (ent_pos i + FIP_ENT)) as [Hfit|Hfit].
  { split; [done|]. intros (n & Hn & Hall & He & _).
    destruct (decide (n = i)) as [->|Hne]; [destruct He; lia|].
    destruct (Hfirst n Hne ltac:(lia) Hall). lia. }
  destruct (ursus_uuid_zero (ent_uuid buf i)) eqn:Hz.
  - split.
    + destruct (_ || _) eqn:Hc; [done|]. intros [= <- <-].
      apply orb_false_iff in Hc as [[Hs%nz_false Hlo%Z.ltb_ge]%orb_false_iff Hhi%Z.ltb_ge].
      exists i. split; [lia|]. split; [intros; lia|]. split; [by split|].
      left. split; [done|]. intros; lia.
    + intros (n & Hn & Hall & He & Hnt). destruct (decide (n = i)) as [->|Hne].
      * destruct He as [_ _ Hs <- Hr]. rewrite Hs. change (nz 0) with false. simpl.
        destruct (Z.ltb_spec (ent_offset buf i) URSUS_FIP_TOC_MIN); [lia|].
        destruct (Z.ltb_spec (blen buf) (ent_offset buf i)); [lia|].
        destruct Hnt as [[-> _]|(k' & [? _] & _)]; [done|lia].
      * destruct (Hfirst n Hne ltac:(lia) Hall). congruence.
  - assert (entry_ok buf i <-> (ent_offset buf i <? URSUS_FIP_TOC_MIN) || (ent_size buf i =? 0)
              || (blen buf <? ent_offset buf i) || (blen buf - ent_offset buf i <? ent_size buf i) = false) as Hok.
    { rewrite !orb_false_iff, !Z.ltb_ge, Z.eqb_neq. split.
      - intros []. lia.
      - intros [[[]]]. split; done || lia. }
    destruct (_ || _) eqn:Hc.
    { split; [done|]. intros (n & Hn & Hall & He & _).
      destruct (decide (n = i)) as [->|Hne]; [destruct He; congruence|].
      pose proof (proj1 Hok (Hfirst n Hne ltac:(lia) Hall)). congruence. }
    destruct (proj2 Hok eq_refl) as [_ _ ? ? ?]. rewrite u64_small by lia.
    destruct (Z.ltb_spec (blen buf) (ent_offset buf i + ent_size buf i)); [lia|].
    rewrite IH. split.
    + intros (n & Hn & Hall & He & Hnt). exists n. split; [lia|]. split.
      { intros j Hj. destruct (decide (j = i)) as [->|]; [by apply Hok|]. apply Hall. lia. }
      split; [done|]. exact (proj1 (nt_from_step buf nt i n nt' ltac:(lia)) Hnt).
    + intros (n & Hn & Hall & He & Hnt).
      destruct (decide (n = i)) as [->|Hne]; [destruct He; congruence|].
      exists n. split; [lia|]. split; [intros j Hj; apply Hall; lia|]. split; [done|].
      apply (proj2 (nt_from_step buf nt i n nt' ltac:(lia))), Hnt.
Qed.

Lemma parse_wf buf fi : bytes_ok buf -> blen buf < 2 ^ 64 -> ursus_fip_parse buf = inr fi <-> fip_wf buf fi.
Proof.
  intros Hb Hlen. unfold ursus_fip_parse, fip_wf.
  destruct (Z.ltb_spec (blen buf) (FIP_HDR + 2 * FIP_ENT)) as [Hs|Hs].
  { split; [done|]. intros [? _]. lia. }
  destruct (nz (le32 0 buf - URSUS_FIP_MAGIC) || nz (le32 4 buf - URSUS_FIP_SERIAL)) eqn:Hh.
  { split; [done|]. intros (_ & H1 & H2 & _). rewrite H1, H2, !Z.sub_diag in Hh. done. }
  apply orb_false_iff in Hh as [H1%nz_false H2%nz_false].
  pose proof (parse_loop_spec buf Hb Hlen URSUS_FIP_MAX_ENTRIES 0 None) as Hspec. split.
  - destruct (ursus_fip_parse_loop _ _ _ _) as [e|[[[noff nsize]|] [dend|]]] eqn:Hl; try done.
    intros [= <-]. simpl. destruct (proj1 (Hspec _ _) eq_refl) as (n & Hn & Hall & He & Hnt).
    destruct Hnt as [[? _]|(k & Hk & [= -> ->])]; [done|].
    split; [lia|]. split; [lia|]. split; [lia|]. exists n, k. by split; [lia|].
  - intros (_ & _ & _ & n & k & Hn & Hall & He & Hk & Ho & Hz).
    rewrite (proj2 (Hspec (Some (ent_offset buf k, ent_size buf k)) (declared_end fi))).
    + destruct fi. simpl in *. by subst.
    + exists n. split; [lia|]. split; [done|]. split; [done|]. right. eauto.
Qed.

(** * The three readers of one table *)

(** The 4 KiB window that cmd/ursusubi.c reads has the same entries. *)
Lemma ent_window (buf rest : list Z) (j : Z) :
  0 <= j -> ent_pos j + FIP_ENT <= blen buf -> ent_pos j + FIP_ENT <= URSUS_FIP_TOC_READ ->
  ent_uuid (take (Z.to_nat URSUS_FIP_TOC_READ) (buf ++ rest)) j = ent_uuid buf j /\
  ent_offset (take (Z.to_nat URSUS_FIP_TOC_READ) (buf ++ rest)) j = ent_offset buf j.
Proof.
  unfold ent_uuid, ent_offset, le64, ent_pos, FIP_HDR, FIP_ENT, URSUS_FIP_TOC_READ. intros.
  split; [|f_equal]; rewrite slice_take, slice_app_l by lia; done.
Qed.

Lemma blen_window (buf rest : list Z) :
  URSUS_FIP_TOC_READ <= blen (buf ++ rest) ->
  blen (take (Z.to_nat URSUS_FIP_TOC_READ) (buf ++ rest)) = URSUS_FIP_TOC_READ.
Proof. unfold blen, URSUS_FIP_TOC_READ. intros. rewrite length_take. lia. Qed.

Lemma ent_pos_window j : 0 <= j < Z.of_nat URSUS_FIP_MAX_ENTRIES -> ent_pos j + FIP_ENT <= URSUS_FIP_TOC_READ.
Proof. unfold ent_pos, FIP_HDR, FIP_ENT, URSUS_FIP_TOC_READ, URSUS_FIP_MAX_ENTRIES. lia. Qed.

Lemma buffer_valid_loop_spec buf toc n dend : forall k i nt,
  (forall j, 0 <= j <= n -> ent_pos j + FIP_ENT <= blen toc /\ ent_uuid toc j = ent_uuid buf j) ->
  (forall j, 0 <= j < n -> entry_ok buf j) -> entry_end buf n dend ->
  0 <= i <= n -> n < i + Z.of_nat k -> nt = true \/ (exists j, i <= j < n /\ is_nt buf j) ->
  ursus_fip_buffer_valid_loop k i toc nt = (true, true).
Proof.
  induction k as [|k IH]; intros i nt Hw Hall He Hi Hk Hnt; [lia|].
  cbn [ursus_fip_buffer_valid_loop]. destruct (Hw i ltac:(lia)) as [Hfit ->].
  destruct (Z.ltb_spec (blen toc) (ent_pos i + FIP_ENT)); [lia|].
  destruct (decide (i = n)) as [->|Hne].
  - rewrite (ee_zero _ _ _ He). destruct Hnt as [->|(j & ? & _)]; [done|lia].
  - rewrite (eo_named _ _ (Hall i ltac:(lia))). apply IH; try done; try lia.
    destruct Hnt as [->|(j & Hj & Hnt)]; [by left|].
    destruct (decide (j = i)) as [->|]; [left|right; exists j; split; [lia|done]].
    unfold is_nt in Hnt. rewrite Hnt, memeq_refl. apply orb_true_r.
Qed.

Lemma length_loop_spec buf toc n dend : forall k i,
  (forall j, 0 <= j <= n -> ent_pos j + FIP_ENT <= blen toc /\ ent_uuid toc j = ent_uuid buf j) ->
  ent_offset toc n = ent_offset buf n ->
  (forall j, 0 <= j < n -> entry_ok buf j) -> entry_end buf n dend ->
  0 <= i <= n -> n < i + Z.of_nat k -> 0x10000 <= dend <= URSUS_STOCK_FIP_MAX ->
  fip_length_loop k i toc = inr dend.
Proof.
  induction k as [|k IH]; intros i Hw Ho Hall He Hi Hk Hd; [lia|].
  cbn [fip_length_loop]. destruct (Hw i ltac:(lia)) as [Hfit ->].
  destruct (Z.ltb_spec (blen toc) (ent_pos i + FIP_ENT)); [lia|].
  destruct (decide (i = n)) as [->|Hne].
  - rewrite (ee_zero _ _ _ He), Ho, (ee_off _ _ _ He). simpl.
    destruct (Z.ltb_spec dend 0x10000); [lia|]. by destruct (Z.ltb_spec URSUS_STOCK_FIP_MAX dend); [lia|].
  - rewrite (eo_named _ _ (Hall i ltac:(lia))). simpl. apply IH; done || lia.
Qed.

Lemma readers_agree buf rest fi :
  fip_wf buf fi -> URSUS_FIP_TOC_READ <= blen (buf ++ rest) ->
  let toc := take (Z.to_nat URSUS_FIP_TOC_READ) (buf ++ rest) in
  ursus_fip_buffer_valid toc = true /\
  (0x10000 <= declared_end fi <= URSUS_STOCK_FIP_MAX ->
   ursus_current_fip_length_toc toc = inr (declared_end fi)).
Proof.
  intros (Hsz & Hm & Hs & n & k & Hn & Hall & He & Hk & _) Hlen toc.
  pose proof (blen_window buf rest Hlen) as Hblen. fold toc in Hblen.
  assert (forall j, 0 <= j <= n -> ent_pos j + FIP_ENT <= blen toc /\ ent_uuid toc j = ent_uuid buf j) as Hw.
  { intros j Hj. pose proof (ent_pos_window j ltac:(lia)). rewrite Hblen. split; [done|].
    apply ent_window; [lia| |done].
    destruct (decide (j = n)) as [->|]; [apply He|apply Hall; lia]. }
  assert (le32 0 toc = le32 0 buf /\ le32 4 toc = le32 4 buf) as [H0 H4].
  { unfold le32, toc, FIP_HDR, FIP_ENT in *. rewrite !slice_take, !slice_app_l; [done|..];
      unfold URSUS_FIP_TOC_READ; lia. }
  split.
  - unfold ursus_fip_buffer_valid. rewrite H0, H4, Hm, Hs, Hblen, !Z.sub_diag. change (nz 0) with false.
    change (URSUS_FIP_TOC_READ <? FIP_HDR + FIP_ENT) with false. simpl orb. cbv iota.
    rewrite (buffer_valid_loop_spec buf toc n (declared_end fi)); try done; try lia.
    right. exists k. split; [apply Hk|apply Hk].
  - intros Hd. unfold ursus_current_fip_length_toc. rewrite H0, H4, Hm, Hs, !Z.sub_diag.
    change (nz 0) with false. cbv iota. simpl orb. cbv iota.
    apply (length_loop_spec buf toc n); try done; try lia.
    apply ent_window; [lia|apply He|apply ent_pos_window; lia].
Qed.

(** * Claims *)

(** C19: the FIP parser accepts exactly the well-formed images.  For a byte
    buffer whose length fits a [size_t], [ursus_fip_parse] returns [fi] if and
    only if the header carries the magic and serial numbers, at most 32 entries
    precede a terminator, every entry lies inside the buffer behind the table,
    the terminator declares [declared_end fi], and [fi] is the last NT_FW entry:
    no accepted entry reaches outside the image, and no well-formed image is refused. *)
Theorem fip_parse_iff_wf buf fi :
  bytes_ok buf -> blen buf < 2 ^ 64 -> ursus_fip_parse buf = inr fi <-> fip_wf buf fi.
Proof. apply parse_wf. Qed.

Definition bench_info : fip_info := mk_fip_info 0x400 13 1037.
Lemma bench_fip_bytes : bytes_ok bench_fip.
Proof. apply (bool_decide_unpack (Forall (fun b => 0 <= b < 256) bench_fip)). by vm_compute. Qed.
Lemma fip_parse_iff_wf_witness : fip_wf bench_fip bench_info.
Proof. apply (fip_parse_iff_wf bench_fip bench_info bench_fip_bytes eq_refl). by vm_compute. Defined.



(** C24: an image is a UrsusBoot candidate or a Vanilla candidate, never both:
    whatever the allocator, the board strings and the external digest and LZMA
    code do, no buffer passes both validators. *)
Theorem fip_validators_exclusive `{Ext} `{Board} m m' buf l d d' :
  ~ (ursus_fip_validate_buf m buf l = inr d /\ ursus_vanilla_fip_validate_buf m' buf = inr d').
Proof.
  unfold ursus_fip_validate_buf, ursus_vanilla_fip_validate_buf. intros [H1 H2].
  destruct (l && _); [done|].
  destruct (ursus_fip_bl33_unpack m buf) as [|raw] eqn:E1; [done|].
  destruct (ursus_fip_bl33_unpack m' buf) as [|raw'] eqn:E2; [done|].
  assert (raw = raw') as <-.
  { unfold ursus_fip_bl33_unpack in *. repeat case_match; simplify_eq; done. }
  destruct (ursus_mem_has raw "U-Boot 2026.07-UrsusBoot-"); [|done].
  by rewrite !orb_true_r in H2.
Qed.

(** The tree ships with the Vanilla replacement disabled.  With the digests of
    the source (an all-zero pin), no image passes the Vanilla validator, and
    [ursus_vanilla_fip_update_start] refuses every request in every state: it
    reports an error and never arms the engine. *)
Lemma vanilla_unpinned_refused `{Platform} `{Ext} :
  (forall m buf d, @ursus_vanilla_fip_validate_buf _ md_board m buf <> inr d) /\
  (forall addr len h c, up_active c = false ->
     wp (@ursus_vanilla_fip_update_start _ _ md_board addr len)
       (fun ret s => ret <> 0 /\ up_active (snd s) = false) (h, c)).
Proof.
  assert (forall m buf d, @ursus_vanilla_fip_validate_buf _ md_board m buf <> inr d) as Hno.
  { intros m buf d. unfold ursus_vanilla_fip_validate_buf. destruct (ursus_fip_bl33_unpack m buf); [done|].
    cbv zeta. destruct (_ || _); [done|]. done. }
  split; [done|]. intros addr len h c Ha.
  unfold ursus_vanilla_fip_update_start, ursus_fip_update_start_kind. wps. rewrite Ha. wps.
  eapply wp_mono; [apply detect_ctx|]. intros [ret is_ubi] [h' c'] [[n Hn] Hret]. simpl in Hn. subst c'.
  assert (up_active (set_up_nand n (up_zero c)) = false) as Hz by by destruct c.
  destruct is_ubi as [is_ubi|]; [|wps; by auto]. unfold validate_kind_at. wps.
  apply wp_intro. intros ok h'' _. wps. unfold ram_read. wps.
  destruct (nz _) eqn:Hv; [wps; split; [by apply nz_true in Hv|done]|].
  apply nz_false in Hv. apply validate_vanilla in Hv as [d Hd]. by destruct (Hno _ _ _ Hd).
Qed.
