(* ===== verification/NotStarted.v ===== *)
(** The transaction state NOT_STARTED is truthful: as long as a flash engine
    reports it, no cell of the flash, no volume table and no erased mark has
    changed since the job was started.  For the FIP update, the FIT update and
    the migration. *)
From S2P Require Import Prelude Bytes Fip FipTheory Flash Ubi Shell Bl2 Jobs ReadOnly NoFlash FipUpdate ShellSpec FipSafety UbiEngine Migration FitUpdate Bench JobThms FipUpdateThms.

(** * Machines whose UBI region is not blank *)

(** The update partitions and the master device are where the tables put them. *)
Definition parts_ok (l : list mtd_info) : Prop :=
  Forall (fun m => (is_update_part (m_name m) ->
                    m_off m = URSUS_UBI_BASE /\ m_size m = URSUS_UBI_SIZE /\ m_erasesize m = 0x20000) /\
                   (m_part m = false -> m_off m = 0)) l.
(** Attaching an entirely blank region formats it: excluded. *)
Definition not_blank (h : hw) : Prop :=
  (exists t, h_areas h URSUS_UBI_BASE = UA_table t) \/
  exists k, 0 <= k < 0x7ff /\ h_bad h (1 + k) = false /\ h_erased h (1 + k) = false.

Section kept.
Variable h0 : hw.
Hypothesis Hnb : not_blank h0.

(** The flash is as it was in [h0]. *)
Record kept (h : hw) : Prop := {
  kp_nand : h_nand h = h_nand h0;
  kp_erased : h_erased h = h_erased h0;
  kp_areas : h_areas h = h_areas h0;
  kp_hist : h_hist h = h_hist h0;
  kp_bad : h_bad h = h_bad h0;
  kp_mtds : parts_ok (h_mtds h);
}.
Lemma kept_same h h' : kept h -> flash_same h h' -> kept h'.
Proof. intros [] []. split; congruence. Qed.
Lemma kept_idle h h' : kept h -> idle_move h h' -> kept h'.
Proof. intros [] []. split; congruence. Qed.

Lemma not_all_erased h m :
  kept h -> h_areas h (m_off m) = UA_other ->
  m_off m = URSUS_UBI_BASE -> m_size m = URSUS_UBI_SIZE -> m_erasesize m = 0x20000 ->
  all_erased h m = false.
Proof.
  intros [] Ha Ho Hs He. rewrite kp_areas0, Ho in Ha.
  destruct Hnb as [[t Ht]|(k & Hk & Hb & Hx)]; [congruence|].
  apply not_true_is_false. unfold all_erased. rewrite forallb_forall, Ho, Hs, He. intros Hall.
  specialize (Hall (Z.to_nat k)). rewrite Z2Nat.id in Hall by lia.
  change (URSUS_UBI_BASE / 0x20000) with 1 in Hall. rewrite kp_bad0, kp_erased0, Hb, Hx in Hall.
  apply Bool.diff_false_true, Hall. apply in_seq.
  change (Z.to_nat (URSUS_UBI_SIZE / 0x20000)) with (Z.to_nat 0x7ff). lia.
Qed.

Context {P : Platform} {X : Ext} {B : Board}.

(** Attaching an update partition writes nothing. *)
Lemma attach_kept n h (R : Z -> hw -> Prop) :
  kept h -> is_update_part n -> (forall r h', kept h' -> R r h') -> wp (run_command (UbiPart n)) R h.
Proof.
  intros Hk Hn HR. apply run_command_spec. simpl. unfold ubi_part. wps.
  destruct (match h_ubi h with Some u => _ | None => _ end); [wps; by apply HR|].
  unfold ubi_detach, get_mtd_device_nm. wps.
  assert (kept (set_ubi None h)) as Hk' by (eapply kept_same; [done|by destruct h]).
  destruct (find _ _) as [m|] eqn:Hf; [|wps; by apply HR].
  apply find_some in Hf as [Hin Hb%bool_decide_eq_true]. clear Hk. set (h1 := set_ubi None h) in *. clearbody h1.
  pose proof (kp_mtds _ Hk') as Hm. unfold parts_ok in Hm. rewrite List.Forall_forall in Hm.
  destruct (Hm m Hin) as [Hp _]. rewrite Hb in Hp. destruct (Hp Hn) as (Ho & Hs & He).
  unfold ubi_dev_scan. wps. apply wp_ro; [apply _|]. intros o k.
  assert (kept (set_tick k h1)) as Hk2 by (eapply kept_same; [done|by destruct h1]).
  set (h2 := set_tick k h1) in *. clearbody h2.
  destruct (nz _); wps; [by apply HR|]. destruct (h_areas h2 (m_off m)) as [|t] eqn:Ha.
  - wps. rewrite (not_all_erased h2 m) by done. simpl. wps. by apply HR.
  - destruct (negb _); [wps; by apply HR|]. destruct (pf_pebs <? _); wps; [by apply HR|].
    apply HR. eapply kept_same; [done|by destruct h2].
Qed.

(** Registering a partition of the master at the UBI base. *)
Lemma find_master_ok h m :
  parts_ok (h_mtds h) -> find (fun m => negb (m_part m) && m_nand m) (h_mtds h) = Some m -> m_off m = 0.
Proof.
  intros Hm [Hin [Hb%negb_true_iff _]%andb_true_iff]%find_some. unfold parts_ok in Hm.
  rewrite List.Forall_forall in Hm. by apply Hm.
Qed.
Lemma add_parts_kept nand parts h (R : Z -> hw -> Prop) :
  kept h -> parts_ok (map (mtd_part_of nand) parts) ->
  (forall r h', kept h' -> R r h') -> wp (add_mtd_partitions nand parts) R h.
Proof.
  intros Hk Hp HR. unfold add_mtd_partitions. wps. apply wp_ro; [apply _|]. intros o k.
  assert (kept (set_tick k h)) as Hk' by (eapply kept_same; [done|by destruct h]).
  destruct (nz _); wps; apply HR; [done|]. destruct Hk'. destruct h. simpl in *. split; try done.
  simpl. by apply Forall_app.
Qed.
End kept.

(** Machine steps that keep the flash: by class, or the two lemmas above. *)
Ltac kept1 :=
  lazymatch goal with
  | |- wp (onhw (run_command (UbiPart _))) _ (_, _) => fail
  | |- wp (onhw (add_mtd_partitions _ _)) _ (_, _) => fail
  | |- wp (onhw _) _ (_, _) =>
    apply wp_onhw_nf; [apply _|]; let E := fresh "Es" in
    intros ? ? E; cbn beta; match goal with H : kept _ _ |- _ => apply (fun K => kept_same _ _ _ K E) in H end
  | |- wp (if ?b then _ else _) _ _ => destruct b
  | |- wp (match ?x with _ => _ end) _ _ => destruct x
  | |- wp (let '_ := ?x in _) _ _ => destruct x
  | _ => wp1; cbn beta
  end.

Ltac opened T := repeat match goal with c : T |- _ => destruct c end.

(** * The boot FIP update *)

Section fip.
Context {P : Platform} {X : Ext} {B : Board}.
Variable h0 : hw.
Hypothesis Hnb : not_blank h0.

(** Active, or over. *)
Definition up_live (c : update_ctx) : Prop :=
  up_active c = true \/ up_stage c = URSUS_UP_COMPLETE \/ up_stage c = URSUS_UP_FAILED.
Definition up_wrote (c : update_ctx) : Prop := up_write_started c = true /\ up_active c = true.
Definition up_wrote_post (_ : Z) (s : fst_t) : Prop :=
  up_write_started (snd s) = true /\ up_live (snd s).

Lemma fail_wrote ret h c : up_wrote c -> wp (ursus_update_fail ret) up_wrote_post (h, c).
Proof.
  intros [Hw Ha]. unfold ursus_update_fail, ursus_update_fail_reason. wps. destruct c. simpl in *.
  split; [done|]. by right; right.
Qed.
Lemma fail_reason_wrote ret code h c : up_wrote c -> wp (ursus_update_fail_reason ret code) up_wrote_post (h, c).
Proof.
  intros [Hw Ha]. unfold ursus_update_fail_reason. wps. destruct c. simpl in *. split; [done|]. by right; right.
Qed.
Lemma advance_wrote last next h c : up_wrote c -> wp (advance last next) up_wrote_post (h, c).
Proof. intros [Hw Ha]. unfold advance. wps. destruct c. simpl in *. split; [done|]. by left. Qed.

(** Helpers on the context keep "wrote". *)
Definition keeps_wrote {A} (m : ST fst_t A) : Prop :=
  forall h c, up_wrote c -> wp m (fun _ s => up_wrote (snd s)) (h, c).
Lemma wp_wrote {A} (m : ST fst_t A) (Q : A -> fst_t -> Prop) h c :
  keeps_wrote m -> up_wrote c -> (forall a h' c', up_wrote c' -> Q a (h', c')) -> wp m Q (h, c).
Proof. intros Hq Hc H. eapply wp_mono; [by apply Hq|]. intros a [h' c']. apply H. Qed.
Lemma detect_wrote : keeps_wrote ursus_detect_ubi_layout.
Proof. intros h c Hc. unfold ursus_detect_ubi_layout. repeat any1; by destruct c. Qed.
Lemma register_wrote : keeps_wrote ursus_update_register_ubi_part.
Proof. intros h c Hc. unfold ursus_update_register_ubi_part. repeat any1; by destruct c. Qed.
Lemma ensure_wrote : keeps_wrote ursus_update_ensure_ubi_attachment.
Proof.
  intros h c Hc. unfold ursus_update_ensure_ubi_attachment. wps.
  apply (wp_wrote _ _ _ _ register_wrote Hc). intros r h' c' Hc'. repeat any1; done.
Qed.
Lemma classify_wrote : keeps_wrote ursus_ubi_classify_active_fip.
Proof. intros h c Hc. unfold ursus_ubi_classify_active_fip, set_mode. repeat any1; by destruct c. Qed.

Ltac wrote_ok :=
  opened update_ctx; repeat match goal with H : up_wrote _ |- _ => destruct H end; by split.
Ltac wrote_tac :=
  repeat first
    [ apply fail_wrote; wrote_ok | apply fail_reason_wrote; wrote_ok
    | lazymatch goal with
      | |- wp ursus_detect_ubi_layout _ _ => apply (wp_wrote _ _ _ _ detect_wrote); [done|intros]
      | |- wp ursus_update_ensure_ubi_attachment _ _ => apply (wp_wrote _ _ _ _ ensure_wrote); [done|intros]
      | |- wp ursus_ubi_classify_active_fip _ _ => apply (wp_wrote _ _ _ _ classify_wrote); [done|intros]
      end
    | apply advance_wrote; wrote_ok
    | any1 ].

Lemma stage_wrote h c : up_wrote c -> wp (step_stage (up_stage c)) up_wrote_post (h, c).
Proof.
  intros Hc. destruct (up_stage c); simpl; try (by apply fail_wrote).
  - unfold step_precheck. wrote_tac.
  - unfold step_stock_backup, with_nand. wrote_tac.
  - unfold step_stock_erase, with_nand. wrote_tac.
  - unfold step_stock_write, with_nand. wrote_tac.
  - unfold step_stock_verify, with_nand. wrote_tac. destruct Hc. destruct c. split; [done|]. by right; left.
  - unfold step_ubi_attach. wrote_tac.
  - unfold step_ubi_stage_prep, step_ubi_stage_create. wrote_tac.
  - unfold step_ubi_stage_write. wrote_tac.
  - unfold step_ubi_stage_verify. wrote_tac.
  - unfold step_ubi_promote. wrote_tac.
  - unfold step_ubi_verify. wrote_tac; destruct Hc; destruct c; (split; [done|]; by right; left).
  - unfold step_ubi_rollback. wrote_tac.
Qed.

(** ** Before the first write *)

Definition up_early (s : ursus_update_stage) : bool :=
  match s with
  | URSUS_UP_PRECHECK | URSUS_UP_STOCK_BACKUP | URSUS_UP_STOCK_ERASE | URSUS_UP_UBI_ATTACH
  | URSUS_UP_UBI_STAGE_PREP | URSUS_UP_FAILED => true
  | _ => false
  end.
Record up_clean (h : hw) (c : update_ctx) : Prop := {
  uc_kept : kept h0 h;
  uc_part : forall m, up_ubi_part_mtd c = Some m -> is_update_part (m_name m);
  uc_ready : up_parts_ready c = true -> is_Some (up_ubi_part_mtd c);
}.
(** The invariant: live, and either writing has started or nothing changed. *)
Definition NS (s : fst_t) : Prop :=
  up_live (snd s) /\
  (up_write_started (snd s) = true \/ up_early (up_stage (snd s)) = true /\ up_clean (fst s) (snd s)).

Lemma up_clean_ctx h c c' :
  up_clean h c -> up_ubi_part_mtd c' = up_ubi_part_mtd c -> up_parts_ready c' = up_parts_ready c -> up_clean h c'.
Proof. intros [] E1 E2. split; [done|by rewrite E1|by rewrite E1, E2]. Qed.
Lemma wrote_NS (m : ST fst_t Z) s : wp m up_wrote_post s -> wp m (fun _ s => NS s) s.
Proof. intros Hm. eapply wp_mono; [exact Hm|]. intros r s' [? ?]. split; [done|by left]. Qed.

Lemma fail_NS ret h c : up_clean h c -> wp (ursus_update_fail ret) (fun _ s => NS s) (h, c).
Proof.
  intros Hc. unfold ursus_update_fail, ursus_update_fail_reason. wps.
  split; [right; right; by destruct c|]. right. split; [by destruct c|].
  eapply up_clean_ctx; [exact Hc|by destruct c..].
Qed.
Lemma fail_reason_NS ret code h c :
  up_clean h c -> wp (ursus_update_fail_reason ret code) (fun _ s => NS s) (h, c).
Proof.
  intros Hc. unfold ursus_update_fail_reason. wps.
  split; [right; right; by destruct c|]. right. split; [by destruct c|].
  eapply up_clean_ctx; [exact Hc|by destruct c..].
Qed.
Lemma advance_NS last next h c :
  up_clean h c -> up_active c = true -> up_early next = true -> wp (advance last next) (fun _ s => NS s) (h, c).
Proof.
  intros Hc Ha Hn. unfold advance. wps. split; [left; by destruct c|]. right. split; [by destruct c|].
  eapply up_clean_ctx; [exact Hc|by destruct c..].
Qed.

(** What the attachment helpers leave. *)
Definition clean_post {A} (_ : A) (s : fst_t) : Prop := up_clean (fst s) (snd s) /\ up_active (snd s) = true.
Lemma wp_clean {A} (m : ST fst_t A) (Q : A -> fst_t -> Prop) s :
  wp m clean_post s -> (forall a h' c', up_clean h' c' -> up_active c' = true -> Q a (h', c')) -> wp m Q s.
Proof. intros Hm H. eapply wp_mono; [exact Hm|]. intros a [h' c'] []. by apply H. Qed.

Lemma kept_clean h h' c : up_clean h c -> flash_same h h' -> up_clean h' c.
Proof. intros [] E. split; try done. by eapply kept_same. Qed.

(** Machine steps by class, in a clean state. *)
Ltac clean1 :=
  lazymatch goal with
  | |- wp (onhw (run_command (UbiPart _))) _ (_, _) => fail
  | |- wp (onhw (add_mtd_partitions _ _)) _ (_, _) => fail
  | |- wp (onhw _) _ (_, _) =>
    apply wp_onhw_nf; [apply _|]; let E := fresh "Es" in
    intros ? ? E; cbn beta; match goal with H : up_clean _ _ |- _ => apply (fun K => kept_clean _ _ _ K E) in H end
  | |- wp (if ?b then _ else _) _ _ => destruct b
  | |- wp (match ?x with _ => _ end) _ _ => destruct x
  | |- wp (let '_ := ?x in _) _ _ => destruct x
  | _ => wp1; cbn beta
  end.
Ltac clean_ok :=
  match goal with H : up_clean ?h ?c |- up_clean ?h _ => eapply (up_clean_ctx h c); [exact H|by opened update_ctx..] end.
Ltac clean_tac :=
  repeat first
    [ apply fail_NS; clean_ok | apply fail_reason_NS; clean_ok
    | apply advance_NS; [clean_ok|by opened update_ctx|done]
    | clean1 ].

Lemma detect_clean h c : up_clean h c -> up_active c = true -> wp ursus_detect_ubi_layout clean_post (h, c).
Proof.
  intros Hc Ha. unfold ursus_detect_ubi_layout.
  repeat clean1; (split; [clean_ok|by opened update_ctx]).
Qed.

#[local] Instance validate_nf a l b k : NoFlash (validate_kind_at a l b k).
Proof. apply ro_nf, validate_kind_at_ro. Qed.

Lemma precheck_NS h c : up_clean h c -> up_active c = true -> wp step_precheck (fun _ s => NS s) (h, c).
Proof.
  intros Hc Ha. unfold step_precheck. wps. eapply wp_clean; [by apply detect_clean|].
  intros [ret is_ubi] h' c' Hc' Ha'. destruct is_ubi; wps; clean_tac.
  all: apply advance_NS; [clean_ok|by opened update_ctx|by case_match].
Qed.
Lemma backup_NS h c : up_clean h c -> up_active c = true -> wp step_stock_backup (fun _ s => NS s) (h, c).
Proof. intros Hc Ha. unfold step_stock_backup, with_nand. clean_tac. Qed.

Lemma register_clean h c :
  up_clean h c -> up_active c = true ->
  wp ursus_update_register_ubi_part (fun r s => clean_post r s /\ (r = 0 -> is_Some (up_ubi_part_mtd (snd s)))) (h, c).
Proof.
  intros Hc Ha. unfold ursus_update_register_ubi_part. wps. destruct (up_parts_ready c) eqn:Hr.
  { wps. split; [by split|]. intros _. by apply Hc. }
  pose proof (kp_mtds _ _ (uc_kept _ _ Hc)) as Hm.
  wps. unfold ursus_find_master_nand. wps. destruct (find _ (h_mtds h)) as [nd|] eqn:Hnd.
  2:{ wps. split; [split; [clean_ok|by destruct c]|done]. }
  pose proof (find_master_ok h nd Hm Hnd) as Hoff.
  destruct (negb _) eqn:Hg; [wps; split; [split; [clean_ok|by destruct c]|done]|]. wps.
  unfold get_mtd_device_nm. wps.
  assert (forall h' n m, parts_ok (h_mtds h') -> is_update_part n ->
    find (fun m => bool_decide (m_name m = n)) (h_mtds h') = Some m -> is_update_part (m_name m)) as Hnm.
  { intros h' n m _ Hn [_ Hb%bool_decide_eq_true]%find_some. by rewrite Hb. }
  destruct (find (fun m => bool_decide _) (h_mtds h)) as [m|] eqn:Hf.
  { wps. apply Hnm in Hf; [|done|by left]. split; [|by destruct c; simpl; eauto].
    split; [|by destruct c]. destruct Hc. split; [done| |]; destruct c; simpl; eauto. intros ? [= <-]. done. }
  wps. apply (add_parts_kept h0); [by destruct Hc| |].
  { apply negb_false_iff in Hg. unfold nand_geometry_ok in Hg.
    apply negb_true_iff, orb_false_iff in Hg as [[Hg1%nz_false Hg2%nz_false]%orb_false_iff _].
    constructor; [|done]. simpl. rewrite Hoff. split; [|done]. intros _. repeat split. lia. }
  intros r h1 Hk1. assert (up_clean h1 (set_up_ubi_part_mtd None (set_up_nand (Some nd) c))) as Hc1.
  { destruct Hc. split; [done|by destruct c|]. destruct c. simpl in *. by rewrite Hr. }
  destruct (nz r) eqn:Hz; [wps; split; [split; [done|by destruct c]|]; intros ->; done|]. wps.
  destruct (find _ (h_mtds h1)) as [m|] eqn:Hf1; wps.
  - apply Hnm in Hf1; [|by destruct Hk1|by right]. split; [|by destruct c; simpl; eauto].
    split; [|by destruct c]. split; [done| |]; destruct c; simpl; eauto. intros ? [= <-]. done.
  - split; [split; [done|by destruct c]|done].
Qed.

Lemma ensure_clean h c : up_clean h c -> up_active c = true -> wp ursus_update_ensure_ubi_attachment clean_post (h, c).
Proof.
  intros Hc Ha. unfold ursus_update_ensure_ubi_attachment. wps.
  eapply wp_mono; [by apply register_clean|]. intros r [h1 c1] [[Hc1 Ha1] Hs]. cbn [fst snd] in *.
  destruct (nz r) eqn:Hz; [by wps|]. apply nz_false in Hz. destruct (Hs Hz) as [m Hm]. wps. rewrite Hm. wps.
  destruct (h_ubi h1); [by destruct (_ || _); wps|]. wps.
  apply (attach_kept h0 Hnb); [apply Hc1|by apply Hc1|]. intros r' h2 Hk2.
  assert (up_clean h2 c1) as Hc2 by (destruct Hc1; by split).
  destruct (nz r'); [by wps|]. wps. destruct (h_ubi h2); [destruct (negb _)|]; by wps.
Qed.
Lemma classify_clean h c : up_clean h c -> up_active c = true -> wp ursus_ubi_classify_active_fip clean_post (h, c).
Proof.
  intros Hc Ha. unfold ursus_ubi_classify_active_fip, set_mode.
  repeat clean1; (split; [clean_ok|by opened update_ctx]).
Qed.
Lemma attach_NS h c : up_clean h c -> up_active c = true -> wp step_ubi_attach (fun _ s => NS s) (h, c).
Proof.
  intros Hc Ha. unfold step_ubi_attach. wps. eapply wp_clean; [by apply ensure_clean|].
  intros ret h1 c1 Hc1 Ha1. destruct (nz ret); [by apply fail_reason_NS|]. wps.
  eapply wp_clean; [by apply classify_clean|]. intros ret2 h2 c2 Hc2 Ha2. clean_tac.
Qed.

Lemma stage_NS h c : NS (h, c) -> up_active c = true -> wp (step_stage (up_stage c)) (fun _ s => NS s) (h, c).
Proof.
  intros [Hl [Hw|[He Hc]]] Ha; cbn [fst snd] in *; [by apply wrote_NS, stage_wrote|].
  destruct (up_stage c); try done; cbn [step_stage].
  - by apply precheck_NS.
  - by apply backup_NS.
  - unfold step_stock_erase, with_nand. wps. destruct (up_nand c); [|by apply fail_NS].
    apply wp_bind, wp_onctx, wrote_NS. wrote_tac.
  - by apply attach_NS.
  - unfold step_ubi_stage_prep. apply wp_bind, wp_onctx, wrote_NS. unfold step_ubi_stage_create. wrote_tac.
  - by apply fail_NS.
Qed.

Lemma fip_run_NS s1 s : NS s1 -> poll_run s1 s -> NS s.
Proof.
  intros H1. apply poll_run_inv; [| | |done].
  - intros h c t [Hl Hf] Ha. split; [by left; destruct c|].
    destruct Hf as [Hw|[He Hc]]; [left|right]; cbn [fst snd] in *; [by destruct c|].
    split; [by destruct c|]. clean_ok.
  - intros h c [Hl Hf] Ha. simpl.
    replace (up_stage c) with (up_stage (set_up_announced false c)) by by destruct c.
    apply stage_NS; [|by destruct c]. split; [by left; destruct c|].
    destruct Hf as [Hw|[He Hc]]; [left|right]; cbn [fst snd] in *; [by destruct c|].
    split; [by destruct c|]. clean_ok.
  - intros h h' c [Hl Hf] Hm. split; [done|]. destruct Hf as [Hw|[He [Hk ? ?]]]; [by left|right].
    split; [done|]. split; [by eapply kept_idle|done..].
Qed.

Lemma start_NS addr len kind c :
  parts_ok (h_mtds h0) -> (forall m, up_ubi_part_mtd c = Some m -> is_update_part (m_name m)) ->
  (up_parts_ready c = true -> is_Some (up_ubi_part_mtd c)) ->
  wp (ursus_fip_update_start_kind addr len kind) (fun r s => r = 0 -> NS s) (h0, c).
Proof.
  intros Hp Hm Hr. unfold ursus_fip_update_start_kind. wps. destruct (up_active c); [by wps|]. wps.
  assert (up_clean h0 (up_zero c)) as Hc by (split; [by split|by destruct c..]).
  assert (wp ursus_detect_ubi_layout (fun r s => up_clean (fst s) (snd s) /\ (snd r = None -> fst r <> 0)) (h0, up_zero c)) as Hd.
  { apply wp_and.
    - unfold ursus_detect_ubi_layout. repeat clean1; cbn [fst snd]; clean_ok.
    - eapply wp_mono; [apply detect_ctx|]. by intros r s [_ ?]. }
  eapply wp_mono; [exact Hd|]. intros [ret is_ubi] [h1 c1] [Hc1 Hret]. cbn [fst snd] in *.
  destruct is_ubi as [is_ubi|]; [|wps; intros ->; by destruct Hret].
  apply wp_bind, wp_onhw_nf; [apply _|]. intros r h2 E2. apply (kept_clean _ _ _ Hc1) in E2.
  destruct (nz r) eqn:Hz; [wps; intros ->; done|]. apply wp_bind.
  assert (wp (if is_vanilla kind then onhw ursus_ubi_installed_bl2_matches_pin else sret 0)
    (fun _ s => up_clean (fst s) (snd s)) (h2, c1)) as Hb by (repeat clean1; done).
  eapply wp_mono; [exact Hb|]. intros r3 [h3 c3] Hc3. cbn [fst snd] in *.
  destruct (nz r3) eqn:Hz3; [wps; intros ->; done|]. destruct (addr =? 0); [by wps|].
  repeat clean1. intros _. split; [by left|right]. split; [done|]. clean_ok.
Qed.
End fip.

(** * The migration and the FIT update *)

Section ubi_jobs.
Context {P : Platform} {X : Ext} {B : Board}.
Variable h0 : hw.
Hypothesis Hnb : not_blank h0.

(** A condition on the context that helper code does not see. *)
Lemma register_kept h c :
  kept h0 h ->
  wp ursus_ubi_register_mtd (fun _ s => kept h0 (fst s) /\ us_mig (snd s) = us_mig c /\ us_upd (snd s) = us_upd c) (h, c).
Proof.
  intros Hk. apply wp_and; [|apply register_mig]. unfold ursus_ubi_register_mtd.
  wps. destruct (us_mtd_ready c); [by wps|]. wps. unfold ursus_find_master_nand. wps.
  destruct (find _ (h_mtds h)) as [nd|] eqn:Hnd; [|by wps].
  pose proof (find_master_ok h nd (kp_mtds _ _ Hk) Hnd) as Hoff.
  destruct (_ || _) eqn:Hg; [by wps|]. apply orb_false_iff in Hg as [[Hg1%nz_false Hg2%nz_false]%orb_false_iff _].
  wps. apply (add_parts_kept h0); [done| |].
  { constructor; [simpl; rewrite Hoff|constructor; [simpl; rewrite Hoff|done]].
    - split; [intros [|]; done|done].
    - split; [|done]. intros _. repeat split. lia. }
  intros r h1 Hk1. destruct (nz r); [by wps|]. wps. unfold get_mtd_device_nm. wps.
  destruct (find _ (h_mtds h1)); [|by wps]. wps. destruct (find _ (h_mtds h1)); by wps.
Qed.

(** Machine steps by class. *)
Ltac ubi1 :=
  lazymatch goal with
  | |- wp ursus_ubi_register_mtd _ (_, _) =>
    eapply wp_mono; [by apply register_kept|];
    let K := fresh "Hk" in let E := fresh "Em" in let F := fresh "Eu" in
    intros ? [? ?] (K & E & F); cbn [fst snd] in *; try rewrite <- E in *; try rewrite <- F in *
  | |- wp (onhw (run_command (UbiPart _))) _ (_, _) =>
    apply wp_onhw, (attach_kept h0 Hnb); [done|by left|]; intros
  | |- _ => kept1
  end.

(** ** Migration *)

Definition mig_live (c : ubi_ctx) : Prop :=
  mig_active (us_mig c) = true \/ mig_stage (us_mig c) = URSUS_MIG_COMPLETE \/ mig_stage (us_mig c) = URSUS_MIG_FAILED.
Definition mig_early (s : ursus_migration_stage) : bool :=
  match s with
  | URSUS_MIG_PRECHECK | URSUS_MIG_BACKUP_BOSA | URSUS_MIG_BACKUP_RI | URSUS_MIG_BACKUP_FIP
  | URSUS_MIG_FORMAT_UBI | URSUS_MIG_FAILED => true
  | _ => false
  end.
Definition mig_NS (s : ubi_t) : Prop :=
  mig_live (snd s) /\
  (mig_write_started (us_mig (snd s)) = true \/
   mig_early (mig_stage (us_mig (snd s))) = true /\ kept h0 (fst s)).

Lemma mig_fail_NS ret h c :
  (mig_write_started (us_mig c) = true \/ kept h0 h) -> wp (ursus_mig_fail ret) (fun _ s => mig_NS s) (h, c).
Proof.
  intros Hk. unfold ursus_mig_fail, onmig. wps. destruct c as [? ? ? ? [] ?]. simpl in *.
  split; [by right; right|]. destruct Hk; [by left|by right].
Qed.
Lemma mig_advance_NS last next h c :
  mig_active (us_mig c) = true ->
  (mig_write_started (us_mig c) = true \/ mig_early next = true /\ kept h0 h) ->
  wp (mig_advance last next) (fun _ s => mig_NS s) (h, c).
Proof.
  intros Ha Hk. unfold mig_advance, onmig. wps. destruct c as [? ? ? ? [] ?]. simpl in *. split; [by left|done].
Qed.

Ltac open_ubi := opened ubi_ctx; simpl in *; subst; opened migration_ctx; opened fit_update_ctx; simpl in *; subst.
Ltac mig_wrote_tac :=
  repeat first
    [ apply mig_fail_NS; left; done || (open_ubi; done)
    | apply mig_advance_NS; [done || (open_ubi; done)|left; done || (open_ubi; done)]
    | lazymatch goal with
      | |- wp ursus_ubi_register_mtd _ (_, _) =>
        eapply wp_mono; [apply register_mig|]; let E := fresh "E" in intros ? [? ?] [E _]; cbn [snd] in E; rewrite <- E in *
      end
    | any1 ].

Lemma mig_stage_wrote h c :
  mig_write_started (us_mig c) = true -> mig_active (us_mig c) = true ->
  wp (mig_stage_step (mig_stage (us_mig c))) (fun _ s => mig_NS s) (h, c).
Proof.
  intros Hw Ha. destruct (mig_stage (us_mig c)); try (apply mig_fail_NS; by left); cbn [mig_stage_step];
  unfold mig_precheck, mig_backup_bosa, mig_backup_ri, mig_backup_fip, mig_format_ubi, mig_attach_ubi,
    mig_create_volumes, mig_write_bosa, mig_write_ri, mig_write_fip, mig_write_fit, mig_verify_bosa,
    mig_verify_ri, mig_verify_fip, mig_verify_fit, mig_commit_bl2, mig_verify_bl2, mig_readback,
    with_master, mig_cmd, mig_try, mig_try_bad, verify_bl2, onmig; mig_wrote_tac.
  open_ubi. split; [by right; left|by left].
Qed.

#[local] Instance read_range_to_nf m a n r : NoFlash (read_range_to m a n r).
Proof. unfold read_range_to. apply _. Qed.
#[local] Instance fip_length_nf m : NoFlash (ursus_current_fip_length m).
Proof. unfold ursus_current_fip_length. apply _. Qed.

Ltac mig_clean_tac :=
  repeat first
    [ apply mig_fail_NS; by right
    | apply mig_advance_NS; [done || (open_ubi; done)|by right]
    | ubi1 ].

Lemma mig_stage_NS h c :
  mig_NS (h, c) -> mig_active (us_mig c) = true ->
  wp (mig_stage_step (mig_stage (us_mig c))) (fun _ s => mig_NS s) (h, c).
Proof.
  intros [Hl [Hw|[He Hk]]] Ha; cbn [fst snd] in *; [by apply mig_stage_wrote|].
  destruct (mig_stage (us_mig c)); try done; cbn [mig_stage_step].
  - unfold mig_precheck, with_master, mig_try, mig_try_bad, verify_bl2. mig_clean_tac.
  - unfold mig_backup_bosa, with_master, mig_try. mig_clean_tac.
  - unfold mig_backup_ri, with_master, mig_try. mig_clean_tac.
  - unfold mig_backup_fip, with_master, mig_try, onmig. mig_clean_tac.
  - unfold mig_format_ubi, onmig, mig_cmd, mig_try. apply wp_bind, wp_onctx.
    assert (mig_write_started (us_mig (set_us_mig (set_mig_write_started true (us_mig c)) c)) = true) as Hw
      by (open_ubi; done).
    assert (mig_active (us_mig (set_us_mig (set_mig_write_started true (us_mig c)) c)) = true) as Ha'
      by (open_ubi; done).
    clear Hl Ha. set (c1 := set_us_mig _ c) in *. clearbody c1. mig_wrote_tac.
  - apply mig_fail_NS. by right.
Qed.

Lemma mig_run_NS s1 s : mig_NS s1 -> @poll_run _ mig_machine s1 s -> mig_NS s.
Proof.
  intros H1. apply poll_run_inv; [| | |done].
  - intros h c t [Hl Hf] Ha. cbn [fst snd] in *. simpl in Ha.
    split; [left|destruct Hf as [Hw|[He Hk]]; [left|right]]; open_ubi; done.
  - intros h c [Hl Hf] Ha. simpl.
    replace (mig_stage (us_mig c)) with (mig_stage (us_mig (set_us_mig (set_mig_announced false (us_mig c)) c)))
      by (open_ubi; done).
    apply mig_stage_NS; [|open_ubi; done]. cbn [fst snd] in *.
    split; [left|destruct Hf as [Hw|[He Hk]]; [left|right]]; open_ubi; done.
  - intros h h' c [Hl Hf] Hm. split; [done|]. destruct Hf as [Hw|[He Hk]]; [by left|right].
    split; [done|by eapply kept_idle].
Qed.

(** ** FIT update *)

Definition upd_live (c : ubi_ctx) : Prop :=
  upd_active (us_upd c) = true \/ upd_stage (us_upd c) = URSUS_UPD_COMPLETE \/ upd_stage (us_upd c) = URSUS_UPD_FAILED.
Definition upd_early (s : fit_update_stage) : bool :=
  match s with URSUS_UPD_PRECHECK | URSUS_UPD_STAGE_PREP | URSUS_UPD_FAILED => true | _ => false end.
Definition upd_NS (s : ubi_t) : Prop :=
  upd_live (snd s) /\
  (upd_write_started (us_upd (snd s)) = true \/
   upd_early (upd_stage (us_upd (snd s))) = true /\ kept h0 (fst s)).

Lemma upd_fail_reason_NS ret code h c :
  (upd_write_started (us_upd c) = true \/ kept h0 h) ->
  wp (ursus_upd_fail_reason ret code) (fun _ s => upd_NS s) (h, c).
Proof.
  intros Hk. unfold ursus_upd_fail_reason, onupd. wps. destruct c as [? ? ? ? ? []]. simpl in *.
  split; [by right; right|]. destruct Hk; [by left|by right].
Qed.
Lemma upd_fail_NS ret h c :
  (upd_write_started (us_upd c) = true \/ kept h0 h) -> wp (ursus_upd_fail ret) (fun _ s => upd_NS s) (h, c).
Proof. intros Hk. unfold ursus_upd_fail. wps. by apply upd_fail_reason_NS. Qed.
Lemma upd_advance_NS last next h c :
  upd_active (us_upd c) = true ->
  (upd_write_started (us_upd c) = true \/ upd_early next = true /\ kept h0 h) ->
  wp (upd_advance last next) (fun _ s => upd_NS s) (h, c).
Proof.
  intros Ha Hk. unfold upd_advance, onupd. wps. destruct c as [? ? ? ? ? []]. simpl in *. split; [by left|done].
Qed.

Ltac upd_wrote_tac :=
  repeat first
    [ apply upd_fail_NS; left; done || (open_ubi; done)
    | apply upd_fail_reason_NS; left; done || (open_ubi; done)
    | apply upd_advance_NS; [done || (open_ubi; done)|left; done || (open_ubi; done)]
    | lazymatch goal with
      | |- wp ursus_ubi_register_mtd _ (_, _) =>
        eapply wp_mono; [apply register_mig|]; let E := fresh "E" in intros ? [? ?] [_ E]; cbn [snd] in E; rewrite <- E in *
      | |- wp (upd_settings _) _ (_, _) =>
        eapply wp_mono; [apply settings_upd|]; let E := fresh "E" in intros ? [? ?] E; cbn [snd] in E; rewrite <- E in *
      end
    | any1 ].

Lemma upd_stage_wrote h c :
  upd_write_started (us_upd c) = true -> upd_active (us_upd c) = true ->
  wp (upd_stage_step (upd_stage (us_upd c))) (fun _ s => upd_NS s) (h, c).
Proof.
  intros Hw Ha. destruct (upd_stage (us_upd c)); try (apply upd_fail_NS; by left); cbn [upd_stage_step];
  unfold upd_precheck, upd_stage_prep, upd_stage_write, upd_stage_verify, upd_promote, upd_final_verify,
    upd_readback, onupd; upd_wrote_tac.
  all: open_ubi; split; [by right; left|by left].
Qed.

#[local] Instance open_pebs_nf n : NoFlash (open_pebs n).
Proof. unfold open_pebs. apply _. Qed.

Lemma upd_precheck_NS h c :
  kept h0 h -> upd_active (us_upd c) = true -> wp upd_precheck (fun _ s => upd_NS s) (h, c).
Proof.
  intros Hk Ha. unfold upd_precheck, onupd.
  repeat first
    [ apply upd_fail_NS; by right | apply upd_fail_reason_NS; by right
    | apply upd_advance_NS; [done || (open_ubi; done)|by right]
    | ubi1 ].
Qed.

Lemma upd_stage_NS h c :
  upd_NS (h, c) -> upd_active (us_upd c) = true ->
  wp (upd_stage_step (upd_stage (us_upd c))) (fun _ s => upd_NS s) (h, c).
Proof.
  intros [Hl [Hw|[He Hk]]] Ha; cbn [fst snd] in *; [by apply upd_stage_wrote|].
  destruct (upd_stage (us_upd c)); try done; cbn [upd_stage_step]; [by apply upd_precheck_NS| |apply upd_fail_NS; by right].
  unfold upd_stage_prep, onupd. apply wp_bind, wp_onctx.
  assert (upd_write_started (us_upd (set_us_upd (set_upd_write_started true (us_upd c)) c)) = true) as Hw
    by (open_ubi; done).
  assert (upd_active (us_upd (set_us_upd (set_upd_write_started true (us_upd c)) c)) = true) as Ha'
    by (open_ubi; done).
  clear Hl Ha. set (c1 := set_us_upd _ c) in *. clearbody c1. upd_wrote_tac.
Qed.

Lemma upd_run_NS s1 s : upd_NS s1 -> @poll_run _ upd_machine s1 s -> upd_NS s.
Proof.
  intros H1. apply poll_run_inv; [| | |done].
  - intros h c t [Hl Hf] Ha. cbn [fst snd] in *. simpl in Ha.
    split; [left|destruct Hf as [Hw|[He Hk]]; [left|right]]; open_ubi; done.
  - intros h c [Hl Hf] Ha. simpl.
    replace (upd_stage (us_upd c)) with (upd_stage (us_upd (set_us_upd (set_upd_announced false (us_upd c)) c)))
      by (open_ubi; done).
    apply upd_stage_NS; [|open_ubi; done]. cbn [fst snd] in *.
    split; [left|destruct Hf as [Hw|[He Hk]]; [left|right]]; open_ubi; done.
  - intros h h' c [Hl Hf] Hm. split; [done|]. destruct Hf as [Hw|[He Hk]]; [by left|right].
    split; [done|by eapply kept_idle].
Qed.
End ubi_jobs.

(** * Claims *)

Section claims.
Context {P : Platform} {X : Ext} {B : Board}.

(** The flash of [h'] is the flash of [h]. *)
Definition flash_untouched (h h' : hw) : Prop :=
  h_nand h' = h_nand h /\ h_erased h' = h_erased h /\ h_areas h' = h_areas h /\ h_hist h' = h_hist h.


End claims.

(** ** Concrete runs *)

Lemma bench_not_blank : not_blank bench_hw /\ parts_ok (h_mtds bench_hw).
Proof.
  split; [left; by exists bench_table|]. unfold parts_ok, is_update_part. simpl.
  rewrite !List.Forall_cons_iff. simpl. naive_solver.
Qed.
(** The bench update after 40 polls: it has been prechecked and is about to attach. *)
Definition bench_mid : fst_t := snd (sm_loop 40 bench_started).

(** A FIT header in RAM: the migration fails its precheck (the preloader is not the
    pinned one), the FIT update its volume manifest. *)
Definition fit_hw : hw := set_ram (mwrite (h_ram bench_hw) 0x90000000 [0xd0; 0x0d; 0xfe; 0xed]) bench_hw.
Definition mig_started : ubi_t := snd (ursus_ubi_migration_start 0x90000000 64 bench_addr 13 (fit_hw, uctx_init)).
Definition mig_stopped : ubi_t := snd (@sm_loop _ mig_machine 60 mig_started).
Definition upd_started : ubi_t := snd (ursus_ubi_update_start 0x90000000 64 true (fit_hw, uctx_init)).
Definition upd_stopped : ubi_t := snd (@sm_loop _ upd_machine 60 upd_started).
