(* ===== verification/Bl2Last.v ===== *)
(** The migration writes the BL2 region last: until COMMIT_BL2 starts, the first
    128 KiB of the NAND are as they were.  Machine code that only writes at or
    above the UBI base is a type class resolved on the structure of the program. *)
From S2P Require Import Prelude Bytes Fip Flash Ubi Shell Bl2 Jobs ReadOnly NoFlash UbiEngine Migration ShellSpec Bench JobThms.

(** The partitions the migration and the environment store write through. *)
Definition high_part (n : string) : Prop := n = "ursus-ubi-full"%string \/ n = CONFIG_ENV_UBI_PART.
Definition high_parts (l : list mtd_info) : Prop :=
  Forall (fun m => (high_part (m_name m) -> URSUS_UBI_BASE <= m_off m /\ 0 < m_erasesize m) /\ (m_part m = false -> m_off m = 0)) l.

Section low.
(** The cells of the BL2 region at the start. *)
Variable n0 : Z -> Z.

Record low (h : hw) : Prop := {
  lo_nand : forall x, x < URSUS_UBI_BASE -> h_nand h x = n0 x;
  lo_dev : forall u, h_ubi h = Some u -> URSUS_UBI_BASE <= u_off u;
  lo_mtds : high_parts (h_mtds h);
}.
Class KeepsLow {A} (m : ST hw A) : Prop := keeps_low h : low h -> low (snd (m h)).

#[local] Instance ro_low {A} (m : ST hw A) : ReadOnly m -> KeepsLow m | 10.
Proof. intros Hm h []. destruct (Hm h) as [k ->]. by destruct h. Qed.
#[local] Instance sret_low {A} (a : A) : KeepsLow (sret a).
Proof. by intros h. Qed.
#[local] Instance sget_low {A} (f : hw -> A) : KeepsLow (sget f).
Proof. by intros h. Qed.
#[local] Instance sbind_low {A B} (m : ST hw A) (k : A -> ST hw B) :
  KeepsLow m -> (forall a, KeepsLow (k a)) -> KeepsLow (sbind m k).
Proof. intros Hm Hk h Hl. unfold sbind. apply (Hk (fst (m h))). by apply Hm. Qed.
#[local] Instance if_low {A} (b : bool) (m n : ST hw A) : KeepsLow m -> KeepsLow n -> KeepsLow (if b then m else n).
Proof. by destruct b. Qed.
#[local] Instance option_low {A B} (o : option B) (m : B -> ST hw A) (n : ST hw A) :
  (forall b, KeepsLow (m b)) -> KeepsLow n -> KeepsLow (match o with Some b => m b | None => n end).
Proof. by destruct o. Qed.
#[local] Instance sum_low {A B C} (o : B + C) (m : B -> ST hw A) (n : C -> ST hw A) :
  (forall b, KeepsLow (m b)) -> (forall c, KeepsLow (n c)) ->
  KeepsLow (match o with inl b => m b | inr c => n c end).
Proof. by destruct o. Qed.
#[local] Instance pair_low {A B C} (p : B * C) (m : B -> C -> ST hw A) :
  (forall b c, KeepsLow (m b c)) -> KeepsLow (let '(b, c) := p in m b c).
Proof. by destruct p. Qed.
(** Code that does not touch the flash or the attachment. *)
#[local] Instance ram_write_low a l : KeepsLow (ram_write a l).
Proof. intros h []. by destruct h. Qed.
#[local] Instance set_env_low f : KeepsLow (smod (fun h => set_env (f h) h)).
Proof. intros h []. by destruct h. Qed.
#[local] Instance set_redund_low b : KeepsLow (smod (set_env_redund b)).
Proof. intros h []. by destruct h. Qed.
#[local] Instance detach_low : KeepsLow ubi_detach.
Proof. intros h []. by destruct h. Qed.

Context {P : Platform} {X : Ext} {B : Board}.

(** ** UBI volumes *)

Lemma upd_dev_low f : (forall u, u_off (f u) = u_off u) -> KeepsLow (upd_dev f).
Proof.
  intros Hf h [Hn Hd Hm]. unfold upd_dev, smod. simpl. destruct (h_ubi h) as [u|] eqn:E; [|by split; rewrite ?E].
  destruct h. simpl in *. split; simpl; try done. intros ? [= <-]. rewrite Hf. by apply Hd.
Qed.
#[local] Instance dev_vols_low t : KeepsLow (upd_dev (dev_vols t)).
Proof. by apply upd_dev_low. Qed.
#[local] Instance dev_ro_low : KeepsLow (upd_dev dev_ro).
Proof. by apply upd_dev_low. Qed.
#[local] Instance dev_created_low t p : KeepsLow (upd_dev (fun d => dev_avail (u_avail d - p) (dev_vols t d))).
Proof. by apply upd_dev_low. Qed.
#[local] Instance dev_removed_low t v : KeepsLow (upd_dev (dev_removed t v)).
Proof. apply upd_dev_low. intros u. unfold dev_removed. by destruct (0 <? _). Qed.
#[local] Instance upd_slot_low i f : KeepsLow (upd_slot i f).
Proof. by apply upd_dev_low. Qed.

Lemma flash_table_low u t h : URSUS_UBI_BASE <= u_off u -> low h -> low (snd (flash_table u t h)).
Proof.
  intros Hu [Hn Hd Hm]. destruct h. simpl in *. split; simpl; try done.
  intros x Hx. unfold fill_cells. destruct (Z.leb_spec (u_off u) x); [lia|]. simpl. by apply Hn.
Qed.
#[local] Instance layout_low t : KeepsLow (ubi_update_layout_vol t).
Proof.
  intros h Hl. unfold ubi_update_layout_vol, sbind, sget, sret. simpl.
  destruct (h_ubi h) as [u|] eqn:E; [|done]. pose proof (lo_dev _ Hl u E) as Hu.
  destruct (u_ro u); [done|]. unfold next_out. simpl.
  assert (low (set_tick (S (h_tick h)) h)) as Hl' by (destruct Hl; by destruct h).
  destruct (nz _); simpl; [|by apply flash_table_low].
  apply dev_ro_low. destruct (o_late _); [by apply flash_table_low|done].
Qed.
#[local] Instance data_changed_low i f : KeepsLow (ubi_data_changed i f).
Proof.
  intros h Hl. unfold ubi_data_changed, sbind, sget, sret. simpl.
  destruct (h_ubi h) as [u|] eqn:E; [|done]. pose proof (lo_dev _ Hl u E) as Hu.
  apply flash_table_low; [done|]. by apply dev_vols_low.
Qed.
#[local] Instance create_volume_low u n b s i : KeepsLow (ubi_create_volume u n b s i).
Proof. unfold ubi_create_volume. apply _. Qed.
#[local] Instance create_vol_low u n b s i : KeepsLow (ubi_create_vol u n b s i).
Proof. unfold ubi_create_vol. apply _. Qed.
#[local] Instance remove_vol_low u n : KeepsLow (ubi_remove_vol u n).
Proof. unfold ubi_remove_vol. apply _. Qed.
#[local] Instance rename_vol_low u a b : KeepsLow (ubi_rename_vol u a b).
Proof. unfold ubi_rename_vol, ubi_rename_volumes. apply _. Qed.
#[local] Instance change_record_low i f : KeepsLow (change_record i f).
Proof. unfold change_record. apply _. Qed.
#[local] Instance set_marker_low i v : KeepsLow (set_update_marker i v).
Proof. unfold set_update_marker. apply _. Qed.
#[local] Instance clear_marker_low i b : KeepsLow (clear_update_marker i b).
Proof. unfold clear_update_marker. apply _. Qed.
#[local] Instance unmap_low i : KeepsLow (ubi_unmap_lebs i).
Proof. unfold ubi_unmap_lebs. apply _. Qed.
#[local] Instance start_update_low i v b : KeepsLow (ubi_start_update i v b).
Proof. unfold ubi_start_update. apply _. Qed.
#[local] Instance write_leb_low i o c : KeepsLow (write_leb i o c).
Proof. unfold write_leb. apply _. Qed.
#[local] Instance more_loop_low k leb i o buf : KeepsLow (more_update_loop k leb i o buf).
Proof. revert o buf. induction k; intros o [|b buf]; simpl; apply _. Qed.
#[local] Instance more_data_low u i buf : KeepsLow (ubi_more_update_data u i buf).
Proof. unfold ubi_more_update_data. apply _. Qed.
#[local] Instance check_volume_low v : KeepsLow (ubi_check_volume v).
Proof. unfold ubi_check_volume. apply _. Qed.
#[local] Instance continue_low n buf : KeepsLow (ubi_volume_continue_write n buf).
Proof. unfold ubi_volume_continue_write. apply _. Qed.
#[local] Instance volume_write_low n buf : KeepsLow (ubi_volume_write n buf).
Proof. unfold ubi_volume_write, ubi_volume_begin_write. apply _. Qed.
#[local] Instance read_loop_low k v leb tb ln off len size buf :
  KeepsLow (volume_read_loop k v leb tb ln off len size buf).
Proof. revert ln off len size buf. induction k; intros; simpl; apply _. Qed.
#[local] Instance volume_read_low n a sz : KeepsLow (ubi_volume_read n a sz).
Proof. unfold ubi_volume_read. apply _. Qed.

(** ** Attachment and raw erase, on the high partitions *)

Lemma find_high n h m :
  low h -> high_part n -> find (fun m => bool_decide (m_name m = n)) (h_mtds h) = Some m ->
  URSUS_UBI_BASE <= m_off m /\ 0 < m_erasesize m.
Proof.
  intros [_ _ Hm] Hn [Hin Hb%bool_decide_eq_true]%find_some. unfold high_parts in Hm.
  rewrite List.Forall_forall in Hm. apply Hm; [done|]. by rewrite Hb.
Qed.
Lemma ubi_part_low n : high_part n -> KeepsLow (ubi_part n).
Proof.
  intros Hn h Hl. unfold ubi_part, sbind, sget. simpl.
  destruct (match h_ubi h with Some u => _ | None => _ end); [done|]. simpl.
  assert (low (set_ubi None h)) as Hl1 by by apply (detach_low h).
  destruct (find _ (h_mtds (set_ubi None h))) as [m|] eqn:Hf; [|done].
  destruct (find_high n _ m Hl1 Hn Hf) as [Hm _]. set (h1 := set_ubi None h) in *. clearbody h1.
  unfold ubi_dev_scan, sbind, next_out, sret, sget, smod. simpl.
  assert (low (set_tick (S (h_tick h1)) h1)) as Hl2 by (destruct Hl1; by destruct h1).
  destruct (nz _); [done|]. simpl. set (h2 := set_tick _ h1) in *. clearbody h2.
  assert (forall t h3, low h3 -> low (set_ubi (Some (attach_dev m t)) h3)) as Hset.
  { intros t h3 []. destruct h3. simpl in *. split; try done. simpl. by intros ? [= <-]. }
  destruct (h_areas h2 (m_off m)) as [|t].
  - simpl. destruct (negb _); [done|]. apply Hset.
    exact (flash_table_low (attach_dev m (repeat None UBI_VTBL_SLOTS)) (repeat None UBI_VTBL_SLOTS) h2 Hm Hl2).
  - destruct (negb _); [done|]. destruct (_ <? _); [done|]. by apply Hset.
Qed.

Lemma mtd_erase_low m a n : URSUS_UBI_BASE <= m_off m -> 0 <= a -> KeepsLow (mtd_erase m a n).
Proof.
  intros Hm Ha h Hl. unfold mtd_erase, sbind, next_out, sret, smod. simpl.
  destruct (_ || _); [done|]. destruct (n =? 0); [done|]. destruct Hl. destruct h. simpl in *.
  split; simpl; try done. intros x Hx.
  destruct (_ && _); [by apply lo_nand0|]. unfold fill_cells.
  destruct (Z.leb_spec (m_off m + a) x); [lia|]. by apply lo_nand0.
Qed.
Lemma mtd_erase_loop_low fuel m a n r :
  URSUS_UBI_BASE <= m_off m -> 0 < m_erasesize m -> 0 <= a -> KeepsLow (mtd_erase_loop fuel m a n r).
Proof.
  intros Hm He. revert a n r. induction fuel as [|fuel IH]; intros a n r Ha; simpl; [apply _|].
  apply if_low; [apply _|]. apply sbind_low; [apply _|]. intros bad. apply if_low; [apply _|].
  apply if_low; [apply IH; lia|]. apply sbind_low; [by apply mtd_erase_low|]. intros r'.
  apply if_low; [apply _|]. apply IH. lia.
Qed.

(** ** Commands and environment *)

#[local] Instance run_low c : KeepsLow (command_code c) -> KeepsLow (run_command c).
Proof. intros Hc. unfold run_command. apply _. Qed.
Lemma erase_cmd_low n off len : high_part n -> 0 <= off -> KeepsLow (run_command (MtdErase n off len)).
Proof.
  intros Hn Ho. apply run_low. intros h Hl. unfold command_code, do_mtd_erase, sbind, get_mtd_device_nm, sget. simpl.
  destruct (find _ (h_mtds h)) as [m|] eqn:Hf; [|done]. destruct (find_high n h m Hl Hn Hf) as [Hm He].
  destruct (_ || _); [done|]. by apply mtd_erase_loop_low.
Qed.
#[local] Instance erase_full_low len : KeepsLow (run_command (MtdErase "ursus-ubi-full" 0 len)).
Proof. apply erase_cmd_low; [by left|lia]. Qed.
#[local] Instance ubi_create_low n a b i : KeepsLow (run_command (UbiCreate n a b i)).
Proof. apply run_low. simpl. unfold do_ubi_create, with_ubi. apply _. Qed.
#[local] Instance ubi_write_low a n l : KeepsLow (run_command (UbiWrite a n l)).
Proof. apply run_low. simpl. unfold do_ubi_write, with_ubi. apply _. Qed.
#[local] Instance ubi_read_low a n l : KeepsLow (run_command (UbiRead a n l)).
Proof. apply run_low. simpl. unfold with_ubi. apply _. Qed.
#[local] Instance ubi_detach_cmd_low : KeepsLow (run_command UbiDetach).
Proof. apply run_low. simpl. apply _. Qed.
#[local] Instance ubi_part_full_low : KeepsLow (run_command (UbiPart "ursus-ubi-full")).
Proof. apply run_low. simpl. apply ubi_part_low. by left. Qed.
#[local] Instance env_part_low : KeepsLow (ubi_part CONFIG_ENV_UBI_PART).
Proof. apply ubi_part_low. by right. Qed.
#[local] Instance env_save_low : KeepsLow env_save.
Proof. unfold env_save, env_ubi_save. apply _. Qed.
#[local] Instance env_set_low n v : KeepsLow (env_set_ulong n v).
Proof. unfold env_set_ulong. apply _. Qed.
#[local] Instance store_max_low b : KeepsLow (ursus_ubi_store_rootfs_data_max b).
Proof. unfold ursus_ubi_store_rootfs_data_max, env_get_ulong. apply _. Qed.
#[local] Instance clean_rootfs_low b : KeepsLow (ursus_ubi_create_clean_rootfs_data b).
Proof. unfold ursus_ubi_create_clean_rootfs_data. apply _. Qed.
#[local] Instance manifest_names_low l : KeepsLow (manifest_names l).
Proof. induction l as [|n l IH]; simpl; apply _. Qed.
#[local] Instance manifest_low b : KeepsLow (ursus_ubi_verify_volume_manifest b).
Proof.
  unfold ursus_ubi_verify_volume_manifest.
  repeat (apply sbind_low || apply option_low || apply if_low || apply sum_low || apply _ || intros).
Qed.
#[local] Instance rootfs_low : KeepsLow ursus_ubi_current_rootfs_data.
Proof.
  unfold ursus_ubi_current_rootfs_data. apply sbind_low; [apply _|]. intros ubi. apply sbind_low; [apply _|].
  intros [e|[i v]]; destruct ubi; apply _.
Qed.
#[local] Instance read_range_to_low m a n r : KeepsLow (read_range_to m a n r).
Proof. unfold read_range_to. apply _. Qed.
#[local] Instance fip_length_low m : KeepsLow (ursus_current_fip_length m).
Proof. unfold ursus_current_fip_length. apply _. Qed.
#[local] Instance mem_equal_low a b n : KeepsLow (ursus_mem_equal a b n).
Proof. unfold ursus_mem_equal. apply _. Qed.

(** * The invariant of a migration *)

(** COMMIT_BL2 has started, or the BL2 region is untouched. *)
Definition BL (s : ubi_t) : Prop :=
  mig_commit_started (us_mig (snd s)) = true \/
  low (fst s) /\ mig_stage (us_mig (snd s)) <> URSUS_MIG_VERIFY_BL2.

Lemma wp_low {A} (m : ST hw A) `{!KeepsLow m} (R : A -> hw -> Prop) h :
  low h -> (forall a h', low h' -> R a h') -> wp m R h.
Proof.
  intros Hl HR. apply wp_intro. intros a h' E. apply HR. pose proof (keeps_low (m := m) h Hl) as Hf. by rewrite E in Hf.
Qed.
Lemma mig_fail_BL ret h c :
  (mig_commit_started (us_mig c) = true \/ low h) -> wp (ursus_mig_fail ret) (fun _ s => BL s) (h, c).
Proof.
  intros Hk. unfold ursus_mig_fail, onmig. wps. destruct c as [? ? ? ? [] ?]. simpl in *.
  destruct Hk; [by left|by right].
Qed.
Lemma mig_advance_BL last next h c :
  (mig_commit_started (us_mig c) = true \/ low h /\ next <> URSUS_MIG_VERIFY_BL2) ->
  wp (mig_advance last next) (fun _ s => BL s) (h, c).
Proof.
  intros Hk. unfold mig_advance, onmig. wps. destruct c as [? ? ? ? [] ?]. simpl in *.
  destruct Hk; [by left|by right].
Qed.

Ltac open_ubi := repeat match goal with c : ubi_ctx |- _ => destruct c end; simpl in *; subst;
  repeat match goal with c : migration_ctx |- _ => destruct c end; simpl in *; subst.
Ltac late_tac :=
  repeat first
    [ apply mig_fail_BL; left; done || (open_ubi; done)
    | apply mig_advance_BL; left; done || (open_ubi; done)
    | lazymatch goal with
      | |- wp ursus_ubi_register_mtd _ (_, _) =>
        eapply wp_mono; [apply register_mig|]; let E := fresh "E" in intros ? [? ?] [E _]; cbn [snd] in E; rewrite <- E in *
      end
    | any1 ].
Lemma mig_stage_late h c :
  mig_commit_started (us_mig c) = true -> wp (mig_stage_step (mig_stage (us_mig c))) (fun _ s => BL s) (h, c).
Proof.
  intros Hw. destruct (mig_stage (us_mig c)); try (apply mig_fail_BL; by left); cbn [mig_stage_step];
  unfold mig_precheck, mig_backup_bosa, mig_backup_ri, mig_backup_fip, mig_format_ubi, mig_attach_ubi,
    mig_create_volumes, mig_write_bosa, mig_write_ri, mig_write_fip, mig_write_fit, mig_verify_bosa,
    mig_verify_ri, mig_verify_fip, mig_verify_fit, mig_commit_bl2, mig_verify_bl2, mig_readback,
    with_master, mig_cmd, mig_try, mig_try_bad, verify_bl2, onmig; late_tac.
  left. open_ubi. done.
Qed.

Lemma register_low h c :
  low h -> wp ursus_ubi_register_mtd (fun _ s => low (fst s)) (h, c).
Proof.
  intros Hl. unfold ursus_ubi_register_mtd. wps. destruct (us_mtd_ready c); [by wps|]. wps.
  unfold ursus_find_master_nand. wps. destruct (find _ (h_mtds h)) as [nd|] eqn:Hnd; [|by wps].
  assert (m_off nd = 0) as Hoff.
  { apply find_some in Hnd as [Hin [Hb%negb_true_iff _]%andb_true_iff]. destruct Hl as [_ _ Hm].
    unfold high_parts in Hm. rewrite List.Forall_forall in Hm. by apply Hm. }
  destruct (_ || _) eqn:Hg; [by wps|]. apply orb_false_iff in Hg as [[Hg1%nz_false Hg2%nz_false]%orb_false_iff _].
  wps. unfold add_mtd_partitions. wps. apply wp_ro; [apply _|]. intros o k.
  assert (low (set_tick k h)) as Hl1 by (destruct Hl; by destruct h).
  destruct (nz _) eqn:He; wps; [by rewrite He; wps|]. change (nz 0) with false. cbv iota.
  set (h1 := set_mtds _ _). assert (low h1) as Hl2.
  { destruct Hl1 as [? ? Hm]. subst h1. destruct h. simpl in *. split; try done. simpl. apply Forall_app.
    split; [done|]. constructor; [simpl; rewrite Hoff|constructor; [simpl; rewrite Hoff|done]].
    - split; [intros [|]; done|done].
    - split; [|done]. intros _. split; [done|]. lia. }
  clearbody h1. unfold get_mtd_device_nm. wps.
  destruct (find _ (h_mtds h1)); [|by wps]. wps. destruct (find _ (h_mtds h1)); by wps.
Qed.

Ltac low_tac :=
  repeat first
    [ apply mig_fail_BL; by right
    | apply mig_advance_BL; right; split; [done|done]
    | lazymatch goal with
      | |- wp ursus_ubi_register_mtd _ (_, _) => eapply wp_mono; [by apply register_low|]; intros ? [? ?] ?; cbn [fst] in *
      | |- wp (onhw _) _ (_, _) => apply wp_onhw, wp_low; [apply _|done|]; intros; cbn beta
      | |- wp (if ?b then _ else _) _ _ => destruct b
      | |- wp (match ?x with _ => _ end) _ _ => destruct x
      | |- wp (let '_ := ?x in _) _ _ => destruct x
      | |- _ => wp1; cbn beta
      end ].
Lemma mig_stage_BL h c : BL (h, c) -> wp (mig_stage_step (mig_stage (us_mig c))) (fun _ s => BL s) (h, c).
Proof.
  intros [Hw|[Hl Hs]]; [by apply mig_stage_late|]. cbn [fst snd] in *.
  destruct (mig_stage (us_mig c)) eqn:E; try done; try (apply mig_fail_BL; by right); cbn [mig_stage_step].
  16:{ unfold mig_commit_bl2, onmig. apply wp_bind, wp_onctx.
    assert (mig_commit_started (us_mig (set_us_mig (set_mig_commit_started true (us_mig c)) c)) = true) as Hw
      by (open_ubi; done).
    set (c1 := set_us_mig _ c) in *. clearbody c1. unfold mig_cmd, mig_try. late_tac. }
  all: unfold mig_precheck, mig_backup_bosa, mig_backup_ri, mig_backup_fip, mig_format_ubi, mig_attach_ubi,
    mig_create_volumes, mig_write_bosa, mig_write_ri, mig_write_fip, mig_write_fit, mig_verify_bosa,
    mig_verify_ri, mig_verify_fip, mig_verify_fit, mig_readback,
    with_master, mig_cmd, mig_try, mig_try_bad, verify_bl2, onmig; low_tac.
Qed.

Lemma mig_run_BL s1 s : BL s1 -> @poll_run _ mig_machine s1 s -> BL s.
Proof.
  intros H1. apply poll_run_inv; [| | |done].
  - intros h c t Hb _. unfold BL in *. open_ubi. done.
  - intros h c Hb _. simpl.
    replace (mig_stage (us_mig c)) with (mig_stage (us_mig (set_us_mig (set_mig_announced false (us_mig c)) c)))
      by (open_ubi; done).
    apply mig_stage_BL. unfold BL in *. open_ubi. done.
  - intros h h' c [Hw|[[Hn Hd Hm] Hs]] []; [by left|right]. split; [|done]. cbn [fst] in *.
    split; [by rewrite im_nand|by rewrite im_ubi|by rewrite im_mtds].
Qed.
End low.

(** * Claims *)

(** C4: the migration commits the BL2 last.  Start a migration on a machine whose
    writable UBI partitions (ursus-ubi-full and the environment's) lie at or above
    128 KiB, and poll it on any platform.  As long as COMMIT_BL2 has not started,
    and whatever failed before, no byte of the first 128 KiB of the NAND (the BL2
    the boot ROM loads) has changed. *)
Theorem migration_bl2_last `{Platform} `{Ext} `{Board} h0 c0 s1 s fa fl pa pl :
  ursus_ubi_migration_start fa fl pa pl (h0, c0) = (0, s1) ->
  high_parts (h_mtds h0) -> (forall u, h_ubi h0 = Some u -> URSUS_UBI_BASE <= u_off u) ->
  @poll_run _ mig_machine s1 s -> mig_commit_started (us_mig (snd s)) = false ->
  mread (h_nand (fst s)) 0 URSUS_UBI_BL2_SIZE = mread (h_nand h0) 0 URSUS_UBI_BL2_SIZE.
Proof.
  intros Hs Hm Hd Hr Hc.
  assert (BL (h_nand h0) s1) as HBL.
  { unfold ursus_ubi_migration_start, sbind, ctx, sget, onmig, onctx, smod, sret in Hs. simpl in Hs.
    destruct (mig_active _); [done|]. destruct (_ || _); [done|]. simpl in Hs. injection Hs as <-.
    right. split; [by split|]. by destruct c0. }
  destruct (mig_run_BL _ s1 s HBL Hr) as [?|[[Hn _ _] _]]; [congruence|].
  apply mread_ext. unfold URSUS_UBI_BL2_SIZE. intros x Hx. apply Hn. unfold URSUS_UBI_BASE. lia.
Qed.

(** ** A concrete migration, up to the erased UBI region *)

Definition mig_preloader : list Z := le_encode 4 URSUS_FIP_MAGIC ++ repeat 7 60.
Definition mig_board : Board := {|
  vanilla_fip_sha256 := ursus_vanilla_fip_sha256;
  preloader_sha256 := take 32 mig_preloader;
  bl2_image_sha256 := repeat 0xff 32;
  BOARD_COMPATIBLE := "nokia,xg-040g-md"; BOARD_OTHER_COMPATIBLE := "nokia,xg-040g-mf" |}.
(** A stock flash whose running FIP ends at 64 KiB; the preloader in RAM. *)
Definition mig_toc : list Z :=
  le_encode 4 URSUS_FIP_MAGIC ++ le_encode 4 URSUS_FIP_SERIAL ++ le_encode 8 0 ++
  mk_entry (repeat 0 16) 0x10000 0.
Definition mig_hw : hw :=
  MkHw 0 0 (mwrite (fun _ => 0xff) 0x88000000 mig_preloader)
    (mwrite (fun x => x `mod` 251) URSUS_STOCK_FIP_OFF mig_toc)
    (fun _ => false) (fun _ => false)
    [bench_nand; MkMtd "ubi" true true URSUS_UBI_BASE URSUS_UBI_SIZE 0x20000 0x800]
    (fun _ => UA_other) None [] ∅ false.
Definition mig_c0 : ubi_ctx := set_us_bl2 (MkBl2 (Some 0x70000000) true) uctx_init.

Section mig_bench.
#[local] Existing Instance mig_board | 0.
Definition mig_armed : ubi_t := snd (ursus_ubi_migration_start 0x90000000 64 0x88000000 64 (mig_hw, mig_c0)).
Definition mig_formatted : ubi_t := snd (@sm_loop _ mig_machine 200 mig_armed).
End mig_bench.

Lemma mig_parts : high_parts (h_mtds mig_hw).
Proof.
  apply List.Forall_cons; [split; [intros [?|?]; discriminate|done]|].
  apply List.Forall_cons; [|apply List.Forall_nil].
  split; [intros _; split; [apply Z.le_refl|reflexivity]|discriminate].
Qed.
Lemma mig_formatted_facts :
  (mig_stage (us_mig (snd mig_formatted)), mig_commit_started (us_mig (snd mig_formatted)),
   h_nand (fst mig_formatted) 0x20000, h_nand mig_hw 0x20000) = (URSUS_MIG_ATTACH_UBI, false, 255, 50).
Proof. by vm_compute. Qed.

Lemma migration_bl2_last_witness :
  (mig_stage (us_mig (snd mig_formatted)) = URSUS_MIG_ATTACH_UBI /\
   h_nand (fst mig_formatted) 0x20000 <> h_nand mig_hw 0x20000) /\
  mread (h_nand (fst mig_formatted)) 0 URSUS_UBI_BL2_SIZE = mread (h_nand mig_hw) 0 URSUS_UBI_BL2_SIZE.
Proof.
  pose proof mig_formatted_facts as Ha. apply pair_equal_spec in Ha as [Ha Hn0].
  apply pair_equal_spec in Ha as [Ha Hn].
  apply pair_equal_spec in Ha as [Hs Hc]. split; [split; [exact Hs|rewrite Hn, Hn0; done]|].
  refine (@migration_bl2_last _ _ mig_board mig_hw mig_c0 mig_armed mig_formatted 0x90000000 64 0x88000000 64
    eq_refl _ _ (@sm_loop_run _ (@mig_machine _ _ mig_board) 200 _ _ (@poll_refl _ (@mig_machine _ _ mig_board) _)) Hc).
  - exact mig_parts.
  - done.
Defined.
