(* ===== verification/Mmio.v ===== *)
(** Memory-mapped 32-bit registers: [readl] and [writel] over a device that is a
    parameter (what it answers, and what a write does to it, is the hardware's
    affair), with the trace of accesses, so that a driver's claims can speak of
    every store it issues on any hardware. *)
From S2P Require Import Prelude.

Inductive mmio_event := Ld (addr val : Z) | St (addr val : Z).

(** A device: what a read returns and how reads and writes change it. *)
Class Device (D : Type) := {
  dev_read : Z -> D -> Z * D;
  dev_write : Z -> Z -> D -> D;
}.

(** The device and its accesses, oldest first. *)
Definition mmio (D : Type) : Type := D * list mmio_event.

Section access.
Context {D : Type} `{Device D}.

Definition readl (a : Z) : ST (mmio D) Z := fun s =>
  let p := dev_read a (fst s) in (u32 (fst p), (snd p, snd s ++ [Ld a (u32 (fst p))])).
Definition writel (v a : Z) : ST (mmio D) unit := fun s =>
  (tt, (dev_write a (u32 v) (fst s), snd s ++ [St a (u32 v)])).

(** Symbolic execution: a read returns any 32-bit value and is logged. *)
Lemma wp_readl a (Q : Z -> mmio D -> Prop) d t :
  (forall v d', 0 <= v < 2 ^ 32 -> Q v (d', t ++ [Ld a v])) -> wp (readl a) Q (d, t).
Proof.
  intros HQ. apply wp_intro. intros v s E. unfold readl in E. simpl in E. injection E as <- <-.
  apply HQ, u32_range.
Qed.
Lemma wp_writel v a (Q : unit -> mmio D -> Prop) d t :
  (forall d', Q tt (d', t ++ [St a (u32 v)])) -> wp (writel v a) Q (d, t).
Proof. intros HQ. apply wp_intro. intros x s E. unfold writel in E. simpl in E. injection E as <- <-. apply HQ. Qed.
End access.

(** * A register file: reads return what was written last *)

Definition regs : Type := Z -> Z.
#[export] Instance regs_device : Device regs := {|
  dev_read := fun a r => (r a, r);
  dev_write := fun a v r => fun x => if x =? a then v else r x;
|}.

(** * Traces *)

(** The stores of a trace, in order. *)
Fixpoint stores (t : list mmio_event) : list (Z * Z) :=
  match t with
  | [] => []
  | Ld _ _ :: t' => stores t'
  | St a v :: t' => (a, v) :: stores t'
  end.
Lemma stores_app t1 t2 : stores (t1 ++ t2) = stores t1 ++ stores t2.
Proof. induction t1 as [|[] t1 IH]; simpl; by rewrite ?IH. Qed.

(** [confined own t]: every store of [t] directly follows a read of the same
    register and changes only the bits that [own] grants for it. *)
Inductive confined (own : Z -> Z) : list mmio_event -> Prop :=
  | conf_nil : confined own []
  | conf_read a v t : confined own t -> confined own (Ld a v :: t)
  | conf_rmw a v v' t :
      (forall n, 0 <= n -> Z.testbit (own a) n = false -> Z.testbit v' n = Z.testbit v n) ->
      confined own t -> confined own (Ld a v :: St a v' :: t).
Lemma confined_app own t1 t2 : confined own t1 -> confined own t2 -> confined own (t1 ++ t2).
Proof. induction 1; simpl; [done|by constructor; auto|by constructor; auto]. Qed.

(** * Bits *)

Definition BIT (n : Z) : Z := Z.shiftl 1 n.

Lemma testbit_BIT n m : 0 <= n -> 0 <= m -> Z.testbit (BIT n) m = (m =? n).
Proof.
  intros. unfold BIT. rewrite Z.shiftl_1_l, Z.pow2_bits_eqb by done. apply Z.eqb_sym.
Qed.
Lemma testbit_u32 z n : 0 <= n < 32 -> Z.testbit (u32 z) n = Z.testbit z n.
Proof. intros. unfold u32. apply Z.mod_pow2_bits_low. lia. Qed.
Lemma testbit_u32_high z n : 32 <= n -> Z.testbit (u32 z) n = false.
Proof. intros. unfold u32. apply Z.mod_pow2_bits_high. lia. Qed.
Lemma testbit_small v n : 0 <= v < 2 ^ 32 -> 32 <= n -> Z.testbit v n = false.
Proof. intros Hv Hn. rewrite <- (u32_small v Hv). by apply testbit_u32_high. Qed.

(** Setting and clearing bits of a 32-bit value leaves the others. *)
Lemma testbit_set v m n : 0 <= v < 2 ^ 32 -> 0 <= n -> Z.testbit m n = false ->
  Z.testbit (u32 (Z.lor v m)) n = Z.testbit v n.
Proof.
  intros Hv Hn Hm. destruct (Z_lt_ge_dec n 32).
  - rewrite testbit_u32, Z.lor_spec, Hm by lia. apply orb_false_r.
  - rewrite testbit_u32_high, (testbit_small v) by lia. done.
Qed.
Lemma testbit_clear v m n : 0 <= v < 2 ^ 32 -> 0 <= n -> Z.testbit m n = false ->
  Z.testbit (u32 (Z.land v (Z.lnot m))) n = Z.testbit v n.
Proof.
  intros Hv Hn Hm. destruct (Z_lt_ge_dec n 32).
  - rewrite testbit_u32, Z.land_spec, Z.lnot_spec, Hm by lia. apply andb_true_r.
  - rewrite testbit_u32_high, (testbit_small v) by lia. done.
Qed.
