(* ===== verification/Gpio.v ===== *)
(** The safe GPIO bridge (drivers/gpio/ursus_an7581_safe_gpio.c): 50 pins over
    two data banks, two output-enable banks and four direction registers, with
    output writes restricted to three board-evidenced LED lines. *)
From S2P Require Import Prelude Mmio.

Definition URSUS_AN7581_GPIO_COUNT : Z := 50.
Definition URSUS_AN7581_GPIO_RESET : Z := 0.
Definition URSUS_AN7581_GPIO_STATUS_RED : Z := 19.
Definition URSUS_AN7581_GPIO_USB2 : Z := 34.
Definition URSUS_AN7581_GPIO_USB1 : Z := 35.

Definition REG_GPIO_CTRL0 : Z := 0x0000.
Definition REG_GPIO_DATA0 : Z := 0x0004.
Definition REG_GPIO_OE0 : Z := 0x0014.
Definition REG_GPIO_CTRL1 : Z := 0x0020.
Definition REG_GPIO_CTRL2 : Z := 0x0060.
Definition REG_GPIO_CTRL3 : Z := 0x0064.
Definition REG_GPIO_DATA1 : Z := 0x0070.
Definition REG_GPIO_OE1 : Z := 0x0078.

Definition data_regs (bank : Z) : Z := nth (Z.to_nat bank) [REG_GPIO_DATA0; REG_GPIO_DATA1] 0.
Definition oe_regs (bank : Z) : Z := nth (Z.to_nat bank) [REG_GPIO_OE0; REG_GPIO_OE1] 0.
Definition dir_regs (index : Z) : Z :=
  nth (Z.to_nat index) [REG_GPIO_CTRL0; REG_GPIO_CTRL1; REG_GPIO_CTRL2; REG_GPIO_CTRL3] 0.

Definition GPIOF_INPUT : Z := 0.
Definition GPIOF_OUTPUT : Z := 1.

Definition ursus_gpio_valid (gpio : Z) : bool := gpio <? URSUS_AN7581_GPIO_COUNT.
Definition ursus_gpio_safe_output (gpio : Z) : bool :=
  (gpio =? URSUS_AN7581_GPIO_STATUS_RED) || (gpio =? URSUS_AN7581_GPIO_USB1)
  || (gpio =? URSUS_AN7581_GPIO_USB2).

Section driver.
Context {D : Type} `{Device D}.
(** [priv->base], from the device tree. *)
Variable base : Z.

Definition ursus_gpio_raw_get (gpio : Z) : ST (mmio D) Z :=
  if negb (ursus_gpio_valid gpio) then sret (- EINVAL)
  else
    let bank := gpio / 32 in
    let bit := gpio `mod` 32 in
    let* val := readl (base + data_regs bank) in
    sret (if nz (Z.land val (BIT bit)) then 1 else 0).

Definition ursus_gpio_raw_set_any (gpio value : Z) : ST (mmio D) Z :=
  if negb (ursus_gpio_valid gpio) then sret (- EINVAL)
  else
    let bank := gpio / 32 in
    let bit := gpio `mod` 32 in
    let* val := readl (base + data_regs bank) in
    let val := if nz value then Z.lor val (BIT bit) else Z.land val (Z.lnot (BIT bit)) in
    writel val (base + data_regs bank) ;;; sret 0.

Definition ursus_gpio_raw_set (gpio value : Z) : ST (mmio D) Z :=
  if negb (ursus_gpio_safe_output gpio) then sret (- EPERM)
  else ursus_gpio_raw_set_any gpio value.

Definition ursus_gpio_get_direction_raw (gpio : Z) : ST (mmio D) Z :=
  if negb (ursus_gpio_valid gpio) then sret (- EINVAL)
  else
    let index := gpio / 16 in
    let shift := 2 * (gpio `mod` 16) in
    let* r := readl (base + dir_regs index) in
    let field := Z.land (Z.shiftr r shift) 0x3 in
    sret (if 1 <? field then - EINVAL else if nz field then GPIOF_OUTPUT else GPIOF_INPUT).

Definition ursus_gpio_set_direction_raw (gpio : Z) (input : bool) : ST (mmio D) Z :=
  if negb (ursus_gpio_valid gpio) then sret (- EINVAL)
  else if input && negb (gpio =? URSUS_AN7581_GPIO_RESET) then sret (- EPERM)
  else if negb input && negb (ursus_gpio_safe_output gpio) then sret (- EPERM)
  else
    let bank := gpio / 32 in
    let bit := gpio `mod` 32 in
    let* val := readl (base + oe_regs bank) in
    let val := if input then Z.land val (Z.lnot (BIT bit)) else Z.lor val (BIT bit) in
    writel val (base + oe_regs bank) ;;;
    let index := gpio / 16 in
    let shift := 2 * (gpio `mod` 16) in
    let mask := Z.shiftl 0x3 shift in
    let* val := readl (base + dir_regs index) in
    let val := Z.land val (Z.lnot mask) in
    let val := if negb input then Z.lor val (Z.shiftl 0x1 shift) else val in
    writel val (base + dir_regs index) ;;; sret 0.

Definition ursus_gpio_direction_input (offset : Z) : ST (mmio D) Z :=
  if offset =? URSUS_AN7581_GPIO_RESET then sret 0 else sret (- EPERM).

Definition ursus_gpio_direction_output (offset value : Z) : ST (mmio D) Z :=
  if negb (ursus_gpio_safe_output offset) then sret (- EPERM)
  else
    let* ret := ursus_gpio_raw_set offset value in
    if nz ret then sret ret else ursus_gpio_set_direction_raw offset false.

Definition ursus_gpio_get_value (offset : Z) : ST (mmio D) Z := ursus_gpio_raw_get offset.
Definition ursus_gpio_set_value (offset value : Z) : ST (mmio D) Z := ursus_gpio_raw_set offset value.
Definition ursus_gpio_get_function (offset : Z) : ST (mmio D) Z :=
  if offset =? URSUS_AN7581_GPIO_RESET then sret GPIOF_INPUT else ursus_gpio_get_direction_raw offset.

(** [ursus_gpio_ops]: the calls the GPIO uclass makes. *)
Inductive gpio_call :=
  | direction_input (offset : Z) | direction_output (offset value : Z)
  | get_value (offset : Z) | set_value (offset value : Z) | get_function (offset : Z).
Definition ursus_gpio_ops (c : gpio_call) : ST (mmio D) Z :=
  match c with
  | direction_input o => ursus_gpio_direction_input o
  | direction_output o v => ursus_gpio_direction_output o v
  | get_value o => ursus_gpio_get_value o
  | set_value o v => ursus_gpio_set_value o v
  | get_function o => ursus_gpio_get_function o
  end.

(** * Specification *)

Definition call_pin (c : gpio_call) : Z :=
  match c with
  | direction_input o | direction_output o _ | get_value o | set_value o _ | get_function o => o
  end.
(** The bits of each register that belong to a pin. *)
Definition pin_bits (gpio a : Z) : Z :=
  if (a =? base + data_regs (gpio / 32)) || (a =? base + oe_regs (gpio / 32)) then BIT (gpio `mod` 32)
  else if a =? base + dir_regs (gpio / 16) then Z.shiftl 0x3 (2 * (gpio `mod` 16)) else 0.
(** The registers a call stores to, in order. *)
Definition call_stores (c : gpio_call) : list Z :=
  match c with
  | direction_output o _ =>
    if ursus_gpio_safe_output o
    then [base + data_regs (o / 32); base + oe_regs (o / 32); base + dir_regs (o / 16)] else []
  | set_value o _ => if ursus_gpio_safe_output o then [base + data_regs (o / 32)] else []
  | _ => []
  end.
End driver.

(** * Claims *)

Lemma safe_pins o : ursus_gpio_safe_output o = true -> o = 19 \/ o = 34 \/ o = 35.
Proof.
  unfold ursus_gpio_safe_output, URSUS_AN7581_GPIO_STATUS_RED, URSUS_AN7581_GPIO_USB1, URSUS_AN7581_GPIO_USB2.
  lia.
Qed.

Section confinement.
Context {D : Type} `{Device D} (base : Z).

(** The calls extend the trace by [t'] such that [Q t']. *)
Definition extends (t : list mmio_event) (Q : Z -> list mmio_event -> Prop) (r : Z) (s : mmio D) : Prop :=
  exists t', snd s = t ++ t' /\ Q r t'.

Definition call_ok (c : gpio_call) (r : Z) (t' : list mmio_event) : Prop :=
  confined (pin_bits base (call_pin c)) t' /\ map fst (stores t') = call_stores base c.

Lemma own_data o n : 0 <= n -> Z.testbit (pin_bits base o (base + data_regs (o / 32))) n = false ->
  Z.testbit (BIT (o `mod` 32)) n = false.
Proof. unfold pin_bits. by rewrite Z.eqb_refl. Qed.
Lemma own_oe o n : 0 <= n -> Z.testbit (pin_bits base o (base + oe_regs (o / 32))) n = false ->
  Z.testbit (BIT (o `mod` 32)) n = false.
Proof. unfold pin_bits. by rewrite Z.eqb_refl, orb_true_r. Qed.
Lemma own_dir o n : o = 19 \/ o = 34 \/ o = 35 ->
  0 <= n -> Z.testbit (pin_bits base o (base + dir_regs (o / 16))) n = false ->
  Z.testbit (Z.shiftl 0x3 (2 * (o `mod` 16))) n = false.
Proof.
  intros Ho Hn. unfold pin_bits.
  replace (_ || _) with false; [by rewrite Z.eqb_refl|].
  symmetry. apply orb_false_iff. rewrite !Z.eqb_neq.
  destruct Ho as [->|[->| ->]]; unfold data_regs, oe_regs, dir_regs; simpl;
    unfold REG_GPIO_DATA0, REG_GPIO_DATA1, REG_GPIO_OE0, REG_GPIO_OE1, REG_GPIO_CTRL1, REG_GPIO_CTRL2; lia.
Qed.

Lemma raw_set_ok o value d t : ursus_gpio_safe_output o = true ->
  wp (ursus_gpio_raw_set base o value) (fun r s => r = 0 /\ exists d' v v',
    s = (d', t ++ [Ld (base + data_regs (o / 32)) v; St (base + data_regs (o / 32)) v']) /\
    (forall n, 0 <= n -> Z.testbit (BIT (o `mod` 32)) n = false -> Z.testbit v' n = Z.testbit v n)) (d, t).
Proof.
  intros Hs. unfold ursus_gpio_raw_set, ursus_gpio_raw_set_any. rewrite Hs. simpl.
  assert (ursus_gpio_valid o = true) as ->.
  { unfold ursus_gpio_valid, URSUS_AN7581_GPIO_COUNT. apply safe_pins in Hs. lia. }
  simpl. wps. apply wp_readl. intros v d' Hv. wps. apply wp_writel. intros d''. wps. split; [done|].
  rewrite <- app_assoc. do 3 eexists. split; [done|]. intros n Hn Hb.
  destruct (nz value); [by apply testbit_set|by apply testbit_clear].
Qed.

Lemma set_direction_ok o d t : ursus_gpio_safe_output o = true ->
  wp (ursus_gpio_set_direction_raw base o false) (fun r s => r = 0 /\ exists d' v v' w w',
    s = (d', t ++ [Ld (base + oe_regs (o / 32)) v; St (base + oe_regs (o / 32)) v';
                   Ld (base + dir_regs (o / 16)) w; St (base + dir_regs (o / 16)) w']) /\
    (forall n, 0 <= n -> Z.testbit (BIT (o `mod` 32)) n = false -> Z.testbit v' n = Z.testbit v n) /\
    (forall n, 0 <= n -> Z.testbit (Z.shiftl 0x3 (2 * (o `mod` 16))) n = false ->
       Z.testbit w' n = Z.testbit w n)) (d, t).
Proof.
  intros Hs. unfold ursus_gpio_set_direction_raw. rewrite Hs. simpl.
  assert (ursus_gpio_valid o = true) as ->.
  { unfold ursus_gpio_valid, URSUS_AN7581_GPIO_COUNT. apply safe_pins in Hs. lia. }
  simpl. wps. apply wp_readl. intros v d1 Hv. wps. apply wp_writel. intros d2. wps.
  apply wp_readl. intros w d3 Hw. wps. apply wp_writel. intros d4. wps. split; [done|].
  rewrite <- !app_assoc. do 5 eexists. split; [done|].
  pose proof (Z.mod_pos_bound o 16).
  split; intros n Hn Hb; [by apply testbit_set|].
  rewrite Z.shiftl_spec in Hb by done.
  destruct (Z_lt_ge_dec n 32); [|by rewrite testbit_u32_high, (testbit_small w) by lia].
  rewrite testbit_u32, Z.lor_spec, Z.land_spec, Z.lnot_spec, !Z.shiftl_spec, Hb by lia.
  change 3 with (Z.ones 2) in Hb. change 1 with (Z.ones 1).
  destruct (Z_lt_ge_dec (n - 2 * (o `mod` 16)) 0).
  { rewrite (Z.testbit_neg_r _ (n - _)) by done. by rewrite andb_true_r, orb_false_r. }
  rewrite Z.ones_spec_high; [by rewrite andb_true_r, orb_false_r|].
  split; [lia|]. destruct (Z_lt_ge_dec (n - 2 * (o `mod` 16)) 2); [|lia].
  by rewrite Z.ones_spec_low in Hb by lia.
Qed.

(** C20: the driver never touches a pin it was not meant to touch.  For every call
    of the GPIO uclass, any offset, any value and any hardware: each store directly
    follows a read of the same register and changes only the bits of the requested
    pin; a call that is not an output call on one of the three LED lines (19, 34,
    35) stores nothing; and an output is enabled only after its level was
    programmed (data, then output enable, then direction). *)
Theorem gpio_calls_confined c d t :
  wp (ursus_gpio_ops base c) (extends t (call_ok c)) (d, t).
Proof.
  unfold extends, call_ok. destruct c as [o|o v|o|o v|o]; simpl.
  - unfold ursus_gpio_direction_input. destruct (o =? _); wps; exists []; rewrite app_nil_r; by repeat constructor.
  - unfold ursus_gpio_direction_output. destruct (ursus_gpio_safe_output o) eqn:Hs; simpl;
      [|wps; exists []; rewrite app_nil_r; by repeat constructor].
    wps. eapply wp_mono; [by apply raw_set_ok|]. intros r s (-> & d' & x & x' & -> & Hd). cif.
    eapply wp_mono; [by apply set_direction_ok|].
    intros r s (-> & d'' & y & y' & z & z' & -> & Ho & Hi). simpl. rewrite <- app_assoc.
    eexists. split; [done|]. split; [|done].
    constructor; [intros; by apply Hd, own_data|]. constructor; [intros; by apply Ho, own_oe|].
    constructor; [|constructor]. intros. apply Hi; [done|]. apply own_dir; [by apply safe_pins|done|done].
  - unfold ursus_gpio_get_value, ursus_gpio_raw_get. destruct (negb _); wps;
      [exists []; rewrite app_nil_r; by repeat constructor|].
    apply wp_readl. intros w d' _. wps. eexists. split; [done|]. by repeat constructor.
  - unfold ursus_gpio_set_value. destruct (ursus_gpio_safe_output o) eqn:Hs.
    + eapply wp_mono; [by apply raw_set_ok|]. intros r s (-> & d' & x & x' & -> & Hd). simpl.
      eexists. split; [done|]. split; [|done]. constructor; [intros; by apply Hd, own_data|constructor].
    + unfold ursus_gpio_raw_set. rewrite Hs. simpl. wps. exists []. rewrite app_nil_r. by repeat constructor.
  - unfold ursus_gpio_get_function. destruct (o =? _); [wps; exists []; rewrite app_nil_r; by repeat constructor|].
    unfold ursus_gpio_get_direction_raw. destruct (negb _); wps;
      [exists []; rewrite app_nil_r; by repeat constructor|].
    apply wp_readl. intros w d' _. wps. eexists. split; [done|]. by repeat constructor.
Qed.
End confinement.

(** * Behaviour over a register file *)

Lemma nz_land_BIT v b : 0 <= b -> nz (Z.land v (BIT b)) = Z.testbit v b.
Proof.
  intros Hb. destruct (Z.testbit v b) eqn:E.
  - apply nz_true. intros H0. assert (Z.testbit (Z.land v (BIT b)) b = false) as Hf by (rewrite H0; apply Z.bits_0).
    rewrite Z.land_spec, E, testbit_BIT, Z.eqb_refl in Hf by done. done.
  - apply nz_false. apply Z.bits_inj'. intros n Hn. rewrite Z.land_spec, testbit_BIT, Z.bits_0 by done.
    destruct (Z.eqb_spec n b) as [->|]; [by rewrite E|apply andb_false_r].
Qed.
Lemma field_ext a b sh : 0 <= sh -> (forall n, sh <= n < sh + 2 -> Z.testbit a n = Z.testbit b n) ->
  Z.land (Z.shiftr a sh) 3 = Z.land (Z.shiftr b sh) 3.
Proof.
  intros Hsh Hab. change 3 with (Z.ones 2). apply Z.bits_inj'. intros n Hn.
  rewrite !Z.land_spec, !Z.shiftr_spec, Z.testbit_ones_nonneg by lia.
  destruct (Z.ltb_spec n 2); [|by rewrite !andb_false_r]. rewrite Hab; [done|lia].
Qed.

Section registers.
Context (base : Z).

Definition data_after (o v x : Z) : Z :=
  u32 (if nz v then Z.lor x (BIT (o `mod` 32)) else Z.land x (Z.lnot (BIT (o `mod` 32)))).
Definition dir_after (o x : Z) : Z :=
  u32 (Z.lor (Z.land x (Z.lnot (Z.shiftl 3 (2 * (o `mod` 16))))) (Z.shiftl 1 (2 * (o `mod` 16)))).

(** The registers after an output call on an LED line. *)
Lemma output_regs o v (r : regs) t : ursus_gpio_safe_output o = true ->
  exists r' t', ursus_gpio_ops base (direction_output o v) (r, t) = (0, (r', t')) /\
    (forall k, 0 <= k < 2 -> u32 (r' (base + data_regs k)) =
       if k =? o / 32 then data_after o v (u32 (r (base + data_regs k))) else u32 (r (base + data_regs k))) /\
    (forall k, 0 <= k < 4 -> u32 (r' (base + dir_regs k)) =
       if k =? o / 16 then dir_after o (u32 (r (base + dir_regs k))) else u32 (r (base + dir_regs k))).
Proof.
  intros Hs. unfold ursus_gpio_ops, ursus_gpio_direction_output, ursus_gpio_raw_set, ursus_gpio_raw_set_any,
    ursus_gpio_set_direction_raw. rewrite Hs. apply safe_pins in Hs.
  assert (ursus_gpio_valid o = true) as -> by (unfold ursus_gpio_valid, URSUS_AN7581_GPIO_COUNT; lia).
  simpl. unfold sbind, readl, writel, sret. simpl. do 2 eexists. split; [done|].
  assert (forall x, u32 (u32 x) = u32 x) as Hu by (intros; apply u32_small, u32_range).
  assert (forall a b, (base + a =? base + b) = (a =? b)) as Hab by (intros; apply eq_true_iff_eq; lia).
  split; intros k Hk; rewrite !Hab; unfold data_regs, oe_regs, dir_regs, data_after, dir_after.
  - assert (k = 0 \/ k = 1) as [-> | ->] by lia; destruct Hs as [->|[->| ->]]; simpl; by rewrite ?Hu.
  - assert (k = 0 \/ k = 1 \/ k = 2 \/ k = 3) as [-> |[-> |[-> | ->]]] by lia;
      destruct Hs as [->|[->| ->]]; simpl; by rewrite ?Hu.
Qed.

Lemma get_value_regs p (r : regs) t : 0 <= p < 50 ->
  fst (ursus_gpio_ops base (get_value p) (r, t)) =
  if Z.testbit (u32 (r (base + data_regs (p / 32)))) (p `mod` 32) then 1 else 0.
Proof.
  intros Hp. simpl. unfold ursus_gpio_get_value, ursus_gpio_raw_get.
  assert (ursus_gpio_valid p = true) as -> by (unfold ursus_gpio_valid, URSUS_AN7581_GPIO_COUNT; lia).
  simpl. unfold sbind, readl, sret. simpl. rewrite nz_land_BIT; [done|]. apply Z.mod_pos_bound. lia.
Qed.
Lemma get_function_regs p (r r' : regs) t t' : 0 <= p < 50 ->
  Z.land (Z.shiftr (u32 (r (base + dir_regs (p / 16)))) (2 * (p `mod` 16))) 3 =
  Z.land (Z.shiftr (u32 (r' (base + dir_regs (p / 16)))) (2 * (p `mod` 16))) 3 ->
  fst (ursus_gpio_ops base (get_function p) (r, t)) = fst (ursus_gpio_ops base (get_function p) (r', t')).
Proof.
  intros Hp E. simpl. unfold ursus_gpio_get_function, ursus_gpio_get_direction_raw.
  destruct (_ =? _); [done|].
  assert (ursus_gpio_valid p = true) as -> by (unfold ursus_gpio_valid, URSUS_AN7581_GPIO_COUNT; lia).
  simpl. unfold sbind, readl, sret. simpl. by rewrite E.
Qed.

(** An output reads back, and only that pin moved.  Over a register file, after
    [direction_output(o, v)] on an LED line the call returns 0, [get_value(o)] is
    the level written, [get_function(o)] is OUTPUT, and every other pin of the 50
    reads the same level and the same function as before. *)
Lemma gpio_output_roundtrip o v (r : regs) t :
  ursus_gpio_safe_output o = true ->
  exists s, ursus_gpio_ops base (direction_output o v) (r, t) = (0, s) /\
    fst (ursus_gpio_ops base (get_value o) s) = (if nz v then 1 else 0) /\
    fst (ursus_gpio_ops base (get_function o) s) = GPIOF_OUTPUT /\
    (forall p, 0 <= p < 50 -> p <> o ->
       fst (ursus_gpio_ops base (get_value p) s) = fst (ursus_gpio_ops base (get_value p) (r, t)) /\
       fst (ursus_gpio_ops base (get_function p) s) = fst (ursus_gpio_ops base (get_function p) (r, t))).
Proof.
  intros Hs. destruct (output_regs o v r t Hs) as (r' & t' & -> & Hd & Hi). apply safe_pins in Hs.
  exists (r', t'). split; [done|].
  assert (0 <= o / 32 < 2 /\ 0 <= o / 16 < 4) as [Hb Hx] by (destruct Hs as [->|[->| ->]]; split; split; by vm_compute).
  pose proof (Z.mod_pos_bound o 32). pose proof (Z.mod_pos_bound o 16). repeat split.
  - rewrite get_value_regs, Hd, Z.eqb_refl by lia. unfold data_after. rewrite testbit_u32 by lia.
    destruct (nz v); rewrite ?Z.lor_spec, ?Z.land_spec, ?Z.lnot_spec, ?testbit_BIT, ?Z.eqb_refl by lia;
      by rewrite ?orb_true_r, ?andb_false_r.
  - simpl. unfold ursus_gpio_get_function, ursus_gpio_get_direction_raw, ursus_gpio_valid,
      URSUS_AN7581_GPIO_COUNT, URSUS_AN7581_GPIO_RESET.
    destruct (Z.eqb_spec o 0); [lia|]. destruct (Z.ltb_spec o 50); [|lia].
    simpl. unfold sbind, readl, sret. simpl. rewrite Hi, Z.eqb_refl by lia.
    rewrite (field_ext _ (BIT (2 * (o `mod` 16)))); [|lia|].
    + unfold BIT. rewrite Z.shiftr_shiftl_l, Z.sub_diag by lia. done.
    + intros k Hk. unfold dir_after. rewrite testbit_u32, testbit_BIT by lia.
      rewrite Z.lor_spec, Z.land_spec, Z.lnot_spec, !Z.shiftl_spec by lia.
      assert (k = 2 * (o `mod` 16) \/ k = 2 * (o `mod` 16) + 1) as [-> | ->] by lia.
      * rewrite Z.sub_diag, Z.eqb_refl. apply orb_true_r.
      * replace (_ - _) with 1 by lia. destruct (Z.eqb_spec (2 * (o `mod` 16) + 1) (2 * (o `mod` 16))); [lia|].
        by rewrite andb_false_r.
  - pose proof (Z.mod_pos_bound p 32). rewrite !get_value_regs by lia.
    assert (0 <= p / 32 < 2) by (split; [apply Z.div_pos|apply Z.div_lt_upper_bound]; lia).
    rewrite Hd by done. destruct (Z.eqb_spec (p / 32) (o / 32)) as [E|]; [|done].
    assert (Z.testbit (BIT (o `mod` 32)) (p `mod` 32) = false).
    { rewrite testbit_BIT by lia. apply Z.eqb_neq. pose proof (Z.div_mod p 32). pose proof (Z.div_mod o 32). lia. }
    unfold data_after. destruct (nz v); [rewrite testbit_set|rewrite testbit_clear]; try done; try lia; apply u32_range.
  - apply get_function_regs; [done|]. pose proof (Z.mod_pos_bound p 16).
    assert (0 <= p / 16 < 4) by (split; [apply Z.div_pos|apply Z.div_lt_upper_bound]; lia).
    rewrite Hi by done. destruct (Z.eqb_spec (p / 16) (o / 16)) as [E|]; [|done].
    assert (p `mod` 16 <> o `mod` 16) by (pose proof (Z.div_mod p 16); pose proof (Z.div_mod o 16); lia).
    apply field_ext; [lia|]. intros n Hn. unfold dir_after.
    rewrite testbit_u32, Z.lor_spec, Z.land_spec, Z.lnot_spec, !Z.shiftl_spec by lia.
    destruct (Z_lt_ge_dec (n - 2 * (o `mod` 16)) 0).
    + rewrite !(Z.testbit_neg_r _ (n - _)) by done. by rewrite andb_true_r, orb_false_r.
    + change 3 with (Z.ones 2). change 1 with (Z.ones 1). rewrite !Z.ones_spec_high by lia.
      by rewrite andb_true_r, orb_false_r.
Qed.
End registers.

Lemma gpio_output_roundtrip_witness :
  exists s, ursus_gpio_ops 0x1fbf0200 (direction_output 34 1) (fun _ => 0x5a5a5a5a, []) = (0, s) /\
    fst (ursus_gpio_ops 0x1fbf0200 (get_value 34) s) = 1.
Proof.
  destruct (gpio_output_roundtrip 0x1fbf0200 34 1 (fun _ => 0x5a5a5a5a) [] eq_refl) as (s & Hs & Hg & _).
  exists s. by split.
Defined.
