(* ===== verification/Led.v ===== *)
(** The front-panel LEDs (cmd/ursusled.c): routing of the LAN LEDs through the
    switch's Clause-45 MDIO window and the SCU pin mux, and the blink patterns
    that announce recovery and fatal states. *)
From S2P Require Import Prelude Bytes Flash Mmio.

(** * LAN LED routing *)

Definition GENMASK (h l : Z) : Z := Z.shiftl (Z.ones (h - l + 1)) l.

Definition URSUS_AN7581_CHIP_SCU_BASE : Z := 0x1fa20000.
Definition URSUS_AN7581_GPIO_2ND_I2C_MODE : Z := 0x0214.
Definition URSUS_AN7581_LAN_LED0_MAPPING : Z := 0x027c.
Definition URSUS_LAN_LED_MODE_MASK : Z := Z.lor (Z.lor (BIT 5) (BIT 7)) (BIT 9).
Definition URSUS_LAN_LED_MAP_MASK : Z := Z.lor (Z.lor (GENMASK 6 4) (GENMASK 10 8)) (GENMASK 14 12).
Definition URSUS_LAN_LED_MAP_VALUE : Z := Z.lor (Z.lor (Z.shiftl 1 4) (Z.shiftl 2 8)) (Z.shiftl 3 12).

Definition URSUS_MT7531_SWITCH_BASE : Z := 0x1fb58000.
Definition URSUS_MT7531_PHY_IAC_OFF : Z := 0x0000701c.
Definition URSUS_MT7531_PHY_IAC : Z := URSUS_MT7531_SWITCH_BASE + URSUS_MT7531_PHY_IAC_OFF.
Definition URSUS_MT7531_MDIO_BUSY : Z := BIT 31.
Definition URSUS_MT7531_MDIO_PHY (p : Z) : Z := u32 (Z.shiftl p 20).
Definition URSUS_MT7531_MDIO_DEV31 : Z := u32 (Z.shiftl 31 25).
Definition URSUS_MT7531_MDIO_CMD_WRITE : Z := Z.shiftl 1 18.
Definition URSUS_MT7531_MDIO_CMD_READ_C45 : Z := Z.shiftl 3 18.
Definition URSUS_MT7531_LED0_ON_CTRL : Z := 0x24.
Definition URSUS_MT7531_LED0_BLINK_CTRL : Z := 0x25.
Definition URSUS_MT7531_LED0_ON_VALUE : Z := 0xc007.
Definition URSUS_MT7531_LED0_BLINK_VALUE : Z := 0x003f.
Definition URSUS_MT7531_MDIO_SPINS : Z := 0x00100000.

(** What [ursus_lan_led_enable] reports on the console. *)
Inductive lan_led_report :=
  | URSUS_LANPHY_FAIL (phy reg val : Z)
  | URSUS_LAN_LED_MAP (mode map : Z) (enabled : bool).

Section lan.
Context {D : Type} `{Device D}.

Definition ursus_scu_read (off : Z) : ST (mmio D) Z := readl (URSUS_AN7581_CHIP_SCU_BASE + off).
Definition ursus_scu_write (off val : Z) : ST (mmio D) unit := writel val (URSUS_AN7581_CHIP_SCU_BASE + off).

(** [while (n--)]: at most [n] reads of the access register. *)
Fixpoint wait_idle_loop (n : nat) : ST (mmio D) Z :=
  match n with
  | O => sret (-1)
  | S n' =>
    let* v := readl URSUS_MT7531_PHY_IAC in
    if nz (Z.land v URSUS_MT7531_MDIO_BUSY) then wait_idle_loop n' else sret 0
  end.
Definition ursus_lanphy_wait_idle : ST (mmio D) Z := wait_idle_loop (Z.to_nat URSUS_MT7531_MDIO_SPINS).

(** [BUSY | DEV31 | PHY(phy) | x]. *)
Definition mdio_cmd (phy x : Z) : Z :=
  Z.lor (Z.lor (Z.lor URSUS_MT7531_MDIO_BUSY URSUS_MT7531_MDIO_DEV31) (URSUS_MT7531_MDIO_PHY phy)) x.

Definition ursus_lanphy_c45_write (phy reg val : Z) : ST (mmio D) Z :=
  let* r := ursus_lanphy_wait_idle in
  if nz r then sret (-1)
  else
    writel (mdio_cmd phy reg) URSUS_MT7531_PHY_IAC ;;;
    let* r := ursus_lanphy_wait_idle in
    if nz r then sret (-1)
    else
      writel (mdio_cmd phy (Z.lor URSUS_MT7531_MDIO_CMD_WRITE val)) URSUS_MT7531_PHY_IAC ;;;
      ursus_lanphy_wait_idle.

Definition ursus_lanphy_c45_read (phy reg : Z) : ST (mmio D) Z :=
  let* r := ursus_lanphy_wait_idle in
  if nz r then sret (-1)
  else
    writel (mdio_cmd phy reg) URSUS_MT7531_PHY_IAC ;;;
    let* r := ursus_lanphy_wait_idle in
    if nz r then sret (-1)
    else
      writel (mdio_cmd phy URSUS_MT7531_MDIO_CMD_READ_C45) URSUS_MT7531_PHY_IAC ;;;
      let* r := ursus_lanphy_wait_idle in
      if nz r then sret (-1)
      else let* v := readl URSUS_MT7531_PHY_IAC in sret (Z.land v 0xffff).

(** One PHY: both registers written, then both read back. *)
Definition lan_led_phy (phy : Z) : ST (mmio D) (option lan_led_report) :=
  let* ret := ursus_lanphy_c45_write phy URSUS_MT7531_LED0_ON_CTRL URSUS_MT7531_LED0_ON_VALUE in
  if nz ret then sret (Some (URSUS_LANPHY_FAIL phy URSUS_MT7531_LED0_ON_CTRL (u32 ret)))
  else
    let* ret := ursus_lanphy_c45_write phy URSUS_MT7531_LED0_BLINK_CTRL URSUS_MT7531_LED0_BLINK_VALUE in
    if nz ret then sret (Some (URSUS_LANPHY_FAIL phy URSUS_MT7531_LED0_BLINK_CTRL (u32 ret)))
    else
      let* on := ursus_lanphy_c45_read phy URSUS_MT7531_LED0_ON_CTRL in
      if nz (on - URSUS_MT7531_LED0_ON_VALUE)
      then sret (Some (URSUS_LANPHY_FAIL phy URSUS_MT7531_LED0_ON_CTRL (u32 on)))
      else
        let* blink := ursus_lanphy_c45_read phy URSUS_MT7531_LED0_BLINK_CTRL in
        if nz (blink - URSUS_MT7531_LED0_BLINK_VALUE)
        then sret (Some (URSUS_LANPHY_FAIL phy URSUS_MT7531_LED0_BLINK_CTRL (u32 blink)))
        else sret None.
Fixpoint lan_led_phys (l : list Z) : ST (mmio D) (option lan_led_report) :=
  match l with
  | [] => sret None
  | phy :: l' =>
    let* r := lan_led_phy phy in
    match r with Some f => sret (Some f) | None => lan_led_phys l' end
  end.

Definition map_routed (map : Z) : Z :=
  Z.lor (Z.land map (Z.lnot URSUS_LAN_LED_MAP_MASK)) URSUS_LAN_LED_MAP_VALUE.

Definition ursus_lan_led_enable : ST (mmio D) lan_led_report :=
  let* f := lan_led_phys [0x0a; 0x0b; 0x0c] in
  match f with
  | Some f => sret f
  | None =>
    let* mode := ursus_scu_read URSUS_AN7581_GPIO_2ND_I2C_MODE in
    let* map := ursus_scu_read URSUS_AN7581_LAN_LED0_MAPPING in
    ursus_scu_write URSUS_AN7581_GPIO_2ND_I2C_MODE (Z.lor mode URSUS_LAN_LED_MODE_MASK) ;;;
    ursus_scu_write URSUS_AN7581_LAN_LED0_MAPPING (map_routed map) ;;;
    let* mode := ursus_scu_read URSUS_AN7581_GPIO_2ND_I2C_MODE in
    let* map := ursus_scu_read URSUS_AN7581_LAN_LED0_MAPPING in
    sret (URSUS_LAN_LED_MAP mode map
      ((Z.land mode URSUS_LAN_LED_MODE_MASK =? URSUS_LAN_LED_MODE_MASK)
       && (Z.land map URSUS_LAN_LED_MAP_MASK =? URSUS_LAN_LED_MAP_VALUE)))
  end.

(** [do_ursuslanled]: the two status registers are read before the arguments. *)
Definition do_ursuslanled (args : list string) : ST (mmio D) Z :=
  let* _mode := ursus_scu_read URSUS_AN7581_GPIO_2ND_I2C_MODE in
  let* _map := ursus_scu_read URSUS_AN7581_LAN_LED0_MAPPING in
  match args with
  | [a] =>
    if bool_decide (a = "enable"%string) then ursus_lan_led_enable ;;; sret CMD_RET_SUCCESS
    else if bool_decide (a = "status"%string) then sret CMD_RET_SUCCESS
    else sret CMD_RET_USAGE
  | _ => sret CMD_RET_USAGE
  end.
End lan.

(** * Patterns *)

Record ursus_led_step := MkStep { st_on : bool; st_ms : Z }.
Definition recovery_steps : list ursus_led_step :=
  [MkStep true 150; MkStep false 150; MkStep true 150; MkStep false 300;
   MkStep true 450; MkStep false 150; MkStep true 450; MkStep false 150;
   MkStep true 450; MkStep false 300].
Definition sos_steps : list ursus_led_step :=
  [MkStep true 150; MkStep false 150; MkStep true 150; MkStep false 150;
   MkStep true 150; MkStep false 450;
   MkStep true 450; MkStep false 150; MkStep true 450; MkStep false 150;
   MkStep true 450; MkStep false 450;
   MkStep true 150; MkStep false 150; MkStep true 150; MkStep false 150;
   MkStep true 150; MkStep false 1050].

Inductive ursus_led_pattern :=
  | URSUS_LED_PATTERN_NONE | URSUS_LED_PATTERN_RECOVERY | URSUS_LED_PATTERN_SOS.
#[export] Instance led_pattern_dec : EqDecision ursus_led_pattern.
Proof. solve_decision. Defined.

Definition LED_STATUS_RED : string := "status-red".
Definition LED_USB1_GREEN : string := "usb1-green".
Definition LED_USB2_GREEN : string := "usb2-green".

(** The file's static variables; a device pointer is the LED's label or NULL.
    [led_log]: the calls of [led_set_state], oldest first. *)
Record led_ctx := MkLed {
  active_pattern : ursus_led_pattern;
  active_step : nat;
  next_change_ms : Z;
  status_red : option string;
  usb1_green : option string;
  usb2_green : option string;
  led_lookup_done : bool;
  led_log : list (string * bool);
}.
Definition led_init : led_ctx := MkLed URSUS_LED_PATTERN_NONE 0 0 None None None false [].
Definition set_pattern (v : ursus_led_pattern) (c : led_ctx) : led_ctx :=
  let 'MkLed _ x1 x2 x3 x4 x5 x6 x7 := c in MkLed v x1 x2 x3 x4 x5 x6 x7.
Definition set_step (v : nat) (c : led_ctx) : led_ctx :=
  let 'MkLed x0 _ x2 x3 x4 x5 x6 x7 := c in MkLed x0 v x2 x3 x4 x5 x6 x7.
Definition set_next (v : Z) (c : led_ctx) : led_ctx :=
  let 'MkLed x0 x1 _ x3 x4 x5 x6 x7 := c in MkLed x0 x1 v x3 x4 x5 x6 x7.

Definition led_t : Type := hw * led_ctx.

(** The LED uclass: which labels exist. *)
Class LedBoard := { led_get_by_label : string -> bool }.

Section patterns.
Context {L : LedBoard}.

Definition led_lookup1 (label : string) : option string :=
  if led_get_by_label label then Some label else None.
Definition ursus_led_lookup (c : led_ctx) : led_ctx :=
  if led_lookup_done c then c
  else
    let 'MkLed x0 x1 x2 _ _ _ _ x7 := c in
    MkLed x0 x1 x2 (led_lookup1 LED_STATUS_RED) (led_lookup1 LED_USB1_GREEN)
      (led_lookup1 LED_USB2_GREEN) true x7.

Definition ursus_led_one (dev : option string) (on : bool) (c : led_ctx) : led_ctx :=
  match dev with
  | None => c
  | Some l => let 'MkLed x0 x1 x2 x3 x4 x5 x6 x7 := c in MkLed x0 x1 x2 x3 x4 x5 x6 (x7 ++ [(l, on)])
  end.
Definition ursus_led_usb_pair (on : bool) (c : led_ctx) : led_ctx :=
  ursus_led_one (usb2_green c) on (ursus_led_one (usb1_green c) on c).

Definition ursus_led_start (pattern : ursus_led_pattern) (c : led_ctx) : led_ctx :=
  set_next 0 (set_step 0 (set_pattern pattern (ursus_led_lookup c))).

Definition step_at (steps : list ursus_led_step) (i : nat) : ursus_led_step :=
  nth i steps (MkStep false 0).

Definition ursus_led_poll : ST led_t unit :=
  let* c := ctx id in
  match active_pattern c with
  | URSUS_LED_PATTERN_NONE => sret tt
  | pattern =>
    let* now := onhw (get_timer 0) in
    if nz (next_change_ms c) && (s64 (now - next_change_ms c) <? 0) then sret tt
    else match pattern with
    | URSUS_LED_PATTERN_RECOVERY =>
      if (length recovery_steps <=? active_step c)%nat
      then onctx (fun c => set_pattern URSUS_LED_PATTERN_NONE (ursus_led_one (status_red c) true c))
      else
        let st := step_at recovery_steps (active_step c) in
        onctx (fun c => set_step (S (active_step c)) (set_next (u64 (now + st_ms st))
          (ursus_led_one (status_red c) (st_on st) c)))
    | _ =>
      let i := if (length sos_steps <=? active_step c)%nat then O else active_step c in
      let st := step_at sos_steps i in
      onctx (fun c => set_step (S i) (set_next (u64 (now + st_ms st)) (ursus_led_usb_pair (st_on st) c)))
    end
  end.

(** The loop of [ursus_led_recovery_latched]; [None] when the fuel runs out. *)
Fixpoint recovery_loop (fuel : nat) : ST led_t (option unit) :=
  let* c := ctx id in
  if bool_decide (active_pattern c = URSUS_LED_PATTERN_NONE) then sret (Some tt)
  else match fuel with
  | O => sret None
  | S fuel' =>
    ursus_led_poll ;;;
    let* c := ctx id in
    (if bool_decide (active_pattern c = URSUS_LED_PATTERN_NONE) then sret tt else onhw (mdelay 1)) ;;;
    recovery_loop fuel'
  end.
Definition ursus_led_recovery_latched (fuel : nat) : ST led_t (option unit) :=
  onctx (ursus_led_start URSUS_LED_PATTERN_RECOVERY) ;;; recovery_loop fuel.

(** [ursus_led_fatal_wait]: polls until Ctrl-C; [presses] is what [ctrlc] answers. *)
Fixpoint fatal_loop (presses : list bool) : ST led_t (option unit) :=
  match presses with
  | [] => sret None
  | true :: _ => sret (Some tt)
  | false :: p => ursus_led_poll ;;; onhw (mdelay 1) ;;; fatal_loop p
  end.
Definition ursus_led_fatal_wait (presses : list bool) : ST led_t (option unit) :=
  onctx (ursus_led_start URSUS_LED_PATTERN_SOS) ;;; fatal_loop presses.
End patterns.
