(* ===== verification/LedThms.v ===== *)
(** Claims about the LED code: the pin mux is written only after every PHY
    register read back, the routing of the LAN LEDs over a model of the switch's
    MDIO window, and the end and the content of the recovery pattern. *)
From S2P Require Import Prelude Bytes Flash Mmio Led Bench.

(** * The pin mux is gated on the read-back *)

Definition scu_store (p : Z * Z) : bool :=
  (URSUS_AN7581_CHIP_SCU_BASE <=? fst p) && (fst p <? URSUS_AN7581_CHIP_SCU_BASE + 0x1000).
Definition scu_stores (t : list mmio_event) : list (Z * Z) := List.filter scu_store (stores t).

Lemma scu_stores_app t1 t2 : scu_stores (t1 ++ t2) = scu_stores t1 ++ scu_stores t2.
Proof. unfold scu_stores. by rewrite stores_app, List.filter_app. Qed.

(** The stored mux values carry the LED bits. *)
Lemma land_u32 z m : Z.land m (Z.ones 32) = m -> Z.land (u32 z) m = Z.land z m.
Proof.
  intros Hm. unfold u32. rewrite <- Z.land_ones by lia. by rewrite <- Z.land_assoc, (Z.land_comm (Z.ones 32)), Hm.
Qed.
Lemma land_mode mode :
  Z.land (u32 (Z.lor mode URSUS_LAN_LED_MODE_MASK)) URSUS_LAN_LED_MODE_MASK = URSUS_LAN_LED_MODE_MASK.
Proof.
  rewrite land_u32 by done. apply Z.bits_inj'. intros n Hn. rewrite Z.land_spec, Z.lor_spec.
  by destruct (Z.testbit mode n), (Z.testbit URSUS_LAN_LED_MODE_MASK n).
Qed.
Lemma land_map map : Z.land (u32 (map_routed map)) URSUS_LAN_LED_MAP_MASK = URSUS_LAN_LED_MAP_VALUE.
Proof.
  rewrite land_u32 by done. unfold map_routed. rewrite Z.land_lor_distr_l, <- Z.land_assoc.
  change (Z.land (Z.lnot URSUS_LAN_LED_MAP_MASK) URSUS_LAN_LED_MAP_MASK) with 0. by rewrite Z.land_0_r.
Qed.

Section gated.
Context {D : Type} `{Device D}.

(** [m] adds at most [n] accesses, none of them a store to the SCU. *)
Definition mdio_only {A} (n : Z) (m : ST (mmio D) A) : Prop :=
  forall d t, wp m (fun _ s => exists t', snd s = t ++ t' /\ scu_stores t' = [] /\ Z.of_nat (length t') <= n) (d, t).

Lemma mo_ret {A} (a : A) : mdio_only 0 (sret a).
Proof. intros d t. wps. exists []. by rewrite app_nil_r. Qed.
Lemma mo_bind {A B} n k (m : ST (mmio D) A) (f : A -> ST (mmio D) B) :
  mdio_only n m -> (forall a, mdio_only k (f a)) -> mdio_only (n + k) (sbind m f).
Proof.
  intros Hm Hf d t. wps. eapply wp_mono; [apply Hm|]. intros a [d1 s1] (t1 & E1 & S1 & L1). simpl in E1. subst s1.
  eapply wp_mono; [apply Hf|]. intros b [d2 s2] (t2 & E2 & S2 & L2). simpl in *. subst s2.
  exists (t1 ++ t2). rewrite app_assoc, scu_stores_app, S1, S2, length_app. split; [done|]. split; [done|lia].
Qed.
Lemma mo_weaken {A} n k (m : ST (mmio D) A) : n <= k -> mdio_only n m -> mdio_only k m.
Proof.
  intros Hk Hm d t. eapply wp_mono; [apply Hm|]. intros a s (t' & ? & ? & ?). exists t'. split; [done|]. split; [done|lia].
Qed.
Lemma mo_readl a : mdio_only 1 (readl a).
Proof. intros d t. apply wp_readl. intros v d' _. by eexists. Qed.
Lemma mo_iac v : mdio_only 1 (writel v URSUS_MT7531_PHY_IAC).
Proof. intros d t. apply wp_writel. intros d'. by eexists. Qed.
Lemma mo_if {A} n (b : bool) (m1 m2 : ST (mmio D) A) : mdio_only n m1 -> mdio_only n m2 -> mdio_only n (if b then m1 else m2).
Proof. by destruct b. Qed.
Lemma mo_wait : mdio_only URSUS_MT7531_MDIO_SPINS ursus_lanphy_wait_idle.
Proof.
  unfold ursus_lanphy_wait_idle. assert (0 <= URSUS_MT7531_MDIO_SPINS) as Hs by done.
  rewrite <- (Z2Nat.id _ Hs) at 1. generalize (Z.to_nat URSUS_MT7531_MDIO_SPINS) as n. clear Hs.
  induction n as [|n IH]; simpl; [apply mo_ret|].
  apply (mo_weaken (1 + Z.of_nat n)); [lia|]. apply mo_bind; [apply mo_readl|]. intros v.
  apply mo_if; [done|]. apply (mo_weaken 0); [lia|apply mo_ret].
Qed.

Definition TXN : Z := 3 * URSUS_MT7531_MDIO_SPINS + 3.

(** Bounds of composed transactions, up to weakening. *)
Ltac mo k := apply (mo_weaken (k)); [unfold TXN, URSUS_MT7531_MDIO_SPINS; lia|].
Lemma mo_stop {A} n (a : A) : 0 <= n -> mdio_only n (sret a).
Proof. intros. apply (mo_weaken 0); [done|apply mo_ret]. Qed.

Lemma mo_write phy reg val : mdio_only TXN (ursus_lanphy_c45_write phy reg val).
Proof.
  unfold ursus_lanphy_c45_write.
  mo (URSUS_MT7531_MDIO_SPINS + (1 + (URSUS_MT7531_MDIO_SPINS + (1 + URSUS_MT7531_MDIO_SPINS)))).
  apply mo_bind; [apply mo_wait|]. intros r. apply mo_if; [by apply mo_stop|].
  apply mo_bind; [apply mo_iac|]. intros _. apply mo_bind; [apply mo_wait|]. intros r'.
  apply mo_if; [by apply mo_stop|]. apply mo_bind; [apply mo_iac|]. intros _. apply mo_wait.
Qed.
Lemma mo_read phy reg : mdio_only TXN (ursus_lanphy_c45_read phy reg).
Proof.
  unfold ursus_lanphy_c45_read.
  mo (URSUS_MT7531_MDIO_SPINS + (1 + (URSUS_MT7531_MDIO_SPINS + (1 + (URSUS_MT7531_MDIO_SPINS + (1 + 0)))))).
  apply mo_bind; [apply mo_wait|]. intros r. apply mo_if; [by apply mo_stop|].
  apply mo_bind; [apply mo_iac|]. intros _. apply mo_bind; [apply mo_wait|]. intros r'.
  apply mo_if; [by apply mo_stop|]. apply mo_bind; [apply mo_iac|]. intros _.
  apply mo_bind; [apply mo_wait|]. intros r''. apply mo_if; [by apply mo_stop|].
  apply mo_bind; [apply mo_readl|]. intros v. apply mo_ret.
Qed.
Lemma mo_phy phy : mdio_only (4 * TXN) (lan_led_phy phy).
Proof.
  unfold lan_led_phy. mo (TXN + (TXN + (TXN + (TXN + 0)))).
  apply mo_bind; [apply mo_write|]. intros r. apply mo_if; [by apply mo_stop|].
  apply mo_bind; [apply mo_write|]. intros r'. apply mo_if; [by apply mo_stop|].
  apply mo_bind; [apply mo_read|]. intros on. apply mo_if; [by apply mo_stop|].
  apply mo_bind; [apply mo_read|]. intros blink. apply mo_if; by apply mo_stop.
Qed.
Lemma mo_phys l : mdio_only (Z.of_nat (length l) * (4 * TXN)) (lan_led_phys l).
Proof.
  induction l as [|phy l IH]; simpl; [apply mo_ret|].
  mo (4 * TXN + Z.of_nat (length l) * (4 * TXN)). apply mo_bind; [apply mo_phy|].
  intros [f|]; [|done]. apply mo_stop. unfold TXN, URSUS_MT7531_MDIO_SPINS. lia.
Qed.

Definition mode_reg : Z := URSUS_AN7581_CHIP_SCU_BASE + URSUS_AN7581_GPIO_2ND_I2C_MODE.
Definition map_reg : Z := URSUS_AN7581_CHIP_SCU_BASE + URSUS_AN7581_LAN_LED0_MAPPING.

Definition is_fail (r : option lan_led_report) : Prop :=
  match r with Some (URSUS_LAN_LED_MAP _ _ _) => False | _ => True end.
Lemma phy_fail_only phy s : wp (lan_led_phy phy) (fun r _ => is_fail r) s.
Proof.
  unfold lan_led_phy. repeat first
    [ apply wp_ret; done
    | apply wp_bind, wp_intro; intros ? ? _; cbn beta
    | lazymatch goal with |- wp (if ?b then _ else _) _ _ => destruct b end ].
Qed.
Lemma phys_fail_only l s : wp (lan_led_phys l) (fun r _ => is_fail r) s.
Proof.
  revert s. induction l as [|phy l IH]; intros s; simpl; [by wps|]. apply wp_bind.
  eapply wp_mono; [apply phy_fail_only|]. intros [f|] s' Hf; [by apply wp_ret|apply IH].
Qed.

End gated.

(** * The recovery pattern *)

Section recovery.
Context {L : LedBoard}.

Fixpoint steps_ms (l : list ursus_led_step) : Z :=
  match l with [] => 0 | st :: l' => st_ms st + steps_ms l' end.

(** What is left to show from step [i] on. *)
Definition red_log (c : led_ctx) (i : nat) : list (string * bool) :=
  match status_red c with
  | None => []
  | Some l => map (fun st => (l, st_on st)) (drop i recovery_steps) ++ [(l, true)]
  end.

(** Step [i] is due in [d] milliseconds. *)
Definition due (c : led_ctx) (h : hw) (d : Z) : Prop :=
  next_change_ms c = u64 (h_clock h + d) \/ (next_change_ms c = 0 /\ d = 0).

Lemma waiting now n d : 0 < d <= 450 -> n = u64 (now + d) -> (s64 (u64 (now - 0) - n) <? 0) = true.
Proof.
  intros Hd ->. unfold s64. cbv zeta.
  assert (u64 (u64 (now - 0) - u64 (now + d)) = 2 ^ 64 - d) as ->.
  { unfold u64. rewrite Z.sub_0_r, <- Zminus_mod. replace (now - (now + d)) with (- d) by lia.
    rewrite Z.mod_opp_l_nz; rewrite ?Z.mod_small; lia. }
  destruct (_ <? 2 ^ 63) eqn:E; lia.
Qed.
Lemma not_waiting now : (s64 (u64 (now - 0) - u64 (now + 0)) <? 0) = false.
Proof. by rewrite Z.sub_0_r, Z.add_0_r, Z.sub_diag. Qed.

Definition done_at (c c' : led_ctx) (i : nat) : Prop :=
  active_pattern c' = URSUS_LED_PATTERN_NONE /\ led_log c' = led_log c ++ red_log c i.

Definition shows (fuel : nat) (h : hw) (c : led_ctx) (i : nat) : Prop :=
  exists h' c', recovery_loop fuel (h, c) = (Some tt, (h', c')) /\ done_at c c' i.

Lemma recovery_loop_S fuel h c c' :
  active_pattern c = URSUS_LED_PATTERN_RECOVERY -> ursus_led_poll (h, c) = (tt, (h, c')) ->
  active_pattern c' = URSUS_LED_PATTERN_RECOVERY ->
  recovery_loop (S fuel) (h, c) = recovery_loop fuel (set_clock (h_clock h + 1) h, c').
Proof.
  intros Hp Hq Hp'. cbn [recovery_loop]. unfold sbind, ctx, sget, id. cbn [fst snd].
  rewrite Hp, bool_decide_eq_false_2, Hq by done. cbn [fst snd]. by rewrite Hp', bool_decide_eq_false_2.
Qed.
Lemma recovery_loop_end fuel h c c' :
  active_pattern c = URSUS_LED_PATTERN_RECOVERY -> ursus_led_poll (h, c) = (tt, (h, c')) ->
  active_pattern c' = URSUS_LED_PATTERN_NONE -> recovery_loop (S fuel) (h, c) = (Some tt, (h, c')).
Proof.
  intros Hp Hq Hp'. cbn [recovery_loop]. unfold sbind, ctx, sget, id. cbn [fst snd].
  rewrite Hp, bool_decide_eq_false_2, Hq by done. cbn [fst snd]. rewrite Hp', bool_decide_eq_true_2 by done.
  unfold sret. cbn [fst snd]. destruct fuel; cbn [recovery_loop]; unfold sbind, ctx, sget, id; cbn [fst snd];
    by rewrite Hp', bool_decide_eq_true_2.
Qed.

(** A poll waits, fires step [i], or ends the pattern. *)
Lemma poll_wait h c d :
  active_pattern c = URSUS_LED_PATTERN_RECOVERY -> due c h d -> 0 < d <= 450 -> next_change_ms c <> 0 ->
  ursus_led_poll (h, c) = (tt, (h, c)).
Proof.
  intros Hp Hd Hr Hn. unfold ursus_led_poll, sbind, ctx, sget, onhw, get_timer, sget, id. cbn [fst snd].
  rewrite Hp, (proj2 (nz_true _) Hn). destruct Hd as [Hd|[Hd _]]; [|done].
  by rewrite (waiting (h_clock h) _ d).
Qed.
Definition fired (h : hw) (c : led_ctx) : led_ctx :=
  let st := step_at recovery_steps (active_step c) in
  set_step (S (active_step c)) (set_next (u64 (h_clock h + st_ms st)) (ursus_led_one (status_red c) (st_on st) c)).
Lemma poll_due h c :
  active_pattern c = URSUS_LED_PATTERN_RECOVERY -> due c h 0 \/ next_change_ms c = 0 ->
  ursus_led_poll (h, c) = (tt, (h, if (10 <=? active_step c)%nat
     then set_pattern URSUS_LED_PATTERN_NONE (ursus_led_one (status_red c) true c) else fired h c)).
Proof.
  intros Hp Hd. unfold ursus_led_poll, sbind, ctx, sget, onhw, get_timer, sget, id. cbv beta zeta. cbn [fst snd].
  rewrite Hp. cbn [fst snd].
  assert (nz (next_change_ms c) && (s64 (u64 (h_clock h - 0) - next_change_ms c) <? 0) = false) as ->.
  { destruct Hd as [[-> |[-> _]]| ->]; [|done|done]. by rewrite not_waiting, andb_false_r. }
  change (length recovery_steps) with 10%nat. destruct (10 <=? active_step c)%nat; [done|].
  unfold onctx, smod, fired. cbn [fst snd]. unfold u64. by rewrite Z.sub_0_r, Zplus_mod_idemp_l.
Qed.

Lemma fired_facts h c : (active_step c < 10)%nat ->
  active_pattern (fired h c) = active_pattern c /\ active_step (fired h c) = S (active_step c) /\
  next_change_ms (fired h c) = u64 (h_clock h + st_ms (step_at recovery_steps (active_step c))) /\
  led_log (fired h c) ++ red_log (fired h c) (S (active_step c)) = led_log c ++ red_log c (active_step c).
Proof.
  intros Hi. destruct c as [p i n [l|] ? ? ? lg]; simpl in *; (split; [done|split; [done|split; [done|]]]); [|done].
  unfold red_log. simpl status_red. cbv iota. rewrite <- app_assoc. f_equal.
  by do 10 (destruct i as [|i]; [done|]); lia.
Qed.

Lemma step_ms_bound i : (i < 10)%nat -> 1 <= st_ms (step_at recovery_steps i) <= 450.
Proof. intros Hi. do 10 (destruct i as [|i]; [simpl; lia|]). lia. Qed.
Lemma steps_ms_drop i : (i < 10)%nat ->
  steps_ms (drop i recovery_steps) = st_ms (step_at recovery_steps i) + steps_ms (drop (S i) recovery_steps).
Proof. intros Hi. do 10 (destruct i as [|i]; [done|]). lia. Qed.
Lemma steps_ms_nonneg i : 0 <= steps_ms (drop i recovery_steps).
Proof. do 11 (destruct i as [|i]; [simpl; lia|]). simpl. lia. Qed.

(** Waiting ends: when the step is due, or early when the deadline is the sentinel 0. *)
Lemma wait_down (n : nat) : forall fuel h c,
  active_pattern c = URSUS_LED_PATTERN_RECOVERY -> (n <= 450)%nat -> due c h (Z.of_nat n) ->
  (forall fuel' h', (fuel <= fuel')%nat -> due c h' 0 \/ next_change_ms c = 0 ->
     shows fuel' h' c (active_step c)) ->
  shows (n + fuel) h c (active_step c).
Proof.
  induction n as [|n IH]; intros fuel h c Hp Hn Hd Hk; [by apply Hk; [|left]|].
  destruct (decide (next_change_ms c = 0)) as [|Hnz]; [apply Hk; [lia|by right]|].
  unfold shows. rewrite Nat.add_succ_l, (recovery_loop_S _ _ _ c); [|done|by apply (poll_wait h c (Z.of_nat (S n))); [..|lia|]|done].
  apply IH; [done|lia| |done]. destruct Hd as [Hd|[? _]]; [|done]. left. rewrite Hd. f_equal. destruct h; simpl. lia.
Qed.

Lemma due_set_clock h c d : next_change_ms c = u64 (h_clock h + d) ->
  due c (set_clock (h_clock h + 1) h) (d - 1).
Proof. intros Hn. left. rewrite Hn. f_equal. destruct h; simpl. lia. Qed.

(** From a due step [i]: at most the remaining milliseconds + 1 polls. *)
Lemma recovery_shows k : forall fuel h c,
  (active_step c + k = 10)%nat -> active_pattern c = URSUS_LED_PATTERN_RECOVERY ->
  due c h 0 \/ next_change_ms c = 0 ->
  steps_ms (drop (active_step c) recovery_steps) + 1 <= Z.of_nat fuel ->
  shows fuel h c (active_step c).
Proof.
  induction k as [|k IH]; intros fuel h c Hk Hp Hd Hf; pose proof (steps_ms_nonneg (active_step c));
    (destruct fuel as [|fuel]; [lia|]); pose proof (poll_due h c Hp Hd) as Hq.
  - assert (active_step c = 10%nat) as Hi by lia. rewrite Hi in *. cbn [Nat.leb] in Hq.
    exists h. eexists. split; [apply (recovery_loop_end fuel h c _ Hp Hq); by destruct c as [? ? ? []]|].
    split; [by destruct c as [? ? ? []]|]. by destruct c as [? ? ? [] ? ? ? ?]; simpl; rewrite ?app_nil_r.
  - destruct (Nat.leb_spec 10 (active_step c)); [lia|].
    destruct (fired_facts h c ltac:(lia)) as (Fp & Fi & Fn & Fl). pose proof (step_ms_bound (active_step c) ltac:(lia)).
    rewrite steps_ms_drop in Hf by lia. set (ms := st_ms (step_at recovery_steps (active_step c))) in *.
    unfold shows. rewrite (recovery_loop_S _ _ _ (fired h c) Hp Hq) by congruence.
    destruct (wait_down (Z.to_nat (ms - 1)) (fuel - Z.to_nat (ms - 1)) (set_clock (h_clock h + 1) h) (fired h c))
      as (h' & c' & Hr & Ha & Hl).
    + congruence.
    + lia.
    + rewrite Z2Nat.id by lia. by apply due_set_clock.
    + intros fuel' h' Hle Hd'. apply IH; [lia|congruence|done|]. rewrite Fi. lia.
    + rewrite Fi, Fl in Hl. exists h', c'. pose proof (steps_ms_nonneg (S (active_step c))).
      replace (_ + _)%nat with fuel in Hr by lia. split; [done|].
      by split.
Qed.

(** The recovery announcement ends and shows the documented pattern.  Whatever
    the clock reads (also when the millisecond counter wraps during the pattern),
    whichever LEDs the board has and whatever pattern was active,
    [ursus_led_recovery_latched] returns after at most 2701 polls of 1 ms; if the
    status LED exists it was driven through two short and three long flashes and
    is left steadily on, and no other LED was touched. *)
Lemma recovery_pattern_ends h c :
  exists h' c', ursus_led_recovery_latched 2701 (h, c) = (Some tt, (h', c')) /\
    active_pattern c' = URSUS_LED_PATTERN_NONE /\
    led_log c' = led_log c ++
      match status_red (ursus_led_lookup c) with
      | None => []
      | Some l => map (pair l) [true; false; true; false; true; false; true; false; true; false; true]
      end.
Proof.
  unfold ursus_led_recovery_latched, sbind, onctx, smod. cbn [fst snd].
  set (c0 := ursus_led_start URSUS_LED_PATTERN_RECOVERY c).
  assert (active_step c0 = 0%nat /\ active_pattern c0 = URSUS_LED_PATTERN_RECOVERY /\ next_change_ms c0 = 0 /\
    led_log c0 = led_log c /\ status_red c0 = status_red (ursus_led_lookup c)) as (Hi & Hp & Hn & Hl & Hs).
  { unfold c0, ursus_led_start. by destruct c as [? ? ? ? ? ? [] ?]. }
  destruct (recovery_shows 10 2701 h c0) as (h' & c' & Hr & Ha & Hg); [lia|done|by right|by rewrite Hi|].
  exists h', c'. split; [done|]. split; [done|]. rewrite Hg, Hi, Hl. f_equal. unfold red_log. by rewrite Hs.
Qed.
End recovery.

(** * The routing over a Clause-45 bus *)

(** The switch's indirect access window: a command word carries device, PHY,
    opcode and either a register address or data; after a command the window
    reports busy for [lat] reads. *)
Record bus := MkBus {
  b_reg : Z -> Z -> Z;
  b_latch : Z -> Z;
  b_data : Z;
  b_busy : nat;
  b_scu : Z -> Z;
}.
Definition cmd_phy (v : Z) : Z := Z.land (Z.shiftr v 20) 31.
Definition cmd_op (v : Z) : Z := Z.land (Z.shiftr v 18) 3.
Definition cmd_arg (v : Z) : Z := Z.land v 0xffff.
Definition upd (f : Z -> Z) (k v : Z) : Z -> Z := fun x => if x =? k then v else f x.

Section routing.
Context (lat : nat).

Definition bus_write (a v : Z) (b : bus) : bus :=
  if a =? URSUS_MT7531_PHY_IAC then
    let p := cmd_phy v in
    if cmd_op v =? 0 then MkBus (b_reg b) (upd (b_latch b) p (cmd_arg v)) (b_data b) lat (b_scu b)
    else if cmd_op v =? 1 then
      MkBus (fun q => if q =? p then upd (b_reg b p) (b_latch b p) (cmd_arg v) else b_reg b q)
        (b_latch b) (b_data b) lat (b_scu b)
    else if cmd_op v =? 3 then MkBus (b_reg b) (b_latch b) (b_reg b p (b_latch b p)) lat (b_scu b)
    else b
  else MkBus (b_reg b) (b_latch b) (b_data b) (b_busy b) (upd (b_scu b) a v).
Definition bus_read (a : Z) (b : bus) : Z * bus :=
  if a =? URSUS_MT7531_PHY_IAC then
    match b_busy b with
    | O => (Z.land (b_data b) 0xffff, b)
    | S n => (URSUS_MT7531_MDIO_BUSY, MkBus (b_reg b) (b_latch b) (b_data b) n (b_scu b))
    end
  else (b_scu b a, b).
#[local] Instance bus_device : Device bus := {| dev_read := bus_read; dev_write := bus_write |}.

Definition idle (b : bus) : bus := MkBus (b_reg b) (b_latch b) (b_data b) 0 (b_scu b).

Lemma data_not_busy z : nz (Z.land (u32 (Z.land z 0xffff)) URSUS_MT7531_MDIO_BUSY) = false.
Proof.
  apply nz_false. unfold u32. rewrite <- Z.land_ones by lia. rewrite <- !Z.land_assoc. apply Z.land_0_r.
Qed.
Lemma wait_bus (b : bus) t : (b_busy b < Z.to_nat URSUS_MT7531_MDIO_SPINS)%nat ->
  wp ursus_lanphy_wait_idle (fun r s => r = 0 /\ fst s = idle b) (b, t).
Proof.
  unfold ursus_lanphy_wait_idle. generalize (Z.to_nat URSUS_MT7531_MDIO_SPINS) as n. intros n.
  revert b t. induction n as [|n IH]; intros b t Hb; [lia|]. cbn [wait_idle_loop]. apply wp_bind, wp_intro.
  intros v [b' t'] E. unfold readl, dev_read, bus_device, bus_read in E. cbn [fst snd] in E.
  rewrite Z.eqb_refl in E. destruct b as [rg la da [|bu] sc]; cbn [b_busy b_reg b_latch b_data b_scu] in *;
    cbn [fst snd] in E; injection E as <- <- <-.
  - rewrite data_not_busy. by wps.
  - change (nz _) with true. cbv iota. eapply wp_mono; [apply IH; cbn [b_busy]; lia|]. by intros r s [-> Es].
Qed.
Context (Hlat : (lat < Z.to_nat URSUS_MT7531_MDIO_SPINS)%nat).

Lemma write_iac v (b : bus) t (Q : unit -> mmio bus -> Prop) :
  (forall t', Q tt (bus_write URSUS_MT7531_PHY_IAC (u32 v) b, t')) -> wp (writel v URSUS_MT7531_PHY_IAC) Q (b, t).
Proof. intros HQ. apply wp_intro. intros x s E. unfold writel in E. cbn [fst snd] in E. injection E as <- <-. apply HQ. Qed.

(** A command word of the file decodes to the PHY, opcode and argument meant. *)
Definition decodes (v p op arg : Z) : Prop := cmd_phy (u32 v) = p /\ cmd_op (u32 v) = op /\ cmd_arg (u32 v) = arg.

(** An idle bus on which register [reg] of PHY [p] was set to [val]. *)
Definition with_reg (b : bus) (p reg val : Z) : bus -> Prop := fun b' =>
  b_busy b' = 0%nat /\ b_scu b' = b_scu b /\
  forall q k, b_reg b' q k = if (q =? p) && (k =? reg) then val else b_reg b q k.

Lemma c45_write_bus p reg val (b : bus) t : (b_busy b < Z.to_nat URSUS_MT7531_MDIO_SPINS)%nat ->
  decodes (mdio_cmd p reg) p 0 reg -> decodes (mdio_cmd p (Z.lor URSUS_MT7531_MDIO_CMD_WRITE val)) p 1 val ->
  wp (ursus_lanphy_c45_write p reg val) (fun r s => r = 0 /\ with_reg b p reg val (fst s)) (b, t).
Proof.
  intros Hb (A1 & A2 & A3) (W1 & W2 & W3). unfold ursus_lanphy_c45_write. apply wp_bind.
  eapply wp_mono; [by apply wait_bus|]. intros r [b1 t1] [-> E0]. cbn [fst] in E0. subst b1. cif.
  apply wp_bind, write_iac. intros t2. cbn [fst]. unfold bus_write. rewrite Z.eqb_refl, A1, A2, A3. cbv iota zeta.
  cbn [Z.eqb idle b_reg b_latch b_data b_scu]. apply wp_bind. eapply wp_mono; [by apply wait_bus|].
  intros r [b2 t3] [-> E0]. cbn [fst] in E0. subst b2. cif. apply wp_bind, write_iac. intros t4. unfold bus_write.
  rewrite Z.eqb_refl, W1, W2, W3. cbv iota zeta. eapply wp_mono; [by apply wait_bus|].
  intros r [b3 t5] [-> E0]. cbn [fst] in E0. subst b3. split; [done|]. cbn [fst idle b_reg b_latch b_data b_busy b_scu]. split; [done|]. split; [done|].
  intros q k. cbn. destruct (Z.eqb_spec q p) as [->|]; [|done]. unfold upd. by rewrite Z.eqb_refl.
Qed.
Lemma c45_read_bus p reg (b : bus) t : (b_busy b < Z.to_nat URSUS_MT7531_MDIO_SPINS)%nat ->
  decodes (mdio_cmd p reg) p 0 reg -> decodes (mdio_cmd p URSUS_MT7531_MDIO_CMD_READ_C45) p 3 0 ->
  0 <= b_reg b p reg < 0x10000 ->
  wp (ursus_lanphy_c45_read p reg) (fun r s => r = b_reg b p reg /\ b_busy (fst s) = 0%nat /\
    b_scu (fst s) = b_scu b /\ b_reg (fst s) = b_reg b) (b, t).
Proof.
  intros Hb (A1 & A2 & A3) (W1 & W2 & W3) Hv. unfold ursus_lanphy_c45_read. apply wp_bind.
  eapply wp_mono; [by apply wait_bus|]. intros r [b1 t1] [-> E0]. cbn [fst] in E0. subst b1. cif.
  apply wp_bind, write_iac. intros t2. cbn [fst]. unfold bus_write. rewrite Z.eqb_refl, A1, A2, A3. cbv iota zeta.
  cbn [Z.eqb idle b_reg b_latch b_data b_scu]. apply wp_bind. eapply wp_mono; [by apply wait_bus|].
  intros r [b2 t3] [-> E0]. cbn [fst] in E0. subst b2. cif. apply wp_bind, write_iac. intros t4. unfold bus_write.
  rewrite Z.eqb_refl, W1, W2, W3. cbv iota zeta. apply wp_bind. eapply wp_mono; [by apply wait_bus|].
  intros r [b3 t5] [-> E0]. cbn [fst] in E0. subst b3. cif. apply wp_bind, wp_intro. intros v [b4 t6] E.
  unfold readl, dev_read, bus_device, bus_read in E. cbn [fst snd] in E. rewrite Z.eqb_refl in E.
  cbn [idle b_busy fst snd b_data b_reg b_latch] in E. injection E as <- <- <-. wps. cbn [fst b_busy b_scu b_reg idle].
  split; [|done]. unfold upd. rewrite Z.eqb_refl. rewrite u32_small.
  - change 0xffff with (Z.ones 16). rewrite !Z.land_ones by lia. by rewrite !Z.mod_small by (rewrite ?Z.mod_small; lia).
  - change 0xffff with (Z.ones 16). rewrite Z.land_ones, Z.mod_small by lia. lia.
Qed.

(** Both LED registers of PHY [p] hold their values, everything else is kept. *)
Definition phy_ready (b : bus) (p : Z) (b' : bus) : Prop :=
  b_busy b' = 0%nat /\ b_scu b' = b_scu b /\
  forall q k, b_reg b' q k = if (q =? p) && (k =? URSUS_MT7531_LED0_ON_CTRL) then URSUS_MT7531_LED0_ON_VALUE
    else if (q =? p) && (k =? URSUS_MT7531_LED0_BLINK_CTRL) then URSUS_MT7531_LED0_BLINK_VALUE
    else b_reg b q k.
Lemma phy_bus p (b : bus) t : In p [0x0a; 0x0b; 0x0c] -> (b_busy b < Z.to_nat URSUS_MT7531_MDIO_SPINS)%nat ->
  wp (lan_led_phy p) (fun r s => r = None /\ phy_ready b p (fst s)) (b, t).
Proof.
  intros Hp Hb.
  assert (forall reg, In reg [URSUS_MT7531_LED0_ON_CTRL; URSUS_MT7531_LED0_BLINK_CTRL] ->
    decodes (mdio_cmd p reg) p 0 reg) as Ha.
  { intros reg Hr. destruct Hp as [<-|[<-|[<-|[]]]], Hr as [<-|[<-|[]]]; by repeat split. }
  assert (forall val, In val [URSUS_MT7531_LED0_ON_VALUE; URSUS_MT7531_LED0_BLINK_VALUE] ->
    decodes (mdio_cmd p (Z.lor URSUS_MT7531_MDIO_CMD_WRITE val)) p 1 val) as Hw.
  { intros val Hr. destruct Hp as [<-|[<-|[<-|[]]]], Hr as [<-|[<-|[]]]; by repeat split. }
  assert (decodes (mdio_cmd p URSUS_MT7531_MDIO_CMD_READ_C45) p 3 0) as Hr.
  { destruct Hp as [<-|[<-|[<-|[]]]]; by repeat split. }
  assert (0 < Z.to_nat URSUS_MT7531_MDIO_SPINS)%nat as H0 by (unfold URSUS_MT7531_MDIO_SPINS; lia).
  unfold lan_led_phy. apply wp_bind. eapply wp_mono; [apply c45_write_bus; [done|apply Ha|apply Hw]; simpl; tauto|].
  intros r [b1 t1] (-> & B1 & S1 & R1). cbn [fst] in *. cif. apply wp_bind.
  eapply wp_mono; [apply c45_write_bus; [by rewrite B1|apply Ha|apply Hw]; simpl; tauto|].
  intros r [b2 t2] (-> & B2 & S2 & R2). cbn [fst] in *. cif. apply wp_bind.
  assert (b_reg b2 p URSUS_MT7531_LED0_ON_CTRL = URSUS_MT7531_LED0_ON_VALUE) as E1.
  { by rewrite R2, R1, !Z.eqb_refl. }
  eapply wp_mono; [apply c45_read_bus; [by rewrite B2|apply Ha; simpl; tauto|done|by rewrite E1]|].
  intros r [b3 t3] (-> & B3 & S3 & R3). cbn [fst] in *. rewrite E1, Z.sub_diag. cif. apply wp_bind.
  assert (b_reg b3 p URSUS_MT7531_LED0_BLINK_CTRL = URSUS_MT7531_LED0_BLINK_VALUE) as E2.
  { by rewrite R3, R2, !Z.eqb_refl. }
  eapply wp_mono; [apply c45_read_bus; [by rewrite B3|apply Ha; simpl; tauto|done|by rewrite E2]|].
  intros r [b4 t4] (-> & B4 & S4 & R4). cbn [fst] in *. rewrite E2, Z.sub_diag. cif. wps.
  split; [done|]. unfold phy_ready. cbn [fst]. split; [done|]. split; [by rewrite S4, S3, S2|]. intros q k. rewrite R4, R3, R2, R1.
  destruct (q =? p); [|done]. cbn [andb].
  destruct (Z.eqb_spec k URSUS_MT7531_LED0_BLINK_CTRL) as [->|]; [done|]. by destruct (k =? _).
Qed.

End routing.

Definition bench_bus : bus := MkBus (fun _ _ => 0x1234) (fun _ => 0) 0 3 (fun _ => 0xffffffff).
