(* ===== verification/Fit.v ===== *)
(** The device-tree, FIT and CRC libraries that the stock boot path and the web
    image checks call, as a parameter: boot/image-fit.c is not modelled, and the
    models of libfdt (Fdt) and lib/crc32.c (Crc32) have their own theorems.  A blob is its bytes; nodes are the offsets libfdt
    hands out, negative for an error; a property is its offset in the blob and
    its bytes. *)
From S2P Require Import Prelude Bytes.

Class FitLib := {
  fdt_path_offset : list Z -> string -> Z;
  fdt_subnode_offset : list Z -> Z -> string -> Z;
  fdt_subnodes : list Z -> Z -> list Z;
  fdt_get_name : list Z -> Z -> option (list Z);
  fdt_getprop : list Z -> Z -> string -> option (Z * list Z);
  fdt_stringlist_contains : list Z -> string -> bool;
  fit_check_format : list Z -> Z -> Z;
  fit_all_image_verify : list Z -> bool;
  fit_image_get_data : list Z -> Z -> option (Z * Z);
  fit_image_get_arch : list Z -> Z -> option Z;
  fit_image_get_type : list Z -> Z -> option Z;
  fit_conf_get_node : list Z -> Z;
  fit_conf_get_prop_node : list Z -> Z -> string -> Z;
  crc32 : list Z -> Z;
}.
