(* ===== verification/StockBoot.v ===== *)
(** The stock boot path (cmd/ursusstock.c): inspection of the two vendor slots,
    loading and checking the FIT, the vendor environment, and the kernel command
    line the vendor's bootloader would have passed. *)
From S2P Require Import Prelude Bytes Fip Flash Ubi Shell Fit.

Definition STOCK_MASTER_BASE : Z := 0x000c0000.
Definition STOCK_SLAVE_BASE : Z := 0x02940000.
Definition STOCK_SLOT_SIZE : Z := 0x02880000.
Definition STOCK_ENV_BASE : Z := 0x0007c000.
Definition STOCK_ENV_SIZE : Z := 0x00004000.
Definition HDR2_SIZE : Z := 0x00000100.
Definition FIT_LOAD_ADDR : Z := 0x88000000.
Definition FIT_MAX_SIZE : Z := 0x02800000.
Definition FIP_TOC_READ : Z := 0x1000.
Definition MAX_TOC_ENTRIES : nat := 32.
Definition BOOTARGS_MAX : Z := 1536.

Definition nokia_nt_fw_uuid : list Z :=
  [0xd6; 0xd0; 0xee; 0xa7; 0xfc; 0xea; 0xd5; 0x4b;
   0x97; 0x82; 0x99; 0x34; 0xf2; 0x34; 0xb6; 0xe4].

(** [struct stock_slot]; its field nt_off, nt_size, ... are u64. *)
Record stock_slot := MkSlot {
  sl_base : Z;
  sl_nt_off : Z;
  sl_nt_size : Z;
  sl_fit_phys : Z;
  sl_fit_size : Z;
  sl_bad_blocks : Z;
}.
Record stock_layout := MkLayout { kernel_off : Z; kernel_size : Z; rootfs_off : Z; rootfs_size : Z }.
(** [struct stock_env]: [None] when the buffer could not be allocated. *)
Record stock_env := MkEnv { se_buf : option (list Z); se_crc_ok : bool }.

Definition uuid_is_zero (u : list Z) : bool := forallb (fun b => b =? 0) (take 16 u).

(** * C strings *)

(** ["%x"]. *)
Definition hex_char (d : Z) : Z := if d <? 10 then 48 + d else 87 + d.
Fixpoint hex_digits (fuel : nat) (z : Z) (acc : list Z) : list Z :=
  match fuel with
  | O => acc
  | S fuel' =>
    let acc := hex_char (z `mod` 16) :: acc in
    if z / 16 =? 0 then acc else hex_digits fuel' (z / 16) acc
  end.
Definition hex (z : Z) : list Z := hex_digits 16 z [].

Section stockboot.
Context {P : Platform} {X : Ext} {T : FitLib}.

(** * Flash access *)

(** The file has its own copies of the page-wise range read. *)
Definition read_range (mtd : mtd_info) (off len : Z) : ST hw (Z * list Z) := ursus_read_range mtd off len.

Fixpoint count_bad_loop (fuel : nat) (mtd : mtd_info) (eb fin bad : Z) : ST hw Z :=
  if fin <=? eb then sret bad
  else match fuel with
  | O => sret bad
  | S fuel' =>
    let* ret := mtd_block_isbad mtd eb in
    if ret <? 0 then sret ret
    else count_bad_loop fuel' mtd (u64 (eb + m_erasesize mtd)) fin (if 0 <? ret then bad + 1 else bad)
  end.
Definition count_bad_blocks (mtd : mtd_info) (start len : Z) : ST hw Z :=
  if m_erasesize mtd =? 0 then sret (- EINVAL)
  else count_bad_loop (Z.to_nat (len / m_erasesize mtd + 2)) mtd
         (start - start `mod` m_erasesize mtd) (u64 (start + len)) 0.

(** * Slots *)

(** The entry loop: offset and size of the first NT_FW entry. *)
Fixpoint find_ntfw (k : nat) (i : Z) (toc : list Z) : option (Z * Z) :=
  match k with
  | O => None
  | S k' =>
    if FIP_TOC_READ <? ent_pos i + FIP_ENT then None
    else if uuid_is_zero (ent_uuid toc i) then None
    else if memeq (ent_uuid toc i) nokia_nt_fw_uuid then Some (ent_offset toc i, ent_size toc i)
    else find_ntfw k' (i + 1) toc
  end.

(** What the header page at the NT_FW offset must hold: the FIT's place and size. *)
Definition slot_fit (base noff nsize : Z) (hdrpage : list Z) : option (Z * Z) :=
  if negb (memeq (take 4 hdrpage) (bytes_of "HDR2")) then None
  else
    let fithead := slice HDR2_SIZE 64 hdrpage in
    if nz (fdt_check_header fithead) then None
    else
      let fit_size := u32 (fdt_totalsize fithead) in
      if (fit_size =? 0) || (FIT_MAX_SIZE <? fit_size) || (u64 (nsize - HDR2_SIZE) <? fit_size) then None
      else Some (u64 (base + noff + HDR2_SIZE), fit_size).

(** Return code and the slot with the fields filled in so far. *)
Definition inspect_slot (mtd : mtd_info) (slot : stock_slot) : ST hw (Z * stock_slot) :=
  let base := sl_base slot in
  if m_size mtd <? u64 (base + STOCK_SLOT_SIZE) then sret (- ERANGE, slot)
  else
    let* ok := malloc in
    if negb ok then sret (- ENOMEM, slot)
    else
      let* r := read_range mtd base FIP_TOC_READ in
      let '(ret, toc) := r in
      if nz ret then sret (- EINVAL, slot)
      else if nz (le32 0 toc - URSUS_FIP_MAGIC) || nz (le32 4 toc - URSUS_FIP_SERIAL)
      then sret (- EINVAL, slot)
      else
        let '(noff, nsize) := default (sl_nt_off slot, sl_nt_size slot) (find_ntfw MAX_TOC_ENTRIES 0 toc) in
        let slot := MkSlot base noff nsize (sl_fit_phys slot) (sl_fit_size slot) (sl_bad_blocks slot) in
        if (noff =? 0) || (nsize <=? HDR2_SIZE) then sret (- EINVAL, slot)
        else if u64 (base + STOCK_SLOT_SIZE) <? u64 (base + noff + nsize) then sret (- EINVAL, slot)
        else
          let* r := read_range mtd (u64 (base + noff)) 2048 in
          let '(ret, hdrpage) := r in
          if nz ret then sret (- EINVAL, slot)
          else match slot_fit base noff nsize hdrpage with
          | None => sret (- EINVAL, slot)
          | Some (fit_phys, fit_size) =>
            let* bad := count_bad_blocks mtd fit_phys fit_size in
            sret (if bad <? 0 then - EINVAL else 0, MkSlot base noff nsize fit_phys fit_size bad)
          end.

(** * The FIT *)

(** The "data" property of an image node, inside the blob. *)
Definition image_data (fit : list Z) (images : Z) (name : string) : Z + Z * Z :=
  let node := fdt_subnode_offset fit images name in
  if node <? 0 then inl node
  else match fdt_getprop fit node "data" with
  | None => inl (- EINVAL)
  | Some (off, data) =>
    if blen data <=? 0 then inl (- EINVAL)
    else if (off <? 0) || (fdt_totalsize fit <? off + blen data) then inl (- ERANGE)
    else inr (off, blen data)
  end.
Definition fit_image_info (fit : list Z) (noff : Z) : Z + stock_layout :=
  if nz (fdt_check_header fit) then inl (- EINVAL)
  else
    let images := fdt_path_offset fit "/images" in
    if images <? 0 then inl images
    else match image_data fit images "kernel@1" with
    | inl e => inl e
    | inr (ko, ks) =>
      match image_data fit images "filesystem@1" with
      | inl e => inl e
      | inr (ro, rs) => inr (MkLayout (u64 (ko + noff)) (u32 ks) (u64 (ro + noff)) (u32 rs))
      end
    end.

(** * The vendor environment *)

Definition stock_env_load (mtd : mtd_info) : ST hw (Z * stock_env) :=
  let* ok := malloc in
  if negb ok then sret (- ENOMEM, MkEnv None false)
  else
    let* r := read_range mtd STOCK_ENV_BASE STOCK_ENV_SIZE in
    let '(ret, buf) := r in
    if nz ret then sret (- EIO, MkEnv (Some buf) false)
    else
      let stored := le32 0 buf in
      let crc_ok := stored =? crc32 (drop 4 buf) in
      sret (if crc_ok then 0 else - EBADMSG, MkEnv (Some buf) crc_ok).

(** The scan of [stock_env_get] from [p] to the end of the buffer. *)
Fixpoint env_scan (fuel : nat) (key p : list Z) : option (list Z) :=
  match fuel, p with
  | S fuel', b :: _ =>
    if b =? 0 then None
    else
      let n := strnlen p in
      if (n =? length p)%nat then None
      else
        let keylen := length key in
        if (keylen <? n)%nat && memeq (take keylen p) key && (nth keylen p 0 =? 61)
        then Some (take (n - keylen - 1) (drop (S keylen) p))
        else env_scan fuel' key (drop (S n) p)
  | _, _ => None
  end.
Definition stock_env_get (se : stock_env) (key : string) : option (list Z) :=
  match se_buf se with
  | Some buf => if se_crc_ok se then env_scan (length buf) (bytes_of key) (drop 4 buf) else None
  | None => None
  end.

(** * The command line *)

(** [append_arg]: return code and the text in [dst]. *)
Definition append_arg (dst : list Z) (cap : Z) (key : string) (val : option (list Z)) : Z * list Z :=
  match val with
  | None | Some [] => (0, dst)
  | Some v =>
    let used := blen dst in
    if cap <=? used then (- ENOSPC, dst)
    else
      let text := bytes_of key ++ [61] ++ v ++ [32] in
      let dst' := dst ++ snprintf_text (cap - used) text in
      if cap - used <=? blen text then (- ENOSPC, dst') else (0, dst')
  end.
(** A sequence of appends that stops at the first failure. *)
Fixpoint append_args (dst : list Z) (cap : Z) (l : list (string * option (list Z))) : Z * list Z :=
  match l with
  | [] => (0, dst)
  | (k, v) :: l' =>
    let '(ret, dst) := append_arg dst cap k v in
    if nz ret then (- ENOSPC, dst) else append_args dst cap l'
  end.

Definition passthrough : list string :=
  ["sdram_conf"; "vendor_name"; "product_name"; "ethaddr";
   "snmp_sysobjid"; "country_code"; "ether_gpio"; "power_gpio";
   "dsl_gpio"; "internet_gpio"; "multi_upgrade_gpio";
   "onu_type"; "qdma_init"; "dram_limit";
   "serdes_pon"; "serdes_ethernet"; "serdes_usb1"; "board_args"]%string.

Definition hex0x (z : Z) : list Z := bytes_of "0x" ++ hex z.
Definition tclinux_fields (fit_size : Z) (l : stock_layout) : list Z :=
  hex0x fit_size ++ [44] ++ hex0x (kernel_off l) ++ [44] ++ hex0x (kernel_size l) ++ [44] ++
  hex0x (rootfs_off l) ++ [44] ++ hex0x (rootfs_size l).
Definition tclinux_none : list Z := bytes_of "0x0,0x2000,0x0,0x2000,0x0".
Definition tclinux (bootflag : bool) (master slave : stock_slot) (l : stock_layout) : list Z :=
  snprintf_text 256
    (if bootflag then tclinux_none ++ [44] ++ tclinux_fields (sl_fit_size slave) l
     else tclinux_fields (sl_fit_size master) l ++ [44] ++ tclinux_none).

Definition or_default (v : option (list Z)) (d : string) : option (list Z) :=
  match v with Some w => Some w | None => Some (bytes_of d) end.

(** The arguments, in the order they are appended. *)
Definition bootargs_list (se : stock_env) (master slave : stock_slot) (l : stock_layout) (bootflag : bool)
    : list (string * option (list Z)) :=
  map (fun k => (k, stock_env_get se k)) passthrough ++
  [("root"%string, if bootflag then Some (bytes_of "/dev/mtdblock5 ro")
                   else or_default (stock_env_get se "root") "/dev/mtdblock3 ro");
   ("console"%string, or_default (stock_env_get se "console") "ttyS0,115200n8 earlycon");
   ("serdes_wifi1"%string, Some (bytes_of "05"));
   ("serdes_wifi2"%string, Some (bytes_of "05"));
   ("serdes_usb2"%string, Some (bytes_of "02"));
   ("bootflag"%string, Some (bytes_of (if bootflag then "1" else "0")));
   ("tclinux_info"%string, Some (tclinux bootflag master slave l))].
Definition build_stock_bootargs (se : stock_env) (master slave : stock_slot) (l : stock_layout)
    (bootflag : bool) (outsz : Z) : Z * list Z :=
  append_args [] outsz (bootargs_list se master slave l bootflag).

(** * The command *)

(** What the command printed last: a reason, or the boot attempt with the slot
    and the "bootargs" it stored in the environment.  The C function returns
    CMD_RET_FAILURE in every case, [bootm] returning included. *)
Inductive stock_outcome :=
  | MTD_NOT_FOUND
  | REQUESTED_SLOT_INVALID (ret : Z)
  | REQUESTED_SLOT_HAS_BADBLOCKS (bad : Z)
  | FIT_READ (ret : Z)
  | FIT_RECHECK
  | FIT_HASH_VERIFY
  | FIT_PARSE (ret : Z)
  | STOCK_ENV (ret : Z)
  | BOOTARGS_BUILD (ret : Z)
  | BOOTM_RETURNED (slot : stock_slot) (bootargs : list Z).

Definition do_ursusstockboot (want_slave : bool) : ST hw stock_outcome :=
  let* mtd := ursus_find_master_nand in
  match mtd with
  | None => sret MTD_NOT_FOUND
  | Some mtd =>
    let* m := inspect_slot mtd (MkSlot STOCK_MASTER_BASE 0 0 0 0 0) in
    let* s := inspect_slot mtd (MkSlot STOCK_SLAVE_BASE 0 0 0 0 0) in
    let '(ret, chosen) := if want_slave then s else m in
    if nz ret then sret (REQUESTED_SLOT_INVALID ret)
    else if nz (sl_bad_blocks chosen) then sret (REQUESTED_SLOT_HAS_BADBLOCKS (sl_bad_blocks chosen))
    else
      let* ret := read_range_to mtd (sl_fit_phys chosen) (sl_fit_size chosen) FIT_LOAD_ADDR in
      if nz ret then sret (FIT_READ ret)
      else
        let* fit := ram_read FIT_LOAD_ADDR (sl_fit_size chosen) in
        if nz (fdt_check_header fit) || nz (u32 (fdt_totalsize fit) - sl_fit_size chosen) then sret FIT_RECHECK
        else if negb (fit_all_image_verify fit) then sret FIT_HASH_VERIFY
        else match fit_image_info fit (sl_nt_off chosen) with
        | inl e => sret (FIT_PARSE e)
        | inr layout =>
          let* e := stock_env_load mtd in
          let '(ret, se) := e in
          if nz ret then sret (STOCK_ENV ret)
          else
            let '(ret, bootargs) := build_stock_bootargs se (snd m) (snd s) layout want_slave BOOTARGS_MAX in
            if nz ret then sret (BOOTARGS_BUILD ret)
            else
              let* _r := run_command (Bootm FIT_LOAD_ADDR "conf@1") in
              sret (BOOTM_RETURNED chosen bootargs)
        end
  end.
Definition stockboot_code (o : stock_outcome) : Z := CMD_RET_FAILURE.
End stockboot.
