(* ===== verification/StockThms.v ===== *)
(** Claims about the stock boot path: it writes nothing, it only boots what it
    checked, the vendor environment and the command line. *)
From S2P Require Import Prelude Bytes Fip Flash Ubi Shell ReadOnly FlashSpec UbiEngine NoFlash Fit StockBoot Bench.

(** * The vendor environment *)

(** The text of an environment: "key=value" entries, each ended by a NUL. *)
Definition env_entry (kv : list Z * list Z) : list Z := fst kv ++ [61] ++ snd kv ++ [0].
Definition env_encode (l : list (list Z * list Z)) : list Z := concat (map env_entry l) ++ [0].
(** Keys are not empty and hold neither NUL nor '='; values hold no NUL. *)
Definition env_ok (l : list (list Z * list Z)) : Prop :=
  Forall (fun kv => fst kv <> [] /\ Forall (fun b => b <> 0 /\ b <> 61) (fst kv) /\ Forall (fun b => b <> 0) (snd kv)) l.
(** The first entry of a key. *)
Fixpoint env_assoc (key : list Z) (l : list (list Z * list Z)) : option (list Z) :=
  match l with
  | [] => None
  | (k, v) :: l' => if memeq k key then Some v else env_assoc key l'
  end.


(** An entry matches the key exactly when its key part is the key. *)
Lemma entry_match k v key rest :
  Forall (fun b => b <> 0 /\ b <> 61) k -> Forall (fun b => b <> 0 /\ b <> 61) key ->
  let p := k ++ 61 :: v ++ 0 :: rest in
  ((length key <? length (k ++ 61%Z :: v))%nat && memeq (take (length key) p) key && (nth (length key) p 0 =? 61))
  = memeq k key.
Proof.
  intros Hk Hkey p. apply eq_true_iff_eq. rewrite !andb_true_iff, memeq_eq, memeq_eq, Z.eqb_eq, Nat.ltb_lt.
  subst p. split.
  - intros [[Hl Ht] Hn]. destruct (Nat.lt_trichotomy (length key) (length k)) as [Hlt|[He|Hgt]].
    + exfalso. rewrite app_nth1 in Hn by done. rewrite List.Forall_forall in Hk.
      destruct (Hk 61) as [_ ?]; [|done]. rewrite <- Hn. by apply nth_In.
    + by rewrite take_app_length' in Ht.
    + exfalso. rewrite <- Ht in Hkey. rewrite take_app_ge in Hkey by lia.
      apply Forall_app in Hkey as [_ Hkey]. destruct (length key - length k)%nat eqn:E; [lia|].
      simpl in Hkey. apply List.Forall_inv in Hkey. lia.
  - intros ->. rewrite take_app_length, app_nth2, Nat.sub_diag by lia. simpl. rewrite length_app. simpl. split; [split; [lia|done]|done].
Qed.

Lemma env_scan_encode key l rest fuel :
  env_ok l -> Forall (fun b => b <> 0 /\ b <> 61) key -> (length l < fuel)%nat ->
  env_scan fuel key (env_encode l ++ rest) = env_assoc key l.
Proof.
  intros Hl Hkey. revert fuel. unfold env_encode.
  induction Hl as [|[k v] l (Hne & Hk & Hv) Hl IH]; intros [|fuel] Hf; simpl in Hf; try lia; [done|].
  cbn [map concat env_assoc fst snd] in *. unfold env_entry at 1. cbn [fst snd].
  rewrite <- !app_assoc. cbn [app]. set (tail := concat (map env_entry l) ++ 0 :: rest).
  destruct k as [|b k]; [done|]. rename k into k'. set (k := b :: k') in *.
  assert (b <> 0) as Hb by (apply List.Forall_inv in Hk; tauto).
  change (env_scan (S fuel) key (k ++ 61 :: v ++ 0 :: tail)) with
    (if b =? 0 then None else
      let p := k ++ 61 :: v ++ 0 :: tail in let n := strnlen p in
      if (n =? length p)%nat then None else
      if (length key <? n)%nat && memeq (take (length key) p) key && (nth (length key) p 0 =? 61)
      then Some (take (n - length key - 1) (drop (S (length key)) p)) else env_scan fuel key (drop (S n) p)).
  destruct (Z.eqb_spec b 0); [done|]. cbv zeta.
  replace (strnlen _) with (length (k ++ 61 :: v)).
  2:{ replace (k ++ 61 :: v ++ 0 :: tail) with ((k ++ 61 :: v) ++ 0 :: tail) by (by rewrite <- app_assoc).
      symmetry. apply strnlen_app. apply Forall_app. split; [eapply List.Forall_impl; [|exact Hk]; simpl; tauto|].
      constructor; [done|done]. }
  destruct (Nat.eqb_spec (length (k ++ 61 :: v)) (length (k ++ 61 :: v ++ 0 :: tail))) as [E|_].
  { rewrite !length_app in E. simpl in E. rewrite length_app in E. simpl in E. lia. }
  rewrite entry_match by done. destruct (memeq k key) eqn:Em.
  - apply memeq_eq in Em as <-. f_equal.
    replace (drop (S (length k)) _) with (v ++ 0 :: tail) by (rewrite drop_app_ge, Nat.sub_succ_l, Nat.sub_diag by lia; done).
    rewrite length_app. simpl. replace (_ - _ - 1)%nat with (length v) by lia. apply take_app_length.
  - rewrite <- (IH fuel) by lia. f_equal.
    replace (k ++ 61 :: v ++ 0 :: tail) with ((k ++ 61 :: v) ++ 0 :: tail) by (by rewrite <- app_assoc).
    rewrite drop_app_ge by lia. replace (_ - _)%nat with 1%nat by lia. simpl. unfold tail. by rewrite <- app_assoc.
Qed.

Lemma env_encode_length l : (length l < length (env_encode l))%nat.
Proof.
  unfold env_encode. rewrite length_app. simpl. induction l as [|kv l IH]; simpl; [lia|].
  unfold env_entry at 1. rewrite !length_app in *. simpl. lia.
Qed.

(** * The command line *)

Definition render1 (kv : string * option (list Z)) : list Z :=
  match snd kv with
  | None | Some [] => []
  | Some v => bytes_of (fst kv) ++ [61] ++ v ++ [32]
  end.
Definition render (l : list (string * option (list Z))) : list Z := concat (map render1 l).

Lemma append_arg_spec dst cap k v : blen dst < cap ->
  blen (snd (append_arg dst cap k v)) < cap /\
  if blen dst + blen (render1 (k, v)) <? cap then append_arg dst cap k v = (0, dst ++ render1 (k, v))
  else fst (append_arg dst cap k v) = - ENOSPC.
Proof.
  intros Hd. unfold append_arg, render1. cbn [fst snd]. destruct v as [[|b v]|];
    try (rewrite app_nil_r; change (blen []) with 0; rewrite Z.add_0_r; destruct (Z.ltb_spec (blen dst) cap); [by split|lia]).
  destruct (Z.leb_spec cap (blen dst)); [lia|]. set (text := bytes_of k ++ _).
  assert (blen (dst ++ snprintf_text (cap - blen dst) text) < cap).
  { rewrite blen_app. unfold snprintf_text, blen in *. rewrite length_take. lia. }
  destruct (Z.leb_spec (cap - blen dst) (blen text)), (Z.ltb_spec (blen dst + blen text) cap); cbn [fst snd]; try lia; (split; [done|]); try done.
  unfold snprintf_text. rewrite take_ge; [done|]. unfold blen in *. lia.
Qed.

Lemma append_args_spec l : forall dst cap, blen dst < cap ->
  blen (snd (append_args dst cap l)) < cap /\
  if blen dst + blen (render l) <? cap then append_args dst cap l = (0, dst ++ render l)
  else fst (append_args dst cap l) = - ENOSPC.
Proof.
  induction l as [|[k v] l IH]; intros dst cap Hd; unfold render in *; cbn [append_args map concat].
  - rewrite app_nil_r. change (blen []) with 0. rewrite Z.add_0_r. destruct (Z.ltb_spec (blen dst) cap); [by split|lia].
  - destruct (append_arg_spec dst cap k v Hd) as [Hb Hr]. rewrite blen_app. pose proof (blen_nonneg (concat (map render1 l))).
    destruct (append_arg dst cap k v) as [ret dst']. cbn [fst snd] in *.
    destruct (Z.ltb_spec (blen dst + blen (render1 (k, v))) cap).
    + injection Hr as -> ->. cif. destruct (IH (dst ++ render1 (k, v)) cap Hb) as [Hb' Hr']. split; [done|].
      rewrite blen_app in Hr'. rewrite Z.add_assoc. by rewrite app_assoc.
    + subst ret. change (nz (- ENOSPC)) with true. cbv iota. split; [done|]. destruct (Z.ltb_spec (blen dst + (blen (render1 (k, v)) + blen (concat (map render1 l)))) cap); [lia|done].
Qed.

(** * Slots *)

(** What an accepted slot satisfies. *)
Definition slot_ok (s : stock_slot) : Prop :=
  sl_base s <= sl_fit_phys s /\ sl_fit_phys s + sl_fit_size s <= sl_base s + STOCK_SLOT_SIZE /\
  0 < sl_fit_size s <= FIT_MAX_SIZE.

Section slots.
Context {P : Platform} {X : Ext} {T : FitLib}.

#[export] Instance count_bad_ro k m a e n : ReadOnly (count_bad_loop k m a e n).
Proof. revert a n. induction k; intros; simpl; apply _. Qed.
#[export] Instance count_bad_blocks_ro m a n : ReadOnly (count_bad_blocks m a n).
Proof. unfold count_bad_blocks. apply _. Qed.
#[export] Instance inspect_slot_ro m s : ReadOnly (inspect_slot m s).
Proof. unfold inspect_slot, read_range. apply _. Qed.
#[export] Instance env_load_ro m : ReadOnly (stock_env_load m).
Proof. unfold stock_env_load, read_range. apply _. Qed.
#[export] Instance read_range_to_nf' m a n r : NoFlash (read_range_to m a n r).
Proof. unfold read_range_to. apply _. Qed.
#[export] Instance bootm_nf a c : NoFlash (run_command (Bootm a c)).
Proof. unfold run_command. simpl. apply _. Qed.
#[export] Instance stockboot_nf w : NoFlash (do_ursusstockboot w).
Proof.
  unfold do_ursusstockboot.
  repeat first [apply sbind_nf | apply option_nf | apply if_nf | apply sum_nf | apply pair_nf | apply _ | intros ?].
Qed.

Lemma find_ntfw_range k i toc noff nsize : bytes_ok toc ->
  find_ntfw k i toc = Some (noff, nsize) -> 0 <= noff < 2 ^ 64 /\ 0 <= nsize < 2 ^ 64.
Proof.
  intros Hb. revert i. induction k as [|k IH]; intros i; simpl; [done|].
  destruct (_ <? _); [done|]. destruct (uuid_is_zero _); [done|]. destruct (memeq _ _); [|apply IH].
  intros [= <- <-]. split; by apply le64_range.
Qed.
Lemma slot_fit_range base noff nsize hdr p z : slot_fit base noff nsize hdr = Some (p, z) ->
  p = u64 (base + noff + HDR2_SIZE) /\ 0 < z <= FIT_MAX_SIZE /\ z <= u64 (nsize - HDR2_SIZE).
Proof.
  unfold slot_fit. destruct (negb _); [done|]. destruct (nz _); [done|].
  pose proof (u32_range (fdt_totalsize (slice HDR2_SIZE 64 hdr))).
  destruct (_ || _) eqn:E; [done|]. intros [= <- <-]. rewrite !orb_false_iff in E.
  destruct E as [[E1%Z.eqb_neq E2%Z.ltb_ge] E3%Z.ltb_ge]. split; [done|]. lia.
Qed.

Lemma isbad_any m ofs (R : Z -> hw -> Prop) h :
  (forall ret k, (ret < 0 \/ ret = if h_bad h ((m_off m + ofs) / m_erasesize m) then 1 else 0) ->
     R ret (set_tick k h)) -> wp (mtd_block_isbad m ofs) R h.
Proof.
  intros HR. destruct (decide (0 <= ofs <= m_size m)); [by apply block_isbad_val|].
  unfold mtd_block_isbad. replace (_ || _) with true by lia. wps. rewrite <- set_tick_id. apply HR. by left.
Qed.
(** A count of 0 means that the whole range is good. *)
Lemma count_bad_loop_zero m es : 0 < es -> m_erasesize m = es -> (m_off m) `mod` es = 0 ->
  forall fuel eb fin bad h, 0 <= eb -> eb `mod` es = 0 -> 0 <= bad -> fin + es < 2 ^ 64 ->
  fin - eb <= Z.of_nat fuel * es ->
  wp (count_bad_loop fuel m eb fin bad)
     (fun r h' => (exists k, h' = set_tick k h) /\
        (r = 0 -> bad = 0 /\ forall x, eb <= x < fin -> h_bad h ((m_off m + x) / es) = false)) h.
Proof.
  intros Hes Hm Hmo. induction fuel as [|fuel IH]; intros eb fin bad h Hoff Hal Hbad Hfin Hfuel; cbn [count_bad_loop].
  { destruct (_ <=? _); wps; (split; [exists (h_tick h); by rewrite set_tick_id|]); intros; split; (done || intros; lia). }
  destruct (Z.leb_spec fin eb).
  { wps. split; [exists (h_tick h); by rewrite set_tick_id|]. intros. split; [done|intros; lia]. }
  wps. apply isbad_any. intros ret k Hret. rewrite Hm in *.
  destruct (Z.ltb_spec ret 0). { wps. split; [eauto|]. intros ->. lia. }
  destruct Hret as [?|Hret]; [lia|]. rewrite u64_small by lia.
  eapply wp_mono; [apply IH; try lia|].
  { rewrite <- (Z.mul_1_l es) at 1. by rewrite Z_mod_plus_full. }
  { destruct (0 <? ret); lia. }
  intros r h' ([k' ->] & Hz). rewrite set_tick_twice. split; [eauto|]. intros Hr.
  destruct (Hz Hr) as [Hb Hall]. assert (h_bad (set_tick k h) = h_bad h) as Hbd by by destruct h. rewrite Hbd in *.
  destruct (Z.ltb_spec 0 ret); [lia|]. split; [done|]. intros y Hy.
  destruct (Z.ltb_spec y (eb + es)) as [Hin|Hout]; [|apply Hall; lia].
  replace ((m_off m + y) / es) with ((m_off m + eb) / es); [destruct (h_bad h _); [lia|done]|].
  apply Z.div_exact in Hal; [|lia]. apply Z.div_exact in Hmo; [|lia].
  rewrite Hal, Hmo, <- Z.mul_add_distr_l, (Z.mul_comm es), Z.div_mul by lia.
  apply Z.div_unique with (r := y - eb); lia.
Qed.
Lemma count_bad_zero m start len h :
  0 < m_erasesize m -> (m_off m) `mod` m_erasesize m = 0 -> 0 <= start -> 0 <= len ->
  start + len + m_erasesize m < 2 ^ 64 ->
  wp (count_bad_blocks m start len) (fun r h' => (exists k, h' = set_tick k h) /\
    (r = 0 -> forall x, start <= x < start + len -> h_bad h ((m_off m + x) / m_erasesize m) = false)) h.
Proof.
  intros Hes Hmo Hst Hlen H64. unfold count_bad_blocks. destruct (Z.eqb_spec (m_erasesize m) 0); [lia|].
  rewrite u64_small by lia. pose proof (Z.mod_pos_bound start (m_erasesize m) Hes). pose proof (Z.mod_le start (m_erasesize m)).
  eapply wp_mono; [apply (count_bad_loop_zero m (m_erasesize m)); try done; try lia|].
  - rewrite Zminus_mod, Zmod_mod, Z.sub_diag. apply Z.mod_0_l. lia.
  - pose proof (Z.div_mod len (m_erasesize m)). pose proof (Z.mod_pos_bound len (m_erasesize m) Hes).
    assert (0 <= len / m_erasesize m) by (apply Z.div_pos; lia). rewrite Z2Nat.id by lia. nia.
  - intros r h' (Hk & Hz). split; [done|]. intros Hr x Hx. apply Hz; [done|lia].
Qed.

(** * Accepted slots *)

(** A 256 MiB-class NAND whose cells hold bytes. *)
Record sane_nand (m : mtd_info) (h : hw) : Prop := {
  sn_write : 0 <= m_writesize m;
  sn_erase : 0 < m_erasesize m <= 2 ^ 62;
  sn_off : (m_off m) `mod` m_erasesize m = 0;
  sn_size : m_size m < 2 ^ 62;
  sn_bytes : forall x, is_byte (h_nand h x);
}.

(** What [inspect_slot] guarantees about a slot it accepts. *)
Record accepted (m : mtd_info) (h : hw) (base : Z) (s : stock_slot) : Prop := {
  ac_base : sl_base s = base;
  ac_off : 0 <= sl_nt_off s < 2 ^ 64;
  ac_size : HDR2_SIZE < sl_nt_size s < 2 ^ 64;
  ac_wrap : u64 (base + sl_nt_off s + sl_nt_size s) <= base + STOCK_SLOT_SIZE;
  ac_phys : sl_fit_phys s = u64 (base + sl_nt_off s + HDR2_SIZE);
  ac_fit : 0 < sl_fit_size s <= FIT_MAX_SIZE /\ sl_fit_size s <= sl_nt_size s - HDR2_SIZE;
  ac_good : sl_bad_blocks s = 0 -> sl_fit_phys s + sl_fit_size s + m_erasesize m < 2 ^ 64 ->
    forall x, sl_fit_phys s <= x < sl_fit_phys s + sl_fit_size s -> h_bad h ((m_off m + x) / m_erasesize m) = false;
}.

Lemma set_tick_nand k h : h_nand (set_tick k h) = h_nand h.
Proof. by destruct h. Qed.
Lemma set_tick_bad k h : h_bad (set_tick k h) = h_bad h.
Proof. by destruct h. Qed.

Lemma inspect_slot_val m base h : sane_nand m h -> 0 <= base <= 2 ^ 40 ->
  wp (inspect_slot m (MkSlot base 0 0 0 0 0))
    (fun r h' => (exists k, h' = set_tick k h) /\ (fst r = 0 -> accepted m h base (snd r))) h.
Proof.
  intros [Hw He Ho Hs Hb] Hbase. unfold inspect_slot, read_range. cbn [sl_base sl_nt_off sl_nt_size sl_fit_phys sl_fit_size sl_bad_blocks].
  assert (exists k, h = set_tick k h) as Hid by (exists (h_tick h); by rewrite set_tick_id).
  destruct (_ <? _); [by wps|]. wps. apply wp_ro; [apply _|]. intros ok k1. destruct ok; [|wps; split; [eauto|done]].
  cbn [negb]. wps. eapply wp_mono; [apply read_range_val; try done; lia|].
  intros [ret toc] h2 ([k2 ->] & Htoc). rewrite set_tick_twice, set_tick_nand in *. cbn [fst snd] in *.
  destruct (nz ret) eqn:Hr; [wps; split; [eauto|done]|]. apply nz_false in Hr. specialize (Htoc Hr).
  destruct (_ || _); [wps; split; [eauto|done]|].
  assert (bytes_ok toc) as Hbt by (rewrite Htoc; by apply mread_bytes_ok).
  destruct (default (0, 0) (find_ntfw MAX_TOC_ENTRIES 0 toc)) as [noff nsize] eqn:Hf.
  assert (0 <= noff < 2 ^ 64 /\ 0 <= nsize < 2 ^ 64) as [Hn Hz].
  { destruct (find_ntfw _ _ _) as [[]|] eqn:E; simpl in Hf; simplify_eq; [by eapply find_ntfw_range|lia]. }
  destruct (_ || _) eqn:E1; [wps; split; [eauto|done]|]. apply orb_false_iff in E1 as [E1%Z.eqb_neq E2%Z.leb_gt].
  destruct (Z.ltb_spec (u64 (base + STOCK_SLOT_SIZE)) (u64 (base + noff + nsize))) as [|Hwr]; [wps; split; [eauto|done]|].
  rewrite (u64_small (base + STOCK_SLOT_SIZE)) in Hwr by (unfold STOCK_SLOT_SIZE; lia).
  wps. eapply wp_mono; [apply read_range_val; [done|apply u64_range|lia]|].
  intros [ret' hdr] h3 ([k3 ->] & _). rewrite set_tick_twice. cbn [fst snd].
  destruct (nz ret'); [wps; split; [eauto|done]|].
  destruct (slot_fit base noff nsize hdr) as [[p z]|] eqn:Hsf; [|wps; split; [eauto|done]].
  apply slot_fit_range in Hsf as (Hp & Hfs & Hle). rewrite u64_small in Hle by (unfold HDR2_SIZE in *; lia).
  destruct (decide (p + z + m_erasesize m < 2 ^ 64)) as [Hbig|Hbig].
  - wps. eapply wp_mono; [apply count_bad_zero; try done; try lia; subst p; apply u64_range|].
    intros bad h4 ([k4 ->] & Hbad). rewrite set_tick_twice, set_tick_bad in *. wps. split; [eauto|].
    cbn [fst snd]. intros _. split; cbn [sl_base sl_nt_off sl_nt_size sl_fit_phys sl_fit_size sl_bad_blocks]; try done; try lia. intros Hz0 _. by apply Hbad.
  - wps. apply wp_ro; [apply _|]. intros bad k4. wps. rewrite set_tick_twice. split; [eauto|].
    cbn [fst snd]. intros _. split; cbn [sl_base sl_nt_off sl_nt_size sl_fit_phys sl_fit_size sl_bad_blocks]; try done; lia.
Qed.

(** Without a wrap of the 64-bit sum, the FIT lies inside the slot. *)
Lemma accepted_in_slot m h base s : accepted m h base s -> 0 <= base ->
  base + sl_nt_off s + sl_nt_size s < 2 ^ 64 -> slot_ok s.
Proof.
  intros [Hb Ho Hs Hw Hp Hf _] H0 Hn. unfold slot_ok. unfold HDR2_SIZE in *. rewrite u64_small in Hw by lia.
  rewrite Hp, Hb, u64_small by lia. lia.
Qed.
End slots.

(** * Claims *)

Section claims.
Context {P : Platform} {X : Ext} {T : FitLib}.

(** What a boot attempt implies about the machine [h] it started on and the
    machine [h'] that [bootm] sees. *)
Definition boot_checked (w : bool) (h h' : hw) (slot : stock_slot) (args : list Z) : Prop :=
  exists m other env layout,
    find (fun m => negb (m_part m) && m_nand m) (h_mtds h) = Some m /\
    accepted m h (if w then STOCK_SLAVE_BASE else STOCK_MASTER_BASE) slot /\ sl_bad_blocks slot = 0 /\
    let fit := mread (h_nand h) (m_off m + sl_fit_phys slot) (sl_fit_size slot) in
    mread (h_ram h') FIT_LOAD_ADDR (sl_fit_size slot) = fit /\
    fdt_check_header fit = 0 /\ u32 (fdt_totalsize fit) = sl_fit_size slot /\ fit_all_image_verify fit = true /\
    fit_image_info fit (sl_nt_off slot) = inr layout /\
    env = mread (h_nand h) (m_off m + STOCK_ENV_BASE) STOCK_ENV_SIZE /\ le32 0 env = crc32 (drop 4 env) /\
    args = render (bootargs_list (MkEnv (Some env) true) (if w then other else slot) (if w then slot else other) layout w) /\
    blen args < BOOTARGS_MAX.

Lemma env_load_val m h : 0 <= m_writesize m ->
  wp (stock_env_load m) (fun r h' => (exists k, h' = set_tick k h) /\
    (fst r = 0 -> let env := mread (h_nand h) (m_off m + STOCK_ENV_BASE) STOCK_ENV_SIZE in
       snd r = MkEnv (Some env) true /\ le32 0 env = crc32 (drop 4 env))) h.
Proof.
  intros Hw. unfold stock_env_load, read_range. wps. apply wp_ro; [apply _|]. intros ok k1.
  destruct ok; [|wps; split; [eauto|done]]. cbn [negb]. wps.
  eapply wp_mono; [apply read_range_val; done|]. intros [ret buf] h2 ([k2 ->] & Hv). rewrite set_tick_twice, set_tick_nand in *.
  cbn [fst snd] in *. destruct (nz ret) eqn:Hr; [wps; split; [eauto|done]|]. apply nz_false in Hr. rewrite (Hv Hr).
  wps. split; [eauto|]. cbn [fst snd]. destruct (_ =? _) eqn:E; [|done]. intros _. split; [done|by apply Z.eqb_eq].
Qed.

Lemma sane_tick k m h : sane_nand m h -> sane_nand m (set_tick k h).
Proof. intros []. destruct h. by split. Qed.
Lemma accepted_tick k m h base s : accepted m (set_tick k h) base s -> accepted m h base s.
Proof. intros []. split; try done. by destruct h. Qed.
Lemma set_tick_ram k h : h_ram (set_tick k h) = h_ram h.
Proof. by destruct h. Qed.
Lemma wp_bootm a c (R : Z -> hw -> Prop) h :
  (forall r h', h_ram h' = h_ram h -> R r h') -> wp (run_command (Bootm a c)) R h.
Proof. intros HR. apply wp_intro. intros r h' E. unfold run_command, sbind, sret in E. simpl in E. injection E as _ <-. by apply HR. Qed.
Lemma build_exact se master slave l w outsz args : 0 < outsz ->
  build_stock_bootargs se master slave l w outsz = (0, args) ->
  args = render (bootargs_list se master slave l w) /\ blen args < outsz.
Proof.
  intros Hc Hb. unfold build_stock_bootargs in Hb.
  destruct (append_args_spec (bootargs_list se master slave l w) [] outsz Hc) as [Hbound Hexact].
  rewrite Hb in Hbound, Hexact. cbn [fst snd app] in *. split; [|done].
  destruct (_ <? outsz); [|done]. by injection Hexact.
Qed.
Lemma mread_set_ram h f a n : mread (h_ram (set_ram f h)) a n = mread f a n.
Proof. by destruct h. Qed.

(** C13: the stock boot path boots only what it checked.  On any platform, if the
    command reaches [bootm], then RAM at the load address holds, byte for byte, the
    FIT of the requested vendor slot as it is on flash, none of its blocks is bad,
    its header and all its image hashes verify, the vendor environment's CRC
    matches, and the command line is exactly the documented arguments in order,
    complete and within its 1536-byte buffer. *)
Theorem stockboot_boots_checked w h :
  (forall m, find (fun m => negb (m_part m) && m_nand m) (h_mtds h) = Some m -> sane_nand m h) ->
  wp (do_ursusstockboot w) (fun o h' => match o with
    | BOOTM_RETURNED slot args => boot_checked w h h' slot args
    | _ => True end) h.
Proof.
  intros Hsane. unfold do_ursusstockboot. wps. unfold ursus_find_master_nand. wps.
  destruct (find _ (h_mtds h)) as [m|] eqn:Hm; [|by wps]. specialize (Hsane m eq_refl). pose proof Hsane as [Hw _ _ _ _].
  wps. eapply wp_mono; [apply inspect_slot_val; [done|unfold STOCK_MASTER_BASE; lia]|].
  intros rm h1 ([k1 ->] & Am). wps.
  eapply wp_mono; [apply inspect_slot_val; [by apply sane_tick|unfold STOCK_SLAVE_BASE; lia]|].
  intros rs h2 ([k2 ->] & As). rewrite set_tick_twice.
  assert (fst rs = 0 -> accepted m h STOCK_SLAVE_BASE (snd rs)) as As' by (intros; by eapply accepted_tick, As). clear As.
  destruct (if w then rs else rm) as [ret chosen] eqn:Hc.
  destruct (nz ret) eqn:Hr; [by wps|]. apply nz_false in Hr. subst ret.
  assert (accepted m h (if w then STOCK_SLAVE_BASE else STOCK_MASTER_BASE) chosen) as Ac.
  { destruct w; subst; auto. }
  destruct (nz (sl_bad_blocks chosen)) eqn:Hb; [by wps|]. apply nz_false in Hb.
  pose proof Ac as [_ _ _ _ Hp [Hf _] _]. unfold read_range_to. wps.
  eapply wp_mono; [apply read_range_val; [done|rewrite Hp; apply u64_range|lia]|].
  intros [ret data] h3 ([k3 ->] & Hd). rewrite set_tick_twice, set_tick_nand in *. cbn [fst snd] in *.
  unfold ram_write. wps. destruct (nz ret) eqn:Hr; [by wps|]. apply nz_false in Hr. specialize (Hd Hr).
  remember (mread (h_nand h) (m_off m + sl_fit_phys chosen) (sl_fit_size chosen)) as fit eqn:Hfit.
  subst data. assert (blen fit = sl_fit_size chosen) as Hlen by (rewrite Hfit; apply blen_mread; lia).
  set (h4 := set_ram _ _). assert (mread (h_ram h4) FIT_LOAD_ADDR (sl_fit_size chosen) = fit) as Hram.
  { unfold h4. rewrite mread_set_ram, <- Hlen. apply mread_mwrite_same. }
  assert (h_nand h4 = h_nand h) as Hn4 by (unfold h4; by destruct h). clearbody h4. unfold ram_read. wps. rewrite Hram.
  destruct (_ || _) eqn:E1; [by wps|]. apply orb_false_iff in E1 as [E1%nz_false E2%nz_false].
  destruct (fit_all_image_verify fit) eqn:Hv; [|by wps]. cbn [negb].
  destruct (fit_image_info fit _) as [|layout] eqn:Hi; [by wps|]. wps.
  eapply wp_mono; [by apply env_load_val|]. intros [ret' se] h5 ([k5 ->] & He). rewrite Hn4 in He. cbn [fst snd] in He. cbv zeta in He.
  remember (mread (h_nand h) (m_off m + STOCK_ENV_BASE) STOCK_ENV_SIZE) as env eqn:Henv.
  destruct (nz ret') eqn:Hr'; [by wps|]. apply nz_false in Hr'. destruct (He Hr') as [-> Hcrc].
  destruct (build_stock_bootargs _ _ _ _ _ _) as [ret'' args] eqn:Ha.
  destruct (nz ret'') eqn:Hr''; [by wps|]. apply nz_false in Hr''. subst ret''.
  apply build_exact in Ha as [Hargs Hbound]; [|done].
  wps. apply wp_bootm. intros cr h6 Hr6. wps. unfold boot_checked.
  exists m, (if w then snd rm else snd rs), env, layout. rewrite <- Hfit, Hr6.
  split; [done|]. split; [done|]. split; [done|]. cbv zeta. rewrite set_tick_ram.
  split; [done|]. split; [done|]. split; [lia|]. split; [done|]. split; [done|].
  split; [done|]. split; [done|]. split; [|done]. rewrite Hargs. destruct w; subst rs || subst rm; done.
Qed.

(** C31: an accepted slot's FIT lies inside the slot.  On any platform, when
    [inspect_slot] accepts a slot whose NT_FW range does not wrap around 2^64, the
    FIT it found is not empty, is at most 40 MiB, and lies between the slot's base
    and its end, so that loading it never reads the other slot. *)
Theorem slot_in_range m base h slot h' :
  sane_nand m h -> 0 <= base <= 2 ^ 40 ->
  inspect_slot m (MkSlot base 0 0 0 0 0) h = ((0, slot), h') ->
  base + sl_nt_off slot + sl_nt_size slot < 2 ^ 64 -> slot_ok slot.
Proof.
  intros Hs Hb Hi Hn. destruct (wp_run _ _ _ _ _ (inspect_slot_val m base h Hs Hb) Hi) as [_ Ha].
  eapply accepted_in_slot; [by apply Ha|lia|done].
Qed.

(** The stock boot path never writes to flash, as it announces: whatever the
    platform does and whichever slot is asked for, no cell, no erased mark, no
    UBI table and no partition changes. *)
Lemma stockboot_writes_nothing w h : flash_same h (snd (do_ursusstockboot w h)).
Proof. apply stockboot_nf. Qed.

(** C29: the vendor environment's reader inverts its format.  For every environment
    of well-formed entries in a buffer with a valid CRC, whatever follows its final
    NUL, [stock_env_get] returns the value of the first entry with that key, and
    nothing when there is none (also for keys that are prefixes of others). *)
Theorem stock_env_roundtrip crc l rest key :
  length crc = 4%nat -> env_ok l -> Forall (fun b => b <> 0 /\ b <> 61) (bytes_of key) ->
  stock_env_get (MkEnv (Some (crc ++ env_encode l ++ rest)) true) key = env_assoc (bytes_of key) l.
Proof.
  intros Hc Hl Hk. unfold stock_env_get. cbn [se_buf se_crc_ok]. rewrite drop_app_length' by done.
  apply env_scan_encode; [done|done|]. rewrite !length_app. pose proof (env_encode_length l). lia.
Qed.

(** C30: the command line never overruns its buffer and is never silently truncated:
    for any capacity, [build_stock_bootargs] leaves fewer than [outsz] characters;
    it returns 0 exactly when the whole text fits, and then the text is the
    documented arguments in order; otherwise it returns -ENOSPC. *)
Theorem bootargs_bounded se master slave l w outsz :
  0 < outsz ->
  let full := render (bootargs_list se master slave l w) in
  let r := build_stock_bootargs se master slave l w outsz in
  blen (snd r) < outsz /\ r = if blen full <? outsz then (0, full) else (- ENOSPC, snd r).
Proof.
  intros Hc. unfold build_stock_bootargs. cbv zeta.
  destruct (append_args_spec (bootargs_list se master slave l w) [] outsz) as [Hb Hr]; [done|].
  split; [done|]. change (blen [] + ?x) with x in Hr. destruct (_ <? outsz); [done|].
  destruct (append_args _ _ _). simpl in *. by subst.
Qed.
End claims.

(** * Concrete machines *)

Lemma mwrite_bytes (f : Z -> Z) a l : (forall x, is_byte (f x)) -> bytes_ok l -> forall x, is_byte (mwrite f a l x).
Proof.
  intros Hf Hl x. unfold mwrite. destruct (_ && _); [|done].
  destruct (l !! Z.to_nat (x - a)) as [b|] eqn:E; simpl; [|done]. by eapply Forall_lookup_1 in Hl.
Qed.
Lemma bytes_ok_dec l : forallb (fun b => (0 <=? b) && (b <? 256)) l = true -> bytes_ok l.
Proof. intros H. rewrite forallb_forall in H. apply List.Forall_forall. intros b Hb. specialize (H b Hb). unfold is_byte. lia. Qed.

#[export] Instance bench_fit : FitLib := {|
  fdt_path_offset := fun _ _ => 0;
  fdt_subnode_offset := fun _ _ n => if bool_decide (n = "kernel@1"%string) then 8 else 16;
  fdt_subnodes := fun _ _ => []; fdt_get_name := fun _ _ => None;
  fdt_getprop := fun _ n _ => Some (n, [1; 2; 3; 4]);
  fdt_stringlist_contains := fun _ _ => false; fit_check_format := fun _ _ => 0;
  fit_all_image_verify := fun _ => true; fit_image_get_data := fun _ _ => None;
  fit_image_get_arch := fun _ _ => None; fit_image_get_type := fun _ _ => None;
  fit_conf_get_node := fun _ => -1; fit_conf_get_prop_node := fun _ _ _ => -1;
  crc32 := fun _ => 0 |}.

(** A flash whose master slot declares an NT_FW entry at [noff] of [nsize] bytes,
    with a FIT behind its header, and a vendor environment. *)
Definition sb_toc (noff nsize : Z) : list Z :=
  le_encode 4 URSUS_FIP_MAGIC ++ le_encode 4 URSUS_FIP_SERIAL ++ le_encode 8 0 ++
  mk_entry nokia_nt_fw_uuid noff nsize.
Definition sb_hdr : list Z := bytes_of "HDR2" ++ repeat 0 252 ++ [0xd0; 0x0d; 0xfe; 0xed].
Definition sb_env : list Z := repeat 0 4 ++ env_encode [(bytes_of "console", bytes_of "ttyS1"); (bytes_of "root", bytes_of "/dev/sda")].
Definition sb_hw (noff nsize : Z) : hw :=
  MkHw 0 0 (fun _ => 0)
    (mwrite (mwrite (mwrite (fun _ => 0xff) STOCK_MASTER_BASE (sb_toc noff nsize))
       (STOCK_MASTER_BASE + noff) sb_hdr) STOCK_ENV_BASE sb_env)
    (fun _ => false) (fun _ => false) [bench_nand] (fun _ => UA_other) None [] ∅ false.
Lemma sb_sane : sane_nand bench_nand (sb_hw 0x1000 0x1000).
Proof.
  split; [by vm_compute|by vm_compute|by vm_compute|by vm_compute|]. cbn [h_nand sb_hw].
  repeat apply mwrite_bytes; try (apply bytes_ok_dec; by vm_compute). done.
Qed.

Lemma stockboot_boots_checked_witness :
  match fst (do_ursusstockboot false (sb_hw 0x1000 0x1000)) with
  | BOOTM_RETURNED slot args =>
    boot_checked false (sb_hw 0x1000 0x1000) (snd (do_ursusstockboot false (sb_hw 0x1000 0x1000))) slot args
  | _ => False end.
Proof.
  assert (match fst (do_ursusstockboot false (sb_hw 0x1000 0x1000)) with BOOTM_RETURNED _ _ => true | _ => false end = true)
    as Hb by (vm_compute; reflexivity).
  assert (forall m, find (fun m => negb (m_part m) && m_nand m) (h_mtds (sb_hw 0x1000 0x1000)) = Some m ->
    sane_nand m (sb_hw 0x1000 0x1000)) as Hs by (intros m [= <-]; exact sb_sane).
  pose proof (stockboot_boots_checked false (sb_hw 0x1000 0x1000) Hs) as Hw.
  pose proof (wp_run _ _ _ _ _ Hw (surjective_pairing _)) as Hq.
  destruct (fst (do_ursusstockboot false (sb_hw 0x1000 0x1000))); try discriminate Hb. exact Hq.
Defined.

Lemma slot_in_range_witness :
  exists slot h', inspect_slot bench_nand (MkSlot STOCK_MASTER_BASE 0 0 0 0 0) (sb_hw 0x1000 0x1000) = ((0, slot), h') /\ slot_ok slot.
Proof.
  pose (r := inspect_slot bench_nand (MkSlot STOCK_MASTER_BASE 0 0 0 0 0) (sb_hw 0x1000 0x1000)).
  exists (snd (fst r)), (snd r).
  assert (fst (fst r) = 0 /\ sl_nt_off (snd (fst r)) = 0x1000 /\ sl_nt_size (snd (fst r)) = 0x1000) as (Hr & Ho & Hz)
    by (unfold r; vm_compute; auto).
  assert (r = ((0, snd (fst r)), snd r)) as E by (destruct r as [[a b] c]; simpl in *; congruence).
  split; [exact E|]. apply (slot_in_range bench_nand STOCK_MASTER_BASE (sb_hw 0x1000 0x1000) _ (snd r) sb_sane); [|exact E|].
  - unfold STOCK_MASTER_BASE. lia.
  - rewrite Ho, Hz. reflexivity.
Defined.

(** The range check of a slot can be bypassed.  There is a flash whose master slot
    is accepted although its NT_FW entry starts behind the slot's end: the 64-bit
    sum of base, offset and size wraps around, so that the FIT is taken from the
    other slot's area. *)
Lemma slot_range_wraps :
  exists h slot h', inspect_slot bench_nand (MkSlot STOCK_MASTER_BASE 0 0 0 0 0) h = ((0, slot), h') /\
    STOCK_MASTER_BASE + STOCK_SLOT_SIZE < sl_fit_phys slot /\ ~ slot_ok slot.
Proof.
  pose (h := sb_hw 0x02900000 (2 ^ 64 - 0x02900000 + 0x1000)).
  pose (r := inspect_slot bench_nand (MkSlot STOCK_MASTER_BASE 0 0 0 0 0) h).
  exists h, (snd (fst r)), (snd r).
  assert (fst (fst r) = 0 /\ sl_base (snd (fst r)) = STOCK_MASTER_BASE /\ sl_fit_phys (snd (fst r)) = 0x29c0100 /\ sl_fit_size (snd (fst r)) = 64)
    as (Hr & Hb & Hp & Hz) by (unfold r; vm_compute; auto).
  split; [|split].
  - fold r. destruct r as [[a b] c]. simpl in *. congruence.
  - rewrite Hp. reflexivity.
  - unfold slot_ok. rewrite Hb, Hp, Hz. unfold STOCK_MASTER_BASE, STOCK_SLOT_SIZE. lia.
Qed.

Lemma stock_env_roundtrip_witness :
  stock_env_get (MkEnv (Some sb_env) true) "root" = Some (bytes_of "/dev/sda").
Proof.
  unfold sb_env. rewrite <- (app_nil_r (env_encode _)).
  rewrite (stock_env_roundtrip (repeat 0 4) [(bytes_of "console", bytes_of "ttyS1"); (bytes_of "root", bytes_of "/dev/sda")] [] "root"); [reflexivity|reflexivity| |].
  - unfold env_ok. repeat constructor; discriminate.
  - repeat constructor; discriminate.
Defined.

Lemma bootargs_bounded_witness :
  fst (build_stock_bootargs (MkEnv None false) (MkSlot 0 0 0 0 64 0) (MkSlot 0 0 0 0 64 0) (MkLayout 0 0 0 0) false 100) = - ENOSPC /\
  0 < 100.
Proof.
  assert (0 < 100) as H100 by reflexivity. split; [|exact H100].
  pose proof (bootargs_bounded (MkEnv None false) (MkSlot 0 0 0 0 64 0) (MkSlot 0 0 0 0 64 0) (MkLayout 0 0 0 0) false 100 H100) as [_ Hr].
  rewrite Hr. vm_compute. reflexivity.
Defined.
