(* ===== verification/Dispatch.v ===== *)
(** The boot dispatcher (cmd/ursusdispatch.c): the reset button held at power-on
    selects recovery, otherwise the layout found on flash selects the boot path,
    and every boot that returns ends in the web recovery, which stays latched. *)
From S2P Require Import Prelude Bytes Fip Flash Ubi Shell Bl2 UbiEngine Fit StockBoot Mmio Led.

Definition URSUS_RESET_BOOT_DEBOUNCE_MS : Z := 750.
Definition URSUS_FACTORY_KERNEL_OFF : Z := 0x000c0000.
Definition URSUS_FACTORY_KERNEL_SIZE : Z := 0x00800000.
Definition URSUS_FACTORY_LOAD_ADDR : Z := 0x90000000.

Definition BUTTON_ON : Z := 1.

(** What the dispatcher prints on the console. *)
Inductive dispatch_msg :=
  | URSUS_DISPATCH_BEGIN
  | URSUS_RESET_DM_UNAVAILABLE (ret : Z)
  | URSUS_RESET_READ_ERROR (ret : Z)
  | URSUS_RESET_INITIAL (asserted : bool)
  | URSUS_RESET_RELEASED_DURING_BOOT_DEBOUNCE (elapsed_ms : Z)
  | URSUS_RESET_BOOT_DEBOUNCE_OK (elapsed_ms : Z)
  | URSUS_NORMAL_BOOT_SELECTED
  | URSUS_UBI_BOOT_SELECTED
  | URSUS_UBI_BOOT_RETURNED (ret : Z)
  | URSUS_FACTORY_BOOT_SELECTED
  | URSUS_FACTORY_BOOTM
  | URSUS_FACTORY_BOOT_RETURNED (ret : Z)
  | URSUS_STOCK_BOOT_SELECTED
  | URSUS_STOCKBOOT_RETURNED (ret : Z)
  | URSUS_RECOVERY_LATCHED (reason : string) (hold_ms : Z)
  | URSUS_WEB_RETURNED (ret : Z)
  | URSUS_RECOVERY_UART_SHELL.

(** The static variables of the file, of the files it calls, and the console. *)
Record dispatch_ctx := MkDisp {
  d_ubi : ubi_ctx;
  d_led : led_ctx;
  d_latched : bool;
  d_boot_reason : string;
  d_recovery_reason : string;
  d_console : list dispatch_msg;
}.
Definition disp_init : dispatch_ctx := MkDisp uctx_init led_init false "POWER_ON" "NONE" [].
Definition disp_t : Type := hw * dispatch_ctx.

Definition ursus_dispatch_boot_reason (c : dispatch_ctx) : string := d_boot_reason c.
Definition ursus_dispatch_recovery_reason (c : dispatch_ctx) : string := d_recovery_reason c.

(** The reset button: the lookup's result, and the state at each read (negative
    for a read error); consecutive reads see consecutive states. *)
Class Button := { button_get_by_label : Z; button_state : nat -> Z }.

(** Code of the UBI and LED files run on the shared state. *)
Definition on_ubi {A} (m : ST ubi_t A) : ST disp_t A := fun s =>
  let p := m (fst s, d_ubi (snd s)) in
  let 'MkDisp _ l b r q o := snd s in (fst p, (fst (snd p), MkDisp (snd (snd p)) l b r q o)).
Definition on_led {A} (m : ST led_t A) : ST disp_t A := fun s =>
  let p := m (fst s, d_led (snd s)) in
  let 'MkDisp u _ b r q o := snd s in (fst p, (fst (snd p), MkDisp u (snd (snd p)) b r q o)).

Definition say (m : dispatch_msg) : ST disp_t unit :=
  onctx (fun c => let 'MkDisp u l b r q o := c in MkDisp u l b r q (o ++ [m])).
(** [ursus_dispatch_set_reason]: 31 characters fit the buffer. *)
Definition set_boot_reason (s : string) : ST disp_t unit :=
  onctx (fun c => let 'MkDisp u l b _ q o := c in MkDisp u l b (String.substring 0 31 s) q o).
Definition set_recovery_reason (s : string) : ST disp_t unit :=
  onctx (fun c => let 'MkDisp u l b r _ o := c in MkDisp u l b r (String.substring 0 31 s) o).
Definition set_latched : ST disp_t unit :=
  onctx (fun c => let 'MkDisp u l _ r q o := c in MkDisp u l true r q o).

Section dispatch.
Context {P : Platform} {X : Ext} {B : Board} {T : FitLib} {L : LedBoard} {K : Button}.
(** The web server command, and what [ctrlc] answers while a fatal state waits. *)
Variable ursusweb : ST hw Z.
Variable presses : list bool.

Definition ursus_master_nand : ST hw (option mtd_info) := ursus_find_master_nand.

(** Four bytes of the NAND, when they can be read. *)
Definition nand_magic (nand : option mtd_info) (off : Z) (magic : list Z) : ST hw bool :=
  match nand with
  | None => sret false
  | Some nand =>
    let* r := mtd_read nand off 4 in
    let '(ret, hdr) := r in
    sret (((ret =? 0) || (ret =? - EUCLEAN)) && (blen hdr =? 4) && memeq hdr magic)
  end.
Definition ursus_ubi_present (nand : option mtd_info) : ST hw bool :=
  nand_magic nand 0x00020000 (bytes_of "UBI#").
Definition ursus_factory_kernel_present (nand : option mtd_info) : ST hw bool :=
  nand_magic nand URSUS_FACTORY_KERNEL_OFF [0xd0; 0x0d; 0xfe; 0xed].

Definition ursus_enter_webfailsafe (reason : string) (elapsed_ms : Z) : ST disp_t Z :=
  set_latched ;;;
  set_recovery_reason reason ;;;
  let* _l := on_led (ursus_led_recovery_latched 2701) in
  say (URSUS_RECOVERY_LATCHED reason elapsed_ms) ;;;
  let* ret := onhw ursusweb in
  say (URSUS_WEB_RETURNED ret) ;;;
  if nz ret then
    let* _w := on_led (ursus_led_fatal_wait presses) in sret CMD_RET_FAILURE
  else say URSUS_RECOVERY_UART_SHELL ;;; sret CMD_RET_SUCCESS.

(** [run_command("ursusstockboot")]: the command's status is 1. *)
Definition run_stockboot : ST hw Z :=
  let* o := do_ursusstockboot false in sret (stockboot_code o).

Definition ursus_normal_boot : ST disp_t Z :=
  let* nand := onhw ursus_master_nand in
  set_boot_reason "NORMAL_BOOT" ;;;
  say URSUS_NORMAL_BOOT_SELECTED ;;;
  let* ubi := onhw (ursus_ubi_present nand) in
  if ubi then
    say URSUS_UBI_BOOT_SELECTED ;;;
    let* ret := on_ubi ursus_ubi_boot in
    say (URSUS_UBI_BOOT_RETURNED ret) ;;;
    let* reason := ctx (fun c => us_boot_reason (d_ubi c)) in
    ursus_enter_webfailsafe reason 0
  else
    let* factory := onhw (ursus_factory_kernel_present nand) in
    if factory then
      say URSUS_FACTORY_BOOT_SELECTED ;;;
      let* ret := onhw (run_command (MtdRead (default ""%string (m_name <$> nand)) URSUS_FACTORY_LOAD_ADDR
                                       URSUS_FACTORY_KERNEL_OFF URSUS_FACTORY_KERNEL_SIZE)) in
      let* ret := (if nz ret then sret ret
                   else say URSUS_FACTORY_BOOTM ;;; onhw (run_command (Bootm URSUS_FACTORY_LOAD_ADDR ""))) in
      say (URSUS_FACTORY_BOOT_RETURNED ret) ;;;
      ursus_enter_webfailsafe "FACTORY_BOOT_RETURN" 0
    else
      say URSUS_STOCK_BOOT_SELECTED ;;;
      let* ret := onhw run_stockboot in
      say (URSUS_STOCKBOOT_RETURNED ret) ;;;
      ursus_enter_webfailsafe "STOCKBOOT_RETURN" 0.

Definition button_get_state : ST hw Z := fun h => (button_state (h_tick h), set_tick (S (h_tick h)) h).

(** The debounce loop; [None] when the fuel runs out. *)
Fixpoint debounce_loop (fuel : nat) (start : Z) : ST disp_t (option Z) :=
  match fuel with
  | O => sret None
  | S fuel' =>
    let* state := onhw button_get_state in
    let* elapsed := onhw (get_timer start) in
    if state <? 0 then
      say (URSUS_RESET_READ_ERROR state) ;;;
      let* r := ursus_normal_boot in sret (Some r)
    else if nz (state - BUTTON_ON) then
      say (URSUS_RESET_RELEASED_DURING_BOOT_DEBOUNCE elapsed) ;;;
      let* r := ursus_normal_boot in sret (Some r)
    else if URSUS_RESET_BOOT_DEBOUNCE_MS <=? elapsed then
      say (URSUS_RESET_BOOT_DEBOUNCE_OK elapsed) ;;;
      set_boot_reason "RESET_BUTTON" ;;;
      let* r := ursus_enter_webfailsafe "RESET_HELD_AT_BOOT" elapsed in sret (Some r)
    else onhw (mdelay 20) ;;; debounce_loop fuel' start
  end.

Definition do_ursusdispatch (fuel : nat) : ST disp_t (option Z) :=
  say URSUS_DISPATCH_BEGIN ;;;
  let* latched := ctx d_latched in
  if latched then
    let* r := ursus_enter_webfailsafe "STICKY_REENTRY" URSUS_RESET_BOOT_DEBOUNCE_MS in sret (Some r)
  else if nz button_get_by_label then
    say (URSUS_RESET_DM_UNAVAILABLE button_get_by_label) ;;;
    let* r := ursus_normal_boot in sret (Some r)
  else
    let* state := onhw button_get_state in
    if state <? 0 then
      say (URSUS_RESET_READ_ERROR state) ;;;
      let* r := ursus_normal_boot in sret (Some r)
    else if nz (state - BUTTON_ON) then
      say (URSUS_RESET_INITIAL false) ;;;
      let* r := ursus_normal_boot in sret (Some r)
    else
      say (URSUS_RESET_INITIAL true) ;;;
      let* start := onhw (get_timer 0) in
      debounce_loop fuel start.
End dispatch.
