(* ===== verification/DispatchThms.v ===== *)
(** Claims about the dispatcher: its abstract behaviour, the protected reset
    path, and the selection of the boot path. *)
From S2P Require Import Prelude Bytes Fip Flash Ubi Shell Bl2 ReadOnly FlashSpec UbiEngine NoFlash Fit StockBoot StockThms Mmio Led LedThms Dispatch Bench.

(** * The abstract dispatcher: its console traces *)

(** A boot attempt that returned, with the reason recovery is given. *)
Inductive boot_trace : list dispatch_msg -> string -> Prop :=
  | bt_ubi ret reason :
      boot_trace [URSUS_NORMAL_BOOT_SELECTED; URSUS_UBI_BOOT_SELECTED; URSUS_UBI_BOOT_RETURNED ret] reason
  | bt_factory_unread ret : ret <> 0 ->
      boot_trace [URSUS_NORMAL_BOOT_SELECTED; URSUS_FACTORY_BOOT_SELECTED; URSUS_FACTORY_BOOT_RETURNED ret]
        "FACTORY_BOOT_RETURN"
  | bt_factory ret :
      boot_trace [URSUS_NORMAL_BOOT_SELECTED; URSUS_FACTORY_BOOT_SELECTED; URSUS_FACTORY_BOOTM;
                  URSUS_FACTORY_BOOT_RETURNED ret] "FACTORY_BOOT_RETURN"
  | bt_stock ret :
      boot_trace [URSUS_NORMAL_BOOT_SELECTED; URSUS_STOCK_BOOT_SELECTED; URSUS_STOCKBOOT_RETURNED ret]
        "STOCKBOOT_RETURN".
(** The web recovery, its exit code and the dispatcher's. *)
Inductive web_trace (reason : string) (ms : Z) : list dispatch_msg -> Z -> Prop :=
  | wt_shell : web_trace reason ms [URSUS_RECOVERY_LATCHED reason ms; URSUS_WEB_RETURNED 0; URSUS_RECOVERY_UART_SHELL] CMD_RET_SUCCESS
  | wt_fatal ret : ret <> 0 ->
      web_trace reason ms [URSUS_RECOVERY_LATCHED reason ms; URSUS_WEB_RETURNED ret] CMD_RET_FAILURE.
(** Why a normal boot was selected. *)
Inductive normal_cause : list dispatch_msg -> Prop :=
  | nc_unavailable ret : ret <> 0 -> normal_cause [URSUS_RESET_DM_UNAVAILABLE ret]
  | nc_error st : st < 0 -> normal_cause [URSUS_RESET_READ_ERROR st]
  | nc_released : normal_cause [URSUS_RESET_INITIAL false]
  | nc_late_error st : st < 0 -> normal_cause [URSUS_RESET_INITIAL true; URSUS_RESET_READ_ERROR st]
  | nc_late_release el : normal_cause [URSUS_RESET_INITIAL true; URSUS_RESET_RELEASED_DURING_BOOT_DEBOUNCE el].
Inductive dispatch_trace : bool -> list dispatch_msg -> Z -> Prop :=
  | dt_sticky w r : web_trace "STICKY_REENTRY" 750 w r -> dispatch_trace true (URSUS_DISPATCH_BEGIN :: w) r
  | dt_held el w r : 750 <= el -> web_trace "RESET_HELD_AT_BOOT" el w r ->
      dispatch_trace false ([URSUS_DISPATCH_BEGIN; URSUS_RESET_INITIAL true; URSUS_RESET_BOOT_DEBOUNCE_OK el] ++ w) r
  | dt_boot cause b reason w r : normal_cause cause -> boot_trace b reason -> web_trace reason 0 w r ->
      dispatch_trace false (URSUS_DISPATCH_BEGIN :: cause ++ b ++ w) r.

Section steps.
Context {P : Platform} {X : Ext} {B : Board} {T : FitLib} {L : LedBoard} {K : Button}.
Context (ursusweb : ST hw Z) (presses : list bool).

Lemma wp_on_led {A} (m : ST led_t A) (Q : A -> disp_t -> Prop) h c :
  (forall a h' c', m (h, d_led c) = (a, (h', d_led c')) -> d_console c' = d_console c -> d_latched c' = d_latched c ->
     d_boot_reason c' = d_boot_reason c -> d_recovery_reason c' = d_recovery_reason c -> Q a (h', c')) ->
  wp (on_led m) Q (h, c).
Proof.
  intros HQ. apply wp_intro. intros a [h' c'] E. unfold on_led in E. destruct c as [u l b r q o]. cbn [fst snd d_led] in *.
  destruct (m (h, l)) as [a' [h2 l2]] eqn:Em. cbn [fst snd] in E. injection E as <- <- <-. by apply HQ.
Qed.
Lemma wp_on_ubi {A} (m : ST ubi_t A) (Q : A -> disp_t -> Prop) h c :
  (forall a h' c', d_console c' = d_console c -> d_latched c' = d_latched c -> Q a (h', c')) ->
  wp (on_ubi m) Q (h, c).
Proof.
  intros HQ. apply wp_intro. intros a [h' c'] E. unfold on_ubi in E. destruct c as [u l b r q o]. cbn [fst snd] in *.
  injection E as <- <- <-. by apply HQ.
Qed.
(** A message is appended to the console and changes nothing else. *)
Lemma wp_say msg (Q : unit -> disp_t -> Prop) h c :
  (forall c', d_console c' = d_console c ++ [msg] -> d_latched c' = d_latched c -> d_led c' = d_led c -> Q tt (h, c')) ->
  wp (say msg) Q (h, c).
Proof. intros HQ. unfold say. wps. apply HQ; by destruct c. Qed.

(** Entering the web recovery: latched, and one of its traces. *)
Lemma webfailsafe_trace reason ms h c :
  wp (ursus_enter_webfailsafe ursusweb presses reason ms)
    (fun r s => d_latched (snd s) = true /\
       exists w, d_console (snd s) = d_console c ++ w /\ web_trace reason ms w r) (h, c).
Proof.
  unfold ursus_enter_webfailsafe, set_latched, set_recovery_reason. wps. apply wp_on_led.
  intros x h1 c1 _ Hc1 Hl1 _ _. wps. apply wp_say. intros c2 Hc2 Hl2 _. wps. apply wp_intro. intros ret h2 _. wps.
  apply wp_say. intros c3 Hc3 Hl3 _.
  assert (d_latched c3 = true) as Hl by (rewrite Hl3, Hl2, Hl1; by destruct c).
  assert (d_console c3 = d_console c ++ [URSUS_RECOVERY_LATCHED reason ms; URSUS_WEB_RETURNED ret]) as Hc.
  { rewrite Hc3, Hc2, Hc1, <- app_assoc. by destruct c. }
  destruct (nz ret) eqn:Hr.
  - wps. apply wp_on_led. intros y h3 c4 _ Hc4 Hl4 _ _. wps. cbn [snd]. split; [congruence|]. exists [URSUS_RECOVERY_LATCHED reason ms; URSUS_WEB_RETURNED ret].
    cbn [snd]. split; [congruence|]. constructor. by apply nz_true.
  - apply nz_false in Hr. subst ret. wps. apply wp_say. intros c4 Hc4 Hl4 _. wps. split; [cbn [snd]; congruence|].
    eexists. split; [cbn [snd]; rewrite Hc4, Hc, <- app_assoc; done|constructor].
Qed.

Lemma normal_boot_trace h c :
  wp (ursus_normal_boot ursusweb presses)
    (fun r s => d_latched (snd s) = true /\
       exists b reason w, d_console (snd s) = d_console c ++ b ++ w /\ boot_trace b reason /\ web_trace reason 0 w r) (h, c).
Proof.
  unfold ursus_normal_boot, set_boot_reason. wps. apply wp_intro. intros nand h1 _. wps.
  set (c1 := let 'MkDisp u l b _ q o := c in _). assert (d_console c1 = d_console c) as Hc1 by by destruct c.
  clearbody c1. rewrite <- Hc1. clear Hc1 c.
  apply wp_say. intros c2 Hc2 _ _. wps. apply wp_intro. intros ubi h2 _.
  assert (forall reason b h' c', d_console c' = d_console c1 ++ b -> boot_trace b reason ->
    wp (ursus_enter_webfailsafe ursusweb presses reason 0) (fun r s => d_latched (snd s) = true /\
       exists b reason w, d_console (snd s) = d_console c1 ++ b ++ w /\ boot_trace b reason /\ web_trace reason 0 w r) (h', c')) as Hend.
  { intros reason b h' c' Hc' Hb. eapply wp_mono; [apply webfailsafe_trace|]. intros r s [Hl (w & Hw & Ht)].
    split; [done|]. exists b, reason, w. rewrite Hw, Hc', <- app_assoc. done. }
  destruct ubi.
  - wps. apply wp_say. intros c3 Hc3 _ _. wps. apply wp_on_ubi. intros ret h3 c4 Hc4 _. wps.
    apply wp_say. intros c5 Hc5 _ _. wps. eapply Hend; [rewrite Hc5, Hc4, Hc3, Hc2, <- !app_assoc; done|constructor].
  - wps. apply wp_intro. intros factory h3 _. destruct factory.
    + wps. apply wp_say. intros c3 Hc3 _ _. wps. apply wp_intro. intros ret h4 _. wps.
      destruct (nz ret) eqn:Hr.
      * wps. apply wp_say. intros c4 Hc4 _ _. eapply Hend; [rewrite Hc4, Hc3, Hc2, <- !app_assoc; done|].
        constructor. by apply nz_true.
      * wps. apply wp_say. intros c4 Hc4 _ _. wps. apply wp_intro. intros ret' h5 _. wps.
        apply wp_say. intros c5 Hc5 _ _. eapply Hend; [rewrite Hc5, Hc4, Hc3, Hc2, <- !app_assoc; done|constructor].
    + wps. apply wp_say. intros c3 Hc3 _ _. wps. apply wp_intro. intros ret h4 _. wps.
      apply wp_say. intros c4 Hc4 _ _. eapply Hend; [rewrite Hc4, Hc3, Hc2, <- !app_assoc; done|constructor].
Qed.

(** A run that ended in a trace of the abstract dispatcher. *)
Definition traced (latched : bool) (c0 : list dispatch_msg) (o : option Z) (s : disp_t) : Prop :=
  d_latched (snd s) = true /\ exists t r, o = Some r /\ d_console (snd s) = c0 ++ t /\ dispatch_trace latched t r.

(** A normal boot after its cause was printed. *)
Lemma boot_after_cause cause c0 h c : normal_cause cause ->
  d_console c = c0 ++ URSUS_DISPATCH_BEGIN :: cause ->
  wp (let* r := ursus_normal_boot ursusweb presses in sret (Some r)) (traced false c0) (h, c).
Proof.
  intros Hn Hc. wps. eapply wp_mono; [apply normal_boot_trace|]. intros r s [Hl (b & reason & w & Hw & Hb & Ht)].
  wps. split; [done|]. do 2 eexists. split; [done|]. split; [|by econstructor].
  rewrite Hw, Hc, <- app_assoc. done.
Qed.
Lemma elapsed_from t0 d : 0 <= d < 2 ^ 64 -> u64 (t0 + d - u64 t0) = d.
Proof.
  intros Hd. unfold u64. rewrite Zminus_mod_idemp_r. replace (t0 + d - t0) with d by lia. by apply Z.mod_small.
Qed.

(** One poll of the debounce loop, [el] milliseconds after its start. *)
Lemma debounce_poll c0 start fuel el h c :
  d_console c = c0 ++ [URSUS_DISPATCH_BEGIN; URSUS_RESET_INITIAL true] -> u64 (h_clock h - start) = el ->
  (el < 750 -> wp (debounce_loop ursusweb presses fuel start) (traced false c0)
     (set_clock (h_clock h + 20) (set_tick (S (h_tick h)) h), c)) ->
  wp (debounce_loop ursusweb presses (S fuel) start) (traced false c0) (h, c).
Proof.
  intros Hc Hel Hk. cbn [debounce_loop]. set (rest := debounce_loop ursusweb presses fuel start) in *. clearbody rest.
  unfold button_get_state. apply wp_bind, wp_onhw, wp_intro. intros state h2 [= <- <-].
  unfold get_timer. wps. assert (h_clock (set_tick (S (h_tick h)) h) = h_clock h) as Hck by by destruct h.
  rewrite Hck, Hel. set (state := button_state (h_tick h)). destruct (state <? 0) eqn:Hneg.
  { wps. apply wp_say. intros c1 Hc1 _ _. apply (boot_after_cause [URSUS_RESET_INITIAL true; URSUS_RESET_READ_ERROR state]);
      [constructor; lia|by rewrite Hc1, Hc, <- app_assoc]. }
  destruct (nz (state - BUTTON_ON)).
  { wps. apply wp_say. intros c1 Hc1 _ _. eapply boot_after_cause;
      [apply (nc_late_release el)|by rewrite Hc1, Hc, <- app_assoc]. }
  unfold URSUS_RESET_BOOT_DEBOUNCE_MS. destruct (Z.leb_spec 750 el).
  - wps. apply wp_say. intros c1 Hc1 _ _. unfold set_boot_reason. wps.
    eapply wp_mono; [apply webfailsafe_trace|]. intros r s [Hl (w & Hw & Ht)]. wps. split; [done|].
    do 2 eexists. split; [done|]. split; [|by apply (dt_held el)].
    rewrite Hw. replace (d_console _) with (d_console c1) by (by destruct c1). by rewrite Hc1, Hc, <- !app_assoc.
  - unfold mdelay. wps. rewrite Hck. by apply Hk.
Qed.
(** 39 polls of 20 ms reach the 750 ms. *)
Lemma debounce_trace c0 t0 c : d_console c = c0 ++ [URSUS_DISPATCH_BEGIN; URSUS_RESET_INITIAL true] ->
  forall fuel (k : nat), (39 <= k + fuel)%nat -> (k <= 38)%nat ->
  forall h, h_clock h = t0 + 20 * Z.of_nat k ->
  wp (debounce_loop ursusweb presses fuel (u64 t0)) (traced false c0) (h, c).
Proof.
  intros Hc. induction fuel as [|fuel IH]; intros k Hf Hk h Hclk; [lia|].
  apply (debounce_poll c0 _ fuel (20 * Z.of_nat k)); [done| |].
  - rewrite Hclk. apply elapsed_from. lia.
  - intros Hlt. apply (IH (S k)); try lia. destruct h; simpl in *. lia.
Qed.
(** A button that reads pressed each time. *)
Lemma held_loop (Hon : forall n, button_state n = BUTTON_ON) t0 c0 c : 
  d_console c = c0 ++ [URSUS_DISPATCH_BEGIN; URSUS_RESET_INITIAL true] ->
  forall fuel (k : nat), (39 <= k + fuel)%nat -> (k <= 38)%nat ->
  forall h, h_clock h = t0 + 20 * Z.of_nat k ->
  wp (debounce_loop ursusweb presses fuel (u64 t0)) (fun o s => exists w r, o = Some r /\ d_console (snd s) = c0 ++
      [URSUS_DISPATCH_BEGIN; URSUS_RESET_INITIAL true; URSUS_RESET_BOOT_DEBOUNCE_OK 760] ++ w /\
      web_trace "RESET_HELD_AT_BOOT" 760 w r) (h, c).
Proof.
  intros Hc. induction fuel as [|fuel IH]; intros k Hf Hk h Hclk; [lia|].
  cbn [debounce_loop]. set (rest := debounce_loop ursusweb presses fuel (u64 t0)) in *. clearbody rest.
  unfold button_get_state. apply wp_bind, wp_onhw, wp_intro. intros state h2 [= <- <-]. rewrite Hon.
  unfold get_timer. wps. assert (h_clock (set_tick (S (h_tick h)) h) = h_clock h) as Hck by by destruct h.
  rewrite Hck, Hclk. rewrite elapsed_from by lia.
  change (BUTTON_ON <? 0) with false. change (nz (BUTTON_ON - BUTTON_ON)) with false. cbv iota.
  unfold URSUS_RESET_BOOT_DEBOUNCE_MS. destruct (Z.leb_spec 750 (20 * Z.of_nat k)).
  - replace (20 * Z.of_nat k) with 760 by lia. wps. apply wp_say. intros c1 Hc1 _ _. unfold set_boot_reason. wps.
    eapply wp_mono; [apply webfailsafe_trace|]. intros r s [Hl (w & Hw & Ht)]. wps. do 2 eexists. split; [done|].
    split; [|exact Ht]. rewrite Hw. replace (d_console _) with (d_console c1) by (by destruct c1). by rewrite Hc1, Hc, <- !app_assoc.
  - unfold mdelay. wps. apply (IH (S k)); try lia. destruct h; simpl in *. lia.
Qed.
End steps.

(** * Which path is selected *)

Definition UBI_MAGIC : list Z := bytes_of "UBI#".
Definition FDT_MAGIC : list Z := [0xd0; 0x0d; 0xfe; 0xed].
Definition flash_has (h : hw) (m : mtd_info) (off : Z) (magic : list Z) : bool :=
  memeq (mread (h_nand h) (m_off m + off) 4) magic.
(** The path the flash contents call for. *)
Definition path_of (h : hw) (m : mtd_info) : dispatch_msg :=
  if flash_has h m 0x20000 UBI_MAGIC then URSUS_UBI_BOOT_SELECTED
  else if flash_has h m URSUS_FACTORY_KERNEL_OFF FDT_MAGIC then URSUS_FACTORY_BOOT_SELECTED
  else URSUS_STOCK_BOOT_SELECTED.

Section selection.
Context {P : Platform}.

(** A positive answer is what the flash holds; without faults the answer is exact. *)
Lemma nand_magic_val nand off magic h (R : bool -> hw -> Prop) : 0 <= off ->
  (forall b k, (b = true -> exists m, nand = Some m /\ flash_has h m off magic = true) ->
     ((forall n, pf_out n = fine) -> forall m, nand = Some m -> off + 4 <= m_size m -> b = flash_has h m off magic) ->
     R b (set_tick k h)) ->
  wp (nand_magic nand off magic) R h.
Proof.
  intros Hoff HR. destruct nand as [m|]; simpl.
  2:{ wps. rewrite <- (set_tick_id h). apply HR; [done|]. by intros _ m. }
  unfold mtd_read. destruct (_ || _) eqn:Hb.
  { wps. change (memeq _ _) with (memeq [] magic). rewrite <- (set_tick_id h). apply HR; [done|].
    intros _ m' [= <-] Hs. rewrite !orb_true_iff, !Z.ltb_lt in Hb. lia. }
  unfold next_out, sbind, sget, sret. apply wp_intro. intros b h' [= <- <-].
  assert (h_nand (set_tick (S (h_tick h)) h) = h_nand h) as Hn by by destruct h. cbn [fst snd]. rewrite Hn.
  set (o := pf_out (h_tick h)). apply HR.
  - rewrite !andb_true_iff, Z.eqb_eq. intros [[_ Hl] Hm]. exists m. split; [done|].
    unfold flash_has. unfold blen in Hl. rewrite length_mread in Hl.
    destruct (o_len o) as [n|]; simpl in *; [|done]. assert (n = 4) as -> by lia. done.
  - intros Hf m' [= <-] _. unfold o. rewrite Hf. cbn [o_err o_len fine default]. rewrite blen_mread by lia. done.
Qed.
End selection.

(** * Claims *)

Section claims.
Context {P : Platform} {X : Ext} {B : Board} {T : FitLib} {L : LedBoard} {K : Button}.
Context (ursusweb : ST hw Z) (presses : list bool).


(** C27: a reset button held at power-on always reaches recovery.  If the button is
    found and reads pressed each time, then whatever the flash holds and whatever
    the platform does, the dispatcher enters the web recovery with the reason
    RESET_HELD_AT_BOOT after 760 ms, and nothing was booted before. *)
Theorem reset_held_recovers h c :
  d_latched c = false -> button_get_by_label = 0 -> (forall n, button_state n = BUTTON_ON) ->
  exists r s' w, do_ursusdispatch ursusweb presses 39 (h, c) = (Some r, s') /\
    d_console (snd s') = d_console c ++
      [URSUS_DISPATCH_BEGIN; URSUS_RESET_INITIAL true; URSUS_RESET_BOOT_DEBOUNCE_OK 760] ++ w /\
    web_trace "RESET_HELD_AT_BOOT" 760 w r.
Proof.
  intros Hl Hb Hon.
  assert (wp (do_ursusdispatch ursusweb presses 39) (fun o s => exists w r, o = Some r /\ d_console (snd s) = d_console c ++
      [URSUS_DISPATCH_BEGIN; URSUS_RESET_INITIAL true; URSUS_RESET_BOOT_DEBOUNCE_OK 760] ++ w /\
      web_trace "RESET_HELD_AT_BOOT" 760 w r) (h, c)) as Hw.
  { unfold do_ursusdispatch. wps. apply wp_say. intros c1 Hc1 Hl1 _. wps. rewrite Hl1, Hl, Hb. cif.
    unfold button_get_state at 1. apply wp_bind, wp_onhw, wp_intro. intros state h2 [= <- <-]. rewrite Hon.
    change (BUTTON_ON <? 0) with false. change (nz (BUTTON_ON - BUTTON_ON)) with false. cbv iota.
    wps. apply wp_say. intros c2 Hc2 _ _. unfold get_timer at 1. wps. rewrite Z.sub_0_r.
    apply (held_loop _ _ Hon _ (d_console c) c2) with (k := 0%nat); [|lia|lia|lia].
    by rewrite Hc2, Hc1, <- app_assoc. }
  destruct (do_ursusdispatch ursusweb presses 39 (h, c)) as [o s'] eqn:E.
  destruct (wp_run _ _ _ _ _ Hw E) as (w & r & -> & Hc & Ht). by exists r, s', w.
Qed.

(** C28: the boot path follows the flash.  Whatever the platform does, the UBI path is
    taken only if "UBI#" stands at 0x20000 and the factory path only if a device
    tree stands at 0xc0000; and when the reads succeed the choice is exactly UBI,
    else factory, else stock. *)
Theorem boot_path_selected h c :
  let master := find (fun m => negb (m_part m) && m_nand m) (h_mtds h) in
  wp (ursus_normal_boot ursusweb presses) (fun _ s => exists sel rest,
    d_console (snd s) = d_console c ++ [URSUS_NORMAL_BOOT_SELECTED; sel] ++ rest /\
    (sel = URSUS_UBI_BOOT_SELECTED -> exists m, master = Some m /\ flash_has h m 0x20000 UBI_MAGIC = true) /\
    (sel = URSUS_FACTORY_BOOT_SELECTED -> exists m, master = Some m /\ flash_has h m URSUS_FACTORY_KERNEL_OFF FDT_MAGIC = true) /\
    ((forall n, pf_out n = fine) -> forall m, master = Some m -> 0x10_0000 <= m_size m -> sel = path_of h m)) (h, c).
Proof.
  intros master. unfold ursus_normal_boot, ursus_master_nand, ursus_find_master_nand, set_boot_reason. wps. fold master.
  set (c1 := let 'MkDisp u l b _ q o := c in _). assert (d_console c1 = d_console c) as Hc1 by by destruct c.
  clearbody c1. apply wp_say. intros c2 Hc2 _ _. rewrite Hc1 in Hc2. clear Hc1 c1. wps.
  apply (nand_magic_val _ _ UBI_MAGIC); [lia|]. intros ubi k1 Hu1 Hu2. destruct ubi.
  - wps. apply wp_say. intros c3 Hc3 _ _. wps. apply wp_on_ubi. intros ret h3 c4 Hc4 _. wps.
    apply wp_say. intros c5 Hc5 _ _. wps. eapply wp_mono; [apply webfailsafe_trace|]. intros r s [_ (w & Hw & _)].
    eexists URSUS_UBI_BOOT_SELECTED, _. split; [rewrite Hw, Hc5, Hc4, Hc3, Hc2, <- !app_assoc; done|].
    split; [auto|]. split; [done|]. intros Hf m Hm Hs. unfold path_of. rewrite <- (Hu2 Hf m Hm) by lia. done.
  - wps. apply (nand_magic_val _ _ FDT_MAGIC); [done|].
    assert (forall k m off magic, flash_has (set_tick k h) m off magic = flash_has h m off magic) as Ht by by destruct h.
    intros factory k2 Hf1 Hf2. destruct factory.
    + wps. apply wp_say. intros c3 Hc3 _ _. wps. apply wp_intro. intros ret h4 _.
      apply wp_bind. eapply wp_mono with (P := fun _ s => exists rest, d_console (snd s) = d_console c3 ++ rest).
      { destruct (nz ret); [wps; exists []; by rewrite app_nil_r|]. wps. apply wp_say. intros c4 Hc4 _ _. wps.
        apply wp_intro. intros ret' h5 _. by eexists. }
      intros ret' [h5 c4] [rest4 Hc4]. wps. apply wp_say. intros c5 Hc5 _ _.
      eapply wp_mono; [apply webfailsafe_trace|]. intros r s [_ (w & Hw & _)]. cbn [snd] in Hc4.
      eexists URSUS_FACTORY_BOOT_SELECTED, _. split; [rewrite Hw, Hc5, Hc4, Hc3, Hc2, <- !app_assoc; done|].
      split; [done|]. split; [intros _; destruct (Hf1 eq_refl) as (m & ? & Hm); exists m; by rewrite Ht in Hm|].
      intros Hf m Hm Hs. unfold path_of. rewrite <- (Hu2 Hf m Hm), <- (Ht k1), <- (Hf2 Hf m Hm) by (unfold URSUS_FACTORY_KERNEL_OFF; lia). done.
    + wps. apply wp_say. intros c3 Hc3 _ _. wps. apply wp_intro. intros ret h4 _. wps.
      apply wp_say. intros c4 Hc4 _ _. eapply wp_mono; [apply webfailsafe_trace|]. intros r s [_ (w & Hw & _)].
      eexists URSUS_STOCK_BOOT_SELECTED, _. split; [rewrite Hw, Hc4, Hc3, Hc2, <- !app_assoc; done|].
      split; [done|]. split; [done|].
      intros Hf m Hm Hs. unfold path_of. rewrite <- (Hu2 Hf m Hm), <- (Ht k1), <- (Hf2 Hf m Hm) by (unfold URSUS_FACTORY_KERNEL_OFF; lia). done.
Qed.
End claims.

#[local] Instance bench_leds : LedBoard := {| led_get_by_label := fun _ => true |}.
#[local] Instance held_button : Button := {| button_get_by_label := 0; button_state := fun _ => BUTTON_ON |}.
Lemma reset_held_recovers_witness :
  exists r s' w, do_ursusdispatch (sret 0) [] 39 (bench_hw, disp_init) = (Some r, s') /\
    d_console (snd s') = [URSUS_DISPATCH_BEGIN; URSUS_RESET_INITIAL true; URSUS_RESET_BOOT_DEBOUNCE_OK 760] ++ w /\
    web_trace "RESET_HELD_AT_BOOT" 760 w r.
Proof.
  exact (reset_held_recovers (sret 0) [] bench_hw disp_init eq_refl eq_refl (fun n => eq_refl)).
Defined.
