(* ===== verification/WebHeaders.v ===== *)
(** HTTP request headers of the recovery web server (cmd/ursusweb.c): header
    lookup, decimal values, percent-decoded names, upload generations, and the
    bounded operation log.  A C string is its bytes without the terminator; a
    buffer filled from the network is cut at its first NUL by [cstr]. *)
From S2P Require Import Prelude Bytes.

Definition URSUS_GENERATION_MAX : Z := 48.
Definition URSUS_FILENAME_MAX : Z := 192.
Definition URSUS_WEB_LOG_MAX : Z := 16384.

(** * Character classes (include/linux/ctype.h, lib/ctype.c) *)

Definition isupper (c : Z) : bool :=
  ((65 <=? c) && (c <=? 90)) || ((192 <=? c) && (c <=? 222) && negb (c =? 215)).
Definition tolower (c : Z) : Z := if isupper c then c + 32 else c.
Definition isxdigit (c : Z) : bool :=
  ((48 <=? c) && (c <=? 57)) || ((65 <=? c) && (c <=? 70)) || ((97 <=? c) && (c <=? 102)).

(** [!strncasecmp(s1, s2, strlen(s2))]. *)
Fixpoint strncaseeq (s1 s2 : list Z) : bool :=
  match s2, s1 with
  | [], _ => true
  | _ :: _, [] => false
  | c2 :: s2', c1 :: s1' => ((c1 =? c2) || (tolower c1 =? tolower c2)) && strncaseeq s1' s2'
  end.
(** [URSUS_REQ_MATCH], [!strncmp(req, lit, sizeof(lit) - 1)]. *)
Definition REQ_MATCH (req : list Z) (lit : string) : bool :=
  memeq (take (length (bytes_of lit)) req) (bytes_of lit).

(** * Numbers (lib/strto.c) *)

Definition decode_digit (ch : Z) : Z :=
  if negb (isxdigit ch) then 256
  else let ch := tolower ch in if ch <=? 57 then ch - 48 else ch - 97 + 10.

(** The digit loop; the result is a 64-bit [ulong]. *)
Fixpoint strtoul_loop (base result : Z) (cp : list Z) : Z * list Z :=
  match cp with
  | [] => (result, [])
  | c :: cp' =>
    let value := decode_digit c in
    if value <? base then strtoul_loop base (u64 (result * base + value)) cp' else (result, cp)
  end.
(** A leading "0x" overrides the base, also base 10. *)
Definition fixup_radix (s : list Z) (base : Z) : Z * list Z :=
  match s with
  | 48 :: c :: s' => if tolower c =? 120 then (16, s') else (base, s)
  | _ => (base, s)
  end.
(** Value and what is left of the string ([*endp]). *)
Definition simple_strtoul (cp : list Z) (base : Z) : Z * list Z :=
  let '(base, cp) := fixup_radix cp base in strtoul_loop base 0 cp.

(** * Header lookup *)

Definition is_ows (c : Z) : bool := (c =? 32) || (c =? 9).
Fixpoint ursus_skip_ows (p : list Z) : list Z :=
  match p with
  | [] => []
  | c :: p' => if is_ows c then ursus_skip_ows p' else p
  end.
(** The bytes up to the end of the line. *)
Fixpoint line_of (p : list Z) : list Z :=
  match p with
  | [] => []
  | c :: p' => if (c =? 13) || (c =? 10) then [] else c :: line_of p'
  end.
(** What follows the next newline ([strchr(p, '\n') + 1]). *)
Fixpoint after_nl (p : list Z) : option (list Z) :=
  match p with
  | [] => None
  | c :: p' => if c =? 10 then Some p' else after_nl p'
  end.
(** The value after the colon, blanks stripped on both sides. *)
Definition value_of (p : list Z) : list Z :=
  reverse (ursus_skip_ows (reverse (line_of (ursus_skip_ows p)))).

(** The scan over the lines; [fuel] bounds the number of lines. *)
Fixpoint parse_header_loop (fuel : nat) (name : list Z) (out_len : Z) (p : list Z) : option (list Z) :=
  match fuel, p with
  | S fuel', _ :: _ =>
    if strncaseeq p name && (nth (length name) p 0 =? 58) then
      let v := value_of (drop (S (length name)) p) in
      if (blen v =? 0) || (out_len <=? blen v) then None else Some v
    else match after_nl p with
    | Some p' => parse_header_loop fuel' name out_len p'
    | None => None
    end
  | _, _ => None
  end.
(** [Some out], or [None] for [false]; [h] is a C string. *)
Definition ursus_parse_header_value (h : list Z) (name : string) (out_len : Z) : option (list Z) :=
  if out_len <? 2 then None else parse_header_loop (length h) (bytes_of name) out_len h.

Definition ursus_parse_header_ulong (h : list Z) (name : string) : option Z :=
  match ursus_parse_header_value h name 32 with
  | None => None
  | Some tmp =>
    let '(v, rest) := simple_strtoul tmp 10 in
    if (length rest =? length tmp)%nat || negb (length rest =? 0)%nat then None else Some v
  end.
Definition ursus_parse_content_length (h : list Z) : Z :=
  default 0 (ursus_parse_header_ulong h "Content-Length").

(** * Names and generations *)

Definition ursus_hex_digit (c : Z) : Z :=
  if (48 <=? c) && (c <=? 57) then c - 48
  else if (97 <=? c) && (c <=? 102) then c - 97 + 10
  else if (65 <=? c) && (c <=? 70) then c - 65 + 10
  else -1.

(** Bytes that may not reach a JSON reply or a log line. *)
Definition unsafe_char (ch : Z) : bool := (ch <? 0x20) || (ch =? 0x7f) || (ch =? 34) || (ch =? 92).
Definition sanitize (ch : Z) : Z := if unsafe_char ch then 95 else ch.

(** The loop with [room] bytes left in the output buffer besides the NUL. *)
Fixpoint decode_loop (room : nat) (encoded : list Z) : option (list Z) :=
  match encoded, room with
  | [], _ => Some []
  | _ :: _, O => None
  | 37 :: h :: l :: rest, S room' =>
    let hi := ursus_hex_digit h in
    let lo := ursus_hex_digit l in
    if (hi <? 0) || (lo <? 0) then None
    else option_map (cons (sanitize (Z.lor (Z.shiftl hi 4) lo))) (decode_loop room' rest)
  | ch :: rest, S room' => option_map (cons (sanitize ch)) (decode_loop room' rest)
  end.
Definition ursus_decode_filename (encoded : list Z) (out_len : Z) : option (list Z) :=
  match encoded with
  | [] => None
  | _ => if out_len <? 2 then None else decode_loop (Z.to_nat (out_len - 1)) encoded
  end.

Definition generation_char (c : Z) : bool :=
  ((97 <=? c) && (c <=? 122)) || ((65 <=? c) && (c <=? 90)) || ((48 <=? c) && (c <=? 57)) ||
  (c =? 45) || (c =? 95) || (c =? 46).
Definition ursus_generation_valid (g : list Z) : bool :=
  negb ((blen g <? 8) || (URSUS_GENERATION_MAX <=? blen g)) && forallb generation_char g.

(** * The parser's self test *)

Definition crlf : list Z := [13; 10].
Definition selftest_request : list Z :=
  bytes_of "POST /api/firmware-chunk HTTP/1.1" ++ crlf ++ bytes_of "Content-Length: 65536" ++ crlf ++
  bytes_of "X-Ursus-Offset: 0" ++ crlf ++ bytes_of "X-Ursus-Total:" ++ [9] ++ bytes_of "10518808" ++ crlf ++ crlf.
Definition ulong_is (v : option Z) (z : Z) : bool := match v with Some w => w =? z | None => false end.
Definition ursus_header_parser_selftest : Z :=
  if ulong_is (ursus_parse_header_ulong selftest_request "Content-Length") 65536 &&
     ulong_is (ursus_parse_header_ulong selftest_request "X-Ursus-Offset") 0 &&
     ulong_is (ursus_parse_header_ulong selftest_request "X-Ursus-Total") 10518808
  then 0 else - EINVAL.

(** * Formatted text *)

(** A format string applied to its arguments: literals, "%d"/"%u", "%s", and the
    "true"/"false" choices. *)
Inductive frag :=
  | FL (s : string)
  | FD (z : Z)
  | FS (s : list Z)
  | FB (b : bool)
  | FNL.
Definition frag_text (f : frag) : list Z :=
  match f with
  | FL s => bytes_of s
  | FD z => bytes_of (pretty z)
  | FS s => s
  | FB b => bytes_of (if b then "true" else "false")
  | FNL => [10]
  end.
Definition fmt (l : list frag) : list Z := concat (map frag_text l).

(** * The operation log *)

Definition log_mark : list Z := bytes_of "[... earlier log truncated ...]" ++ [10].
(** [ursus_logf]: the text in the log after one more line. *)
Definition ursus_logf (text : list Z) (log : list Z) : list Z :=
  let line := cstr (snprintf_text 384 text) in
  (if URSUS_WEB_LOG_MAX <=? blen line + blen log + 1 then log_mark else log) ++ line.
