(* ===== verification/WebHeaderThms.v ===== *)
(** Theorems on the HTTP header code: a request a client prints from its fields
    parses back to these fields, percent-encoded names round trip, decoded names
    are safe to quote, and the log stays inside its buffer. *)
From S2P Require Import Prelude Bytes WebHeaders.

(** * Requests as clients print them *)

Definition header_line (kv : list Z * list Z) : list Z := fst kv ++ [58; 32] ++ snd kv ++ crlf.
Definition request (line : list Z) (hs : list (list Z * list Z)) : list Z :=
  line ++ crlf ++ concat (map header_line hs) ++ crlf.

(** Field names are compared without case; the first field of a name counts. *)
Definition caseeq (a b : list Z) : bool := (length a =? length b)%nat && strncaseeq a b.
Fixpoint header_assoc (name : list Z) (hs : list (list Z * list Z)) : option (list Z) :=
  match hs with
  | [] => None
  | (k, v) :: hs' => if caseeq k name then Some v else header_assoc name hs'
  end.

(** A token: no colon, line end or NUL.  A value: no line end, no outer blanks. *)
Definition token (k : list Z) : Prop := Forall (fun c => c <> 58 /\ c <> 13 /\ c <> 10) k.
Definition value_ok (v : list Z) : Prop :=
  Forall (fun c => c <> 13 /\ c <> 10) v /\ v <> [] /\
  is_ows (hd 0 v) = false /\ is_ows (List.last v 0) = false.
Definition fields_ok (hs : list (list Z * list Z)) : Prop :=
  Forall (fun kv => token (fst kv) /\ value_ok (snd kv)) hs.

(** ** One line *)

Lemma tolower_mark c d : (d = 58 \/ d = 13) -> tolower c = tolower d -> c = d.
Proof. intros [-> | ->]; unfold tolower, isupper; simpl; repeat case_match; lia. Qed.

Lemma line_match k c rest name :
  token k -> token name -> (c = 58 \/ c = 13) ->
  strncaseeq (k ++ c :: rest) name && (nth (length name) (k ++ c :: rest) 0 =? 58)
  = caseeq k name && (c =? 58).
Proof.
  unfold caseeq. intros Hk Hn Hc. revert name Hn.
  induction Hk as [|x k (Hx & _ & _) Hk IH]; intros [|y name] Hn; simpl.
  - done.
  - apply Forall_cons_1 in Hn as [(Hy & Hy' & _) _].
    destruct (Z.eqb_spec c y); [lia|]. destruct (Z.eqb_spec (tolower c) (tolower y)) as [He|]; [|done].
    symmetry in He. apply tolower_mark in He; [lia|done].
  - destruct (Z.eqb_spec x 58); [lia|done].
  - apply Forall_cons_1 in Hn as [_ Hn]. rewrite <- andb_assoc, (IH name Hn).
    by destruct (_ || _); simpl; rewrite ?andb_false_r.
Qed.

Lemma after_nl_skip l rest : Forall (fun c => c <> 10) l -> after_nl (l ++ 10 :: rest) = Some rest.
Proof. induction 1 as [|c l Hc _ IH]; simpl; [done|]. by destruct (Z.eqb_spec c 10). Qed.
Lemma line_of_value v rest : Forall (fun c => c <> 13 /\ c <> 10) v -> line_of (v ++ 13 :: rest) = v.
Proof.
  induction 1 as [|c v (Hc & Hc') _ IH]; simpl; [done|].
  destruct (Z.eqb_spec c 13), (Z.eqb_spec c 10); try done. simpl. by rewrite IH.
Qed.
Lemma skip_ows_hd v : is_ows (hd 0 v) = false -> ursus_skip_ows v = v.
Proof. destruct v; simpl; [done|]. by intros ->. Qed.
Lemma value_of_line v rest : value_ok v -> value_of (32 :: v ++ 13 :: rest) = v.
Proof.
  intros (Hl & Hne & Hh & Hlast). unfold value_of. simpl.
  rewrite (skip_ows_hd (v ++ 13 :: rest)) by (destruct v; [done|exact Hh]). rewrite line_of_value by done.
  rewrite skip_ows_hd; [by rewrite reverse_involutive|].
  destruct v as [|v x _] using rev_ind; [done|]. rewrite last_last in Hlast. by rewrite reverse_snoc.
Qed.

(** ** The whole request *)

Lemma no_nl_header kv : token (fst kv) -> value_ok (snd kv) ->
  Forall (fun c => c <> 10) (fst kv ++ [58; 32] ++ snd kv ++ [13]).
Proof.
  intros Hk (Hv & _). rewrite !Forall_app. split_and!.
  - eapply List.Forall_impl; [|exact Hk]. simpl. tauto.
  - by repeat constructor.
  - eapply List.Forall_impl; [|exact Hv]. simpl. tauto.
  - by repeat constructor.
Qed.

Lemma parse_header_lines name out_len hs fuel :
  token name -> fields_ok hs -> (length (concat (map header_line hs) ++ crlf) <= fuel)%nat ->
  parse_header_loop fuel name out_len (concat (map header_line hs) ++ crlf) =
  match header_assoc name hs with
  | Some v => if out_len <=? blen v then None else Some v
  | None => None
  end.
Proof.
  intros Hn Hf. revert fuel. induction Hf as [|[k v] hs [Hk Hv] _ IH]; intros fuel Hfuel.
  - destruct fuel as [|fuel]; [done|]. cbn [map concat header_assoc app crlf parse_header_loop].
    pose proof (line_match [] 13 [10] name) as Hm. cbn [app] in Hm.
    unfold crlf. rewrite Hm by (auto; apply Forall_nil_2).
    rewrite andb_false_r. simpl. by destruct fuel.
  - cbn [map concat] in *. unfold crlf in *. cbn [fst snd] in Hk, Hv.
    pose proof (no_nl_header (k, v) Hk Hv) as Hnl. cbn [fst snd] in Hnl.
    set (tail := concat (map header_line hs) ++ [13; 10]) in *.
    assert (E : (header_line (k, v) ++ concat (map header_line hs)) ++ [13; 10]
                = k ++ 58 :: 32 :: v ++ 13 :: 10 :: tail)
      by (unfold tail, header_line; simpl; rewrite <- !app_assoc; simpl; by rewrite <- app_assoc).
    rewrite E in *. clear E.
    rewrite length_app in Hfuel. simpl in Hfuel. rewrite length_app in Hfuel. simpl in Hfuel.
    destruct fuel as [|fuel]; [lia|].
    assert (Hs : parse_header_loop (S fuel) name out_len (k ++ 58 :: 32 :: v ++ 13 :: 10 :: tail) =
      if caseeq k name then if (blen v =? 0) || (out_len <=? blen v) then None else Some v
      else parse_header_loop fuel name out_len tail).
    { remember (k ++ 58 :: 32 :: v ++ 13 :: 10 :: tail) as p eqn:Ep.
      assert (Hp : exists c p', p = c :: p') by (rewrite Ep; destruct k; simpl; eauto).
      destruct Hp as (c & p' & Hp). cbn [parse_header_loop]. rewrite Hp. rewrite <- Hp.
      rewrite Ep at 1 2. rewrite line_match by auto. change (58 =? 58) with true. rewrite andb_true_r.
      destruct (caseeq k name) eqn:Hc.
      - unfold caseeq in Hc. apply andb_true_iff in Hc as [Hl _]. apply Nat.eqb_eq in Hl.
        assert (Ed : drop (S (length name)) p = 32 :: v ++ 13 :: 10 :: tail).
        { rewrite Ep, <- Hl. replace (S (length k)) with (length (k ++ [58])) by (rewrite length_app; simpl; lia).
          replace (k ++ 58 :: 32 :: v ++ 13 :: 10 :: tail) with ((k ++ [58]) ++ 32 :: v ++ 13 :: 10 :: tail)
            by (by rewrite <- app_assoc). apply drop_app_length. }
        rewrite Ed, value_of_line by done. done.
      - assert (Ea : after_nl p = Some tail).
        { replace p with ((k ++ [58; 32] ++ v ++ [13]) ++ 10 :: tail) by (rewrite Ep, <- !app_assoc; done).
          by apply after_nl_skip. }
        by rewrite Ea. }
    rewrite Hs. cbn [header_assoc]. destruct (caseeq k name).
    + destruct Hv as (_ & Hne & _). destruct v; [done|]. done.
    + apply IH. lia.
Qed.

(** Lookup in a printed request is lookup in its list of fields. *)
Lemma parse_request line hs name out_len :
  token line -> token (bytes_of name) -> fields_ok hs -> 2 <= out_len ->
  ursus_parse_header_value (request line hs) name out_len =
  match header_assoc (bytes_of name) hs with
  | Some v => if out_len <=? blen v then None else Some v
  | None => None
  end.
Proof.
  intros Hl Hn Hf Ho. unfold ursus_parse_header_value. destruct (Z.ltb_spec out_len 2); [lia|].
  unfold request, crlf. remember (concat (map header_line hs) ++ [13; 10]) as tail eqn:Et.
  remember (line ++ [13; 10] ++ tail) as p eqn:Ep.
  assert (Hp : exists c p', p = c :: p') by (rewrite Ep; destruct line; simpl; eauto).
  assert (Hlen : (length p = S (length line + 1 + length tail))%nat)
    by (rewrite Ep, length_app; simpl; lia).
  rewrite Hlen. destruct Hp as (c & p' & Hp). cbn [parse_header_loop]. rewrite Hp, <- Hp.
  assert (Hm : strncaseeq p (bytes_of name) && (nth (length (bytes_of name)) p 0 =? 58) = false).
  { rewrite Ep. simpl. rewrite line_match by auto. apply andb_false_r. }
  rewrite Hm.
  assert (Ea : after_nl p = Some tail).
  { replace p with ((line ++ [13]) ++ 10 :: tail) by (rewrite Ep, <- app_assoc; done).
    apply after_nl_skip, Forall_app. split; [|by repeat constructor].
    eapply List.Forall_impl; [|exact Hl]. simpl. tauto. }
  rewrite Ea, Et. apply parse_header_lines; [done|done|]. unfold crlf. rewrite <- Et. lia.
Qed.

(** * Decimal fields *)

Definition is_digit (c : Z) : Prop := 48 <= c <= 57.

Lemma bytes_digit (x : N) : (x < 10)%N -> exists a, pretty_N_char x = a /\ bytes_of (String a "") = [48 + Z.of_N x].
Proof. intros H. destruct x as [|p]; [by eexists|]. do 4 (destruct p; try lia; try by eexists). Qed.

Lemma strtoul_digit x acc l : (x < 10)%N ->
  strtoul_loop 10 acc (48 + Z.of_N x :: l) = strtoul_loop 10 (u64 (acc * 10 + Z.of_N x)) l.
Proof.
  intros H. cbn [strtoul_loop].
  assert (E : decode_digit (48 + Z.of_N x) = Z.of_N x).
  { destruct x as [|p]; [done|]. do 4 (destruct p; try lia; try done). }
  rewrite E. destruct (Z.ltb_spec (Z.of_N x) 10); [done|lia].
Qed.

(** The digits of a number, in front of a string. *)
Lemma pretty_go_digits (x : N) s :
  exists l, bytes_of (pretty_N_go x s) = l ++ bytes_of s /\ Forall is_digit l /\
    (forall k, Z.of_N x < 10 ^ Z.of_nat k -> (length l <= k)%nat) /\
    (Z.of_N x < 2 ^ 64 -> forall r, strtoul_loop 10 0 (l ++ r) = strtoul_loop 10 (Z.of_N x) r).
Proof.
  revert s. induction (N.lt_wf_0 x) as [x _ IH]. intros s.
  destruct (decide (x = 0)%N) as [->|Hx].
  { exists []. split_and!; try done. simpl. intros. lia. }
  rewrite pretty_N_go_step by lia.
  assert (Hd : (x / 10 < x)%N) by (apply N.div_lt; lia).
  assert (Hm : (x `mod` 10 < 10)%N) by (apply N.mod_lt; lia).
  assert (Hx10 : (x = 10 * (x / 10) + x `mod` 10)%N) by (apply N.div_mod; lia).
  remember (x / 10)%N as q eqn:Eq. remember (x `mod` 10)%N as m eqn:Em. clear Eq Em.
  destruct (IH _ Hd (String (pretty_N_char m) s)) as (l & El & Hl & Hk & Hv).
  destruct (bytes_digit _ Hm) as (a & Ea & Eb). rewrite Ea in El |- *. simpl in Eb. injection Eb as Eb.
  exists (l ++ [48 + Z.of_N m]). split_and!.
  - rewrite El. simpl. rewrite Eb, <- app_assoc. done.
  - apply Forall_app. split; [done|]. constructor; [unfold is_digit; lia|constructor].
  - intros [|k] Hlt; [simpl in Hlt; lia|]. rewrite length_app. simpl.
    rewrite Nat2Z.inj_succ, Z.pow_succ_r in Hlt by lia. specialize (Hk k). lia.
  - intros Hlt r. rewrite <- app_assoc, Hv by lia. simpl app. rewrite strtoul_digit by done.
    rewrite u64_small by lia. f_equal. lia.
Qed.

Lemma pretty_digits n : 0 <= n < 2 ^ 64 ->
  let d := bytes_of (pretty n) in
  Forall is_digit d /\ d <> [] /\ (length d <= 20)%nat /\ simple_strtoul d 10 = (n, []).
Proof.
  intros Hn. destruct n as [|p|p]; [by split_and!; repeat constructor|..|lia]. cbv zeta.
  assert (E : pretty (Zpos p) = pretty_N_go (Npos p) "") by done. rewrite E.
  destruct (pretty_go_digits (Npos p) "") as (l & El & Hl & Hk & Hv). rewrite app_nil_r in El.
  rewrite El. specialize (Hv ltac:(lia) []). rewrite app_nil_r in Hv. simpl in Hv.
  split_and!; [done| |apply Hk; apply (Z.lt_trans _ (2 ^ 64)); [lia|done]|].
  - intros ->. by simpl in Hv.
  - unfold simple_strtoul. replace (fixup_radix l 10) with (10, l); [by rewrite Hv|].
    destruct l as [|a [|b l]]; try done; [by destruct a as [|q|q]; repeat (destruct q; try done)|].
    assert (Hb : (tolower b =? 120) = false).
    { apply Forall_cons_1 in Hl as [_ Hl]. apply Forall_cons_1 in Hl as [Hb _]. unfold is_digit in Hb.
      unfold tolower, isupper. destruct (65 <=? b) eqn:?, (192 <=? b) eqn:?; simpl; lia. }
    unfold fixup_radix. rewrite Hb. by destruct a as [|q|q]; repeat (destruct q; try done).
Qed.

(** C34: A request a client prints from a request line and a list of fields, with
    a decimal number below 2^64 as the value of a field, is parsed back to that
    number: [ursus_parse_header_ulong] finds the first field of that name
    (without regard to case) among the other lines and converts it exactly. *)
Theorem header_ulong_roundtrip line hs name n :
  token line -> token (bytes_of name) -> fields_ok hs -> 0 <= n < 2 ^ 64 ->
  header_assoc (bytes_of name) hs = Some (bytes_of (pretty n)) ->
  ursus_parse_header_ulong (request line hs) name = Some n.
Proof.
  intros Hl Hn Hf Hr Ha. unfold ursus_parse_header_ulong. rewrite parse_request, Ha by done.
  destruct (pretty_digits n Hr) as (Hd & Hne & Hlen & Hs). unfold blen.
  destruct (Z.leb_spec 32 (Z.of_nat (length (bytes_of (pretty n))))); [lia|].
  rewrite Hs. simpl. by destruct (bytes_of (pretty n)).
Qed.
Lemma header_ulong_roundtrip_witness :
  ursus_parse_header_ulong
    (request (bytes_of "POST /api/firmware-chunk HTTP/1.1")
       [(bytes_of "Host", bytes_of "192.168.1.1"); (bytes_of "x-ursus-total", bytes_of "10518808")])
    "X-Ursus-Total" = Some 10518808.
Proof.
  apply header_ulong_roundtrip; try (by repeat constructor); try lia; try done.
Defined.

(** * Percent-encoded names *)

Definition hexc (d : Z) : Z := if d <? 10 then 48 + d else 55 + d.
(** A client escapes the bytes [esc] selects. *)
Definition percent (esc : Z -> bool) (c : Z) : list Z :=
  if esc c then [37; hexc (c / 16); hexc (c `mod` 16)] else [c].

Lemma hex_digit_hexc d : 0 <= d < 16 -> ursus_hex_digit (hexc d) = d.
Proof. intros H. unfold ursus_hex_digit, hexc. repeat case_match; lia. Qed.

Lemma decode_no_room c rest : decode_loop 0 (c :: rest) = None.
Proof. destruct c as [|p|p]; try done. by do 6 (destruct p; try done); destruct rest as [|? [|? ?]]. Qed.
Lemma decode_plain room c rest : c <> 37 ->
  decode_loop (S room) (c :: rest) = option_map (cons (sanitize c)) (decode_loop room rest).
Proof. intros H. destruct c as [|p|p]; try done. by do 6 (destruct p; try done). Qed.
Lemma decode_escape room h l rest :
  decode_loop (S room) (37 :: h :: l :: rest) =
    if (ursus_hex_digit h <? 0) || (ursus_hex_digit l <? 0) then None
    else option_map (cons (sanitize (Z.lor (Z.shiftl (ursus_hex_digit h) 4) (ursus_hex_digit l))))
           (decode_loop room rest).
Proof. done. Qed.

Lemma nibbles c : is_byte c -> Z.lor (Z.shiftl (c / 16) 4) (c `mod` 16) = c.
Proof.
  intros Hc. unfold is_byte in Hc.
  assert (H : forallb (fun c => Z.lor (Z.shiftl (c / 16) 4) (c `mod` 16) =? c) (map Z.of_nat (List.seq 0 256)) = true)
    by (vm_compute; reflexivity).
  rewrite forallb_forall in H. apply Z.eqb_eq, H, in_map_iff.
  exists (Z.to_nat c). rewrite in_seq. lia.
Qed.

Lemma decode_encoded esc l room :
  esc 37 = true -> Forall (fun c => is_byte c /\ unsafe_char c = false) l -> (length l <= room)%nat ->
  decode_loop room (concat (map (percent esc) l)) = Some l.
Proof.
  intros He Hl. revert room. induction Hl as [|c l [Hc Hu] _ IH]; intros room Hr; [by destruct room|].
  destruct room as [|room]; [simpl in Hr; lia|]. simpl in Hr. cbn [map concat]. unfold percent at 1.
  assert (Es : sanitize c = c) by (unfold sanitize; by rewrite Hu).
  destruct (esc c) eqn:Ec.
  - cbn [app]. rewrite decode_escape.
    assert (0 <= c / 16 < 16) by (unfold is_byte in Hc; split; [apply Z.div_pos|apply Z.div_lt_upper_bound]; lia).
    pose proof (Z.mod_pos_bound c 16). rewrite !hex_digit_hexc by lia.
    destruct (Z.ltb_spec (c / 16) 0), (Z.ltb_spec (c `mod` 16) 0); try lia.
    simpl. rewrite nibbles, Es, IH by (done || lia). done.
  - cbn [app]. rewrite decode_plain by (intros ->; congruence). rewrite Es, IH by lia. done.
Qed.

(** A file name without control characters, quotes or backslashes that fits
    the output buffer is decoded to itself, whichever of its bytes the client
    chose to percent-encode (the percent sign at least). *)
Lemma filename_roundtrip esc l out_len :
  esc 37 = true -> Forall (fun c => is_byte c /\ unsafe_char c = false) l ->
  l <> [] -> blen l < out_len ->
  ursus_decode_filename (concat (map (percent esc) l)) out_len = Some l.
Proof.
  intros He Hl Hne Hlen. unfold ursus_decode_filename.
  assert (Hc : exists c e, concat (map (percent esc) l) = c :: e).
  { destruct l as [|c l]; [done|]. cbn [map concat]. unfold percent at 1. destruct (esc c); simpl; eauto. }
  destruct Hc as (c & e & Ec). rewrite Ec, <- Ec.
  assert (0 < blen l) by (destruct l; [done|unfold blen; simpl; lia]).
  destruct (Z.ltb_spec out_len 2); [lia|]. apply decode_encoded; try done. unfold blen in *. lia.
Qed.
Lemma filename_roundtrip_witness :
  ursus_decode_filename (concat (map (percent (fun c => (c =? 37) || (c =? 32))) (bytes_of "50% fit.itb"))) 192
  = Some (bytes_of "50% fit.itb").
Proof.
  apply filename_roundtrip; [done| |done|by vm_compute].
  repeat (apply Forall_cons_2; [split; [split; by vm_compute|done]|]). constructor.
Defined.

Lemma sanitize_safe c : unsafe_char (sanitize c) = false.
Proof. unfold sanitize. by destruct (unsafe_char c) eqn:E. Qed.
Lemma decode_safe room e l :
  decode_loop room e = Some l -> Forall (fun c => unsafe_char c = false) l /\ (length l <= room)%nat.
Proof.
  revert e l. induction room as [|room IH]; intros [|c e] l;
    [intros [= <-]; split; [apply Forall_nil_2|simpl; lia]|by rewrite decode_no_room
    |intros [= <-]; split; [apply Forall_nil_2|simpl; lia]|].
  assert (Hd : forall x e' l, option_map (cons (sanitize x)) (decode_loop room e') = Some l ->
    Forall (fun c => unsafe_char c = false) l /\ (length l <= S room)%nat).
  { intros x e' l'. destruct (decode_loop room e') as [l''|] eqn:El; [|done]. intros [= <-].
    apply IH in El as [Hf Hl]. split; [constructor; [apply sanitize_safe|done]|simpl; lia]. }
  destruct (decide (c = 37)) as [->|Hc].
  - destruct e as [|h [|lo e]]; try apply Hd. rewrite decode_escape. destruct (_ || _); [done|]. apply Hd.
  - rewrite decode_plain by done. apply Hd.
Qed.

(** What a request may put into replies and logs: a decoded name fits its buffer,
    is not empty, and holds no control character, quote or backslash. *)
Lemma decode_filename_safe e n l :
  ursus_decode_filename e n = Some l ->
  Forall (fun c => unsafe_char c = false) l /\ 0 < blen l < n.
Proof.
  unfold ursus_decode_filename. destruct e as [|c e]; [done|]. destruct (Z.ltb_spec n 2); [done|].
  remember (Z.to_nat (n - 1)) as r eqn:Er. intros Hd. pose proof (decode_safe _ _ _ Hd) as [Hf Hl].
  split; [done|]. unfold blen. assert (l <> []); [|destruct l; [done|simpl in *; lia]].
  intros ->. destruct r as [|r]; [by rewrite decode_no_room in Hd|]. destruct (decide (c = 37)) as [->|Hc].
  - destruct e as [|h [|lo e]]; 
      [change (option_map (cons (sanitize 37)) (decode_loop r []) = Some []) in Hd; by destruct (decode_loop r [])
      |change (option_map (cons (sanitize 37)) (decode_loop r [h]) = Some []) in Hd; by destruct (decode_loop r [h])|].
    rewrite decode_escape in Hd. destruct (_ || _); [done|]. by destruct (decode_loop r e).
  - rewrite decode_plain in Hd by done. by destruct (decode_loop r e).
Qed.

Lemma generation_char_safe c : generation_char c = true -> unsafe_char c = false.
Proof.
  unfold generation_char, unsafe_char. rewrite !orb_true_iff, !andb_true_iff, !orb_false_iff. lia.
Qed.
Lemma generation_safe g : ursus_generation_valid g = true ->
  Forall (fun c => unsafe_char c = false) g /\ 8 <= blen g < URSUS_GENERATION_MAX.
Proof.
  unfold ursus_generation_valid. rewrite andb_true_iff, negb_true_iff, orb_false_iff, forallb_forall.
  intros [[H1 H2] H]. split; [|lia]. apply List.Forall_forall. intros c Hc. by apply generation_char_safe, H.
Qed.

(** * The log *)

Lemma ursus_logf_bounded text log :
  blen log < URSUS_WEB_LOG_MAX -> blen (ursus_logf text log) < URSUS_WEB_LOG_MAX.
Proof.
  intros Hl. unfold ursus_logf. cbv zeta.
  assert (Hc : blen (cstr (snprintf_text 384 text)) <= 383).
  { unfold blen. pose proof (length_cstr (snprintf_text 384 text)).
    unfold snprintf_text in *. rewrite length_take in *. lia. }
  rewrite blen_app. unfold URSUS_WEB_LOG_MAX in *. destruct (Z.leb_spec 16384 (blen (cstr (snprintf_text 384 text)) + blen log + 1)).
  - change (blen log_mark) with 32. lia.
  - lia.
Qed.
