(* ===== verification/WebImage.v ===== *)
(** What the web server accepts as firmware (cmd/ursusweb.c): the fwtool trailer
    with its CRC and its JSON list of supported devices, the tar container of
    non-UBI sysupgrade images, FIT containers, and the two channel validators
    [ursus_validate_staged] and [ursus_validate_expert_fit].  A buffer is its
    list of bytes; a scan that would leave the buffer returns [None]. *)
From S2P Require Import Prelude Bytes Fip Flash Fit WebHeaders.

Definition URSUS_STAGE_MAX : Z := 0x04000000.
Definition URSUS_FWTOOL_MAGIC : Z := 0x46577830.
Definition URSUS_FWTOOL_INFO : Z := 1.
Definition FDT_MAGIC : Z := 0xd00dfeed.
Definition UBI_EC_MAGIC : Z := 0x55424923.
Definition IH_ARCH_ARM64 : Z := 22.
Definition IH_TYPE_FLATDT : Z := 8.
(** [sizeof(struct fdt_header)]. *)
Definition FDT_HDR : Z := 40.

Definition URSUS_RC_OK : string := "OK".
Definition URSUS_RC_UPLOAD_INCOMPLETE : string := "UPLOAD_INCOMPLETE".
Definition URSUS_RC_BAD_CONTAINER : string := "BAD_CONTAINER".
Definition URSUS_RC_BAD_FIT : string := "BAD_FIT".
Definition URSUS_RC_HASH_MISMATCH : string := "HASH_MISMATCH".
Definition URSUS_RC_METADATA_MISSING : string := "METADATA_MISSING".
Definition URSUS_RC_DEVICE_MISMATCH : string := "DEVICE_MISMATCH".
Definition URSUS_RC_UNSUPPORTED_CLASS : string := "UNSUPPORTED_IMAGE_CLASS".
Definition URSUS_RC_IMAGE_TOO_LARGE : string := "IMAGE_TOO_LARGE".
Definition URSUS_RC_LAYOUT_UNSUPPORTED : string := "LAYOUT_UNSUPPORTED".

(** * Image states *)

Inductive image_type :=
  | URSUS_IMG_NONE
  | URSUS_IMG_NONUBI_SYSUPGRADE
  | URSUS_IMG_UBI_SYSUPGRADE
  | URSUS_IMG_FACTORY_KERNEL
  | URSUS_IMG_FACTORY_ROOTFS
  | URSUS_IMG_FIT
  | URSUS_IMG_INVALID.
#[export] Instance image_type_dec : EqDecision image_type.
Proof. solve_decision. Defined.

Definition ursus_image_name (t : image_type) : string :=
  match t with
  | URSUS_IMG_NONUBI_SYSUPGRADE => "OPENWRT_NONUBI_SYSUPGRADE"
  | URSUS_IMG_UBI_SYSUPGRADE => "OPENWRT_UBI_SYSUPGRADE"
  | URSUS_IMG_FACTORY_KERNEL => "OPENWRT_FACTORY_KERNEL"
  | URSUS_IMG_FACTORY_ROOTFS => "OPENWRT_FACTORY_ROOTFS"
  | URSUS_IMG_FIT => "GENERIC_FIT"
  | URSUS_IMG_INVALID => "INVALID"
  | URSUS_IMG_NONE => "NONE"
  end.

(** [struct ursus_image_state]. *)
Record image_state := MkImg {
  im_type : image_type;
  im_addr : Z;
  im_len : Z;
  im_metadata_present : bool;
  im_metadata_valid : bool;
  im_device_compatible : bool;
  im_fit_valid : bool;
  im_fit_hashes_valid : bool;
  im_kernel_found : bool;
  im_fdt_found : bool;
  im_root_found : bool;
  im_kernel_arch_valid : bool;
  im_fdt_compatible : bool;
  im_fdt_is_stock : bool;
  im_fdt_is_ubi : bool;
  im_bootable_fit : bool;
  im_kernel_size : Z;
  im_fdt_size : Z;
  im_root_size : Z;
  im_kernel_off : Z;
  im_root_off : Z;
  im_reason_class : string;
  im_reason : string;
}.
Definition set_type (v : image_type) (s : image_state) : image_state :=
  let 'MkImg _ x1 x2 x3 x4 x5 x6 x7 x8 x9 x10 x11 x12 x13 x14 x15 x16 x17 x18 x19 x20 x21 x22 := s in
  MkImg v x1 x2 x3 x4 x5 x6 x7 x8 x9 x10 x11 x12 x13 x14 x15 x16 x17 x18 x19 x20 x21 x22.
Definition set_addr (v : Z) (s : image_state) : image_state :=
  let 'MkImg x0 _ x2 x3 x4 x5 x6 x7 x8 x9 x10 x11 x12 x13 x14 x15 x16 x17 x18 x19 x20 x21 x22 := s in
  MkImg x0 v x2 x3 x4 x5 x6 x7 x8 x9 x10 x11 x12 x13 x14 x15 x16 x17 x18 x19 x20 x21 x22.
Definition set_len (v : Z) (s : image_state) : image_state :=
  let 'MkImg x0 x1 _ x3 x4 x5 x6 x7 x8 x9 x10 x11 x12 x13 x14 x15 x16 x17 x18 x19 x20 x21 x22 := s in
  MkImg x0 x1 v x3 x4 x5 x6 x7 x8 x9 x10 x11 x12 x13 x14 x15 x16 x17 x18 x19 x20 x21 x22.
Definition set_metadata_present (v : bool) (s : image_state) : image_state :=
  let 'MkImg x0 x1 x2 _ x4 x5 x6 x7 x8 x9 x10 x11 x12 x13 x14 x15 x16 x17 x18 x19 x20 x21 x22 := s in
  MkImg x0 x1 x2 v x4 x5 x6 x7 x8 x9 x10 x11 x12 x13 x14 x15 x16 x17 x18 x19 x20 x21 x22.
Definition set_metadata_valid (v : bool) (s : image_state) : image_state :=
  let 'MkImg x0 x1 x2 x3 _ x5 x6 x7 x8 x9 x10 x11 x12 x13 x14 x15 x16 x17 x18 x19 x20 x21 x22 := s in
  MkImg x0 x1 x2 x3 v x5 x6 x7 x8 x9 x10 x11 x12 x13 x14 x15 x16 x17 x18 x19 x20 x21 x22.
Definition set_device_compatible (v : bool) (s : image_state) : image_state :=
  let 'MkImg x0 x1 x2 x3 x4 _ x6 x7 x8 x9 x10 x11 x12 x13 x14 x15 x16 x17 x18 x19 x20 x21 x22 := s in
  MkImg x0 x1 x2 x3 x4 v x6 x7 x8 x9 x10 x11 x12 x13 x14 x15 x16 x17 x18 x19 x20 x21 x22.
Definition set_fit_valid (v : bool) (s : image_state) : image_state :=
  let 'MkImg x0 x1 x2 x3 x4 x5 _ x7 x8 x9 x10 x11 x12 x13 x14 x15 x16 x17 x18 x19 x20 x21 x22 := s in
  MkImg x0 x1 x2 x3 x4 x5 v x7 x8 x9 x10 x11 x12 x13 x14 x15 x16 x17 x18 x19 x20 x21 x22.
Definition set_fit_hashes_valid (v : bool) (s : image_state) : image_state :=
  let 'MkImg x0 x1 x2 x3 x4 x5 x6 _ x8 x9 x10 x11 x12 x13 x14 x15 x16 x17 x18 x19 x20 x21 x22 := s in
  MkImg x0 x1 x2 x3 x4 x5 x6 v x8 x9 x10 x11 x12 x13 x14 x15 x16 x17 x18 x19 x20 x21 x22.
Definition set_kernel_found (v : bool) (s : image_state) : image_state :=
  let 'MkImg x0 x1 x2 x3 x4 x5 x6 x7 _ x9 x10 x11 x12 x13 x14 x15 x16 x17 x18 x19 x20 x21 x22 := s in
  MkImg x0 x1 x2 x3 x4 x5 x6 x7 v x9 x10 x11 x12 x13 x14 x15 x16 x17 x18 x19 x20 x21 x22.
Definition set_fdt_found (v : bool) (s : image_state) : image_state :=
  let 'MkImg x0 x1 x2 x3 x4 x5 x6 x7 x8 _ x10 x11 x12 x13 x14 x15 x16 x17 x18 x19 x20 x21 x22 := s in
  MkImg x0 x1 x2 x3 x4 x5 x6 x7 x8 v x10 x11 x12 x13 x14 x15 x16 x17 x18 x19 x20 x21 x22.
Definition set_root_found (v : bool) (s : image_state) : image_state :=
  let 'MkImg x0 x1 x2 x3 x4 x5 x6 x7 x8 x9 _ x11 x12 x13 x14 x15 x16 x17 x18 x19 x20 x21 x22 := s in
  MkImg x0 x1 x2 x3 x4 x5 x6 x7 x8 x9 v x11 x12 x13 x14 x15 x16 x17 x18 x19 x20 x21 x22.
Definition set_kernel_arch_valid (v : bool) (s : image_state) : image_state :=
  let 'MkImg x0 x1 x2 x3 x4 x5 x6 x7 x8 x9 x10 _ x12 x13 x14 x15 x16 x17 x18 x19 x20 x21 x22 := s in
  MkImg x0 x1 x2 x3 x4 x5 x6 x7 x8 x9 x10 v x12 x13 x14 x15 x16 x17 x18 x19 x20 x21 x22.
Definition set_fdt_compatible (v : bool) (s : image_state) : image_state :=
  let 'MkImg x0 x1 x2 x3 x4 x5 x6 x7 x8 x9 x10 x11 _ x13 x14 x15 x16 x17 x18 x19 x20 x21 x22 := s in
  MkImg x0 x1 x2 x3 x4 x5 x6 x7 x8 x9 x10 x11 v x13 x14 x15 x16 x17 x18 x19 x20 x21 x22.
Definition set_fdt_is_stock (v : bool) (s : image_state) : image_state :=
  let 'MkImg x0 x1 x2 x3 x4 x5 x6 x7 x8 x9 x10 x11 x12 _ x14 x15 x16 x17 x18 x19 x20 x21 x22 := s in
  MkImg x0 x1 x2 x3 x4 x5 x6 x7 x8 x9 x10 x11 x12 v x14 x15 x16 x17 x18 x19 x20 x21 x22.
Definition set_fdt_is_ubi (v : bool) (s : image_state) : image_state :=
  let 'MkImg x0 x1 x2 x3 x4 x5 x6 x7 x8 x9 x10 x11 x12 x13 _ x15 x16 x17 x18 x19 x20 x21 x22 := s in
  MkImg x0 x1 x2 x3 x4 x5 x6 x7 x8 x9 x10 x11 x12 x13 v x15 x16 x17 x18 x19 x20 x21 x22.
Definition set_bootable_fit (v : bool) (s : image_state) : image_state :=
  let 'MkImg x0 x1 x2 x3 x4 x5 x6 x7 x8 x9 x10 x11 x12 x13 x14 _ x16 x17 x18 x19 x20 x21 x22 := s in
  MkImg x0 x1 x2 x3 x4 x5 x6 x7 x8 x9 x10 x11 x12 x13 x14 v x16 x17 x18 x19 x20 x21 x22.
Definition set_kernel_size (v : Z) (s : image_state) : image_state :=
  let 'MkImg x0 x1 x2 x3 x4 x5 x6 x7 x8 x9 x10 x11 x12 x13 x14 x15 _ x17 x18 x19 x20 x21 x22 := s in
  MkImg x0 x1 x2 x3 x4 x5 x6 x7 x8 x9 x10 x11 x12 x13 x14 x15 v x17 x18 x19 x20 x21 x22.
Definition set_fdt_size (v : Z) (s : image_state) : image_state :=
  let 'MkImg x0 x1 x2 x3 x4 x5 x6 x7 x8 x9 x10 x11 x12 x13 x14 x15 x16 _ x18 x19 x20 x21 x22 := s in
  MkImg x0 x1 x2 x3 x4 x5 x6 x7 x8 x9 x10 x11 x12 x13 x14 x15 x16 v x18 x19 x20 x21 x22.
Definition set_root_size (v : Z) (s : image_state) : image_state :=
  let 'MkImg x0 x1 x2 x3 x4 x5 x6 x7 x8 x9 x10 x11 x12 x13 x14 x15 x16 x17 _ x19 x20 x21 x22 := s in
  MkImg x0 x1 x2 x3 x4 x5 x6 x7 x8 x9 x10 x11 x12 x13 x14 x15 x16 x17 v x19 x20 x21 x22.
Definition set_kernel_off (v : Z) (s : image_state) : image_state :=
  let 'MkImg x0 x1 x2 x3 x4 x5 x6 x7 x8 x9 x10 x11 x12 x13 x14 x15 x16 x17 x18 _ x20 x21 x22 := s in
  MkImg x0 x1 x2 x3 x4 x5 x6 x7 x8 x9 x10 x11 x12 x13 x14 x15 x16 x17 x18 v x20 x21 x22.
Definition set_root_off (v : Z) (s : image_state) : image_state :=
  let 'MkImg x0 x1 x2 x3 x4 x5 x6 x7 x8 x9 x10 x11 x12 x13 x14 x15 x16 x17 x18 x19 _ x21 x22 := s in
  MkImg x0 x1 x2 x3 x4 x5 x6 x7 x8 x9 x10 x11 x12 x13 x14 x15 x16 x17 x18 x19 v x21 x22.
Definition set_reason_class (v : string) (s : image_state) : image_state :=
  let 'MkImg x0 x1 x2 x3 x4 x5 x6 x7 x8 x9 x10 x11 x12 x13 x14 x15 x16 x17 x18 x19 x20 _ x22 := s in
  MkImg x0 x1 x2 x3 x4 x5 x6 x7 x8 x9 x10 x11 x12 x13 x14 x15 x16 x17 x18 x19 x20 v x22.
Definition set_reason (v : string) (s : image_state) : image_state :=
  let 'MkImg x0 x1 x2 x3 x4 x5 x6 x7 x8 x9 x10 x11 x12 x13 x14 x15 x16 x17 x18 x19 x20 x21 _ := s in
  MkImg x0 x1 x2 x3 x4 x5 x6 x7 x8 x9 x10 x11 x12 x13 x14 x15 x16 x17 x18 x19 x20 x21 v.

(** The buffers hold 31 and 159 characters. *)
Definition ursus_set_reason (cls reason : string) (s : image_state) : image_state :=
  set_reason_class (String.substring 0 31 cls) (set_reason (String.substring 0 159 reason) s).
Definition img_zero : image_state :=
  MkImg URSUS_IMG_NONE 0 0 false false false false false false false false false false false false false
    0 0 0 0 0 "" "".
Definition ursus_reset_image_state : image_state := ursus_set_reason URSUS_RC_OK "no staged image" img_zero.
Definition ursus_reset_expert_state : image_state :=
  ursus_set_reason URSUS_RC_OK "no initramfs/FIT selected" img_zero.

(** * fwtool metadata *)

Definition ursus_be32 (p : list Z) : Z :=
  Z.lor (Z.lor (Z.shiftl (nth 0 p 0) 24) (Z.shiftl (nth 1 p 0) 16)) (Z.lor (Z.shiftl (nth 2 p 0) 8) (nth 3 p 0)).

Definition crc_bit (crc : Z) : Z :=
  Z.lxor (Z.shiftr crc 1) (if Z.land crc 1 =? 0 then 0 else 0xedb88320).
Definition crc_byte (crc b : Z) : Z := Nat.iter 8 crc_bit (Z.lxor crc b).
Definition ursus_crc32_fwtool (crc : Z) (buf : list Z) : Z := fold_left crc_byte buf crc.

Record meta := MkMeta {
  found : bool;
  crc_ok : bool;
  supported_devices_present : bool;
  device_factory : bool;
  device_ubi : bool;
  json_off : Z;
  json_len : Z;
}.
Definition no_meta : meta := MkMeta false false false false false 0 0.

Definition json_blank (c : Z) : bool := (c =? 32) || (c =? 9) || (c =? 13) || (c =? 10).
Fixpoint ursus_json_ws (p : list Z) : list Z :=
  match p with
  | [] => []
  | c :: p' => if json_blank c then ursus_json_ws p' else p
  end.

(** A string up to its closing quote: its bytes and what follows. *)
Fixpoint json_string (p : list Z) : option (list Z * list Z) :=
  match p with
  | [] => None
  | c :: p' =>
    if c =? 34 then Some ([], p')
    else if (c =? 92) || (c <? 0x20) then None
    else match json_string p' with Some (v, r) => Some (c :: v, r) | None => None end
  end.

Definition dev_factory : list Z := bytes_of "nokia,xg-040g-md".
Definition dev_ubi : list Z := bytes_of "nokia,xg-040g-md-ubi".

(** The elements after the opening bracket: the result and the two flags. *)
Fixpoint json_array (fuel : nat) (p : list Z) (factory ubi : bool) : bool * (bool * bool) :=
  match fuel with
  | O => (false, (factory, ubi))
  | S fuel' =>
    match ursus_json_ws p with
    | [] => (false, (factory, ubi))
    | c :: p =>
      if c =? 93 then (true, (factory, ubi))
      else if negb (c =? 34) then (false, (factory, ubi))
      else match json_string p with
      | None => (false, (factory, ubi))
      | Some (v, p) =>
        let factory := factory || memeq v dev_factory in
        let ubi := ubi || memeq v dev_ubi in
        match ursus_json_ws p with
        | [] => (false, (factory, ubi))
        | c :: p =>
          if c =? 44 then json_array fuel' p factory ubi
          else if c =? 93 then (true, (factory, ubi))
          else (false, (factory, ubi))
        end
      end
    end
  end.

Definition json_key : list Z := [34] ++ bytes_of "supported_devices" ++ [34].
(** What follows the key: a colon and an array. *)
Definition json_after_key (p : list Z) : bool * (bool * bool) :=
  match ursus_json_ws p with
  | c :: p =>
    if negb (c =? 58) then (false, (false, false))
    else match ursus_json_ws p with
    | c :: p => if negb (c =? 91) then (false, (false, false)) else json_array (length p + 1) p false false
    | [] => (false, (false, false))
    end
  | [] => (false, (false, false))
  end.
Fixpoint ursus_json_exact_supported_devices (p : list Z) : bool * (bool * bool) :=
  if (length p <? length json_key)%nat then (false, (false, false))
  else if memeq (take (length json_key) p) json_key then json_after_key (drop (length json_key) p)
  else match p with
  | [] => (false, (false, false))
  | _ :: p' => ursus_json_exact_supported_devices p'
  end.

(** The trailer at [pos]: metadata when the record matches. *)
Definition fwtool_at (buf : list Z) (pos : Z) : option (Z * meta) :=
  let t := slice pos 16 buf in
  let magic := ursus_be32 t in
  let stored_crc := ursus_be32 (drop 4 t) in
  let type := nth 8 t 0 in
  let size := ursus_be32 (drop 12 t) in
  if (magic =? URSUS_FWTOOL_MAGIC) && (type =? URSUS_FWTOOL_INFO) && (24 <=? size) && (size <=? pos + 16) then
    let data_start := pos + 16 - size in
    let data_len := size - 16 in
    if data_len <? 8 then Some (- EINVAL, no_meta)
    else
      let crc := ursus_crc32_fwtool 0xffffffff (take (Z.to_nat pos) buf) in
      let joff := data_start + 8 in
      let jlen := data_len - 8 in
      let '(present, (fac, ubi)) := ursus_json_exact_supported_devices (slice joff jlen buf) in
      Some (0, MkMeta true (crc =? stored_crc) present fac ubi joff jlen)
  else None.
(** The scan from [pos] down to [start]; below 0 the index wraps around. *)
Fixpoint fwtool_scan (buf : list Z) (start : Z) (pos : nat) : option (Z * meta) :=
  match fwtool_at buf (Z.of_nat pos) with
  | Some r => Some r
  | None =>
    if Z.of_nat pos =? start then Some (- ENOENT, no_meta)
    else match pos with O => None | S pos' => fwtool_scan buf start pos' end
  end.
(** Return code and metadata; [None] when the scan leaves the buffer. *)
Definition ursus_parse_fwtool_meta (buf : list Z) : option (Z * meta) :=
  let len := blen buf in
  if len <? 24 then Some (- ENOENT, no_meta)
  else
    let start := if 0x100000 <? len then len - 0x100000 else 16 in
    fwtool_scan buf start (Z.to_nat (len - 16)).

(** * tar *)

(** [h] is the rest of the buffer from the header on. *)
Definition ursus_tar_magic (h : list Z) : bool :=
  if blen h <? 512 then false else memeq (slice 257 5 h) (bytes_of "ustar").

Fixpoint tar_octal_loop (p : list Z) (v : Z) : Z :=
  match p with
  | [] => v
  | c :: p' =>
    if (c =? 0) || (c =? 32) then tar_octal_loop p' v
    else if (c <? 48) || (55 <? c) then v
    else tar_octal_loop p' (u64 (Z.shiftl v 3 + (c - 48)))
  end.
Definition ursus_tar_octal (p : list Z) : Z := tar_octal_loop p 0.

Definition ursus_name_ends (name : list Z) (suffix : string) : bool :=
  let s := bytes_of suffix in
  (length s <=? length name)%nat && memeq (drop (length name - length s) name) s.

(** [!strncmp(type, lit, len)] for a property of [len] bytes. *)
Fixpoint strneq (a lit : list Z) : bool :=
  match a, lit with
  | [], _ => true
  | x :: _, [] => x =? 0
  | x :: a', y :: lit' => (x =? y) && strneq a' lit'
  end.

Section images.
Context {P : Platform} {X : Ext} {T : FitLib}.

(** * FIT *)

(** Return code and [*hash_ok]. *)
Definition ursus_verify_fit (fit : list Z) : Z * bool :=
  let len := blen fit in
  if (len <? FDT_HDR) || nz (fdt_check_header fit) then (- ENOEXEC, false)
  else
    let total := u32 (fdt_totalsize fit) in
    if (len <? total) || (total <? FDT_HDR) then (- EFBIG, false)
    else
      let ret := fit_check_format fit len in
      if nz ret then (ret, false)
      else
        let hash_ok := fit_all_image_verify fit in
        (if hash_ok then 0 else - EBADMSG, hash_ok).

(** The name or the "type" property selects a class of image. *)
Definition image_class (name : option (list Z)) (type : option (Z * list Z)) (n1 n2 lit : string) : bool :=
  (match name with Some n => ursus_mem_has n n1 || ursus_mem_has n n2 | None => false end) ||
  (match type with Some (_, l) => (0 <? blen l) && strneq l (bytes_of lit) | None => false end).
Definition inspect_node (fit : list Z) (s : image_state) (node : Z) : image_state :=
  let name := fdt_get_name fit node in
  let type := fdt_getprop fit node "type" in
  let is_kernel := image_class name type "kernel" "linux" "kernel" in
  let is_root := image_class name type "rootfs" "filesystem" "filesystem" in
  let is_fdt := image_class name type "fdt" "dtb" "flat_dt" in
  let s := set_kernel_found (im_kernel_found s || is_kernel) s in
  let s := set_root_found (im_root_found s || is_root) s in
  let s := set_fdt_found (im_fdt_found s || is_fdt) s in
  match fit_image_get_data fit node with
  | None => s
  | Some (_, size) =>
    let s := if is_kernel && (im_kernel_size s =? 0) then set_kernel_size size s else s in
    let s := if is_root && (im_root_size s =? 0) then set_root_size size s else s in
    if is_fdt && (im_fdt_size s =? 0) then set_fdt_size size s else s
  end.
Definition ursus_inspect_fit_images (fit : list Z) (s : image_state) : image_state :=
  let images := fdt_path_offset fit "/images" in
  if images <? 0 then s else fold_left (inspect_node fit) (fdt_subnodes fit images) s.

(** The image under validation and the log. *)
Record val_ctx := MkVal { v_img : image_state; v_log : list Z }.
Definition val_t : Type := hw * val_ctx.
Definition on_img (f : image_state -> image_state) : ST val_t unit :=
  onctx (fun c => MkVal (f (v_img c)) (v_log c)).
Definition logf (l : list frag) : ST val_t unit :=
  onctx (fun c => MkVal (v_img c) (ursus_logf (fmt l) (v_log c))).

(** The part after the embedded device tree was found and aligned. *)
Definition check_platform_fdt (fdt : list Z) : ST val_t Z :=
  if nz (fdt_check_header fdt) || (blen fdt <? u32 (fdt_totalsize fdt)) then sret (- ENOEXEC)
  else
    on_img (fun s => set_fdt_size (blen fdt) (set_fdt_found true s)) ;;;
    match fdt_getprop fdt 0 "compatible" with
    | None => sret (- ENODEV)
    | Some (_, compat) =>
      if blen compat <=? 0 then sret (- ENODEV)
      else
        let stock := fdt_stringlist_contains compat "nokia,xg-040g-md" in
        let ubi := fdt_stringlist_contains compat "nokia,xg-040g-md-ubi" in
        on_img (fun s => set_fdt_is_ubi ubi (set_fdt_is_stock stock s)) ;;;
        if negb stock && negb ubi then sret (- ENODEV)
        else on_img (set_fdt_compatible true) ;;; sret 0
    end.
(** [addr]: where [fit] is in memory. *)
Definition ursus_fit_default_platform (addr : Z) (fit : list Z) : ST val_t Z :=
  let conf := fit_conf_get_node fit in
  if conf <? 0 then sret (- ENOENT)
  else
    let kernel := fit_conf_get_prop_node fit conf "kernel" in
    let fdt_node := fit_conf_get_prop_node fit conf "fdt" in
    if (kernel <? 0) || (fdt_node <? 0) then sret (- ENOENT)
    else if negb (bool_decide (fit_image_get_arch fit kernel = Some IH_ARCH_ARM64)) then sret (- EPROTONOSUPPORT)
    else
      on_img (set_kernel_arch_valid true) ;;;
      if negb (bool_decide (fit_image_get_type fit fdt_node = Some IH_TYPE_FLATDT)) then sret (- ENOEXEC)
      else match fit_image_get_data fit fdt_node with
      | None => sret (- ENOEXEC)
      | Some (off, fdt_len) =>
        if fdt_len <? FDT_HDR then sret (- ENOEXEC)
        else
          let fdt := slice off fdt_len fit in
          if nz (Z.land (addr + off) 7) then
            let* ok := onhw malloc in
            if negb ok then sret (- ENOMEM)
            else
              logf [FL "FIT FDT ALIGN: copied embedded DTB to 8-byte aligned buffer bytes="; FD (u32 fdt_len); FNL] ;;;
              check_platform_fdt fdt
          else check_platform_fdt fdt
      end.

(** * The tar container *)

(** The loop at [pos]: an error that ends the function, or the state so far. *)
Fixpoint factory_loop (fuel : nat) (buf : list Z) (pos : Z) (s : image_state) : Z * image_state :=
  match fuel with
  | O => (0, s)
  | S fuel' =>
    let h := drop (Z.to_nat pos) buf in
    if (pos + 512 <=? blen buf) && ursus_tar_magic h then
      let name := cstr (take 100 h) in
      let sz := ursus_tar_octal (slice 124 12 h) in
      let data := pos + 512 in
      if blen buf <? data + sz then (- EFBIG, s)
      else
        let body := slice data sz buf in
        let is_kernel := ursus_name_ends name "/kernel" in
        let is_root := negb is_kernel && ursus_name_ends name "/root" in
        let s :=
          if is_kernel then
            let v := ursus_verify_fit body in
            set_fit_hashes_valid (snd v) (set_fit_valid (fst v =? 0)
              (set_kernel_off data (set_kernel_size sz (set_kernel_found true s))))
          else if is_root then set_root_off data (set_root_size sz (set_root_found true s))
          else s in
        if is_root && ((sz <? 4) || negb (memeq (take 4 body) (bytes_of "hsqs"))) then (- EINVAL, s)
        else
          let next := data + Z.land (sz + 511) (Z.lnot 511) in
          if (next <=? pos) || (blen buf <? next) then (0, s)
          else factory_loop fuel' buf next s
    else (0, s)
  end.
Definition ursus_validate_factory (buf : list Z) (s : image_state) : Z * image_state :=
  let '(ret, s) := factory_loop (length buf / 512 + 1) buf 0 s in
  if nz ret then (ret, s)
  else if negb (im_kernel_found s) || negb (im_root_found s) || negb (im_fit_valid s) || negb (im_fit_hashes_valid s)
  then (- EINVAL, s) else (0, s).

(** * The two channels *)

Definition is_layout (layout : string) (name : string) : bool := bool_decide (layout = name).
Definition layout_stock (layout : string) : bool :=
  is_layout layout "STOCK" || is_layout layout "OPENWRT_STOCK_LAYOUT".
Definition layout_ubi (layout : string) : bool := is_layout layout "OPENWRT_UBI".

(** [ursus_set_reason] and the return code of the branch. *)
Definition verdict (ret : Z) (cls reason : string) : ST val_t Z :=
  on_img (ursus_set_reason cls reason) ;;; sret ret.

Definition bit (b : bool) : frag := FD (if b then 1 else 0).
Definition str (s : string) : frag := FS (bytes_of s).

Definition expert_verdict (addr : Z) (buf : list Z) (layout : string) : ST val_t Z :=
  let len := blen buf in
  if (addr =? 0) || (len =? 0) then verdict (- EINVAL) URSUS_RC_BAD_CONTAINER "empty initramfs/FIT staging range"
  else if URSUS_STAGE_MAX <? len then
    verdict (- EFBIG) URSUS_RC_IMAGE_TOO_LARGE "initramfs/FIT exceeds shared 64 MiB staging capacity"
  else if (len <? 4) || nz (ursus_be32 buf - FDT_MAGIC) then
    verdict (- ENOEXEC) URSUS_RC_BAD_CONTAINER "Expert channel accepts FIT/initramfs only"
  else
    let '(ret, hash_ok) := ursus_verify_fit buf in
    on_img (fun s => set_fit_hashes_valid hash_ok (set_fit_valid (ret =? 0) s)) ;;;
    if nz ret then
      on_img (set_type URSUS_IMG_INVALID) ;;;
      (if ret =? - EBADMSG then verdict ret URSUS_RC_HASH_MISMATCH "FIT image hash verification failed"
       else verdict ret URSUS_RC_BAD_FIT "FIT structure validation failed")
    else
      on_img (ursus_inspect_fit_images buf) ;;;
      let* pret := ursus_fit_default_platform addr buf in
      if (pret =? - ENOENT) || (pret =? - ENOEXEC) then
        on_img (set_type URSUS_IMG_INVALID) ;;;
        verdict pret URSUS_RC_BAD_FIT "FIT default configuration must contain kernel and valid FDT"
      else if nz pret then
        on_img (set_type URSUS_IMG_INVALID) ;;;
        verdict pret URSUS_RC_DEVICE_MISMATCH "FIT architecture or board compatible does not match Nokia XG-040G-MD"
      else
        let* s := ctx v_img in
        if (layout_ubi layout && negb (im_fdt_is_ubi s)) || (layout_stock layout && negb (im_fdt_is_stock s)) then
          on_img (set_type URSUS_IMG_INVALID) ;;;
          verdict (- EXDEV) URSUS_RC_LAYOUT_UNSUPPORTED
            "initramfs/FIT device-tree layout does not match the current NAND layout"
        else
          on_img (fun s => set_bootable_fit true (set_device_compatible true (set_type URSUS_IMG_FIT s))) ;;;
          verdict 0 URSUS_RC_OK
            "FIT hashes, ARM64 architecture and board FDT validated; boot once is available".
Definition ursus_validate_expert_fit (addr : Z) (buf : list Z) (layout : string) : ST val_t Z :=
  on_img (fun _ => set_len (blen buf) (set_addr addr ursus_reset_expert_state)) ;;;
  logf [FL "EXPERT VALIDATION: bytes="; FD (u32 (blen buf)); FL " channel=BOOT_ONCE"; FNL] ;;;
  let* ret := expert_verdict addr buf layout in
  let* s := ctx v_img in
  logf [FL "EXPERT VALIDATION: class="; str (im_reason_class s); FL " fit="; bit (im_fit_valid s);
        FL " hashes="; bit (im_fit_hashes_valid s); FL " kernel="; bit (im_kernel_found s);
        FL " fdt="; bit (im_fdt_found s); FL " arch="; bit (im_kernel_arch_valid s);
        FL " board="; bit (im_fdt_compatible s); FL " bootable="; bit (im_bootable_fit s);
        FL " ret="; FD ret; FL " reason="; str (im_reason s); FNL] ;;;
  sret ret.

(** A tar image. *)
Definition nonubi_verdict (buf : list Z) (m : meta) (layout : string) : ST val_t Z :=
  on_img (fun s => set_device_compatible (device_factory m) (set_type URSUS_IMG_NONUBI_SYSUPGRADE s)) ;;;
  let* s := ctx v_img in
  let '(ret, s) := ursus_validate_factory buf s in
  on_img (fun _ => s) ;;;
  if nz ret then
    verdict ret URSUS_RC_BAD_CONTAINER "OpenWrt non-UBI sysupgrade tar/kernel/root validation failed"
  else if negb (found m) || negb (crc_ok m) || negb (supported_devices_present m) then
    verdict (- EBADMSG) URSUS_RC_METADATA_MISSING
      "OpenWrt non-UBI sysupgrade fwtool metadata, CRC or supported_devices is missing/invalid"
  else if negb (im_device_compatible s) then
    verdict (- ENODEV) URSUS_RC_DEVICE_MISMATCH
      "OpenWrt non-UBI sysupgrade supported_devices does not contain nokia,xg-040g-md"
  else if negb (layout_stock layout) then
    verdict 0 URSUS_RC_LAYOUT_UNSUPPORTED
      "OpenWrt non-UBI sysupgrade is valid but current flash layout is not installable by this release"
  else
    verdict 0 URSUS_RC_OK
      "OpenWrt non-UBI sysupgrade valid; stock-layout install/update is available after explicit confirmation".

(** A FIT with fwtool metadata. *)
Definition ubi_verdict (addr : Z) (buf : list Z) (m : meta) (layout : string) : ST val_t Z :=
  on_img (fun s => ursus_inspect_fit_images buf (set_type URSUS_IMG_UBI_SYSUPGRADE s)) ;;;
  let* pret := ursus_fit_default_platform addr buf in
  on_img (set_device_compatible (device_ubi m)) ;;;
  let* s := ctx v_img in
  if negb (crc_ok m) || negb (supported_devices_present m) then
    verdict (- EBADMSG) URSUS_RC_METADATA_MISSING "UBI fwtool metadata CRC or supported_devices is missing/invalid"
  else if negb (im_kernel_found s) || negb (im_fdt_found s) || negb (im_root_found s) ||
          (pret =? - ENOENT) || (pret =? - ENOEXEC) then
    verdict (- EINVAL) URSUS_RC_BAD_FIT "UBI FIT must contain kernel, FDT and rootfs in a valid default configuration"
  else if negb (im_device_compatible s) || nz pret || negb (im_fdt_is_ubi s) then
    verdict (- ENODEV) URSUS_RC_DEVICE_MISMATCH
      "UBI supported_devices, ARM64 architecture or UBI board FDT does not match Nokia XG-040G-MD UBI"
  else if layout_ubi layout then
    verdict 0 URSUS_RC_OK "UBI sysupgrade FIT valid; in-place UBI update is available after confirmation"
  else if layout_stock layout then
    verdict 0 URSUS_RC_OK
      "UBI sysupgrade FIT valid; factory-layout to UBI migration is available after validating the transition preloader"
  else
    verdict (- EXDEV) URSUS_RC_LAYOUT_UNSUPPORTED "UBI sysupgrade FIT is valid but current NAND layout is unknown".

Definition fit_verdict (addr : Z) (buf : list Z) (m : meta) (layout : string) : ST val_t Z :=
  let '(vret, fit_hash) := ursus_verify_fit buf in
  on_img (fun s => set_fit_hashes_valid fit_hash (set_fit_valid (vret =? 0) s)) ;;;
  if nz vret then
    on_img (set_type URSUS_IMG_INVALID) ;;;
    (if vret =? - EBADMSG then verdict vret URSUS_RC_HASH_MISMATCH "FIT image hash verification failed"
     else verdict vret URSUS_RC_BAD_FIT "FIT structure validation failed")
  else if negb (found m) then
    on_img (fun s => ursus_inspect_fit_images buf (set_type URSUS_IMG_FACTORY_KERNEL s)) ;;;
    let* pret := ursus_fit_default_platform addr buf in
    let* s := ctx v_img in
    verdict (- EPROTONOSUPPORT) URSUS_RC_UNSUPPORTED_CLASS
      (if negb (nz pret) && im_fdt_is_stock s then
         "OpenWrt factory-kernel.bin recognized; paired factory components are Expert-only and never trigger repartition"
       else "standalone FIT is not accepted by Main firmware channel; use Expert initramfs")
  else ubi_verdict addr buf m layout.

(** The classification after the metadata scan. *)
Definition staged_verdict (addr : Z) (buf : list Z) (m : meta) (layout : string) : ST val_t Z :=
  let len := blen buf in
  if ursus_tar_magic buf then nonubi_verdict buf m layout
  else if (4 <=? len) && (ursus_be32 buf =? UBI_EC_MAGIC) then
    on_img (set_type URSUS_IMG_FACTORY_ROOTFS) ;;;
    verdict (- EPROTONOSUPPORT) URSUS_RC_UNSUPPORTED_CLASS
      "OpenWrt factory-rootfs.bin recognized; paired factory components are Expert-only and never trigger repartition"
  else if (4 <=? len) && (ursus_be32 buf =? FDT_MAGIC) then fit_verdict addr buf m layout
  else
    on_img (set_type URSUS_IMG_INVALID) ;;;
    verdict (- ENOEXEC) URSUS_RC_UNSUPPORTED_CLASS
      "Main firmware channel accepts OpenWrt non-UBI sysupgrade tar or UBI sysupgrade FIT; factory component images are classified but not auto-installed".

Definition staged_operation (s : image_state) (layout : string) : string :=
  match im_type s with
  | URSUS_IMG_NONUBI_SYSUPGRADE =>
    if bool_decide (im_reason_class s = URSUS_RC_OK) then "INSTALL_OPENWRT_STOCK_LAYOUT_AVAILABLE"
    else "INSTALL_OPENWRT_STOCK_LAYOUT_LOCKED"
  | URSUS_IMG_UBI_SYSUPGRADE =>
    if layout_ubi layout then "UPDATE_OPENWRT_UBI_AVAILABLE" else "INSTALL_OPENWRT_UBI_AVAILABLE"
  | _ => "NONE"
  end.
Definition staged_report (layout : string) (ret : Z) : ST val_t (option Z) :=
  let* s := ctx v_img in
  logf [FL "FIRMWARE VALIDATION: class="; str (im_reason_class s); FL " type="; str (ursus_image_name (im_type s));
        FL " metadata="; bit (im_metadata_valid s); FL " supported_device="; bit (im_device_compatible s);
        FL " fit="; bit (im_fit_valid s); FL " hashes="; bit (im_fit_hashes_valid s);
        FL " kernel="; bit (im_kernel_found s); FL " fdt="; bit (im_fdt_found s); FL " root="; bit (im_root_found s);
        FL " arch="; bit (im_kernel_arch_valid s); FL " board="; bit (im_fdt_compatible s); FL " ret="; FD ret; FNL] ;;;
  logf [FL "FIRMWARE VALIDATION: operation="; str (staged_operation s layout); FL " reason="; str (im_reason s); FNL] ;;;
  sret (Some ret).

Definition ursus_validate_staged (addr : Z) (buf : list Z) (layout : string) : ST val_t (option Z) :=
  on_img (fun _ => set_len (blen buf) (set_addr addr ursus_reset_image_state)) ;;;
  logf [FL "FIRMWARE VALIDATION: bytes="; FD (u32 (blen buf)); FL " channel=MAIN layout="; str layout; FNL] ;;;
  if (addr =? 0) || (blen buf =? 0) then
    let* ret := verdict (- EINVAL) URSUS_RC_BAD_CONTAINER "empty staged image" in staged_report layout ret
  else if URSUS_STAGE_MAX <? blen buf then
    let* ret := verdict (- EFBIG) URSUS_RC_IMAGE_TOO_LARGE "firmware exceeds staging capacity" in
    staged_report layout ret
  else match ursus_parse_fwtool_meta buf with
  | None => sret None
  | Some (mret, m) =>
    (if nz mret then sret tt
     else on_img (fun s => set_metadata_valid (found m && crc_ok m && supported_devices_present m)
                             (set_metadata_present (found m) s))) ;;;
    let* ret := staged_verdict addr buf m layout in
    staged_report layout ret
  end.

(** The image conditions of the installation requests, after the confirmation. *)
Definition stock_image_ready (s : image_state) : bool :=
  bool_decide (im_type s = URSUS_IMG_NONUBI_SYSUPGRADE) && im_metadata_valid s && im_device_compatible s &&
  im_fit_valid s && im_fit_hashes_valid s.
Definition ubi_image_ready (s : image_state) : bool :=
  bool_decide (im_type s = URSUS_IMG_UBI_SYSUPGRADE) && bool_decide (im_reason_class s = URSUS_RC_OK) &&
  im_metadata_valid s && im_device_compatible s && im_fit_valid s && im_fit_hashes_valid s && im_fdt_is_ubi s.
End images.
