(* ===== verification/WebImageThms.v ===== *)
(** Theorems on the firmware validators: fwtool metadata a packer appends is read
    back, the exact buffer lengths for which the scan stays in the buffer, and
    what an accepted image guarantees. *)
From S2P Require Import Prelude Bytes Fip Flash Fit WebHeaders WebImage.

(** * Words *)

Definition be_encode32 (z : Z) : list Z :=
  [(z / 2 ^ 24) `mod` 256; (z / 2 ^ 16) `mod` 256; (z / 2 ^ 8) `mod` 256; z `mod` 256].

Lemma lor_shift a b n : 0 <= n -> 0 <= b < 2 ^ n -> Z.lor (Z.shiftl a n) b = a * 2 ^ n + b.
Proof.
  intros Hn Hb. rewrite Z.shiftl_mul_pow2 by lia. symmetry.
  assert (Hland : Z.land (a * 2 ^ n) b = 0); [|by rewrite Z.add_nocarry_lxor, Z.lxor_lor].
  apply Z.bits_inj'. intros i Hi. rewrite Z.land_spec, Z.bits_0.
  destruct (Z.ltb_spec i n).
  - by rewrite Z.mul_pow2_bits_low by lia.
  - replace b with (b `mod` 2 ^ n) by (by apply Z.mod_small). rewrite Z.mod_pow2_bits_high by lia. apply andb_false_r.
Qed.

Lemma be32_bytes a b c d r : is_byte a -> is_byte b -> is_byte c -> is_byte d ->
  ursus_be32 ([a; b; c; d] ++ r) = a * 2 ^ 24 + b * 2 ^ 16 + c * 2 ^ 8 + d.
Proof.
  unfold is_byte, ursus_be32. intros. cbn [app nth].
  replace (Z.shiftl a 24) with (Z.shiftl (Z.shiftl a 8) 16) by (by rewrite Z.shiftl_shiftl).
  rewrite <- Z.shiftl_lor, (lor_shift a b 8), (lor_shift c d 8), lor_shift by lia. lia.
Qed.
Lemma be32_encode z r : 0 <= z < 2 ^ 32 -> ursus_be32 (be_encode32 z ++ r) = z.
Proof.
  intros Hz. unfold be_encode32. rewrite be32_bytes by (unfold is_byte; apply Z.mod_pos_bound; lia).
  change (2 ^ 24) with (2 ^ 8 * 2 ^ 8 * 2 ^ 8). change (2 ^ 16) with (2 ^ 8 * 2 ^ 8).
  rewrite <- !Z.div_div by lia. change (2 ^ 8) with 256 in *.
  pose proof (Z.div_mod z 256). pose proof (Z.div_mod (z / 256) 256).
  pose proof (Z.div_mod (z / 256 / 256) 256).
  assert (0 <= z / 256 / 256 / 256 < 256).
  { rewrite !Z.div_div by lia. split; [apply Z.div_pos; lia|apply Z.div_lt_upper_bound; lia]. }
  rewrite (Z.mod_small (z / 256 / 256 / 256)) by lia. lia.
Qed.

(** * The CRC *)

Lemma lxor_range a b n : 0 <= n -> 0 <= a < 2 ^ n -> 0 <= b < 2 ^ n -> 0 <= Z.lxor a b < 2 ^ n.
Proof.
  intros Hn Ha Hb. assert (0 <= Z.lxor a b) by (rewrite Z.lxor_nonneg; tauto). split; [done|].
  replace (Z.lxor a b) with (Z.lxor a b `mod` 2 ^ n); [apply Z.mod_pos_bound; lia|].
  rewrite <- Z.land_ones by done. apply Z.bits_inj'. intros i Hi. rewrite Z.land_spec, Z.lxor_spec.
  destruct (Z.ltb_spec i n).
  - rewrite Z.ones_spec_low by lia. by rewrite andb_true_r.
  - rewrite Z.ones_spec_high, andb_false_r by lia.
    rewrite <- (Z.mod_small a (2 ^ n)), <- (Z.mod_small b (2 ^ n)), !Z.mod_pow2_bits_high by lia. done.
Qed.
Lemma crc_bit_range c : 0 <= c < 2 ^ 32 -> 0 <= crc_bit c < 2 ^ 32.
Proof.
  intros Hc. unfold crc_bit. apply lxor_range; [lia| |by destruct (_ =? 0)].
  rewrite Z.shiftr_div_pow2 by lia. split; [apply Z.div_pos; lia|].
  apply Z.div_lt_upper_bound; lia.
Qed.
Lemma crc_iter_range k x : 0 <= x < 2 ^ 32 -> 0 <= Nat.iter k crc_bit x < 2 ^ 32.
Proof. intros Hx. induction k as [|k IH]; [exact Hx|]. apply crc_bit_range, IH. Qed.
Lemma crc_in_range c b : 0 <= c < 2 ^ 32 -> is_byte b -> 0 <= Z.lxor c b < 2 ^ 32.
Proof. intros Hc Hb. apply lxor_range; [lia|exact Hc|]. unfold is_byte in Hb. lia. Qed.
Lemma crc_byte_range c b : 0 <= c < 2 ^ 32 -> is_byte b -> 0 <= crc_byte c b < 2 ^ 32.
Proof. intros Hc Hb. exact (crc_iter_range 8 (Z.lxor c b) (crc_in_range c b Hc Hb)). Qed.
Lemma fold_left_inv {A B} (f : A -> B -> A) (P : A -> Prop) (Q : B -> Prop) l a :
  (forall a b, P a -> Q b -> P (f a b)) -> Forall Q l -> P a -> P (fold_left f l a).
Proof. intros Hf Hl. revert a. induction Hl as [|b l Hb _ IH]; intros a Ha; simpl; auto. Qed.
Lemma crc_range l c : 0 <= c < 2 ^ 32 -> bytes_ok l -> 0 <= ursus_crc32_fwtool c l < 2 ^ 32.
Proof.
  intros Hc Hl. exact (fold_left_inv crc_byte (fun c => 0 <= c < 2 ^ 32) is_byte l c crc_byte_range Hl Hc).
Qed.

(** * JSON *)

Definition quote (d : list Z) : list Z := 34 :: d ++ [34].
Fixpoint print_devs (devs : list (list Z)) : list Z :=
  match devs with
  | [] => []
  | [d] => quote d
  | d :: ds => quote d ++ [44; 32] ++ print_devs ds
  end.
(** The metadata: the list of devices somewhere in a JSON text. *)
Definition fwtool_json (pre : list Z) (devs : list (list Z)) (post : list Z) : list Z :=
  pre ++ json_key ++ [58; 32; 91] ++ print_devs devs ++ 93 :: post.
Definition dev_ok (d : list Z) : Prop := Forall (fun c => 32 <= c /\ c <> 34 /\ c <> 92) d.
(** The key does not occur before its place. *)
Definition key_first (pre : list Z) : Prop :=
  forall i, (i < length pre)%nat -> take (length json_key) (drop i (pre ++ json_key)) <> json_key.

Lemma json_string_quote d r : dev_ok d -> json_string (d ++ 34 :: r) = Some (d, r).
Proof.
  induction 1 as [|c d (H1 & H2 & H3) _ IH]; [done|]. simpl.
  destruct (Z.eqb_spec c 34), (Z.eqb_spec c 92), (Z.ltb_spec c 32); try lia. simpl. by rewrite IH.
Qed.

Lemma json_array_string fuel p fac ubi v r :
  json_string p = Some (v, r) ->
  json_array (S fuel) (34 :: p) fac ubi =
    let fac := fac || memeq v dev_factory in
    let ubi := ubi || memeq v dev_ubi in
    match ursus_json_ws r with
    | [] => (false, (fac, ubi))
    | c :: p =>
      if c =? 44 then json_array fuel p fac ubi else if c =? 93 then (true, (fac, ubi)) else (false, (fac, ubi))
    end.
Proof.
  intros Hs. change (json_array (S fuel) (34 :: p) fac ubi) with
    (match json_string p with
     | None => (false, (fac, ubi))
     | Some (v, p) =>
       let fac := fac || memeq v dev_factory in
       let ubi := ubi || memeq v dev_ubi in
       match ursus_json_ws p with
       | [] => (false, (fac, ubi))
       | c :: p =>
         if c =? 44 then json_array fuel p fac ubi else if c =? 93 then (true, (fac, ubi)) else (false, (fac, ubi))
       end
     end). by rewrite Hs.
Qed.

Lemma json_array_devs devs fuel post fac ubi :
  Forall dev_ok devs -> (length devs < fuel)%nat ->
  json_array fuel (print_devs devs ++ 93 :: post) fac ubi =
    (true, (fac || existsb (fun d => memeq d dev_factory) devs, ubi || existsb (fun d => memeq d dev_ubi) devs)).
Proof.
  intros Hd. revert fuel fac ubi. induction Hd as [|d devs Hd Hds IH]; intros [|fuel] fac ubi Hf; try (simpl in Hf; lia).
  - simpl. by rewrite !orb_false_r.
  - assert (E : print_devs (d :: devs) ++ 93 :: post =
      34 :: d ++ 34 :: match devs with [] => 93 :: post | _ => 44 :: 32 :: print_devs devs ++ 93 :: post end).
    { destruct devs; simpl; unfold quote; rewrite <- !app_assoc; simpl; by rewrite <- ?app_assoc. }
    rewrite E. erewrite json_array_string by (by apply json_string_quote). cbv zeta.
    cbn [existsb]. destruct devs as [|d' devs].
    + simpl. by rewrite !orb_false_r.
    + cbn [ursus_json_ws]. change (json_blank 44) with false. cbv iota. change (44 =? 44) with true. cbv iota.
      assert (Hb : forall p f u, json_array fuel (32 :: p) f u = json_array fuel p f u) by (by destruct fuel).
      rewrite Hb, IH by (simpl in *; lia). by rewrite !orb_assoc.
Qed.

Lemma json_found pre rest :
  key_first pre -> ursus_json_exact_supported_devices (pre ++ json_key ++ rest) = json_after_key rest.
Proof.
  induction pre as [|c pre IH]; intros Hk.
  - cbn [app]. assert (E : forall l, ursus_json_exact_supported_devices (json_key ++ l) =
      if memeq (take (length json_key) (json_key ++ l)) json_key then json_after_key (drop (length json_key) (json_key ++ l))
      else ursus_json_exact_supported_devices (drop 1 (json_key ++ l))) by done.
    rewrite E, take_app_length, memeq_refl, drop_app_length. done.
  - assert (Hc : take (length json_key) ((c :: pre) ++ json_key ++ rest) <> json_key).
    { specialize (Hk 0%nat ltac:(simpl; lia)). rewrite drop_0 in Hk. rewrite app_assoc, take_app_le; [done|].
      rewrite length_app. simpl. lia. }
    cbn [app] in *. cbn [ursus_json_exact_supported_devices].
    destruct (Nat.ltb_spec (length (c :: pre ++ json_key ++ rest)) (length json_key)) as [Hl|_].
    { simpl in Hl. rewrite !length_app in Hl. simpl in Hl. lia. }
    apply memeq_neq in Hc. rewrite Hc. apply IH. intros i Hi. apply (Hk (S i)). simpl. lia.
Qed.

Lemma json_devices pre devs post :
  key_first pre -> Forall dev_ok devs ->
  ursus_json_exact_supported_devices (fwtool_json pre devs post) =
    (true, (existsb (fun d => memeq d dev_factory) devs, existsb (fun d => memeq d dev_ubi) devs)).
Proof.
  intros Hk Hd. unfold fwtool_json. rewrite json_found by done.
  unfold json_after_key. cbn [app ursus_json_ws]. change (json_blank 58) with false. change (json_blank 32) with true.
  cbv iota. change (json_blank 91) with false. cbv iota. change (negb (58 =? 58)) with false.
  change (negb (91 =? 91)) with false. cbv iota. apply json_array_devs; [done|].
  assert (Hl : forall ds, (length ds <= length (print_devs ds))%nat).
  { intros ds. induction ds as [|d [|d' ds] IH]; [done|simpl; lia|].
    cbn [print_devs length] in *. rewrite !length_app. simpl in *. lia. }
  rewrite length_app. specialize (Hl devs). simpl. lia.
Qed.

(** * fwtool records *)

(** What the packer appends to a firmware: a header of 8 bytes, the metadata and
    a trailer with the CRC of everything before it. *)
Definition fwtool_image (payload hdr json : list Z) : list Z :=
  let data := payload ++ hdr ++ json in
  data ++ be_encode32 URSUS_FWTOOL_MAGIC ++ be_encode32 (ursus_crc32_fwtool 0xffffffff data) ++
  [URSUS_FWTOOL_INFO; 0; 0; 0] ++ be_encode32 (8 + blen json + 16).

Lemma fwtool_at_end payload hdr json :
  bytes_ok (payload ++ hdr ++ json) -> length hdr = 8%nat -> 24 + blen json < 2 ^ 32 ->
  fwtool_at (fwtool_image payload hdr json) (blen (payload ++ hdr ++ json)) =
    let '(present, (fac, ubi)) := ursus_json_exact_supported_devices json in
    Some (0, MkMeta true true present fac ubi (blen payload + 8) (blen json)).
Proof.
  intros Hb Hh Hlen. unfold fwtool_at, fwtool_image.
  remember (payload ++ hdr ++ json) as data eqn:Ed.
  remember (ursus_crc32_fwtool 0xffffffff data) as crc eqn:Ecrc.
  assert (Hcrc : 0 <= crc < 2 ^ 32) by (rewrite Ecrc; apply crc_range; [lia|done]).
  pose proof (blen_nonneg json) as Hj. 
  assert (Ht : Z.to_nat (blen data) = length data) by (unfold blen; lia).
  remember (8 + blen json + 16) as size eqn:Es.
  assert (Hslice : forall r, length r = 16%nat -> slice (blen data) 16 (data ++ r) = r).
  { intros r Hr. unfold slice. rewrite Ht, drop_app_length. apply take_ge. rewrite Hr. done. }
  rewrite Hslice, be32_encode by done.
  assert (E4 : forall r, drop 4 (be_encode32 URSUS_FWTOOL_MAGIC ++ r) = r) by done.
  assert (E12 : forall r, drop 12 (be_encode32 URSUS_FWTOOL_MAGIC ++ be_encode32 crc ++ [URSUS_FWTOOL_INFO; 0; 0; 0] ++ r) = r) by done.
  assert (E8 : forall r, nth 8 (be_encode32 URSUS_FWTOOL_MAGIC ++ be_encode32 crc ++ [URSUS_FWTOOL_INFO; 0; 0; 0] ++ r) 0 = URSUS_FWTOOL_INFO) by done.
  rewrite E4, be32_encode, E8 by done. rewrite <- (app_nil_r (be_encode32 size)), E12, be32_encode by lia.
  rewrite !Z.eqb_refl. cbn [andb].
  assert (Hd : blen data = blen payload + 8 + blen json).
  { rewrite Ed, !blen_app. unfold blen at 2. rewrite Hh. lia. }
  pose proof (blen_nonneg payload).
  destruct (Z.leb_spec 24 size), (Z.leb_spec size (blen data + 16)); try lia. cbn [andb].
  destruct (Z.ltb_spec (size - 16) 8); [lia|].
  replace (blen data + 16 - size + 8) with (blen payload + 8) by lia.
  replace (size - 16 - 8) with (blen json) by lia.
  rewrite Ht, take_app_length, <- Ecrc, Z.eqb_refl.
  rewrite slice_app_l by lia. rewrite Ed, app_assoc.
  rewrite slice_app_r by (rewrite blen_app; unfold blen at 2; rewrite Hh; lia).
  rewrite blen_app. replace (blen hdr) with 8 by (unfold blen; rewrite Hh; done).
  rewrite Z.sub_diag, slice_all. done.
Qed.

(** C35: Metadata that the packer appends to a firmware image (a list of devices in
    a JSON text, and the trailer with the CRC) is read back: found, CRC valid,
    list present, and the two device flags say exactly whether the list names
    the factory-layout and the UBI board. *)
Theorem fwtool_roundtrip payload hdr pre devs post :
  let json := fwtool_json pre devs post in
  bytes_ok (payload ++ hdr ++ json) -> length hdr = 8%nat -> 24 + blen json < 2 ^ 32 ->
  key_first pre -> Forall dev_ok devs ->
  ursus_parse_fwtool_meta (fwtool_image payload hdr json) =
    Some (0, MkMeta true true true
               (existsb (fun d => memeq d dev_factory) devs) (existsb (fun d => memeq d dev_ubi) devs)
               (blen payload + 8) (blen json)).
Proof.
  intros json Hb Hh Hlen Hk Hd. unfold ursus_parse_fwtool_meta.
  assert (Hl : blen (fwtool_image payload hdr json) = blen (payload ++ hdr ++ json) + 16)
    by (unfold fwtool_image; by rewrite blen_app).
  assert (8 <= blen (payload ++ hdr ++ json)).
  { rewrite !blen_app. unfold blen at 2. rewrite Hh. pose proof (blen_nonneg payload). pose proof (blen_nonneg json). lia. }
  rewrite Hl. destruct (Z.ltb_spec (blen (payload ++ hdr ++ json) + 16) 24); [lia|]. cbv zeta.
  rewrite Z.add_simpl_r. remember (if _ <? _ then _ else _) as start eqn:Es. clear Es.
  pose proof (fwtool_at_end payload hdr json Hb Hh Hlen) as Hat.
  unfold json in Hat at 3. rewrite json_devices in Hat by done. cbn beta iota in Hat.
  remember (Z.to_nat (blen (payload ++ hdr ++ json))) as pos eqn:Ep.
  assert (Hpos : Z.of_nat pos = blen (payload ++ hdr ++ json)) by lia.
  destruct pos; cbn [fwtool_scan]; by rewrite Hpos, Hat.
Qed.
Lemma fwtool_roundtrip_witness :
  ursus_parse_fwtool_meta
    (fwtool_image [1; 2; 3] (repeat 0 8) (fwtool_json [123] [bytes_of "acme,box"; bytes_of "nokia,xg-040g-md-ubi"] [125]))
  = Some (0, MkMeta true true true false true 11 (blen (fwtool_json [123] [bytes_of "acme,box"; bytes_of "nokia,xg-040g-md-ubi"] [125]))).
Proof.
  apply (fwtool_roundtrip [1; 2; 3] (repeat 0 8) [123] [bytes_of "acme,box"; bytes_of "nokia,xg-040g-md-ubi"] [125]).
  - repeat (apply Forall_cons_2; [split; by vm_compute|]). constructor.
  - done.
  - by vm_compute.
  - intros [|i] Hi; [by vm_compute|simpl in Hi; lia].
  - repeat (apply Forall_cons_2; [repeat (apply Forall_cons_2; [split_and!; by vm_compute|]); apply Forall_nil_2|]).
    apply Forall_nil_2.
Defined.

(** ** Bounds *)

Lemma fwtool_scan_ends buf start pos :
  0 <= start <= Z.of_nat pos -> fwtool_scan buf start pos <> None.
Proof.
  induction pos as [|pos IH]; intros Hs; cbn [fwtool_scan]; (destruct (fwtool_at buf _); [done|]).
  - destruct (Z.eqb_spec (Z.of_nat 0) start); [done|lia].
  - destruct (Z.eqb_spec (Z.of_nat (S pos)) start); [done|]. apply IH. lia.
Qed.

(** The backward scan for the fwtool trailer stays inside the uploaded image
    exactly when the image is shorter than 24 or at least 32 bytes long: for the
    eight lengths between, an image without trailer makes the index run below
    zero. *)
Lemma fwtool_scan_bounds n :
  0 <= n ->
  (exists buf, blen buf = n /\ ursus_parse_fwtool_meta buf = None) <-> 24 <= n < 32.
Proof.
  intros Hn. split.
  - intros (buf & Hl & Hp). unfold ursus_parse_fwtool_meta in Hp. rewrite Hl in Hp.
    destruct (Z.ltb_spec n 24); [done|]. split; [done|]. apply Z.nle_gt. intros H32.
    apply fwtool_scan_ends in Hp; [done|]. destruct (Z.ltb_spec 0x100000 n); lia.
  - intros Hr. exists (repeat 0 (Z.to_nat n)). split; [unfold blen; rewrite repeat_length; lia|].
    assert (Hc : forallb (fun k => match ursus_parse_fwtool_meta (repeat 0 k) with None => true | _ => false end)
                   (List.seq 24 8) = true) by (vm_compute; reflexivity).
    rewrite forallb_forall in Hc. specialize (Hc (Z.to_nat n)).
    destruct (ursus_parse_fwtool_meta _); [|done]. discriminate Hc. apply in_seq. lia.
Qed.
Lemma fwtool_scan_bounds_witness :
  (exists buf, blen buf = 24 /\ ursus_parse_fwtool_meta buf = None) <-> 24 <= 24 < 32.
Proof. apply fwtool_scan_bounds. lia. Defined.
