(* ===== verification/WebAccept.v ===== *)
(** What acceptance of an uploaded image guarantees: the facts about the staged
    bytes that hold when [ursus_validate_staged] or [ursus_validate_expert_fit]
    returns success, and when the flags that guard the UBI installation are set. *)
From S2P Require Import Prelude Bytes Fip Flash Fit WebHeaders WebImage.

Section accept.
Context {P : Platform} {X : Ext} {T : FitLib}.

(** * The tar container *)

Definition kernel_ok (buf : list Z) (s : image_state) : Prop :=
  512 <= im_kernel_off s /\ 0 <= im_kernel_size s /\ im_kernel_off s + im_kernel_size s <= blen buf /\
  im_fit_valid s = (fst (ursus_verify_fit (slice (im_kernel_off s) (im_kernel_size s) buf)) =? 0) /\
  im_fit_hashes_valid s = snd (ursus_verify_fit (slice (im_kernel_off s) (im_kernel_size s) buf)).
Definition root_ok (buf : list Z) (s : image_state) : Prop :=
  512 <= im_root_off s /\ 4 <= im_root_size s /\ im_root_off s + im_root_size s <= blen buf /\
  take 4 (slice (im_root_off s) (im_root_size s) buf) = bytes_of "hsqs".
(** The kernel and the root filesystem lie in the image; the kernel is a FIT with
    valid hashes, the root a squashfs. *)
Definition factory_ok (buf : list Z) (s : image_state) : Prop :=
  kernel_ok buf s /\ im_fit_valid s = true /\ im_fit_hashes_valid s = true /\ root_ok buf s.

Lemma tar_octal_nonneg p : 0 <= ursus_tar_octal p.
Proof.
  unfold ursus_tar_octal. assert (H : 0 <= 0) by lia. revert H. generalize 0 at 2 4 as v.
  induction p as [|c p IH]; intros v Hv; simpl; [done|].
  destruct (_ || _); [by apply IH|]. destruct (_ || _); [done|]. apply IH. apply u64_range.
Qed.

(** What the loop keeps from one entry to the next. *)
Definition factory_inv (buf : list Z) (s : image_state) : Prop :=
  (im_kernel_found s = true -> kernel_ok buf s) /\
  (im_kernel_found s = false -> im_fit_valid s = false) /\
  (im_root_found s = true -> root_ok buf s).
(** Fields that belong to other checks. *)
Definition same_header (s s' : image_state) : Prop :=
  im_type s' = im_type s /\ im_addr s' = im_addr s /\ im_len s' = im_len s /\
  im_metadata_valid s' = im_metadata_valid s /\ im_device_compatible s' = im_device_compatible s.

Lemma same_header_refl s : same_header s s.
Proof. done. Qed.
Lemma same_header_trans s1 s2 s3 : same_header s1 s2 -> same_header s2 s3 -> same_header s1 s3.
Proof. unfold same_header. intuition congruence. Qed.

Lemma factory_loop_inv fuel buf pos s ret s' :
  0 <= pos -> factory_inv buf s -> factory_loop fuel buf pos s = (ret, s') ->
  same_header s s' /\ (ret = 0 -> factory_inv buf s').
Proof.
  revert pos s. induction fuel as [|fuel IH]; intros pos s Hpos HI; cbn [factory_loop].
  { by intros [= <- <-]. }
  destruct (_ && ursus_tar_magic _) eqn:Hm; [|by intros [= <- <-]].
  remember (ursus_tar_octal _) as sz eqn:Esz. pose proof (tar_octal_nonneg (slice 124 12 (drop (Z.to_nat pos) buf))) as Hsz.
  rewrite <- Esz in Hsz. remember (cstr _) as name eqn:En. clear En Esz Hm.
  destruct (Z.ltb_spec (blen buf) (pos + 512 + sz)); [by intros [= <- <-]|].
  remember (slice (pos + 512) sz buf) as body eqn:Eb.
  remember (pos + 512 + Z.land (sz + 511) (Z.lnot 511)) as next eqn:Enext. clear Enext.
  destruct HI as (Hk & Hk' & Hr).
  set (s1 := if ursus_name_ends name "/kernel" then _ else _).
  assert (H1 : same_header s s1 /\ (negb (ursus_name_ends name "/kernel") && ursus_name_ends name "/root" &&
      ((sz <? 4) || negb (memeq (take 4 body) (bytes_of "hsqs"))) = false -> factory_inv buf s1)).
  { subst s1. destruct s. cbn in Hk, Hk', Hr. destruct (ursus_name_ends name "/kernel").
    - split; [done|]. intros _. split; [|split]; cbn.
      + intros _. unfold kernel_ok. cbn. rewrite Eb. split_and!; try done; lia.
      + done.
      + exact Hr.
    - destruct (ursus_name_ends name "/root"); cbn [negb andb].
      + split; [done|]. rewrite orb_false_iff, negb_false_iff, memeq_eq. intros [H4 Hq].
        split; [exact Hk|split; [exact Hk'|]]. intros _. unfold root_ok. cbn. rewrite <- Eb.
        split_and!; try done; lia.
      + split; [done|]. intros _. done. }
  clearbody s1. destruct H1 as [Hs1 Hi1]. destruct (_ && _ && _) eqn:Hrt; [intros [= <- <-]; split; [done|by intros]|].
  specialize (Hi1 eq_refl). destruct (Z.leb_spec next pos); cbn [orb]; [by intros [= <- <-]|].
  destruct (blen buf <? next); [by intros [= <- <-]|]. intros Hl.
  apply IH in Hl as [H2 H3]; [|lia|done]. split; [by eapply same_header_trans|done].
Qed.

Lemma validate_factory_ok buf s ret s' :
  im_kernel_found s = false -> im_root_found s = false -> im_fit_valid s = false ->
  ursus_validate_factory buf s = (ret, s') ->
  same_header s s' /\ (ret = 0 -> factory_ok buf s').
Proof.
  intros Hk Hr Hf. unfold ursus_validate_factory.
  destruct (factory_loop _ buf 0 s) as [r s1] eqn:El. apply factory_loop_inv in El as [Hs HI]; [|lia|].
  2:{ unfold factory_inv. rewrite Hk, Hr, Hf. done. }
  destruct (nz r) eqn:Hz; [intros [= <- <-]; split; [done|]; apply nz_true in Hz; intros ->; done|].
  apply nz_false in Hz. destruct (_ || _) eqn:Hb; intros [= <- <-]; [done|]. split; [done|]. intros _.
  rewrite !orb_false_iff, !negb_false_iff in Hb. destruct Hb as [[[H1 H2] H3] H4].
  destruct (HI Hz) as (Ha & _ & Hc). unfold factory_ok. auto.
Qed.

(** The fuel is enough: more of it changes nothing. *)
Lemma factory_loop_fuel k d buf pos s :
  0 <= pos -> blen buf < pos + 512 * Z.of_nat k ->
  factory_loop (k + d) buf pos s = factory_loop k buf pos s.
Proof.
  revert pos s. induction k as [|k IH]; intros pos s Hpos Hk.
  - simpl. destruct d; [done|]. cbn [factory_loop]. destruct (Z.leb_spec (pos + 512) (blen buf)); [lia|done].
  - change (S k + d)%nat with (S (k + d)). cbn [factory_loop]. destruct (_ && _); [|done].
    remember (ursus_tar_octal _) as sz eqn:Esz. pose proof (tar_octal_nonneg (slice 124 12 (drop (Z.to_nat pos) buf))) as Hsz.
    rewrite <- Esz in Hsz. destruct (_ <? _); [done|]. destruct (_ && _); [done|].
    destruct (_ || _) eqn:Hn; [done|]. apply IH; [lia|].
    assert (0 <= Z.land (sz + 511) (Z.lnot 511)) by (apply Z.land_nonneg; left; lia). lia.
Qed.
Lemma validate_factory_fuel d buf s :
  factory_loop (length buf / 512 + 1 + d) buf 0 s = factory_loop (length buf / 512 + 1) buf 0 s.
Proof.
  apply factory_loop_fuel; [lia|]. unfold blen. pose proof (Nat.div_mod_eq (length buf) 512).
  pose proof (Nat.mod_upper_bound (length buf) 512). lia.
Qed.

(** * FIT *)

(** The default configuration names an ARM64 kernel and a device tree for one of
    the two boards, and the flags of [s] say which. *)
Definition platform_ok (fit : list Z) (s : image_state) : Prop :=
  let conf := fit_conf_get_node fit in
  0 <= conf /\
  fit_image_get_arch fit (fit_conf_get_prop_node fit conf "kernel") = Some IH_ARCH_ARM64 /\
  fit_image_get_type fit (fit_conf_get_prop_node fit conf "fdt") = Some IH_TYPE_FLATDT /\
  exists off len poff compat,
    fit_image_get_data fit (fit_conf_get_prop_node fit conf "fdt") = Some (off, len) /\
    fdt_getprop (slice off len fit) 0 "compatible" = Some (poff, compat) /\
    im_fdt_is_stock s = fdt_stringlist_contains compat "nokia,xg-040g-md" /\
    im_fdt_is_ubi s = fdt_stringlist_contains compat "nokia,xg-040g-md-ubi" /\
    (im_fdt_is_stock s = true \/ im_fdt_is_ubi s = true).

(** What the FIT inspection leaves alone. *)
Definition same_fit (s s' : image_state) : Prop :=
  same_header s s' /\ im_fit_valid s' = im_fit_valid s /\ im_fit_hashes_valid s' = im_fit_hashes_valid s.

Lemma inspect_node_same fit s n : same_fit s (inspect_node fit s n).
Proof.
  unfold inspect_node. destruct s. cbn. destruct (fit_image_get_data fit n) as [[? ?]|]; [|done].
  repeat case_match; done.
Qed.
Lemma same_fit_trans s1 s2 s3 : same_fit s1 s2 -> same_fit s2 s3 -> same_fit s1 s3.
Proof. unfold same_fit, same_header. intuition congruence. Qed.
Lemma inspect_fit_same fit s : same_fit s (ursus_inspect_fit_images fit s).
Proof.
  unfold ursus_inspect_fit_images. destruct (_ <? 0); [done|].
  generalize (fdt_subnodes fit (fdt_path_offset fit "/images")) as l. intros l. revert s.
  induction l as [|n l IH]; intros s; cbn [fold_left]; [done|].
  eapply same_fit_trans; [apply inspect_node_same|apply IH].
Qed.

Lemma wp_on_img f (Q : unit -> val_t -> Prop) h c :
  Q tt (h, MkVal (f (v_img c)) (v_log c)) -> wp (on_img f) Q (h, c).
Proof. intros H. unfold on_img. by wps. Qed.
Lemma wp_logf l (Q : unit -> val_t -> Prop) h c :
  Q tt (h, MkVal (v_img c) (ursus_logf (fmt l) (v_log c))) -> wp (logf l) Q (h, c).
Proof. intros H. unfold logf. by wps. Qed.
Lemma wp_verdict ret cls r (Q : Z -> val_t -> Prop) h c :
  Q ret (h, MkVal (ursus_set_reason cls r (v_img c)) (v_log c)) -> wp (verdict ret cls r) Q (h, c).
Proof. intros H. unfold verdict. wps. apply wp_on_img. by wps. Qed.

Lemma check_platform_fdt_ok fdt h c :
  wp (check_platform_fdt fdt) (fun r s => same_fit (v_img c) (v_img (snd s)) /\
    (r = 0 -> exists poff compat, fdt_getprop fdt 0 "compatible" = Some (poff, compat) /\
       im_fdt_is_stock (v_img (snd s)) = fdt_stringlist_contains compat "nokia,xg-040g-md" /\
       im_fdt_is_ubi (v_img (snd s)) = fdt_stringlist_contains compat "nokia,xg-040g-md-ubi" /\
       (im_fdt_is_stock (v_img (snd s)) = true \/ im_fdt_is_ubi (v_img (snd s)) = true))) (h, c).
Proof.
  unfold check_platform_fdt. destruct (_ || _); [by wps|]. apply wp_bind, wp_on_img.
  destruct c as [i lg]. cbn [v_img v_log]. destruct (fdt_getprop fdt 0 "compatible") as [[po compat]|]; [|wps; by destruct i].
  destruct (blen compat <=? 0); [wps; by destruct i|]. apply wp_bind, wp_on_img. cbn [v_img v_log].
  destruct (fdt_stringlist_contains compat "nokia,xg-040g-md") eqn:E1,
    (fdt_stringlist_contains compat "nokia,xg-040g-md-ubi") eqn:E2; cbn [negb andb];
    try (apply wp_bind, wp_on_img); wps; destruct i; split; try done; intros _;
    exists po, compat; cbn; rewrite ?E1, ?E2; auto.
Qed.

Lemma fit_default_platform_ok addr fit h c :
  wp (ursus_fit_default_platform addr fit) (fun r s => same_fit (v_img c) (v_img (snd s)) /\
    (r = 0 -> platform_ok fit (v_img (snd s)))) (h, c).
Proof.
  unfold ursus_fit_default_platform.
  destruct (Z.ltb_spec (fit_conf_get_node fit) 0) as [|H0]; [by wps|]. destruct (_ || _); [by wps|].
  destruct (bool_decide (fit_image_get_arch _ _ = _)) eqn:Ha; cbn [negb]; [|by wps].
  apply wp_bind, wp_on_img. destruct c as [i lg]. cbn [v_img v_log].
  assert (Hs : same_fit i (set_kernel_arch_valid true i)) by (by destruct i).
  destruct (bool_decide (fit_image_get_type _ _ = _)) eqn:Ht; cbn [negb]; [|by wps].
  destruct (fit_image_get_data fit _) as [[off len]|] eqn:Hd; [|by wps].
  destruct (len <? FDT_HDR); [by wps|].
  assert (Hp : forall h lg, wp (check_platform_fdt (slice off len fit))
    (fun r s => same_fit i (v_img (snd s)) /\ (r = 0 -> platform_ok fit (v_img (snd s))))
    (h, MkVal (set_kernel_arch_valid true i) lg)).
  { intros h' lg'. eapply wp_mono; [apply check_platform_fdt_ok|]. intros r [h2 c2]; cbn [fst snd v_img].
    intros [Hsame H]. split; [by eapply same_fit_trans|]. intros Hr. destruct (H Hr) as (po & compat & Hg & H1).
    unfold platform_ok. apply bool_decide_eq_true_1 in Ha, Ht. split_and!; [done|done|done|]. by exists off, len, po, compat. }
  destruct (nz _); [|apply Hp]. wps. unfold malloc, next_out. apply wp_bind, wp_intro. intros o h' _. wps.
  destruct (nz (o_err o)); cbn [negb]; [by wps|]. wps. apply wp_logf, Hp.
Qed.

(** * The main channel *)

(** A complete fwtool record for the right device, and the container it is for. *)
Definition accepted (buf : list Z) (layout : string) (i : image_state) : Prop :=
  exists m, ursus_parse_fwtool_meta buf = Some (0, m) /\
    found m = true /\ crc_ok m = true /\ supported_devices_present m = true /\
    ((im_type i = URSUS_IMG_NONUBI_SYSUPGRADE /\ device_factory m = true /\ factory_ok buf i) \/
     (im_type i = URSUS_IMG_UBI_SYSUPGRADE /\ device_ubi m = true /\ ursus_verify_fit buf = (0, true) /\
      platform_ok buf i /\ im_fdt_is_ubi i = true /\ layout_ubi layout || layout_stock layout = true)).

Lemma fwtool_meta_found buf r m :
  ursus_parse_fwtool_meta buf = Some (r, m) -> (nz r = false /\ found m = true) \/ (nz r = true /\ m = no_meta).
Proof.
  unfold ursus_parse_fwtool_meta. destruct (_ <? 24); [intros [= <- <-]; by right|].
  generalize (Z.to_nat (blen buf - 16)) as pos. intros pos.
  assert (Hat : forall z, fwtool_at buf z = Some (r, m) -> (nz r = false /\ found m = true) \/ (nz r = true /\ m = no_meta)).
  { intros z. unfold fwtool_at. destruct (_ && _); [|done]. destruct (_ <? 8); [intros [= <- <-]; by right|].
    destruct (ursus_json_exact_supported_devices _) as [? [? ?]]. intros [= <- <-]. by left. }
  induction pos as [|pos IH]; cbn [fwtool_scan].
  - destruct (fwtool_at buf _) as [[r' m']|] eqn:E; [intros [= -> ->]; eauto|].
    destruct (_ =? _); [intros [= <- <-]; by right|done].
  - destruct (fwtool_at buf _) as [[r' m']|] eqn:E; [intros [= -> ->]; eauto|].
    destruct (_ =? _); [intros [= <- <-]; by right|done].
Qed.

(** What a verdict establishes of the image state. *)
Definition judged (buf : list Z) (layout : string) (addr : Z) (r : Z) (i : image_state) : Prop :=
  im_addr i = addr /\ im_len i = blen buf /\ (r = 0 \/ im_reason_class i = URSUS_RC_OK -> accepted buf layout i).

Lemma judged_reject buf layout addr r cls reason i :
  im_addr i = addr -> im_len i = blen buf -> r <> 0 -> String.substring 0 31 cls <> URSUS_RC_OK ->
  judged buf layout addr r (ursus_set_reason cls reason i).
Proof.
  intros Ha Hl Hr Hc. unfold judged. destruct i. cbn in Ha, Hl. split_and!; [done|done|]. by intros [?|Hu].
Qed.
Lemma ubi_ready_reason i : ubi_image_ready i = true -> im_reason_class i = URSUS_RC_OK.
Proof. unfold ubi_image_ready. rewrite !andb_true_iff, !bool_decide_eq_true. tauto. Qed.

(** A state that only has its place and the metadata flags. *)
Definition fresh (addr : Z) (buf : list Z) (i : image_state) : Prop :=
  im_addr i = addr /\ im_len i = blen buf /\ im_kernel_found i = false /\ im_root_found i = false /\
  im_fit_valid i = false /\ im_type i = URSUS_IMG_NONE.

Lemma accepted_reason buf layout i cls reason :
  accepted buf layout i -> accepted buf layout (ursus_set_reason cls reason i).
Proof. by destruct i. Qed.
Lemma judged_accept buf layout addr cls reason i :
  im_addr i = addr -> im_len i = blen buf -> accepted buf layout i ->
  judged buf layout addr 0 (ursus_set_reason cls reason i).
Proof. intros Ha Hl Hc. split_and!; [by destruct i|by destruct i|]. intros _. by apply accepted_reason. Qed.

Lemma nonubi_judged addr buf m layout h c :
  fresh addr buf (v_img c) -> (exists r, ursus_parse_fwtool_meta buf = Some (r, m)) ->
  wp (nonubi_verdict buf m layout) (fun r s => judged buf layout addr r (v_img (snd s))) (h, c).
Proof.
  intros (Ha & Hl & Hk & Hr & Hf & _) [mr Hm]. unfold nonubi_verdict. apply wp_bind, wp_on_img. wps.
  destruct c as [i lg]. cbn [v_img v_log] in *.
  destruct (ursus_validate_factory buf _) as [ret s1] eqn:Ev.
  apply validate_factory_ok in Ev as [(Ht & Hsa & Hsl & _ & Hdc) Hok]; try (by destruct i).
  assert (Ha1 : im_addr s1 = addr) by (destruct i; by rewrite Hsa).
  assert (Hl1 : im_len s1 = blen buf) by (destruct i; by rewrite Hsl).
  assert (Ht1 : im_type s1 = URSUS_IMG_NONUBI_SYSUPGRADE) by (destruct i; by rewrite Ht).
  assert (Hd1 : im_device_compatible s1 = device_factory m) by (destruct i; by rewrite Hdc).
  apply wp_bind, wp_on_img. cbn [v_img v_log].
  assert (Hrej : forall ret cls r h lg, ret <> 0 -> String.substring 0 31 cls <> URSUS_RC_OK ->
    wp (verdict ret cls r) (fun r s => judged buf layout addr r (v_img (snd s))) (h, MkVal s1 lg)).
  { intros. apply wp_verdict. by apply judged_reject. }
  destruct (nz ret) eqn:Hz; [apply Hrej; [by apply nz_true|done]|]. apply nz_false in Hz.
  destruct (negb (found m) || _ || _) eqn:Hfm; [by apply Hrej|].
  destruct (im_device_compatible s1) eqn:Hdev; cbn [negb]; [|by apply Hrej].
  rewrite !orb_false_iff, !negb_false_iff in Hfm. destruct Hfm as [[Hf1 Hf2] Hf3].
  assert (Hacc : accepted buf layout s1).
  { exists m. apply fwtool_meta_found in Hm as Hm'. destruct Hm' as [[Hz0 _]|[_ ->]]; [|done].
    apply nz_false in Hz0 as ->. split_and!; try done. left. split_and!; [done|congruence|by apply Hok]. }
  destruct (negb (layout_stock layout)); apply wp_verdict; by apply judged_accept.
Qed.

Lemma ubi_judged addr buf m layout h c :
  im_addr (v_img c) = addr -> im_len (v_img c) = blen buf ->
  (exists r, ursus_parse_fwtool_meta buf = Some (r, m)) -> found m = true -> ursus_verify_fit buf = (0, true) ->
  wp (ubi_verdict addr buf m layout) (fun r s => judged buf layout addr r (v_img (snd s))) (h, c).
Proof.
  intros Ha Hl [mr Hm] Hfound Hv. unfold ubi_verdict. apply wp_bind, wp_on_img. destruct c as [i lg]. cbn [v_img v_log] in *.
  remember (ursus_inspect_fit_images buf (set_type URSUS_IMG_UBI_SYSUPGRADE i)) as i1 eqn:E1.
  assert (Hs1 : same_fit (set_type URSUS_IMG_UBI_SYSUPGRADE i) i1) by (rewrite E1; apply inspect_fit_same). clear E1.
  apply wp_bind. eapply wp_mono; [apply fit_default_platform_ok|]. cbn beta. intros pret [h2 [i2 lg2]]; cbn [fst snd v_img v_log].
  intros [Hs2 Hp]. pose proof (same_fit_trans _ _ _ Hs1 Hs2) as [(Ht & Hsa & Hsl & _ & _) _]. clear Hs1 Hs2.
  apply wp_bind, wp_on_img. cbn [v_img v_log]. wps. cbn [v_img].
  remember (set_device_compatible (device_ubi m) i2) as i3 eqn:E3.
  assert (Ha3 : im_addr i3 = addr) by (rewrite E3; destruct i, i2; cbn in *; congruence).
  assert (Hl3 : im_len i3 = blen buf) by (rewrite E3; destruct i, i2; cbn in *; congruence).
  assert (Ht3 : im_type i3 = URSUS_IMG_UBI_SYSUPGRADE) by (rewrite E3; destruct i, i2; cbn in *; congruence).
  assert (Hd3 : im_device_compatible i3 = device_ubi m) by (rewrite E3; by destruct i2).
  assert (Hp3 : pret = 0 -> platform_ok buf i3) by (intros H; rewrite E3; destruct i2; by apply Hp).
  clear E3 Hp Hsa Hsl Ht. clear i2 Ha Hl.
  assert (Hrej : forall ret cls r, ret <> 0 -> String.substring 0 31 cls <> URSUS_RC_OK ->
    wp (verdict ret cls r) (fun r s => judged buf layout addr r (v_img (snd s))) (h2, MkVal i3 lg2)).
  { intros. apply wp_verdict. apply judged_reject; auto. }
  destruct (negb (crc_ok m) || _) eqn:Hfm; [by apply Hrej|].
  destruct (negb (im_kernel_found i3) || _ || _ || _ || _); [by apply Hrej|].
  destruct (negb (im_device_compatible i3) || _ || _) eqn:Hdev; [by apply Hrej|].
  rewrite !orb_false_iff, !negb_false_iff in Hfm. destruct Hfm as [Hf1 Hf2].
  rewrite !orb_false_iff, !negb_false_iff in Hdev. destruct Hdev as [[Hv1 Hv2] Hv3].
  apply nz_false in Hv2.
  assert (Hacc : layout_ubi layout || layout_stock layout = true -> accepted buf layout i3).
  { intros Hlay. exists m. apply fwtool_meta_found in Hm as Hm'. destruct Hm' as [[Hz0 _]|[_ ->]]; [|done].
    apply nz_false in Hz0 as ->. split_and!; try done. right. split_and!; try done; [congruence|by apply Hp3]. }
  destruct (layout_ubi layout) eqn:Hlu; [apply wp_verdict, judged_accept; auto|].
  destruct (layout_stock layout) eqn:Hls; [apply wp_verdict, judged_accept; auto|]. by apply Hrej.
Qed.

Lemma staged_judged addr buf m layout h c :
  fresh addr buf (v_img c) -> (exists r, ursus_parse_fwtool_meta buf = Some (r, m)) ->
  wp (staged_verdict addr buf m layout) (fun r s => judged buf layout addr r (v_img (snd s))) (h, c).
Proof.
  intros Hfr Hm. unfold staged_verdict. destruct (ursus_tar_magic buf); [by apply nonubi_judged|].
  destruct Hfr as (Ha & Hl & Hk & Hr & Hf & Ht). destruct c as [i lg]. cbn [v_img v_log] in *.
  assert (Hrej : forall ret cls r h lg t, ret <> 0 -> String.substring 0 31 cls <> URSUS_RC_OK ->
    wp (on_img (set_type t) ;;; verdict ret cls r) (fun r s => judged buf layout addr r (v_img (snd s))) (h, MkVal i lg)).
  { intros. apply wp_bind, wp_on_img, wp_verdict, judged_reject; try done; by destruct i. }
  destruct (_ && (_ =? UBI_EC_MAGIC)); [by apply Hrej|].
  destruct (_ && (_ =? FDT_MAGIC)); [|by apply Hrej].
  unfold fit_verdict. destruct (ursus_verify_fit buf) as [vret fh] eqn:Hv. apply wp_bind, wp_on_img. cbn [v_img v_log].
  destruct (nz vret) eqn:Hz.
  { apply nz_true in Hz. apply wp_bind, wp_on_img.
    destruct (_ =? _); apply wp_verdict, judged_reject; try done; by destruct i. }
  apply nz_false in Hz as ->.
  assert (fh = true) as ->.
  { unfold ursus_verify_fit in Hv. repeat case_match; simplify_eq; try done. by rewrite nz_true in *. }
  destruct (found m) eqn:Hfound; cbn [negb].
  - apply ubi_judged; try done; by destruct i.
  - apply wp_bind, wp_on_img. cbn [v_img v_log]. apply wp_bind.
    eapply wp_mono; [apply fit_default_platform_ok|]. cbn beta. intros pret [h2 [i2 lg2]]; cbn [fst snd v_img v_log].
    intros [Hs2 _]. wps. cbn [v_img].
    pose proof (inspect_fit_same buf (set_type URSUS_IMG_FACTORY_KERNEL (set_fit_hashes_valid true (set_fit_valid (0 =? 0) i)))) as Hs1.
    pose proof (same_fit_trans _ _ _ Hs1 Hs2) as [(Ht2 & Hsa & Hsl & _ & _) _].
    apply wp_verdict, judged_reject; cbn [v_img]; try done.
    + rewrite Hsa. by destruct i.
    + rewrite Hsl. by destruct i.
Qed.

Lemma wp_staged_report layout ret (Q : option Z -> val_t -> Prop) h c :
  (forall lg, Q (Some ret) (h, MkVal (v_img c) lg)) -> wp (staged_report layout ret) Q (h, c).
Proof.
  intros HQ. unfold staged_report. wps. apply wp_logf. wps. apply wp_logf. wps. apply HQ.
Qed.

Lemma validate_staged_sound addr buf layout h c :
  wp (ursus_validate_staged addr buf layout) (fun r s => forall ret, r = Some ret ->
    judged buf layout addr ret (v_img (snd s))) (h, c).
Proof.
  unfold ursus_validate_staged. wps. apply wp_on_img. wps. apply wp_logf. cbn [v_img v_log].
  remember (set_len (blen buf) (set_addr addr ursus_reset_image_state)) as i eqn:Ei.
  assert (Hfr : fresh addr buf i) by (by rewrite Ei). generalize (ursus_logf (fmt [FL "FIRMWARE VALIDATION: bytes="; FD (u32 (blen buf)); FL " channel=MAIN layout="; str layout; FNL]) (v_log c)) as lg. intros lg.
  assert (Hrej : forall ret cls r, ret <> 0 -> String.substring 0 31 cls <> URSUS_RC_OK -> wp (let* ret := verdict ret cls r in staged_report layout ret)
      (fun r s => forall ret, r = Some ret -> judged buf layout addr ret (v_img (snd s))) (h, MkVal i lg)).
  { intros ret cls r Hr Hcls. apply wp_bind, wp_verdict, wp_staged_report. cbn. intros lg' ret' [= <-].
    destruct Hfr as (Ha & Hl & _). by apply judged_reject. }
  destruct (_ || _); [by apply Hrej|]. destruct (_ <? _); [by apply Hrej|].
  destruct (ursus_parse_fwtool_meta buf) as [[mret m]|] eqn:Hm; [|wps; by intros].
  apply wp_bind. assert (Hgo : forall i, fresh addr buf i -> wp (let* ret := staged_verdict addr buf m layout in staged_report layout ret)
      (fun r s => forall ret, r = Some ret -> judged buf layout addr ret (v_img (snd s))) (h, MkVal i lg)).
  { intros i' Hf. apply wp_bind. eapply wp_mono; [apply staged_judged; [done|by exists mret]|]. cbn beta.
    intros r [h2 c2] Hj. apply wp_staged_report. intros lg' ret [= <-]. exact Hj. }
  destruct (nz mret); [by apply wp_ret, Hgo|]. apply wp_on_img, Hgo. cbn [v_img]. by rewrite Ei.
Qed.

(** * The expert channel *)

(** A bootable image: hashes, architecture and board checked, for this layout. *)
Definition expert_ok (buf : list Z) (layout : string) (i : image_state) : Prop :=
  ursus_verify_fit buf = (0, true) /\ platform_ok buf i /\
  (layout_ubi layout = true -> im_fdt_is_ubi i = true) /\
  (layout_stock layout = true -> im_fdt_is_stock i = true).
Definition expert_judged (buf : list Z) (layout : string) (addr r : Z) (i : image_state) : Prop :=
  im_addr i = addr /\ im_len i = blen buf /\ (r = 0 <-> im_bootable_fit i = true) /\
  (r = 0 -> expert_ok buf layout i).

Lemma expert_reject buf layout addr r cls reason i :
  im_addr i = addr -> im_len i = blen buf -> im_bootable_fit i = false -> r <> 0 ->
  expert_judged buf layout addr r (ursus_set_reason cls reason i).
Proof. intros Ha Hl Hb Hr. destruct i. cbn in *. split_and!; cbn; try done. by rewrite Hb. Qed.

Lemma platform_bootable addr fit h c :
  wp (ursus_fit_default_platform addr fit)
    (fun _ s => im_bootable_fit (v_img (snd s)) = im_bootable_fit (v_img c)) (h, c).
Proof.
  unfold ursus_fit_default_platform, check_platform_fdt. destruct c as [i lg].
  repeat first
    [ apply wp_on_img | apply wp_logf | progress wps
    | match goal with |- wp (if ?b then _ else _) _ _ => destruct b end
    | match goal with |- wp (match ?x with _ => _ end) _ _ => destruct x as [[? ?]|] end
    | progress (unfold malloc, next_out; apply wp_bind, wp_intro; intros ? ? _)
    | progress cbn [v_img v_log] ]; by destruct i.
Qed.
Lemma inspect_bootable fit s : im_bootable_fit (ursus_inspect_fit_images fit s) = im_bootable_fit s.
Proof.
  unfold ursus_inspect_fit_images. destruct (_ <? 0); [done|].
  generalize (fdt_subnodes fit (fdt_path_offset fit "/images")) as l. intros l. revert s.
  induction l as [|n l IH]; intros s; cbn [fold_left]; [done|]. rewrite IH.
  unfold inspect_node. destruct s. cbn. destruct (fit_image_get_data fit n) as [[? ?]|]; [|done].
  repeat case_match; done.
Qed.

Lemma expert_verdict_judged addr buf layout h c :
  im_addr (v_img c) = addr -> im_len (v_img c) = blen buf -> im_bootable_fit (v_img c) = false ->
  wp (expert_verdict addr buf layout) (fun r s => expert_judged buf layout addr r (v_img (snd s))) (h, c).
Proof.
  intros Ha Hl Hb. unfold expert_verdict. destruct c as [i lg]. cbn [v_img v_log] in *.
  destruct (_ || _); [by apply wp_verdict, expert_reject|]. destruct (_ <? _); [by apply wp_verdict, expert_reject|].
  destruct (_ || _); [by apply wp_verdict, expert_reject|].
  destruct (ursus_verify_fit buf) as [ret ok] eqn:Hv. apply wp_bind, wp_on_img. cbn [v_img v_log].
  assert (Hset : forall h lg i r cls reason, im_addr i = addr -> im_len i = blen buf -> im_bootable_fit i = false -> r <> 0 ->
    wp (on_img (set_type URSUS_IMG_INVALID) ;;; verdict r cls reason)
      (fun r s => expert_judged buf layout addr r (v_img (snd s))) (h, MkVal i lg)).
  { intros. apply wp_bind, wp_on_img, wp_verdict, expert_reject; cbn [v_img]; try done; by destruct i0. }
  destruct (nz ret) eqn:Hz.
  { apply nz_true in Hz. destruct (ret =? - EBADMSG); apply Hset; try done; by destruct i. }
  apply nz_false in Hz as ->.
  assert (ok = true) as ->.
  { unfold ursus_verify_fit in Hv. repeat case_match; simplify_eq; try done. by rewrite nz_true in *. }
  apply wp_bind, wp_on_img. cbn [v_img v_log].
  remember (ursus_inspect_fit_images buf (set_fit_hashes_valid true (set_fit_valid (0 =? 0) i))) as i1 eqn:E1.
  assert (Hs1 : same_fit (set_fit_hashes_valid true (set_fit_valid (0 =? 0) i)) i1) by (rewrite E1; apply inspect_fit_same).
  assert (Hb1 : im_bootable_fit i1 = false) by (rewrite E1, inspect_bootable; by destruct i). clear E1.
  apply wp_bind. eapply wp_mono; [apply wp_and; [apply fit_default_platform_ok|apply platform_bootable]|].
  cbn beta. intros pret [h2 [i2 lg2]]; cbn [fst snd v_img v_log]. intros [[Hs2 Hp] Hb2]. rewrite Hb1 in Hb2.
  pose proof (same_fit_trans _ _ _ Hs1 Hs2) as [(Ht & Hsa & Hsl & _ & _) _]. clear Hs1 Hs2 Hb1.
  assert (Ha2 : im_addr i2 = addr) by (rewrite Hsa; by destruct i).
  assert (Hl2 : im_len i2 = blen buf) by (rewrite Hsl; by destruct i). clear Hsa Hsl Ht.
  destruct (_ || _) eqn:He.
  { apply Hset; try done. apply orb_true_iff in He. rewrite !Z.eqb_eq in He. destruct He as [-> | ->]; done. }
  destruct (nz pret) eqn:Hz; [apply Hset; try done; by apply nz_true|]. apply nz_false in Hz. specialize (Hp Hz).
  wps. cbn [v_img]. destruct (layout_ubi layout && _ || _) eqn:Hlay; [by apply Hset|].
  apply wp_bind, wp_on_img, wp_verdict. cbn [v_img].
  rewrite orb_false_iff, !andb_false_iff, !negb_false_iff in Hlay.
  destruct i2. cbn in *. split_and!; cbn; try done. intros _. unfold expert_ok. cbn. split_and!; try done; intuition congruence.
Qed.

Lemma validate_expert_sound addr buf layout h c :
  wp (ursus_validate_expert_fit addr buf layout)
    (fun r s => expert_judged buf layout addr r (v_img (snd s))) (h, c).
Proof.
  unfold ursus_validate_expert_fit. wps. apply wp_on_img. wps. apply wp_logf. wps.
  eapply wp_mono; [apply expert_verdict_judged; done|]. cbn beta. intros r [h2 c2] Hj. wps. apply wp_logf. by wps.
Qed.
End accept.
