(* ===== verification/Concat.v ===== *)
(** Concatenated MTD devices (drivers/mtd/mtdconcat.c): several devices behind
    one address range, with the entry points of drivers/mtd/mtdcore.c and the
    "mtd erase" command (cmd/mtd.c) on such a device.

    Devices of the model are writeable NAND partitions with one erase size and
    bad-block marks, so the checks on flags, OOB sizes and methods always agree;
    erase regions arise only from sub-devices whose erase sizes differ.  [None]
    as the result of an erase: the code stops in [BUG_ON]. *)
From S2P Require Import Prelude Bytes Flash Ubi Shell.

Record erase_region := MkRegion { er_offset : Z; er_erasesize : Z; er_numblocks : Z }.
Record mtd_concat := MkConcat {
  cc_name : string;
  cc_subdev : list mtd_info;
  cc_nand : bool;
  cc_size : Z;
  cc_erasesize : Z;
  cc_writesize : Z;
  cc_regions : list erase_region;
}.

(** * Creation *)

(** Number of erase regions and the largest erase size. *)
Fixpoint count_regions (curr num mx : Z) (subs : list mtd_info) : Z * Z :=
  match subs with
  | [] => (num, mx)
  | d :: subs' =>
    if m_erasesize d =? curr then count_regions curr num mx subs'
    else count_regions (m_erasesize d) (num + 1) (if mx <? m_erasesize d then m_erasesize d else mx) subs'
  end.
Fixpoint fill_regions (curr start position : Z) (subs : list mtd_info) : list erase_region :=
  match subs with
  | [] => [MkRegion start curr ((position - start) / curr)]
  | d :: subs' =>
    if m_erasesize d =? curr then fill_regions curr start (position + m_size d) subs'
    else MkRegion start curr ((position - start) / curr) ::
         fill_regions (m_erasesize d) position (position + m_size d) subs'
  end.
Definition compatible (d0 d : mtd_info) : bool :=
  Bool.eqb (m_nand d0) (m_nand d) && (m_writesize d0 =? m_writesize d).
Definition sum_sizes (subs : list mtd_info) : Z := foldr (fun d a => m_size d + a) 0 subs.

Section concat.
Context {P : Platform}.

Definition mtd_concat_create (subs : list mtd_info) (name : string) : ST hw (option mtd_concat) :=
  let* ok := malloc in
  if negb ok then sret None
  else match subs with
  | [] => sret None
  | d0 :: _ =>
    if negb (forallb (compatible d0) subs) then sret None
    else
      let size := u64 (sum_sizes subs) in
      let '(num, mx) := count_regions (m_erasesize d0) 1 (m_erasesize d0) subs in
      if num =? 1 then sret (Some (MkConcat name subs (m_nand d0) size (m_erasesize d0) (m_writesize d0) []))
      else
        let* ok := malloc in
        if negb ok then sret None
        else sret (Some (MkConcat name subs (m_nand d0) size mx (m_writesize d0)
                           (fill_regions (m_erasesize d0) 0 0 subs)))
  end.

(** Registration fails when no index can be allocated. *)
Definition add_mtd_device (c : mtd_concat) : ST hw Z :=
  let* ok := malloc in sret (if ok then 0 else 1).

(** * Transfers *)

(** Into RAM at [buf]; return code and [retlen].  An uncorrectable error is kept
    until the end and a corrected one does not hide it; others end the loop. *)
Fixpoint concat_read_loop (subs : list mtd_info) (from len ret retlen buf : Z) : ST hw (Z * Z) :=
  match subs with
  | [] => sret (- EINVAL, retlen)
  | d :: subs' =>
    if m_size d <=? from then concat_read_loop subs' (from - m_size d) len ret retlen buf
    else
      let size := if m_size d <? u64 (from + len) then m_size d - from else len in
      let* r := mtd_read d from size in
      let '(err, data) := r in
      ram_write buf data ;;;
      if nz err && negb (err =? - EBADMSG) && negb (err =? - EUCLEAN) then sret (err, retlen)
      else
        let ret := if err =? - EBADMSG then err
                   else if (err =? - EUCLEAN) && negb (nz ret) then err else ret in
        let retlen := retlen + blen data in
        let len := len - size in
        if len =? 0 then sret (ret, retlen)
        else concat_read_loop subs' 0 len ret retlen (buf + size)
  end.
Definition concat_read (c : mtd_concat) (from len buf : Z) : ST hw (Z * Z) :=
  concat_read_loop (cc_subdev c) from len 0 0 buf.

Fixpoint concat_write_loop (subs : list mtd_info) (to : Z) (buf : list Z) (retlen : Z) : ST hw (Z * Z) :=
  match subs with
  | [] => sret (- EINVAL, retlen)
  | d :: subs' =>
    if m_size d <=? to then concat_write_loop subs' (to - m_size d) buf retlen
    else
      let len := blen buf in
      let size := if m_size d <? u64 (to + len) then m_size d - to else len in
      let* r := mtd_write d to (slice 0 size buf) in
      let '(err, retsize) := r in
      if nz err then sret (err, retlen)
      else
        let retlen := retlen + retsize in
        if len - size =? 0 then sret (0, retlen)
        else concat_write_loop subs' 0 (drop (Z.to_nat size) buf) retlen
  end.
Definition concat_write (c : mtd_concat) (to : Z) (buf : list Z) : ST hw (Z * Z) :=
  concat_write_loop (cc_subdev c) to buf 0.

(** * Erase *)

(** The leading regions that start at or before [x]. *)
Fixpoint regions_upto (x : Z) (l : list erase_region) : Z :=
  match l with
  | [] => 0
  | r :: l' => if er_offset r <=? x then 1 + regions_upto x l' else 0
  end.
Definition region_misaligned (x i : Z) (l : list erase_region) : bool :=
  (i <? 0) || match l !! Z.to_nat i with
              | Some r => nz (Z.land x (er_erasesize r - 1))
              | None => false
              end.
Definition erase_misaligned (c : mtd_concat) (addr len : Z) : bool :=
  match cc_regions c with
  | [] => nz (Z.land addr (cc_erasesize c - 1)) || nz (Z.land len (cc_erasesize c - 1))
  | l =>
    let i := regions_upto addr l - 1 in
    let fin := u64 (addr + len) in
    region_misaligned addr i l ||
    region_misaligned fin (i + regions_upto fin (drop (Z.to_nat i) l) - 1) l
  end.

(** The sub-devices from the one that holds [addr] on, and the address in it. *)
Fixpoint concat_find (subs : list mtd_info) (addr : Z) : option (list mtd_info * Z) :=
  match subs with
  | [] => None
  | d :: subs' => if m_size d <=? addr then concat_find subs' (addr - m_size d) else Some (subs, addr)
  end.
Fixpoint concat_erase_loop (subs : list mtd_info) (addr length : Z) : ST hw (option Z) :=
  match subs with
  | [] => sret (if length =? 0 then Some 0 else None)
  | d :: subs' =>
    if length =? 0 then sret (Some 0)
    else
      let len := if m_size d <? u64 (addr + length) then m_size d - addr else length in
      let* err := mtd_erase d addr len in
      if nz err then sret (if err =? - EINVAL then None else Some err)
      else concat_erase_loop subs' 0 (length - len)
  end.
Definition concat_erase (c : mtd_concat) (addr len : Z) : ST hw (option Z) :=
  if erase_misaligned c addr len then sret (Some (- EINVAL))
  else
    let* ok := malloc in
    if negb ok then sret (Some (- ENOMEM))
    else match concat_find (cc_subdev c) addr with
    | None => sret None
    | Some (subs, addr) => concat_erase_loop subs addr len
    end.

(** * Bad blocks *)

Fixpoint concat_isbad_loop (subs : list mtd_info) (ofs : Z) : ST hw Z :=
  match subs with
  | [] => sret 0
  | d :: subs' => if m_size d <=? ofs then concat_isbad_loop subs' (ofs - m_size d) else mtd_block_isbad d ofs
  end.
Definition concat_block_isbad (c : mtd_concat) (ofs : Z) : ST hw Z := concat_isbad_loop (cc_subdev c) ofs.

(** * The entry points of the MTD core *)

(** The device has no ECC of its own, so a non-negative result is 0. *)
Definition mtd_read_c (c : mtd_concat) (from len buf : Z) : ST hw (Z * Z) :=
  if (from <? 0) || (cc_size c <? from) || (cc_size c - from <? len) then sret (- EINVAL, 0)
  else if len =? 0 then sret (0, 0)
  else
    let* r := concat_read c from len buf in
    sret (if fst r <? 0 then fst r else 0, snd r).
Definition mtd_write_c (c : mtd_concat) (to : Z) (buf : list Z) : ST hw (Z * Z) :=
  if (to <? 0) || (cc_size c <? to) || (cc_size c - to <? blen buf) then sret (- EINVAL, 0)
  else if blen buf =? 0 then sret (0, 0)
  else concat_write c to buf.
Definition mtd_erase_c (c : mtd_concat) (addr len : Z) : ST hw (option Z) :=
  if (cc_size c <? addr) || (cc_size c - addr <? len) then sret (Some (- EINVAL))
  else if len =? 0 then sret (Some 0)
  else concat_erase c addr len.
Definition mtd_block_isbad_c (c : mtd_concat) (ofs : Z) : ST hw Z :=
  if (ofs <? 0) || (cc_size c <? ofs) then sret (- EINVAL) else concat_block_isbad c ofs.

(** * The "mtd erase" command *)

Fixpoint mtd_erase_loop_c (fuel : nat) (c : mtd_concat) (addr len ret : Z) : ST hw (option Z) :=
  if len =? 0 then sret (Some (if nz ret && negb (ret =? - EIO) then CMD_RET_FAILURE else CMD_RET_SUCCESS))
  else match fuel with
  | O => sret (Some CMD_RET_FAILURE)
  | S fuel' =>
    let* bad := mtd_block_isbad_c c addr in
    if bad <? 0 then sret (Some CMD_RET_FAILURE)
    else if 0 <? bad then mtd_erase_loop_c fuel' c (addr + cc_erasesize c) (len - cc_erasesize c) 0
    else
      let* ret := mtd_erase_c c addr (cc_erasesize c) in
      match ret with
      | None => sret None
      | Some ret =>
        if nz ret && negb (ret =? - EIO) then sret (Some CMD_RET_FAILURE)
        else mtd_erase_loop_c fuel' c (addr + cc_erasesize c) (len - cc_erasesize c) ret
      end
  end.
Definition do_mtd_erase_c (c : mtd_concat) (off len : Z) : ST hw (option Z) :=
  if nz (off `mod` cc_erasesize c) || nz (len `mod` cc_erasesize c) then sret (Some CMD_RET_FAILURE)
  else mtd_erase_loop_c (Z.to_nat (len / cc_erasesize c)) c off len 0.
End concat.
