(* ===== verification/ConcatThms.v ===== *)
(** A concatenated device is a flat device: an address of the concatenation
    stands for one cell of one sub-device, a read delivers the cells of its range
    in order, an erase clears exactly the cells of its range, and no request that
    the MTD core lets through runs into [BUG_ON] by itself. *)
From S2P Require Import Prelude Bytes Flash Ubi Shell ReadOnly Concat Bench.

(** * The specification *)

(** The cell an address stands for. *)
Fixpoint concat_addr (subs : list mtd_info) (x : Z) : option Z :=
  match subs with
  | [] => None
  | d :: subs' => if m_size d <=? x then concat_addr subs' (x - m_size d) else Some (m_off d + x)
  end.
(** The contents of the flat device. *)
Definition flat (nand : Z -> Z) (subs : list mtd_info) (x : Z) : Z :=
  match concat_addr subs x with Some a => nand a | None => 0 end.
(** Cell [a] belongs to the range [addr, addr + len) of the flat device. *)
Definition flat_range (subs : list mtd_info) (addr len a : Z) : Prop :=
  exists x, addr <= x < addr + len /\ concat_addr subs x = Some a.

Definition sizes_ok (subs : list mtd_info) : Prop := Forall (fun d => 0 < m_size d) subs.
Record concat_wf (c : mtd_concat) : Prop := {
  cw_sizes : sizes_ok (cc_subdev c);
  cw_sum : cc_size c = sum_sizes (cc_subdev c);
  cw_bound : cc_size c < 2 ^ 64;
}.

Lemma sum_sizes_nonneg subs : sizes_ok subs -> 0 <= sum_sizes subs.
Proof. induction 1; simpl; lia. Qed.

Section flat.
Context {P : Platform}.

Lemma flat_skip nand d subs from len :
  m_size d <= from -> mread (flat nand (d :: subs)) from len = mread (flat nand subs) (from - m_size d) len.
Proof.
  intros Hd. apply mread_shift. intros x Hx. unfold flat. cbn [concat_addr].
  destruct (Z.leb_spec (m_size d) x); [|lia]. by replace (x - m_size d) with (from - m_size d + (x - from)) by lia.
Qed.
Lemma flat_here nand d subs from len :
  from + len <= m_size d -> mread (flat nand (d :: subs)) from len = mread nand (m_off d + from) len.
Proof.
  intros Hd. apply mread_shift. intros x Hx. unfold flat. cbn [concat_addr].
  destruct (Z.leb_spec (m_size d) x); [lia|]. f_equal. lia.
Qed.

(** The part of a request that goes to a sub-device. *)
Lemma part_size size from len :
  0 <= from < size -> 0 < len -> from + len < 2 ^ 64 ->
  exists n, (if size <? u64 (from + len) then size - from else len) = n /\ 0 < n <= len /\ from + n <= size /\
    (n = len \/ from + n = size).
Proof.
  intros Hf Hl Hb. rewrite u64_small by lia. destruct (Z.ltb_spec size (from + len)); eexists; (split; [done|lia]).
Qed.

(** * Reading *)

(** Transfers are complete. *)
Definition full_transfers : Prop := forall n, o_len (pf_out n) = None.
(** Results after which the bytes have arrived. *)
Definition soft (r : Z) : Prop := r = 0 \/ r = - EUCLEAN \/ r = - EBADMSG.

Lemma wp_sub_read d from n (Q : Z * list Z -> hw -> Prop) h :
  full_transfers -> 0 <= from -> 0 < n -> from + n <= m_size d ->
  (forall k i, Q (o_err (pf_out i), mread (h_nand h) (m_off d + from) n) (set_tick k h)) -> wp (mtd_read d from n) Q h.
Proof.
  intros Ht Hf Hn Hs HQ. unfold mtd_read. destruct (_ || _) eqn:Hr; [lia|]. clear Hr.
  destruct (Z.eqb_spec n 0); [lia|]. wps. unfold next_out. apply wp_intro. intros o h' [= <- <-]. wps.
  rewrite Ht. destruct h. apply HQ.
Qed.

Lemma concat_read_loop_flat subs : full_transfers -> sizes_ok subs -> forall from len ret retlen buf h,
  0 <= from -> 0 < len -> from + len <= sum_sizes subs -> sum_sizes subs < 2 ^ 64 -> soft ret ->
  wp (concat_read_loop subs from len ret retlen buf) (fun r h' =>
    exists k ram, h' = set_ram ram (set_tick k h) /\
      (forall x, x < buf \/ buf + len <= x -> ram x = h_ram h x) /\
      (fst r = ret \/ exists n, fst r = o_err (pf_out n)) /\
      (soft (fst r) -> snd r = retlen + len /\ mread ram buf len = mread (flat (h_nand h) subs) from len)) h.
Proof.
  intros Ht. induction 1 as [|d subs Hd Hs IH]; intros from len ret retlen buf h Hf Hl Hsum Hb Hret;
    cbn [concat_read_loop sum_sizes foldr] in *; [lia|]. fold (sum_sizes subs) in *.
  pose proof (sum_sizes_nonneg subs Hs).
  destruct (Z.leb_spec (m_size d) from) as [Hskip|Hin].
  { eapply wp_mono; [apply IH; try done; lia|]. cbn beta. intros r h' (k & ram & -> & Ho & He & Hok).
    exists k, ram. split_and!; [done..|]. intros Hr. rewrite flat_skip by done. by apply Hok. }
  destruct (part_size (m_size d) from len) as (n & -> & Hn & Hle & Hcase); [lia..|]. cbv zeta.
  apply wp_bind, wp_sub_read; [done|lia..|]. intros k i. remember (mread (h_nand h) (m_off d + from) n) as data eqn:Hdata.
  assert (Hlen : blen data = n) by (rewrite Hdata; apply blen_mread; lia).
  cbv beta iota. unfold ram_write. wps.
  assert (Hram : forall x, x < buf \/ buf + len <= x -> mwrite (h_ram h) buf data x = h_ram h x).
  { intros x Hx. apply mwrite_outside. lia. }
  replace (set_ram (mwrite (h_ram (set_tick k h)) buf data) (set_tick k h))
    with (set_ram (mwrite (h_ram h) buf data) (set_tick k h)) by (by destruct h).
  set (err := o_err (pf_out i)).
  destruct (nz err && negb (err =? - EBADMSG) && negb (err =? - EUCLEAN)) eqn:Hhard.
  { wps. exists k, (mwrite (h_ram h) buf data). split_and!; [done..|right; by eexists|].
    unfold soft, nz in *. cbn [fst]. intros. lia. }
  set (ret' := if err =? - EBADMSG then err else _). rewrite Hlen.
  assert (Hret' : soft ret' /\ (ret' = ret \/ ret' = err)).
  { unfold ret', soft, nz in *. repeat case_match; lia. }
  destruct Hret' as [Hsoft Hor].
  destruct (Z.eqb_spec (len - n) 0) as [Hz|Hnz].
  - wps. exists k, (mwrite (h_ram h) buf data). split_and!; [done..| |].
    + cbn [fst]. destruct Hor as [->| ->]; [by left|right; by eexists].
    + intros _. cbn [snd]. split; [lia|]. replace len with n by lia.
      rewrite flat_here, <- Hdata by lia. rewrite <- Hlen at 1. apply mread_mwrite_same.
  - eapply wp_mono; [apply IH; try done; lia|]. cbn beta. intros r h' (k' & ram & -> & Ho & He & Hok).
    exists k', ram. split_and!.
    + by destruct h.
    + intros x Hx. rewrite Ho by lia. destruct h. by apply Hram.
    + destruct He as [->|?]; [|by right]. destruct Hor as [->| ->]; [by left|right; by eexists].
    + intros Hr. destruct (Hok Hr) as [-> Hm]. split; [lia|].
      assert (from + n = m_size d) by lia.
      replace len with (n + (len - n)) by lia. rewrite !mread_app by lia. f_equal.
      * rewrite flat_here, <- Hdata by lia. rewrite (mread_ext ram (mwrite (h_ram h) buf data)).
        { rewrite <- Hlen at 1. apply mread_mwrite_same. }
        intros x Hx. rewrite Ho by lia. by destruct h.
      * rewrite Hm, flat_skip by lia. replace (from + n - m_size d) with 0 by lia. by destruct h.
Qed.

(** * Erasing *)

(** What an erased cell holds is not changed behind the driver's back. *)
Definition clean_erase : Prop := forall n, o_cells (pf_out n) = None.

Lemma wp_sub_erase d addr n (Q : Z -> hw -> Prop) h :
  clean_erase -> 0 <= addr -> 0 < n -> addr + n <= m_size d ->
  (forall i h', (forall x, ~ (m_off d + addr <= x < m_off d + addr + n) -> h_nand h' x = h_nand h x) ->
     (forall x, h_nand h x = 0xff -> h_nand h' x = 0xff) ->
     (o_err (pf_out i) = 0 -> forall x, m_off d + addr <= x < m_off d + addr + n -> h_nand h' x = 0xff) ->
     Q (o_err (pf_out i)) h') -> wp (mtd_erase d addr n) Q h.
Proof.
  intros Hc Ha Hn Hs HQ. unfold mtd_erase. destruct (_ || _) eqn:Hr; [lia|]. clear Hr.
  destruct (Z.eqb_spec n 0); [lia|]. wps. unfold next_out. apply wp_intro. intros o h' [= <- <-].
  wps. set (o := pf_out (h_tick h)). rewrite (Hc (h_tick h) : o_cells o = None).
  apply HQ; destruct h; simpl in *; intros.
  - destruct (_ && _); [done|]. unfold fill_cells. destruct (_ && _) eqn:E; [|done]. lia.
  - destruct (_ && _); [done|]. unfold fill_cells. by destruct (_ && _).
  - replace (nz (o_err o)) with false by (symmetry; by apply nz_false). cbn [andb].
    unfold fill_cells. destruct (_ && _) eqn:E; [done|]. lia.
Qed.

Lemma flat_range_here d subs addr n len x :
  0 <= addr -> n <= len -> addr + n <= m_size d -> m_off d + addr <= x < m_off d + addr + n ->
  flat_range (d :: subs) addr len x.
Proof.
  intros. exists (x - m_off d). split; [lia|]. cbn [concat_addr].
  destruct (Z.leb_spec (m_size d) (x - m_off d)); [lia|]. f_equal. lia.
Qed.
Lemma flat_range_rest d subs addr n len a :
  0 <= m_size d -> 0 <= n -> addr + n = m_size d -> flat_range subs 0 (len - n) a -> flat_range (d :: subs) addr len a.
Proof.
  intros Hd Hn Hend (x & Hx & Ha). exists (x + m_size d). split; [lia|]. cbn [concat_addr].
  destruct (Z.leb_spec (m_size d) (x + m_size d)); [|lia]. by rewrite Z.add_simpl_r.
Qed.
Lemma flat_range_split d subs addr n len a :
  0 <= addr -> 0 < n -> addr + n <= m_size d -> (n = len \/ addr + n = m_size d) ->
  flat_range (d :: subs) addr len a ->
  m_off d + addr <= a < m_off d + addr + n \/ flat_range subs 0 (len - n) a.
Proof.
  intros Ha Hn Hs Hc (x & Hx & He). cbn [concat_addr] in He. destruct (Z.leb_spec (m_size d) x).
  - right. exists (x - m_size d). split; [lia|done].
  - left. injection He as <-. lia.
Qed.
Lemma flat_range_find subs addr : sizes_ok subs -> 0 <= addr < sum_sizes subs ->
  exists d subs' b, concat_find subs addr = Some (d :: subs', b) /\ sizes_ok (d :: subs') /\ 0 <= b < m_size d /\ b <= addr /\
    sum_sizes (d :: subs') - b = sum_sizes subs - addr /\
    (forall len a, 0 <= len -> flat_range (d :: subs') b len a <-> flat_range subs addr len a).
Proof.
  intros Hs. revert addr. induction Hs as [|d subs Hd Hs IH]; intros addr Ha; cbn [sum_sizes foldr] in Ha; [lia|].
  fold (sum_sizes subs) in Ha. cbn [concat_find]. destruct (Z.leb_spec (m_size d) addr).
  - destruct (IH (addr - m_size d)) as (e & subs' & b & Hf & Hs' & Hb & Hba & Hsum & Hr); [lia|].
    exists e, subs', b. split_and!; [done|done|lia|lia|lia| |].
    + cbn [sum_sizes foldr] in *. fold (sum_sizes subs) in *. fold (sum_sizes subs') in *. lia.
    + intros len a Hl. rewrite Hr by done. split; intros (x & Hx & He).
      * exists (x + m_size d). split; [lia|]. cbn [concat_addr].
        destruct (Z.leb_spec (m_size d) (x + m_size d)); [|lia]. by rewrite Z.add_simpl_r.
      * exists (x - m_size d). split; [lia|]. cbn [concat_addr] in He.
        destruct (Z.leb_spec (m_size d) x); [done|lia].
  - exists d, subs, addr. split_and!; [done|by constructor|lia|lia|lia|done|done].
Qed.

(** After an erase of the cells [F] that returned [res]; [bad]: a request that is
    not aligned to the erase blocks. *)
Record erased (F : Z -> Prop) (bad : bool) (res : option Z) (h h' : hw) : Prop := {
  er_outside : forall a, ~ F a -> h_nand h' a = h_nand h a;
  er_stays : forall a, h_nand h a = 0xff -> h_nand h' a = 0xff;
  er_cleared : res = Some 0 -> forall a, F a -> h_nand h' a = 0xff;
  er_bug : res = None -> exists n, o_err (pf_out n) = - EINVAL;
  er_succeeds : bad = false -> (forall n, o_err (pf_out n) = 0) -> res = Some 0;
}.
Lemma erased_none F bad h : (forall a, ~ F a) -> erased F bad (Some 0) h h.
Proof. intros HF. split; try done. intros _ a Ha. by destruct (HF a). Qed.
Lemma erased_failed F (bad : bool) r h h' :
  h_nand h' = h_nand h -> r <> 0 -> bad = true \/ (exists n, o_err (pf_out n) <> 0) -> erased F bad (Some r) h h'.
Proof.
  intros Hn Hr Hb. split; rewrite ?Hn; try done; [by intros [= ->]|].
  intros -> Ha. destruct Hb as [?|[n Hb]]; [done|by rewrite Ha in Hb].
Qed.
Lemma erased_iff F G bad res h h' : (forall a, F a <-> G a) -> erased F bad res h h' -> erased G bad res h h'.
Proof. intros HFG [H1 H2 H3 H4 H5]. split; auto; intros; [apply H1|apply H3]; rewrite ?HFG; auto. Qed.
Lemma flat_range_0 subs addr a : ~ flat_range subs addr 0 a.
Proof. intros (x & Hx & _). lia. Qed.

Lemma concat_erase_loop_flat subs : clean_erase -> sizes_ok subs -> forall addr len h,
  0 <= addr -> 0 <= len -> (len = 0 \/ exists d subs', subs = d :: subs' /\ addr < m_size d) ->
  addr + len <= sum_sizes subs -> sum_sizes subs < 2 ^ 64 ->
  wp (concat_erase_loop subs addr len) (fun res h' => erased (flat_range subs addr len) false res h h') h.
Proof.
  intros Hc. induction 1 as [|d subs Hd Hs IH]; intros addr len h Ha Hl Hhd Hsum Hb;
    cbn [concat_erase_loop sum_sizes foldr] in *.
  { destruct (Z.eqb_spec len 0) as [->|]; [|lia]. wps. apply erased_none, flat_range_0. }
  fold (sum_sizes subs) in *.
  destruct (Z.eqb_spec len 0) as [->|Hnz].
  { wps. apply erased_none, flat_range_0. }
  destruct Hhd as [?|(d' & subs' & Heq & Hlt)]; [lia|]. injection Heq as ? ?; subst d' subs'. pose proof (sum_sizes_nonneg subs Hs).
  destruct (part_size (m_size d) addr len) as (n & -> & Hn & Hle & Hcase); [lia..|]. cbv zeta.
  apply wp_bind, wp_sub_erase; [done|lia..|]. intros i h1 Hout Hstay Hclr.
  destruct (nz (o_err (pf_out i))) eqn:Herr.
  { wps. apply nz_true in Herr. split; [|done| | |].
    - intros a Hna. apply Hout. intros Hin. apply Hna. apply flat_range_here with n; lia.
    - case_match; [done|]. intros [= He]. lia.
    - case_match; [|done]. intros _. exists i. lia.
    - intros _ Hall. by rewrite Hall in Herr. }
  apply nz_false in Herr. eapply wp_mono; [apply IH|].
  1,2: lia.
  - destruct (decide (len - n = 0)); [by left|right]. destruct Hs as [|e tl He _]; [cbn [sum_sizes foldr] in *; lia|].
    exists e, tl. split; [done|lia].
  - lia.
  - lia.
  - cbn beta. intros res h2 [E1 E2 E3 E4 E5]. split; [| |intros He a Hin|done|done].
    + intros a Hna. rewrite E1, Hout; [done| |].
      * intros Hin. apply Hna. apply flat_range_here with n; lia.
      * intros Hr. apply Hna. destruct Hcase as [->|Hend]; [destruct Hr as (x & ? & _); lia|].
        apply flat_range_rest with n; lia || done.
    + auto.
    + apply (flat_range_split d subs addr n) in Hin as [Hin|Hin]; [|by auto|lia..|done].
      apply E2. by apply Hclr.
Qed.

(** * The device *)

(** A read through the MTD core. *)
Lemma mtd_read_c_flat c from len buf h :
  concat_wf c -> full_transfers -> 0 <= from -> 0 <= len -> from + len <= cc_size c ->
  wp (mtd_read_c c from len buf) (fun r h' =>
    exists k ram, h' = set_ram ram (set_tick k h) /\
      (forall x, x < buf \/ buf + len <= x -> ram x = h_ram h x) /\
      (fst r = 0 \/ exists n, fst r = o_err (pf_out n)) /\
      (fst r = 0 \/ fst r = - EUCLEAN ->
        snd r = len /\ mread ram buf len = mread (flat (h_nand h) (cc_subdev c)) from len)) h.
Proof.
  intros [Hs Hsum Hb] Ht Hf Hl Hfl. unfold mtd_read_c. destruct (_ || _) eqn:Hr; [lia|]. clear Hr.
  destruct (Z.eqb_spec len 0) as [->|Hnz].
  { wps. exists (h_tick h), (h_ram h). split_and!; [by destruct h|done|by left|]. intros _. by rewrite !mread_0. }
  apply wp_bind. unfold concat_read.
  eapply wp_mono; [apply concat_read_loop_flat; [done|done|lia..|by left]|]. cbn beta.
  intros [ret retlen] h' (k & ram & -> & Ho & He & Hok). wps. cbn [fst snd] in *.
  exists k, ram. split_and!; [done..| |].
  - destruct (Z.ltb_spec ret 0); [|by left]. destruct He as [->|?]; [lia|by right].
  - intros Hr. destruct Hok as [-> ?]; [|done]. unfold soft.
    destruct (Z.ltb_spec ret 0); [lia|]. left. destruct He as [->|[n ->]]; [done|].
    pose proof (pf_err n). lia.
Qed.

Lemma mtd_erase_c_flat c addr len h :
  concat_wf c -> clean_erase -> 0 <= addr -> 0 <= len -> addr + len <= cc_size c ->
  wp (mtd_erase_c c addr len) (fun res h' => erased (flat_range (cc_subdev c) addr len) (erase_misaligned c addr len) res h h') h.
Proof.
  intros [Hs Hsum Hb] Hc Ha Hl Hal. unfold mtd_erase_c. destruct (_ || _) eqn:Hr; [lia|]. clear Hr.
  destruct (Z.eqb_spec len 0) as [->|Hnz].
  { wps. apply erased_none, flat_range_0. }
  unfold concat_erase. destruct (erase_misaligned c addr len).
  { wps. apply erased_failed; [done..|by left]. }
  unfold malloc, next_out. wps. apply wp_intro. intros o h1 [= <- <-]. wps. rewrite negb_involutive.
  destruct (nz (o_err _)) eqn:Ho; cbn [negb].
  { wps. apply erased_failed; [by destruct h|done|right]. exists (h_tick h). by apply nz_true. }
  destruct (flat_range_find (cc_subdev c) addr Hs) as (d & subs & b & -> & Hs' & Hb' & Hba & Hsum' & Hr); [lia|].
  eapply wp_mono; [apply concat_erase_loop_flat; [done|done|lia|lia|right; exists d, subs; split; [done|lia]|lia|]|].
  - cbn [sum_sizes foldr] in *. fold (sum_sizes subs) in *. lia.
  - cbn beta. intros res h' E. apply (erased_iff (flat_range (d :: subs) b len)); [intros; by apply Hr|].
    destruct E. split; destruct h; auto.
Qed.

(** C26: A concatenation of devices is one flat device.  A read that the MTD core
    admits changes memory only inside its buffer, fails only with an error a
    sub-device reported, and otherwise delivers exactly the cells of its range in
    order, also across sub-device boundaries.  An erase changes no cell outside
    its range, succeeds only when every cell of the range is erased, does succeed
    for an aligned range when nothing fails, and stops in BUG_ON only when a
    sub-device itself rejects an erase as invalid. *)
Theorem concat_device_flat c off len buf h :
  concat_wf c -> full_transfers -> clean_erase -> 0 <= off -> 0 <= len -> off + len <= cc_size c ->
  wp (mtd_read_c c off len buf) (fun r h' =>
    exists k ram, h' = set_ram ram (set_tick k h) /\
      (forall x, x < buf \/ buf + len <= x -> ram x = h_ram h x) /\
      (fst r = 0 \/ exists n, fst r = o_err (pf_out n)) /\
      (fst r = 0 \/ fst r = - EUCLEAN ->
        snd r = len /\ mread ram buf len = mread (flat (h_nand h) (cc_subdev c)) off len)) h /\
  wp (mtd_erase_c c off len) (fun res h' => erased (flat_range (cc_subdev c) off len) (erase_misaligned c off len) res h h') h.
Proof. intros. split; [by apply mtd_read_c_flat|by apply mtd_erase_c_flat]. Qed.
End flat.

(** Two sub-devices, read and erased across their boundary. *)
Definition bench_concat_dev : mtd_concat :=
  MkConcat "two" [MkMtd "a" true true 0x400000 0x40000 0x20000 0x800; MkMtd "b" true true 0x100000 0x60000 0x20000 0x800]
    true 0xa0000 0x20000 0x800 [].
Lemma concat_device_flat_witness :
  wp (mtd_read_c bench_concat_dev 0x20000 0x40000 0x90000000) (fun r h' =>
    exists k ram, h' = set_ram ram (set_tick k bench_hw) /\
      (forall x, x < 0x90000000 \/ 0x90000000 + 0x40000 <= x -> ram x = h_ram bench_hw x) /\
      (fst r = 0 \/ exists n, fst r = o_err (pf_out n)) /\
      (fst r = 0 \/ fst r = - EUCLEAN ->
        snd r = 0x40000 /\
        mread ram 0x90000000 0x40000 = mread (flat (h_nand bench_hw) (cc_subdev bench_concat_dev)) 0x20000 0x40000)) bench_hw /\
  wp (mtd_erase_c bench_concat_dev 0x20000 0x40000) (fun res h' =>
    erased (flat_range (cc_subdev bench_concat_dev) 0x20000 0x40000) (erase_misaligned bench_concat_dev 0x20000 0x40000)
      res bench_hw h') bench_hw.
Proof.
  apply (concat_device_flat bench_concat_dev 0x20000 0x40000 0x90000000 bench_hw); try (intros n; reflexivity); try (vm_compute; congruence).
  split; [repeat constructor; simpl; lia|reflexivity|vm_compute; congruence].
Defined.
