(* ===== verification/WebDevice.v ===== *)
(** The device side of the web server (cmd/ursusweb.c): classification of the
    flash layout, installation of a non-UBI sysupgrade image on the vendor's
    partitions, and the settings reset of that layout.  The root file system goes
    to a UBI device on the concatenation of six partitions ([Concat]); what the
    UBI commands do on that device is a parameter.  The steps taken and their
    results are recorded. *)
From S2P Require Import Prelude Bytes Fip Flash Ubi Shell Bl2 UbiEngine Fit StockBoot WebHeaders WebImage Concat.

Definition URSUS_STOCK_BASE : Z := 0x000c0000.
Definition URSUS_STAGE_ADDR : Z := 0x90000000.
Definition URSUS_READBACK_ADDR : Z := 0x94000000.
Definition URSUS_STOCK_LAYOUT_KERNEL_SIZE : Z := 0x00800000.
Definition URSUS_STOCK_LAYOUT_UBI_SIZE : Z := 0x0e1a0000.

(** * Probing *)

(** What the SPI-NAND driver knows of the chip. *)
Record spinand_device := MkSpinand {
  sp_vendor : option (list Z);
  sp_chips : option (list (list Z * list Z));
  sp_id : list Z;
}.
Fixpoint spinand_find (id : list Z) (chips : list (list Z * list Z)) : option (list Z) :=
  match chips with
  | [] => None
  | (model, devid) :: chips' =>
    if (length id =? 1 + length devid)%nat && memeq (take (length devid) (drop 1 id)) devid then Some model
    else spinand_find id chips'
  end.
Definition ursus_spinand_model (s : spinand_device) : option (list Z) :=
  match sp_chips s with Some chips => spinand_find (sp_id s) chips | None => None end.
(** ["%02X"] per byte while two characters and the NUL fit. *)
Definition hex2 (b : Z) : list Z :=
  let d x := if x <? 10 then 48 + x else 55 + x in [d ((b / 16) `mod` 16); d (b `mod` 16)].
Fixpoint id_string_loop (id : list Z) (room : Z) : list Z :=
  match id with
  | [] => []
  | b :: id' => if 2 <? room then hex2 b ++ id_string_loop id' (room - 2) else []
  end.
Definition ursus_spinand_id_string (s : spinand_device) (buflen : Z) : list Z := id_string_loop (sp_id s) buflen.

(** The static variables the probe fills. *)
Record probe := MkProbe {
  pr_layout : string;
  pr_boot_fip : bool;
  pr_stock_fip : bool;
  pr_stock_fit : bool;
  pr_ubi_fip : bool;
  pr_ubi_fit : bool;
  pr_diag : option ubi_diag;
  pr_bad_blocks : Z;
  pr_mtd : option mtd_info;
  pr_vendor : list Z;
  pr_chip : list Z;
  pr_id : list Z;
}.
Definition probe_none : probe := MkProbe "UNKNOWN" false false false false false None 0 None [] [] [].

Definition ursus_probe_uuid_zero (u : list Z) : bool := forallb (fun b => b =? 0) (take 16 u).

(** The entry loop: a terminator was seen, an NT_FW entry was seen. *)
Fixpoint probe_entries (k : nat) (i : Z) (toc : list Z) (nt : bool) : bool * bool :=
  match k with
  | O => (false, nt)
  | S k' =>
    if URSUS_FIP_TOC_READ <? ent_pos i + FIP_ENT then (false, nt)
    else if ursus_probe_uuid_zero (ent_uuid toc i) then (true, nt)
    else probe_entries k' (i + 1) toc (nt || memeq (ent_uuid toc i) nokia_nt_fw_uuid)
  end.
Definition fip_magic_ok (toc : list Z) : bool :=
  (le32 0 toc =? URSUS_FIP_MAGIC) && (le32 4 toc =? URSUS_FIP_SERIAL).

Section device.
Context {P : Platform} {X : Ext} {B : Board}.
(** The driver's description of the chip, and the bad PEBs an attach counts. *)
Variable spinand : option spinand_device.
Variable ubi_bad_pebs : Z.

(** A full read; bit flips that were corrected are no error. *)
Definition read_full (nand : mtd_info) (off len : Z) : ST hw (option (list Z)) :=
  let* r := mtd_read nand off len in
  let '(ret, buf) := r in
  sret (if ((ret =? 0) || (ret =? - EUCLEAN)) && (blen buf =? len) then Some buf else None).

Definition ursus_probe_fip_at (nand : mtd_info) (base : Z) (require_nt : bool) : ST hw bool :=
  let* r := read_full nand base URSUS_FIP_TOC_READ in
  match r with
  | None => sret false
  | Some toc =>
    if negb (fip_magic_ok toc) then sret false
    else let '(term, nt) := probe_entries URSUS_FIP_MAX_ENTRIES 0 toc false in
         sret (term && (negb require_nt || nt))
  end.

(** [ursus_stock_fip] and [ursus_stock_fit] as the function leaves them. *)
Definition ursus_probe_stock_fip_fit (nand : mtd_info) : ST hw (bool * bool) :=
  let* r := read_full nand URSUS_STOCK_BASE URSUS_FIP_TOC_READ in
  match r with
  | None => sret (false, false)
  | Some toc =>
    if negb (fip_magic_ok toc) then sret (false, false)
    else
      let '(noff, nsize) := default (0, 0) (find_ntfw URSUS_FIP_MAX_ENTRIES 0 toc) in
      if (noff =? 0) || (nsize <=? HDR2_SIZE) || (STOCK_SLOT_SIZE <? u64 (noff + nsize)) then sret (true, false)
      else
        let* r := read_full nand (s64 (URSUS_STOCK_BASE + noff)) 2048 in
        match r with
        | None => sret (true, false)
        | Some hdrpage =>
          if negb (memeq (take 4 hdrpage) (bytes_of "HDR2")) then sret (true, false)
          else sret (true, negb (nz (fdt_check_header (drop (Z.to_nat HDR2_SIZE) hdrpage))))
        end
  end.

Fixpoint bad_scan (fuel : nat) (nand : mtd_info) (off bad : Z) : ST hw Z :=
  match fuel with
  | O => sret bad
  | S fuel' =>
    if m_size nand <=? off then sret bad
    else
      let* ret := mtd_block_isbad nand off in
      bad_scan fuel' nand (off + m_erasesize nand) (if 0 <? ret then bad + 1 else bad)
  end.
Definition count_all_bad (nand : mtd_info) : ST hw Z :=
  if m_erasesize nand =? 0 then sret 0
  else bad_scan (Z.to_nat (m_size nand / m_erasesize nand + 1)) nand 0 0.

(** Chip strings, clipped to their buffers. *)
Definition chip_strings : list Z * (list Z * list Z) :=
  match spinand with
  | None => ([], ([], []))
  | Some s =>
    (snprintf_text 48 (default [] (sp_vendor s)),
     (snprintf_text 48 (default [] (ursus_spinand_model s)), ursus_spinand_id_string s 32))
  end.

Definition usable (d : volume_diag) : bool := dg_present d && dg_valid d.
Definition ursus_probe_device : ST ubi_t probe :=
  let* nand := onhw ursus_find_master_nand in
  match nand with
  | None => sret probe_none
  | Some nand =>
    let '(vendor, (chip, id)) := chip_strings in
    let* r := onhw (mtd_read nand URSUS_UBI_BASE 4) in
    let '(ret, head) := r in
    if ((ret =? 0) || (ret =? - EUCLEAN)) && (blen head =? 4) && memeq head (bytes_of "UBI#") then
      let* r := ursus_ubi_probe_diag in
      match r with
      | inl _ => sret (MkProbe "OPENWRT_UBI" false false false false false None 0 (Some nand) vendor chip id)
      | inr d =>
        let fip := usable (ud_fip d) in
        let fit := usable (ud_fit d) || usable (ud_fit_old d) in
        sret (MkProbe "OPENWRT_UBI" fip false false fip fit (Some d) ubi_bad_pebs (Some nand) vendor chip id)
      end
    else
      let* bad := onhw (count_all_bad nand) in
      let* boot_fip := onhw (ursus_probe_fip_at nand 0x800 true) in
      let* r := onhw (mtd_read nand URSUS_STOCK_BASE 2048) in
      let '(ret, head) := r in
      if ((ret =? 0) || (ret =? - EUCLEAN)) && (4 <=? blen head) && (ursus_be32 head =? FDT_MAGIC) then
        sret (MkProbe "OPENWRT_STOCK_LAYOUT" boot_fip false false false false None bad (Some nand) vendor chip id)
      else
        let* r := onhw (ursus_probe_stock_fip_fit nand) in
        let '(sfip, sfit) := r in
        sret (MkProbe (if sfip then "STOCK" else "UNKNOWN") boot_fip sfip sfit false false None bad (Some nand)
                vendor chip id)
  end.
End device.

(** * The vendor partitions *)

Definition ursus_factory_parts : list (string * Z * Z) :=
  [("ursus-factory-kernel", 0x000c0000, 0x00800000);
   ("ursus-ubi-data", 0x05cc0000, 0x080e0000);
   ("ursus-ubi-rootfs1", 0x008c0000, 0x02080000);
   ("ursus-ubi-nsb2", 0x02940000, 0x02880000);
   ("ursus-ubi-config", 0x052c0000, 0x00a00000);
   ("ursus-ubi-oopsfs", 0x0dda0000, 0x00400000);
   ("ursus-ubi-log", 0x0e1a0000, 0x009c0000)]%string.
Definition ursus_factory_concat_names : list string :=
  ["ursus-ubi-data"; "ursus-ubi-rootfs1"; "ursus-ubi-nsb2";
   "ursus-ubi-config"; "ursus-ubi-oopsfs"; "ursus-ubi-log"]%string.

(** The UBI commands on a concatenated device. *)
Class ConcatUbi := { concat_ubi : command -> ST hw Z }.

(** What an installation does on the devices. *)
Inductive fstep := Run (c : command) | Compare (stage_off len : Z).

(** The static variables, and the steps done so far with their results. *)
Record factory_ctx := MkFac {
  f_ready : bool;
  f_concat : option mtd_concat;
  f_kernel : option mtd_info;
  f_trace : list (fstep * Z);
}.
Definition fac_t : Type := hw * factory_ctx.
Definition fac_init : factory_ctx := MkFac false None None [].
Definition set_f_ready v (c : factory_ctx) := let 'MkFac _ b k t := c in MkFac v b k t.
Definition set_f_concat v (c : factory_ctx) := let 'MkFac a _ k t := c in MkFac a v k t.
Definition set_f_kernel v (c : factory_ctx) := let 'MkFac a b _ t := c in MkFac a b v t.
Definition add_trace x (c : factory_ctx) := let 'MkFac a b k t := c in MkFac a b k (t ++ [x]).

Section factory.
Context {P : Platform} {C : ConcatUbi}.

Fixpoint get_subdevs (names : list string) : ST hw (option (list mtd_info)) :=
  match names with
  | [] => sret (Some [])
  | n :: names' =>
    let* d := get_mtd_device_nm n in
    match d with
    | None => sret None
    | Some d => let* r := get_subdevs names' in sret (option_map (cons d) r)
    end
  end.

Definition ursus_factory_register_mtd : ST fac_t Z :=
  let* ready := ctx f_ready in
  if ready then sret 0
  else
    let* master := onhw ursus_find_master_nand in
    match master with
    | None => sret (- ENODEV)
    | Some master =>
      let* ret := onhw (add_mtd_partitions master ursus_factory_parts) in
      if nz ret then sret ret
      else
        let* k := onhw (get_mtd_device_nm "ursus-factory-kernel") in
        onctx (set_f_kernel k) ;;;
        match k with
        | None => sret (- ENODEV)
        | Some _ =>
          let* subs := onhw (get_subdevs ursus_factory_concat_names) in
          match subs with
          | None => sret (- ENODEV)
          | Some subs =>
            let* cc := onhw (mtd_concat_create subs "ursus-factory-ubi") in
            onctx (set_f_concat cc) ;;;
            match cc with
            | None => sret (- ENOMEM)
            | Some cc =>
              let* ret := onhw (add_mtd_device cc) in
              if nz ret then sret (- EIO)
              else if negb (cc_size cc =? URSUS_STOCK_LAYOUT_UBI_SIZE) then sret (- EINVAL)
              else onctx (set_f_ready true) ;;; sret 0
            end
          end
        end
    end.

(** The scan: an error, or the usable bytes. *)
Fixpoint capacity_loop (fuel : nat) (k : mtd_info) (off usable : Z) : ST hw (Z + Z) :=
  match fuel with
  | O => sret (inr usable)
  | S fuel' =>
    if m_size k <=? off then sret (inr usable)
    else
      let* bad := mtd_block_isbad k off in
      if bad <? 0 then sret (inl bad)
      else capacity_loop fuel' k (off + m_erasesize k)
             (if (0 <? bad) && (m_erasesize k <=? usable) then usable - m_erasesize k else usable)
  end.
Definition ursus_factory_kernel_capacity_ok (image_size : Z) : ST fac_t Z :=
  let* k := ctx f_kernel in
  match k with
  | None => sret (- ENODEV)
  | Some k =>
    let* r := onhw (capacity_loop (Z.to_nat (m_size k / m_erasesize k + 1)) k 0 URSUS_STOCK_LAYOUT_KERNEL_SIZE) in
    match r with
    | inl e => sret e
    | inr usable => sret (if usable <? image_size then - ENOSPC else 0)
    end
  end.

Definition ursus_compare_stage_readback (stage_off readback_addr len : Z) : ST hw Z :=
  if (URSUS_STAGE_ADDR + stage_off =? 0) || (readback_addr =? 0) then sret (- ENOMEM)
  else
    let* a := ram_read (URSUS_STAGE_ADDR + stage_off) len in
    let* b := ram_read readback_addr len in
    sret (if memeq a b then 0 else - EBADMSG).

(** [run_command] once the devices are registered.  The concatenation comes after
    the other devices in the search by name.  Where the code stops in [BUG_ON]
    the command counts as failed, so that nothing more of the job runs. *)
Definition concat_erase_cmd (part : string) (off len : Z) : ST fac_t Z :=
  let* m := onhw (get_mtd_device_nm part) in
  let* cc := ctx f_concat in
  match m, cc with
  | None, Some cc =>
    if bool_decide (cc_name cc = part) then
      let* r := onhw (do_mtd_erase_c cc off len) in
      sret (match r with Some 0 => 0 | _ => 1 end)
    else sret 1
  | _, _ => onhw (run_command (MtdErase part off len))
  end.
Definition factory_run (c : command) : ST fac_t Z :=
  match c with
  | MtdErase part off len => concat_erase_cmd part off len
  | MtdRead _ _ _ _ | MtdWrite _ _ _ _ | Bootm _ _ => onhw (run_command c)
  | _ => onhw (concat_ubi c)
  end.
(** A step and what it returned are recorded. *)
Definition fac_step (s : fstep) : ST fac_t Z :=
  let* r := (match s with
             | Run c => factory_run c
             | Compare off len => onhw (ursus_compare_stage_readback off URSUS_READBACK_ADDR len)
             end) in
  onctx (add_trace (s, r)) ;;; sret r.
Definition run_recorded (c : command) : ST fac_t Z := fac_step (Run c).
Definition fac_try (m : ST fac_t Z) (k : ST fac_t Z) : ST fac_t Z :=
  let* r := m in if nz r then sret r else k.

(** The guards before anything is touched. *)
Definition factory_guard (img : image_state) (layout : string) : Z :=
  if negb (stock_image_ready img) || negb (im_kernel_found img) || negb (im_root_found img) then - EINVAL
  else if negb (layout_stock layout) then - EPERM
  else if (im_kernel_size img =? 0) || (URSUS_STOCK_LAYOUT_KERNEL_SIZE <? im_kernel_size img) ||
          (im_root_size img =? 0) || (im_len img <? u64 (im_kernel_off img + im_kernel_size img)) ||
          (im_len img <? u64 (im_root_off img + im_root_size img)) then - EFBIG
  else 0.

Definition KERNEL_PART : string := "ursus-factory-kernel".
Definition UBI_PART : string := "ursus-factory-ubi".

Definition factory_write_root (img : image_state) (k : ST fac_t Z) : ST fac_t Z :=
  let* _d := run_recorded UbiDetach in
  fac_try (run_recorded (MtdErase UBI_PART 0 0xe1a0000)) (
  fac_try (run_recorded (UbiPart UBI_PART)) (
  fac_try (run_recorded (UbiCreate "rootfs" (im_root_size img) true UBI_VOL_NUM_AUTO)) (
  fac_try (run_recorded (UbiCreate "rootfs_data" 0 true UBI_VOL_NUM_AUTO)) (
  fac_try (run_recorded (UbiWrite (URSUS_STAGE_ADDR + im_root_off img) "rootfs" (im_root_size img))) (
  fac_try (run_recorded (UbiRead URSUS_READBACK_ADDR "rootfs" (im_root_size img))) (
  fac_try (fac_step (Compare (im_root_off img) (im_root_size img))) k)))))).
Definition factory_write_kernel (img : image_state) : ST fac_t Z :=
  fac_try (run_recorded (MtdErase KERNEL_PART 0 0x800000)) (
  fac_try (run_recorded (MtdWrite KERNEL_PART (URSUS_STAGE_ADDR + im_kernel_off img) 0 (im_kernel_size img))) (
  fac_try (run_recorded (MtdRead KERNEL_PART URSUS_READBACK_ADDR 0 (im_kernel_size img))) (
  fac_step (Compare (im_kernel_off img) (im_kernel_size img))))).

Definition ursus_factory_install (img : image_state) (layout : string) : ST fac_t Z :=
  let g := factory_guard img layout in
  if nz g then sret g
  else
    fac_try ursus_factory_register_mtd (
    fac_try (ursus_factory_kernel_capacity_ok (im_kernel_size img)) (
    factory_write_root img (factory_write_kernel img))).

Definition ursus_factory_reset_settings : ST fac_t Z :=
  fac_try ursus_factory_register_mtd (
  let* _d := run_recorded UbiDetach in
  fac_try (run_recorded (UbiPart UBI_PART)) (
  let* r := run_recorded (UbiCheck "rootfs_data") in
  if nz r then sret (- ENOENT)
  else
    fac_try (run_recorded (UbiRemove "rootfs_data")) (
    fac_try (run_recorded (UbiCreate "rootfs_data" 0 true UBI_VOL_NUM_AUTO)) (
    run_recorded (UbiCheck "rootfs_data"))))).
End factory.
