(* ===== verification/WebDeviceThms.v ===== *)
(** Theorems on the stock-layout installation: the steps it takes, whatever the
    commands return, and the part of the flash its partitions cover. *)
From S2P Require Import Prelude Bytes Fip Flash Ubi Shell Bl2 UbiEngine Fit StockBoot WebHeaders WebImage WebAccept Concat WebDevice Bench.

Section thms.
Context {P : Platform} {C : ConcatUbi}.

(** The steps of an installation that meets no error. *)
Definition root_plan (img : image_state) : list fstep :=
  [Run UbiDetach; Run (MtdErase UBI_PART 0 0xe1a0000); Run (UbiPart UBI_PART);
   Run (UbiCreate "rootfs" (im_root_size img) true UBI_VOL_NUM_AUTO);
   Run (UbiCreate "rootfs_data" 0 true UBI_VOL_NUM_AUTO);
   Run (UbiWrite (URSUS_STAGE_ADDR + im_root_off img) "rootfs" (im_root_size img));
   Run (UbiRead URSUS_READBACK_ADDR "rootfs" (im_root_size img));
   Compare (im_root_off img) (im_root_size img)].
Definition kernel_plan (img : image_state) : list fstep :=
  [Run (MtdErase KERNEL_PART 0 0x800000);
   Run (MtdWrite KERNEL_PART (URSUS_STAGE_ADDR + im_kernel_off img) 0 (im_kernel_size img));
   Run (MtdRead KERNEL_PART URSUS_READBACK_ADDR 0 (im_kernel_size img));
   Compare (im_kernel_off img) (im_kernel_size img)].
Definition install_plan (img : image_state) : list fstep := root_plan img ++ kernel_plan img.

(** [t] is the plan up to a step that failed, or all of it. *)
Definition follows (plan : list fstep) (ret : Z) (t : list (fstep * Z)) : Prop :=
  map fst t = take (length t) plan /\
  (forall i s r, t !! i = Some (s, r) -> s <> Run UbiDetach -> (S i < length t)%nat -> r = 0) /\
  (ret = 0 -> map fst t = plan /\ forall s r, (s, r) ∈ t -> s <> Run UbiDetach -> r = 0).

(** A command leaves the component's variables alone. *)
Lemma wp_factory_run cmd h c : wp (factory_run cmd) (fun _ s => snd s = c) (h, c).
Proof.
  destruct cmd; cbn [factory_run]; try (wps; apply wp_intro; by intros).
  unfold concat_erase_cmd. wps. apply wp_intro. intros m h' _. wps.
  destruct m as [m|], (f_concat c) as [cc|]; try (wps; apply wp_intro; by intros).
  apply wp_if; intros _; [|by wps]. wps. apply wp_intro. intros r h'' _. by wps.
Qed.
Lemma wp_fac_step s (Q : Z -> fac_t -> Prop) h c :
  (forall r h', Q r (h', add_trace (s, r) c)) -> wp (fac_step s) Q (h, c).
Proof.
  intros HQ. unfold fac_step. apply wp_bind. destruct s as [cmd|off len].
  - eapply wp_mono; [apply wp_factory_run|]. cbn beta. intros r [h' c'] Hc. cbn [snd] in Hc. subst c'. wps. apply HQ.
  - wps. apply wp_intro. intros r h' _. wps. apply HQ.
Qed.

(** A plan run step by step, each step's success leading to the next. *)
Fixpoint run_plan (plan : list fstep) : ST fac_t Z :=
  match plan with
  | [] => sret 0
  | [s] => fac_step s
  | s :: plan' => fac_try (fac_step s) (run_plan plan')
  end.
Definition strict (plan : list fstep) : Prop := Forall (fun s => s <> Run UbiDetach) plan.

Lemma add_trace_trace x c : f_trace (add_trace x c) = f_trace c ++ [x].
Proof. by destruct c. Qed.

Lemma follows_one s r : follows [s] r [(s, r)].
Proof.
  split_and!; [done| |].
  - intros [|i] s' r'; simpl; intros; [lia|done].
  - intros ->. split; [done|]. intros s' r' Hin _. apply list_elem_of_singleton in Hin. by simplify_eq.
Qed.
Lemma follows_stop s plan r : s <> Run UbiDetach -> r <> 0 -> follows (s :: plan) r [(s, r)].
Proof.
  intros Hs Hr. split_and!; [done| |done].
  intros [|i] s' r'; simpl; intros; [lia|done].
Qed.
Lemma follows_cons s plan r0 ret t :
  (s = Run UbiDetach \/ r0 = 0) -> follows plan ret t -> follows (s :: plan) ret ((s, r0) :: t).
Proof.
  intros Hs (H1 & H2 & H3). split_and!.
  - simpl. by rewrite H1.
  - intros [|i] s' r'; simpl; [intros [= <- <-] Hn _; by destruct Hs|].
    intros Hl Hn Hlt. apply (H2 i s' r'); [done|done|lia].
  - intros Hr. destruct (H3 Hr) as [Hm Ha]. split; [simpl; by rewrite Hm|].
    intros s' r' Hin Hn. apply elem_of_cons in Hin as [[= <- <-]|Hin]; [by destruct Hs|eauto].
Qed.

Lemma run_plan_follows plan h c :
  plan <> [] -> strict plan ->
  wp (run_plan plan) (fun r s => exists t, f_trace (snd s) = f_trace c ++ t /\ follows plan r t) (h, c).
Proof.
  intros Hne Hst. revert h c. induction Hst as [|s plan Hs Hst IH]; intros h c; [done|].
  destruct plan as [|s' plan].
  - cbn [run_plan]. apply wp_fac_step. intros r h'. exists [(s, r)]. cbn [snd]. rewrite add_trace_trace.
    split; [done|apply follows_one].
  - change (run_plan (s :: s' :: plan)) with (fac_try (fac_step s) (run_plan (s' :: plan))).
    unfold fac_try. apply wp_bind, wp_fac_step. intros r h'.
    destruct (nz r) eqn:Hz.
    + apply nz_true in Hz. wps. exists [(s, r)]. cbn [snd]. rewrite add_trace_trace.
      split; [done|by apply follows_stop].
    + apply nz_false in Hz as ->. eapply wp_mono; [by apply IH|]. intros r2 [h2 c2] (t & Ht & Hf).
      exists ((s, 0) :: t). cbn [snd] in *. rewrite Ht, add_trace_trace, <- app_assoc. split; [done|].
      apply follows_cons; auto.
Qed.

Lemma install_is_plan img : factory_write_root img (factory_write_kernel img) =
  let* _d := fac_step (Run UbiDetach) in run_plan (drop 1 (install_plan img)).
Proof. done. Qed.

(** Registering the partitions and counting bad blocks run no command. *)
Lemma register_trace h c :
  wp ursus_factory_register_mtd (fun _ s => f_trace (snd s) = f_trace c) (h, c).
Proof.
  unfold ursus_factory_register_mtd. destruct c as [a b k t].
  repeat first
    [ progress wps
    | match goal with |- wp (if ?b then _ else _) _ _ => destruct b end
    | match goal with |- wp (match ?x with _ => _ end) _ _ => destruct x end
    | apply wp_intro; intros ? ? _; cbn beta ]; done.
Qed.
Lemma capacity_trace n h c :
  wp (ursus_factory_kernel_capacity_ok n) (fun _ s => f_trace (snd s) = f_trace c) (h, c).
Proof.
  unfold ursus_factory_kernel_capacity_ok. wps. destruct (f_kernel c) as [k|]; [|by wps].
  wps. apply wp_intro. intros [e|u] h' _; by wps.
Qed.

Definition writes_kernel (s : fstep) : bool :=
  match s with
  | Run (MtdErase p _ _) | Run (MtdWrite p _ _ _) => bool_decide (p = KERNEL_PART)
  | _ => false
  end.

Lemma plan_order img i s :
  install_plan img !! i = Some s -> writes_kernel s = true -> (7 < i)%nat.
Proof. do 8 (destruct i as [|i]; [by intros [= <-]|]). lia. Qed.

Lemma follows_order img ret t i s r :
  follows (install_plan img) ret t -> t !! i = Some (s, r) -> writes_kernel s = true ->
  exists j, (j < i)%nat /\ t !! j = Some (Compare (im_root_off img) (im_root_size img), 0).
Proof.
  intros (Hm & Hz & _) Hi Hw.
  assert (Hp : forall j s r, t !! j = Some (s, r) -> install_plan img !! j = Some s).
  { intros j s' r' Hj. assert (Hl : (j < length t)%nat) by (by eapply lookup_lt_Some).
    assert (Hf : map fst t !! j = Some s') by (by rewrite list_lookup_fmap, Hj).
    rewrite Hm, lookup_take_Some in Hf. tauto. }
  pose proof (plan_order img i s (Hp _ _ _ Hi) Hw) as H7.
  assert (Hl : (i < length t)%nat) by (by eapply lookup_lt_Some).
  destruct (lookup_lt_is_Some_2 t 7) as [[s7 r7] H7']; [lia|].
  pose proof (Hp _ _ _ H7') as Hs7. injection Hs7 as <-.
  exists 7%nat. split; [lia|]. rewrite H7'. do 2 f_equal. eapply Hz; [exact H7'|done|lia].
Qed.

(** C21: The installation of a non-UBI image on the vendor partitions follows its
    plan whatever the commands return: nothing happens when a guard, the
    partition table or the kernel space check fails, otherwise the steps taken
    are the plan up to and including the first one that fails, success means
    every step succeeded, and the kernel partition is erased or written only
    after the new root filesystem was read back and compared equal. *)
Theorem factory_install_kernel_last img layout h c :
  wp (ursus_factory_install img layout) (fun ret s =>
    exists t, f_trace (snd s) = f_trace c ++ t /\
      ((t = [] /\ ret <> 0) \/ follows (install_plan img) ret t) /\
      (forall i st r, t !! i = Some (st, r) -> writes_kernel st = true ->
         exists j, (j < i)%nat /\ t !! j = Some (Compare (im_root_off img) (im_root_size img), 0)))
    (h, c).
Proof.
  unfold ursus_factory_install. destruct (nz (factory_guard img layout)) eqn:Hg.
  { wps. exists []. cbn [snd]. rewrite app_nil_r. split_and!; [done|left; by apply nz_true in Hg|done]. }
  unfold fac_try at 1. apply wp_bind. eapply wp_mono; [apply register_trace|]. cbn beta.
  intros r1 [h1 c1] H1. cbn [snd] in H1. rewrite <- H1. clear H1 c h.
  destruct (nz r1) eqn:Hz1.
  { wps. exists []. cbn [snd]. rewrite app_nil_r. split_and!; [done|left; by apply nz_true in Hz1|done]. }
  unfold fac_try at 1. apply wp_bind. eapply wp_mono; [apply capacity_trace|]. cbn beta.
  intros r2 [h2 c2] H2. cbn [snd] in H2. rewrite <- H2. clear H2 c1 h1.
  destruct (nz r2) eqn:Hz2.
  { wps. exists []. cbn [snd]. rewrite app_nil_r. split_and!; [done|left; by apply nz_true in Hz2|done]. }
  rewrite install_is_plan. apply wp_bind, wp_fac_step. intros r3 h3.
  eapply wp_mono; [apply run_plan_follows; [done|]|].
  { repeat (apply Forall_cons_2; [done|]). apply Forall_nil_2. }
  cbn beta. intros ret [h4 c4] (t & Ht & Hf). exists ((Run UbiDetach, r3) :: t). cbn [snd] in *.
  assert (Hf' : follows (install_plan img) ret ((Run UbiDetach, r3) :: t)) by (apply follows_cons; auto).
  rewrite Ht, add_trace_trace, <- app_assoc. split_and!; [done|by right|].
  intros i st r Hi Hw. by eapply follows_order.
Qed.
End thms.

(** The partitions lie above the bootloader area, inside the flash, side by side,
    and their concatenation has the size the installer erases. *)
Definition part_ok (p : string * Z * Z) : bool :=
  let '(_, o, n) := p in (0xc0000 <=? o) && (0 <? n) && (o + n <=? URSUS_NAND_SIZE).
Definition parts_disjoint (p q : string * Z * Z) : bool :=
  let '(n1, o1, s1) := p in let '(n2, o2, s2) := q in
  bool_decide (n1 = n2) || (o1 + s1 <=? o2) || (o2 + s2 <=? o1).
Lemma factory_parts_layout :
  forallb part_ok ursus_factory_parts = true /\
  forallb (fun p => forallb (parts_disjoint p) ursus_factory_parts) ursus_factory_parts = true /\
  fold_left (fun a p => a + snd p) (drop 1 ursus_factory_parts) 0 = URSUS_STOCK_LAYOUT_UBI_SIZE.
Proof. split_and!; vm_compute; reflexivity. Qed.
