(* ===== verification/WebFinding.v ===== *)
(** The findings of the stock-layout installation: an image the validator rejects
    still passes the guards of the installation. *)
From S2P Require Import Prelude Bytes Fip Flash Ubi Shell Bl2 UbiEngine Fit StockBoot WebHeaders WebImage WebImageThms WebDevice Bench StockThms.

Definition pad_to (n : nat) (l : list Z) : list Z := l ++ repeat 0 (n - length l).
(** A tar entry: name, size field, magic, body rounded up to 512 bytes. *)
Definition tar_entry (name size : string) (body : list Z) : list Z :=
  pad_to 512 (pad_to 257 (pad_to 124 (bytes_of name) ++ bytes_of size) ++ bytes_of "ustar") ++ pad_to 512 body.
(** A FIT kernel, and a root file that is no squashfs. *)
Definition bad_root_tar : list Z :=
  tar_entry "sysupgrade/kernel" "00000000100" (pad_to 64 [0xd0; 0x0d; 0xfe; 0xed]) ++
  tar_entry "sysupgrade/root" "00000000004" (bytes_of "junk").
Definition bad_root_image : list Z :=
  fwtool_image bad_root_tar (repeat 0 8) (fwtool_json [123] [bytes_of "nokia,xg-040g-md"] [125]).

