(* ===== verification/WebState.v ===== *)
(** The state of the web server (cmd/ursusweb.c): upload sessions, image states,
    connections, the text buffers that replies are sent from, pending requests,
    and the engines' contexts; then the response pump over lwIP's TCP. *)
From S2P Require Import Prelude Bytes Fip Flash Ubi Shell Bl2 Jobs FipUpdate UbiEngine Migration FitUpdate Mmio Led Fit WebHeaders WebImage WebDevice.

Definition URSUS_UPLOAD_CHUNK_MAX : Z := 0x00010000.
Definition URSUS_HTTP_HDR_MAX : Z := 2048.
Definition URSUS_JSON_MAX : Z := 8192.
Definition STATUS_MAX : Z := 16384.
Definition URSUS_CONSOLE_MAX : Z := 0x10000.
Definition URSUS_UBI_PRELOADER_ADDR : Z := 0x8f000000.
Definition URSUS_FIP_STAGE_ADDR : Z := 0x8e000000.
Definition URSUS_FIP_STAGE_MAX : Z := 0x00100000.
Definition URSUS_REBOOT_GRACE_MS : Z := 500.
Definition URSUS_REBOOT_FORCE_MS : Z := 3000.
Definition URSUS_REBOOT_RETRIES : nat := 3.

(** * Sessions *)

Inductive upload_kind :=
  | URSUS_UPLOAD_NONE
  | URSUS_UPLOAD_FIRMWARE
  | URSUS_UPLOAD_INITRAMFS
  | URSUS_UPLOAD_UBI_PRELOADER
  | URSUS_UPLOAD_URSUS_FIP
  | URSUS_UPLOAD_VANILLA_FIP.
#[export] Instance upload_kind_dec : EqDecision upload_kind.
Proof. solve_decision. Defined.

Definition ursus_upload_kind_name (k : upload_kind) : string :=
  match k with
  | URSUS_UPLOAD_FIRMWARE => "firmware"
  | URSUS_UPLOAD_INITRAMFS => "initramfs"
  | URSUS_UPLOAD_UBI_PRELOADER => "ubi-preloader"
  | URSUS_UPLOAD_VANILLA_FIP => "vanilla-fip"
  | _ => "ursus-fip"
  end.

(** [struct ursus_upload_session]. *)
Record session := MkSess {
  s_kind : upload_kind;
  s_addr : Z;
  s_max_len : Z;
  s_total : Z;
  s_received : Z;
  s_active : bool;
  s_generation : list Z;
  s_filename : list Z;
}.
Definition sess_zero : session := MkSess URSUS_UPLOAD_NONE 0 0 0 0 false [] [].
Definition set_s_received (v : Z) (s : session) : session :=
  let 'MkSess k a m t _ b g f := s in MkSess k a m t v b g f.
Definition set_s_active (v : bool) (s : session) : session :=
  let 'MkSess k a m t r _ g f := s in MkSess k a m t r v g f.

(** The upload sessions, the verdicts on the staged images, and the image states. *)
Record staging := MkStg {
  g_fw : session;
  g_init : session;
  g_pre : session;
  g_fip : session;
  g_van : session;
  g_pre_ok : bool;
  g_fip_ok : bool;
  g_van_ok : bool;
  g_img : image_state;
  g_exp : image_state;
}.
Definition set_g_fw (v : session) (s : staging) : staging :=
  let 'MkStg _ x1 x2 x3 x4 x5 x6 x7 x8 x9 := s in MkStg v x1 x2 x3 x4 x5 x6 x7 x8 x9.
Definition set_g_init (v : session) (s : staging) : staging :=
  let 'MkStg x0 _ x2 x3 x4 x5 x6 x7 x8 x9 := s in MkStg x0 v x2 x3 x4 x5 x6 x7 x8 x9.
Definition set_g_pre (v : session) (s : staging) : staging :=
  let 'MkStg x0 x1 _ x3 x4 x5 x6 x7 x8 x9 := s in MkStg x0 x1 v x3 x4 x5 x6 x7 x8 x9.
Definition set_g_fip (v : session) (s : staging) : staging :=
  let 'MkStg x0 x1 x2 _ x4 x5 x6 x7 x8 x9 := s in MkStg x0 x1 x2 v x4 x5 x6 x7 x8 x9.
Definition set_g_van (v : session) (s : staging) : staging :=
  let 'MkStg x0 x1 x2 x3 _ x5 x6 x7 x8 x9 := s in MkStg x0 x1 x2 x3 v x5 x6 x7 x8 x9.
Definition set_g_pre_ok (v : bool) (s : staging) : staging :=
  let 'MkStg x0 x1 x2 x3 x4 _ x6 x7 x8 x9 := s in MkStg x0 x1 x2 x3 x4 v x6 x7 x8 x9.
Definition set_g_fip_ok (v : bool) (s : staging) : staging :=
  let 'MkStg x0 x1 x2 x3 x4 x5 _ x7 x8 x9 := s in MkStg x0 x1 x2 x3 x4 x5 v x7 x8 x9.
Definition set_g_van_ok (v : bool) (s : staging) : staging :=
  let 'MkStg x0 x1 x2 x3 x4 x5 x6 _ x8 x9 := s in MkStg x0 x1 x2 x3 x4 x5 x6 v x8 x9.
Definition set_g_img (v : image_state) (s : staging) : staging :=
  let 'MkStg x0 x1 x2 x3 x4 x5 x6 x7 _ x9 := s in MkStg x0 x1 x2 x3 x4 x5 x6 x7 v x9.
Definition set_g_exp (v : image_state) (s : staging) : staging :=
  let 'MkStg x0 x1 x2 x3 x4 x5 x6 x7 x8 _ := s in MkStg x0 x1 x2 x3 x4 x5 x6 x7 x8 v.

(** [ursus_upload_session(kind)]: the session of a kind, if it has one. *)
Definition ursus_upload_session (k : upload_kind) (s : staging) : option session :=
  match k with
  | URSUS_UPLOAD_FIRMWARE => Some (g_fw s)
  | URSUS_UPLOAD_INITRAMFS => Some (g_init s)
  | URSUS_UPLOAD_UBI_PRELOADER => Some (g_pre s)
  | URSUS_UPLOAD_URSUS_FIP => Some (g_fip s)
  | URSUS_UPLOAD_VANILLA_FIP => Some (g_van s)
  | URSUS_UPLOAD_NONE => None
  end.
Definition set_session (k : upload_kind) (u : session) (s : staging) : staging :=
  match k with
  | URSUS_UPLOAD_FIRMWARE => set_g_fw u s
  | URSUS_UPLOAD_INITRAMFS => set_g_init u s
  | URSUS_UPLOAD_UBI_PRELOADER => set_g_pre u s
  | URSUS_UPLOAD_URSUS_FIP => set_g_fip u s
  | URSUS_UPLOAD_VANILLA_FIP => set_g_van u s
  | URSUS_UPLOAD_NONE => s
  end.
(** After the start of the server. *)
Definition stg_init : staging :=
  MkStg sess_zero sess_zero sess_zero sess_zero sess_zero false false false
    ursus_reset_image_state ursus_reset_expert_state.

(** * Connections *)

(** Where a reply's body is: a literal, or one of the shared buffers. *)
Inductive body_ref := BStatic (l : list Z) | BStatus | BLog | BReply | BConsole.

(** [struct ursus_conn]; [c_sent] records the bytes handed to TCP. *)
Record conn := MkConn {
  c_id : Z;
  c_reqhdr : list Z;
  c_headers_done : bool;
  c_is_upload : bool;
  c_upload_kind : upload_kind;
  c_upload_addr : Z;
  c_upload_offset : Z;
  c_upload_total : Z;
  c_content_len : Z;
  c_upload_received : Z;
  c_upload_generation : list Z;
  c_hdr : list Z;
  c_body : body_ref;
  c_hdr_off : Z;
  c_body_len : Z;
  c_body_off : Z;
  c_acked : Z;
  c_total_len : Z;
  c_response_started : bool;
  c_all_queued : bool;
  c_remote_eof : bool;
  c_stop_after_response : bool;
  c_reboot_after_response : bool;
  c_sent : list Z;
}.
Definition set_c_id (v : Z) (s : conn) : conn :=
  let 'MkConn _ x1 x2 x3 x4 x5 x6 x7 x8 x9 x10 x11 x12 x13 x14 x15 x16 x17 x18 x19 x20 x21 x22 x23 := s in MkConn v x1 x2 x3 x4 x5 x6 x7 x8 x9 x10 x11 x12 x13 x14 x15 x16 x17 x18 x19 x20 x21 x22 x23.
Definition set_c_reqhdr (v : list Z) (s : conn) : conn :=
  let 'MkConn x0 _ x2 x3 x4 x5 x6 x7 x8 x9 x10 x11 x12 x13 x14 x15 x16 x17 x18 x19 x20 x21 x22 x23 := s in MkConn x0 v x2 x3 x4 x5 x6 x7 x8 x9 x10 x11 x12 x13 x14 x15 x16 x17 x18 x19 x20 x21 x22 x23.
Definition set_c_headers_done (v : bool) (s : conn) : conn :=
  let 'MkConn x0 x1 _ x3 x4 x5 x6 x7 x8 x9 x10 x11 x12 x13 x14 x15 x16 x17 x18 x19 x20 x21 x22 x23 := s in MkConn x0 x1 v x3 x4 x5 x6 x7 x8 x9 x10 x11 x12 x13 x14 x15 x16 x17 x18 x19 x20 x21 x22 x23.
Definition set_c_is_upload (v : bool) (s : conn) : conn :=
  let 'MkConn x0 x1 x2 _ x4 x5 x6 x7 x8 x9 x10 x11 x12 x13 x14 x15 x16 x17 x18 x19 x20 x21 x22 x23 := s in MkConn x0 x1 x2 v x4 x5 x6 x7 x8 x9 x10 x11 x12 x13 x14 x15 x16 x17 x18 x19 x20 x21 x22 x23.
Definition set_c_upload_kind (v : upload_kind) (s : conn) : conn :=
  let 'MkConn x0 x1 x2 x3 _ x5 x6 x7 x8 x9 x10 x11 x12 x13 x14 x15 x16 x17 x18 x19 x20 x21 x22 x23 := s in MkConn x0 x1 x2 x3 v x5 x6 x7 x8 x9 x10 x11 x12 x13 x14 x15 x16 x17 x18 x19 x20 x21 x22 x23.
Definition set_c_upload_addr (v : Z) (s : conn) : conn :=
  let 'MkConn x0 x1 x2 x3 x4 _ x6 x7 x8 x9 x10 x11 x12 x13 x14 x15 x16 x17 x18 x19 x20 x21 x22 x23 := s in MkConn x0 x1 x2 x3 x4 v x6 x7 x8 x9 x10 x11 x12 x13 x14 x15 x16 x17 x18 x19 x20 x21 x22 x23.
Definition set_c_upload_offset (v : Z) (s : conn) : conn :=
  let 'MkConn x0 x1 x2 x3 x4 x5 _ x7 x8 x9 x10 x11 x12 x13 x14 x15 x16 x17 x18 x19 x20 x21 x22 x23 := s in MkConn x0 x1 x2 x3 x4 x5 v x7 x8 x9 x10 x11 x12 x13 x14 x15 x16 x17 x18 x19 x20 x21 x22 x23.
Definition set_c_upload_total (v : Z) (s : conn) : conn :=
  let 'MkConn x0 x1 x2 x3 x4 x5 x6 _ x8 x9 x10 x11 x12 x13 x14 x15 x16 x17 x18 x19 x20 x21 x22 x23 := s in MkConn x0 x1 x2 x3 x4 x5 x6 v x8 x9 x10 x11 x12 x13 x14 x15 x16 x17 x18 x19 x20 x21 x22 x23.
Definition set_c_content_len (v : Z) (s : conn) : conn :=
  let 'MkConn x0 x1 x2 x3 x4 x5 x6 x7 _ x9 x10 x11 x12 x13 x14 x15 x16 x17 x18 x19 x20 x21 x22 x23 := s in MkConn x0 x1 x2 x3 x4 x5 x6 x7 v x9 x10 x11 x12 x13 x14 x15 x16 x17 x18 x19 x20 x21 x22 x23.
Definition set_c_upload_received (v : Z) (s : conn) : conn :=
  let 'MkConn x0 x1 x2 x3 x4 x5 x6 x7 x8 _ x10 x11 x12 x13 x14 x15 x16 x17 x18 x19 x20 x21 x22 x23 := s in MkConn x0 x1 x2 x3 x4 x5 x6 x7 x8 v x10 x11 x12 x13 x14 x15 x16 x17 x18 x19 x20 x21 x22 x23.
Definition set_c_upload_generation (v : list Z) (s : conn) : conn :=
  let 'MkConn x0 x1 x2 x3 x4 x5 x6 x7 x8 x9 _ x11 x12 x13 x14 x15 x16 x17 x18 x19 x20 x21 x22 x23 := s in MkConn x0 x1 x2 x3 x4 x5 x6 x7 x8 x9 v x11 x12 x13 x14 x15 x16 x17 x18 x19 x20 x21 x22 x23.
Definition set_c_hdr (v : list Z) (s : conn) : conn :=
  let 'MkConn x0 x1 x2 x3 x4 x5 x6 x7 x8 x9 x10 _ x12 x13 x14 x15 x16 x17 x18 x19 x20 x21 x22 x23 := s in MkConn x0 x1 x2 x3 x4 x5 x6 x7 x8 x9 x10 v x12 x13 x14 x15 x16 x17 x18 x19 x20 x21 x22 x23.
Definition set_c_body (v : body_ref) (s : conn) : conn :=
  let 'MkConn x0 x1 x2 x3 x4 x5 x6 x7 x8 x9 x10 x11 _ x13 x14 x15 x16 x17 x18 x19 x20 x21 x22 x23 := s in MkConn x0 x1 x2 x3 x4 x5 x6 x7 x8 x9 x10 x11 v x13 x14 x15 x16 x17 x18 x19 x20 x21 x22 x23.
Definition set_c_hdr_off (v : Z) (s : conn) : conn :=
  let 'MkConn x0 x1 x2 x3 x4 x5 x6 x7 x8 x9 x10 x11 x12 _ x14 x15 x16 x17 x18 x19 x20 x21 x22 x23 := s in MkConn x0 x1 x2 x3 x4 x5 x6 x7 x8 x9 x10 x11 x12 v x14 x15 x16 x17 x18 x19 x20 x21 x22 x23.
Definition set_c_body_len (v : Z) (s : conn) : conn :=
  let 'MkConn x0 x1 x2 x3 x4 x5 x6 x7 x8 x9 x10 x11 x12 x13 _ x15 x16 x17 x18 x19 x20 x21 x22 x23 := s in MkConn x0 x1 x2 x3 x4 x5 x6 x7 x8 x9 x10 x11 x12 x13 v x15 x16 x17 x18 x19 x20 x21 x22 x23.
Definition set_c_body_off (v : Z) (s : conn) : conn :=
  let 'MkConn x0 x1 x2 x3 x4 x5 x6 x7 x8 x9 x10 x11 x12 x13 x14 _ x16 x17 x18 x19 x20 x21 x22 x23 := s in MkConn x0 x1 x2 x3 x4 x5 x6 x7 x8 x9 x10 x11 x12 x13 x14 v x16 x17 x18 x19 x20 x21 x22 x23.
Definition set_c_acked (v : Z) (s : conn) : conn :=
  let 'MkConn x0 x1 x2 x3 x4 x5 x6 x7 x8 x9 x10 x11 x12 x13 x14 x15 _ x17 x18 x19 x20 x21 x22 x23 := s in MkConn x0 x1 x2 x3 x4 x5 x6 x7 x8 x9 x10 x11 x12 x13 x14 x15 v x17 x18 x19 x20 x21 x22 x23.
Definition set_c_total_len (v : Z) (s : conn) : conn :=
  let 'MkConn x0 x1 x2 x3 x4 x5 x6 x7 x8 x9 x10 x11 x12 x13 x14 x15 x16 _ x18 x19 x20 x21 x22 x23 := s in MkConn x0 x1 x2 x3 x4 x5 x6 x7 x8 x9 x10 x11 x12 x13 x14 x15 x16 v x18 x19 x20 x21 x22 x23.
Definition set_c_response_started (v : bool) (s : conn) : conn :=
  let 'MkConn x0 x1 x2 x3 x4 x5 x6 x7 x8 x9 x10 x11 x12 x13 x14 x15 x16 x17 _ x19 x20 x21 x22 x23 := s in MkConn x0 x1 x2 x3 x4 x5 x6 x7 x8 x9 x10 x11 x12 x13 x14 x15 x16 x17 v x19 x20 x21 x22 x23.
Definition set_c_all_queued (v : bool) (s : conn) : conn :=
  let 'MkConn x0 x1 x2 x3 x4 x5 x6 x7 x8 x9 x10 x11 x12 x13 x14 x15 x16 x17 x18 _ x20 x21 x22 x23 := s in MkConn x0 x1 x2 x3 x4 x5 x6 x7 x8 x9 x10 x11 x12 x13 x14 x15 x16 x17 x18 v x20 x21 x22 x23.
Definition set_c_remote_eof (v : bool) (s : conn) : conn :=
  let 'MkConn x0 x1 x2 x3 x4 x5 x6 x7 x8 x9 x10 x11 x12 x13 x14 x15 x16 x17 x18 x19 _ x21 x22 x23 := s in MkConn x0 x1 x2 x3 x4 x5 x6 x7 x8 x9 x10 x11 x12 x13 x14 x15 x16 x17 x18 x19 v x21 x22 x23.
Definition set_c_stop_after_response (v : bool) (s : conn) : conn :=
  let 'MkConn x0 x1 x2 x3 x4 x5 x6 x7 x8 x9 x10 x11 x12 x13 x14 x15 x16 x17 x18 x19 x20 _ x22 x23 := s in MkConn x0 x1 x2 x3 x4 x5 x6 x7 x8 x9 x10 x11 x12 x13 x14 x15 x16 x17 x18 x19 x20 v x22 x23.
Definition set_c_reboot_after_response (v : bool) (s : conn) : conn :=
  let 'MkConn x0 x1 x2 x3 x4 x5 x6 x7 x8 x9 x10 x11 x12 x13 x14 x15 x16 x17 x18 x19 x20 x21 _ x23 := s in MkConn x0 x1 x2 x3 x4 x5 x6 x7 x8 x9 x10 x11 x12 x13 x14 x15 x16 x17 x18 x19 x20 x21 v x23.
Definition set_c_sent (v : list Z) (s : conn) : conn :=
  let 'MkConn x0 x1 x2 x3 x4 x5 x6 x7 x8 x9 x10 x11 x12 x13 x14 x15 x16 x17 x18 x19 x20 x21 x22 _ := s in MkConn x0 x1 x2 x3 x4 x5 x6 x7 x8 x9 x10 x11 x12 x13 x14 x15 x16 x17 x18 x19 x20 x21 x22 v.
Definition conn_new (id : Z) : conn :=
  MkConn id [] false false URSUS_UPLOAD_NONE 0 0 0 0 0 [] [] (BStatic []) 0 0 0 0 0 false false false false false [].

(** The requests that wait for the main loop. *)
Record pending := MkPend {
  p_expert : bool;
  p_factory : bool;
  p_ubi : bool;
  p_mig : bool;
  p_boot : bool;
  p_reboot : bool;
  p_queued : bool;
  p_queued_at : Z;
  p_request_at : Z;
}.
Definition set_p_expert (v : bool) (s : pending) : pending :=
  let 'MkPend _ x1 x2 x3 x4 x5 x6 x7 x8 := s in MkPend v x1 x2 x3 x4 x5 x6 x7 x8.
Definition set_p_factory (v : bool) (s : pending) : pending :=
  let 'MkPend x0 _ x2 x3 x4 x5 x6 x7 x8 := s in MkPend x0 v x2 x3 x4 x5 x6 x7 x8.
Definition set_p_ubi (v : bool) (s : pending) : pending :=
  let 'MkPend x0 x1 _ x3 x4 x5 x6 x7 x8 := s in MkPend x0 x1 v x3 x4 x5 x6 x7 x8.
Definition set_p_mig (v : bool) (s : pending) : pending :=
  let 'MkPend x0 x1 x2 _ x4 x5 x6 x7 x8 := s in MkPend x0 x1 x2 v x4 x5 x6 x7 x8.
Definition set_p_boot (v : bool) (s : pending) : pending :=
  let 'MkPend x0 x1 x2 x3 _ x5 x6 x7 x8 := s in MkPend x0 x1 x2 x3 v x5 x6 x7 x8.
Definition set_p_reboot (v : bool) (s : pending) : pending :=
  let 'MkPend x0 x1 x2 x3 x4 _ x6 x7 x8 := s in MkPend x0 x1 x2 x3 x4 v x6 x7 x8.
Definition set_p_queued (v : bool) (s : pending) : pending :=
  let 'MkPend x0 x1 x2 x3 x4 x5 _ x7 x8 := s in MkPend x0 x1 x2 x3 x4 x5 v x7 x8.
Definition set_p_queued_at (v : Z) (s : pending) : pending :=
  let 'MkPend x0 x1 x2 x3 x4 x5 x6 _ x8 := s in MkPend x0 x1 x2 x3 x4 x5 x6 v x8.
Definition set_p_request_at (v : Z) (s : pending) : pending :=
  let 'MkPend x0 x1 x2 x3 x4 x5 x6 x7 _ := s in MkPend x0 x1 x2 x3 x4 x5 x6 x7 v.
(** The static variables of the server and of the engines it drives. *)
Record web := MkWeb {
  w_stg : staging;
  w_probe : probe;
  w_log : list Z;
  w_reply : list Z;
  w_status : list Z;
  w_console : list Z;
  w_pend : pending;
  w_stop : bool;
  w_network_failed : bool;
  w_cpend : option (Z * list Z);
  w_net : nat;
  w_ubi : ubi_ctx;
  w_up : update_ctx;
  w_fac : factory_ctx;
  w_led : led_ctx;
  w_conns : gmap Z conn;
  w_conn_id : Z;
  w_rx : Z * (Z * Z);
  w_uart : list Z;
  w_uart_cr : bool;
  w_last : string * (string * string);
  w_running : bool;
}.
Definition set_w_stg (v : staging) (s : web) : web :=
  let 'MkWeb _ x1 x2 x3 x4 x5 x6 x7 x8 x9 x10 x11 x12 x13 x14 x15 x16 x17 x18 x19 x20 x21 := s in MkWeb v x1 x2 x3 x4 x5 x6 x7 x8 x9 x10 x11 x12 x13 x14 x15 x16 x17 x18 x19 x20 x21.
Definition set_w_probe (v : probe) (s : web) : web :=
  let 'MkWeb x0 _ x2 x3 x4 x5 x6 x7 x8 x9 x10 x11 x12 x13 x14 x15 x16 x17 x18 x19 x20 x21 := s in MkWeb x0 v x2 x3 x4 x5 x6 x7 x8 x9 x10 x11 x12 x13 x14 x15 x16 x17 x18 x19 x20 x21.
Definition set_w_log (v : list Z) (s : web) : web :=
  let 'MkWeb x0 x1 _ x3 x4 x5 x6 x7 x8 x9 x10 x11 x12 x13 x14 x15 x16 x17 x18 x19 x20 x21 := s in MkWeb x0 x1 v x3 x4 x5 x6 x7 x8 x9 x10 x11 x12 x13 x14 x15 x16 x17 x18 x19 x20 x21.
Definition set_w_reply (v : list Z) (s : web) : web :=
  let 'MkWeb x0 x1 x2 _ x4 x5 x6 x7 x8 x9 x10 x11 x12 x13 x14 x15 x16 x17 x18 x19 x20 x21 := s in MkWeb x0 x1 x2 v x4 x5 x6 x7 x8 x9 x10 x11 x12 x13 x14 x15 x16 x17 x18 x19 x20 x21.
Definition set_w_status (v : list Z) (s : web) : web :=
  let 'MkWeb x0 x1 x2 x3 _ x5 x6 x7 x8 x9 x10 x11 x12 x13 x14 x15 x16 x17 x18 x19 x20 x21 := s in MkWeb x0 x1 x2 x3 v x5 x6 x7 x8 x9 x10 x11 x12 x13 x14 x15 x16 x17 x18 x19 x20 x21.
Definition set_w_console (v : list Z) (s : web) : web :=
  let 'MkWeb x0 x1 x2 x3 x4 _ x6 x7 x8 x9 x10 x11 x12 x13 x14 x15 x16 x17 x18 x19 x20 x21 := s in MkWeb x0 x1 x2 x3 x4 v x6 x7 x8 x9 x10 x11 x12 x13 x14 x15 x16 x17 x18 x19 x20 x21.
Definition set_w_pend (v : pending) (s : web) : web :=
  let 'MkWeb x0 x1 x2 x3 x4 x5 _ x7 x8 x9 x10 x11 x12 x13 x14 x15 x16 x17 x18 x19 x20 x21 := s in MkWeb x0 x1 x2 x3 x4 x5 v x7 x8 x9 x10 x11 x12 x13 x14 x15 x16 x17 x18 x19 x20 x21.
Definition set_w_stop (v : bool) (s : web) : web :=
  let 'MkWeb x0 x1 x2 x3 x4 x5 x6 _ x8 x9 x10 x11 x12 x13 x14 x15 x16 x17 x18 x19 x20 x21 := s in MkWeb x0 x1 x2 x3 x4 x5 x6 v x8 x9 x10 x11 x12 x13 x14 x15 x16 x17 x18 x19 x20 x21.
Definition set_w_network_failed (v : bool) (s : web) : web :=
  let 'MkWeb x0 x1 x2 x3 x4 x5 x6 x7 _ x9 x10 x11 x12 x13 x14 x15 x16 x17 x18 x19 x20 x21 := s in MkWeb x0 x1 x2 x3 x4 x5 x6 x7 v x9 x10 x11 x12 x13 x14 x15 x16 x17 x18 x19 x20 x21.
Definition set_w_cpend (v : option (Z * list Z)) (s : web) : web :=
  let 'MkWeb x0 x1 x2 x3 x4 x5 x6 x7 x8 _ x10 x11 x12 x13 x14 x15 x16 x17 x18 x19 x20 x21 := s in MkWeb x0 x1 x2 x3 x4 x5 x6 x7 x8 v x10 x11 x12 x13 x14 x15 x16 x17 x18 x19 x20 x21.
Definition set_w_net (v : nat) (s : web) : web :=
  let 'MkWeb x0 x1 x2 x3 x4 x5 x6 x7 x8 x9 _ x11 x12 x13 x14 x15 x16 x17 x18 x19 x20 x21 := s in MkWeb x0 x1 x2 x3 x4 x5 x6 x7 x8 x9 v x11 x12 x13 x14 x15 x16 x17 x18 x19 x20 x21.
Definition set_w_ubi (v : ubi_ctx) (s : web) : web :=
  let 'MkWeb x0 x1 x2 x3 x4 x5 x6 x7 x8 x9 x10 _ x12 x13 x14 x15 x16 x17 x18 x19 x20 x21 := s in MkWeb x0 x1 x2 x3 x4 x5 x6 x7 x8 x9 x10 v x12 x13 x14 x15 x16 x17 x18 x19 x20 x21.
Definition set_w_up (v : update_ctx) (s : web) : web :=
  let 'MkWeb x0 x1 x2 x3 x4 x5 x6 x7 x8 x9 x10 x11 _ x13 x14 x15 x16 x17 x18 x19 x20 x21 := s in MkWeb x0 x1 x2 x3 x4 x5 x6 x7 x8 x9 x10 x11 v x13 x14 x15 x16 x17 x18 x19 x20 x21.
Definition set_w_fac (v : factory_ctx) (s : web) : web :=
  let 'MkWeb x0 x1 x2 x3 x4 x5 x6 x7 x8 x9 x10 x11 x12 _ x14 x15 x16 x17 x18 x19 x20 x21 := s in MkWeb x0 x1 x2 x3 x4 x5 x6 x7 x8 x9 x10 x11 x12 v x14 x15 x16 x17 x18 x19 x20 x21.
Definition set_w_led (v : led_ctx) (s : web) : web :=
  let 'MkWeb x0 x1 x2 x3 x4 x5 x6 x7 x8 x9 x10 x11 x12 x13 _ x15 x16 x17 x18 x19 x20 x21 := s in MkWeb x0 x1 x2 x3 x4 x5 x6 x7 x8 x9 x10 x11 x12 x13 v x15 x16 x17 x18 x19 x20 x21.
Definition set_w_conns (v : gmap Z conn) (s : web) : web :=
  let 'MkWeb x0 x1 x2 x3 x4 x5 x6 x7 x8 x9 x10 x11 x12 x13 x14 _ x16 x17 x18 x19 x20 x21 := s in MkWeb x0 x1 x2 x3 x4 x5 x6 x7 x8 x9 x10 x11 x12 x13 x14 v x16 x17 x18 x19 x20 x21.
Definition set_w_conn_id (v : Z) (s : web) : web :=
  let 'MkWeb x0 x1 x2 x3 x4 x5 x6 x7 x8 x9 x10 x11 x12 x13 x14 x15 _ x17 x18 x19 x20 x21 := s in MkWeb x0 x1 x2 x3 x4 x5 x6 x7 x8 x9 x10 x11 x12 x13 x14 x15 v x17 x18 x19 x20 x21.
Definition set_w_rx (v : Z * (Z * Z)) (s : web) : web :=
  let 'MkWeb x0 x1 x2 x3 x4 x5 x6 x7 x8 x9 x10 x11 x12 x13 x14 x15 x16 _ x18 x19 x20 x21 := s in MkWeb x0 x1 x2 x3 x4 x5 x6 x7 x8 x9 x10 x11 x12 x13 x14 x15 x16 v x18 x19 x20 x21.
Definition set_w_uart (v : list Z) (s : web) : web :=
  let 'MkWeb x0 x1 x2 x3 x4 x5 x6 x7 x8 x9 x10 x11 x12 x13 x14 x15 x16 x17 _ x19 x20 x21 := s in MkWeb x0 x1 x2 x3 x4 x5 x6 x7 x8 x9 x10 x11 x12 x13 x14 x15 x16 x17 v x19 x20 x21.
Definition set_w_uart_cr (v : bool) (s : web) : web :=
  let 'MkWeb x0 x1 x2 x3 x4 x5 x6 x7 x8 x9 x10 x11 x12 x13 x14 x15 x16 x17 x18 _ x20 x21 := s in MkWeb x0 x1 x2 x3 x4 x5 x6 x7 x8 x9 x10 x11 x12 x13 x14 x15 x16 x17 x18 v x20 x21.
Definition set_w_last (v : string * (string * string)) (s : web) : web :=
  let 'MkWeb x0 x1 x2 x3 x4 x5 x6 x7 x8 x9 x10 x11 x12 x13 x14 x15 x16 x17 x18 x19 _ x21 := s in MkWeb x0 x1 x2 x3 x4 x5 x6 x7 x8 x9 x10 x11 x12 x13 x14 x15 x16 x17 x18 x19 v x21.
Definition set_w_running (v : bool) (s : web) : web :=
  let 'MkWeb x0 x1 x2 x3 x4 x5 x6 x7 x8 x9 x10 x11 x12 x13 x14 x15 x16 x17 x18 x19 x20 _ := s in MkWeb x0 x1 x2 x3 x4 x5 x6 x7 x8 x9 x10 x11 x12 x13 x14 x15 x16 x17 x18 x19 x20 v.
Definition web_t : Type := hw * web.

(** The layout name, as the requests compare it. *)
Definition layout (w : web) : string := pr_layout (w_probe w).
Definition set_layout (l : string) (w : web) : web :=
  let 'MkProbe _ a b c d e f g h i j k := w_probe w in set_w_probe (MkProbe l a b c d e f g h i j k) w.

(** * Code of the other files on the shared state *)

Definition on_ubi {A} (m : ST ubi_t A) : ST web_t A := fun s =>
  let p := m (fst s, w_ubi (snd s)) in (fst p, (fst (snd p), set_w_ubi (snd (snd p)) (snd s))).
Definition on_up {A} (m : ST fst_t A) : ST web_t A := fun s =>
  let p := m (fst s, w_up (snd s)) in (fst p, (fst (snd p), set_w_up (snd (snd p)) (snd s))).
Definition on_fac {A} (m : ST fac_t A) : ST web_t A := fun s =>
  let p := m (fst s, w_fac (snd s)) in (fst p, (fst (snd p), set_w_fac (snd (snd p)) (snd s))).
Definition on_led {A} (m : ST led_t A) : ST web_t A := fun s =>
  let p := m (fst s, w_led (snd s)) in (fst p, (fst (snd p), set_w_led (snd (snd p)) (snd s))).

(** A C string stored in a buffer: the text, its NUL, and what was behind it. *)
Definition buf_put (text buf : list Z) : list Z := text ++ [0] ++ drop (S (length text)) buf.
Definition put_log (text : list Z) (w : web) : web := set_w_log (buf_put text (w_log w)) w.

(** A validator, on an image state and the log. *)
Definition on_val {A} (get : staging -> image_state) (set : image_state -> staging -> staging)
    (m : ST val_t A) : ST web_t A := fun s =>
  let w := snd s in
  let p := m (fst s, MkVal (get (w_stg w)) (cstr (w_log w))) in
  let v := snd (snd p) in
  (fst p, (fst (snd p), put_log (v_log v) (set_w_stg (set (v_img v) (w_stg w)) w))).

Definition onstg (f : staging -> staging) : ST web_t unit := onctx (fun w => set_w_stg (f (w_stg w)) w).
Definition onpend (f : pending -> pending) : ST web_t unit := onctx (fun w => set_w_pend (f (w_pend w)) w).
Definition wlog (l : list frag) : ST web_t unit :=
  onctx (fun w => put_log (ursus_logf (fmt l) (cstr (w_log w))) w).
Definition ursus_log_reset : ST web_t unit := onctx (put_log []).
(** [snprintf(ursus_reply_body, ...)]. *)
Definition set_reply (l : list frag) : ST web_t unit :=
  onctx (fun w => set_w_reply (buf_put (cstr (snprintf_text URSUS_JSON_MAX (fmt l))) (w_reply w)) w).

(** A JSON literal, written with apostrophes for the quotes, and its newline. *)
Definition jq (s : string) : list Z := map (fun b => if b =? 39 then 34 else b) (bytes_of s).
Definition json_line (s : string) : list Z := jq s ++ [10].
Definition FJ (s : string) : frag := FS (jq s).

(** * TCP *)

Definition ERR_OK : Z := 0.
Definition ERR_MEM : Z := -1.
Definition ERR_VAL : Z := -6.
Definition ERR_ABRT : Z := -13.

(** lwIP: the answers of the [n]-th call. *)
Class Tcp := {
  tcp_sndbuf : nat -> Z;
  tcp_write : nat -> Z;
  tcp_output : nat -> Z;
}.

Definition net_call (f : nat -> Z) : ST web_t Z := fun s =>
  (f (w_net (snd s)), (fst s, set_w_net (S (w_net (snd s))) (snd s))).

Definition body_bytes (w : web) (b : body_ref) : list Z :=
  match b with
  | BStatic l => l
  | BStatus => w_status w
  | BLog => w_log w
  | BReply => w_reply w
  | BConsole => w_console w
  end.

Section pump.
Context {N : Tcp}.

Definition hdr_len (c : conn) : Z := blen (c_hdr c).
Definition unsent (c : conn) : Z := (hdr_len c - c_hdr_off c) + (c_body_len c - c_body_off c).

(** The loop: an error that ends the function, whether something was written,
    and the connection.  Every turn that goes on sends at least one byte. *)
Fixpoint pump_loop (fuel : nat) (c : conn) (wrote : bool) : ST web_t (Z * (bool * conn)) :=
  match fuel with
  | O => sret (ERR_OK, (wrote, c))
  | S fuel' =>
    if (c_hdr_off c <? hdr_len c) || (c_body_off c <? c_body_len c) then
      let* snd_ := net_call tcp_sndbuf in
      if snd_ <=? 0 then sret (ERR_OK, (wrote, c))
      else
        let* w := ctx id in
        let in_hdr := c_hdr_off c <? hdr_len c in
        let remain := if in_hdr then hdr_len c - c_hdr_off c else c_body_len c - c_body_off c in
        let chunk := Z.min (Z.min remain snd_) 1024 in
        let data := if in_hdr then slice (c_hdr_off c) chunk (c_hdr c)
                    else slice (c_body_off c) chunk (body_bytes w (c_body c)) in
        let* err := net_call tcp_write in
        if err =? ERR_MEM then sret (ERR_OK, (wrote, c))
        else if negb (err =? ERR_OK) then sret (err, (wrote, c))
        else
          let c := set_c_sent (c_sent c ++ data) c in
          pump_loop fuel'
            (if in_hdr then set_c_hdr_off (c_hdr_off c + chunk) c else set_c_body_off (c_body_off c + chunk) c) true
    else sret (ERR_OK, (wrote, c))
  end.

Definition ursus_http_pump (c : conn) : ST web_t (Z * conn) :=
  let* r := pump_loop (Z.to_nat (unsent c)) c false in
  let '(err, (wrote, c)) := r in
  if negb (err =? ERR_OK) then sret (err, c)
  else
    let* err := (if wrote then net_call tcp_output else sret ERR_OK) in
    if negb (err =? ERR_OK) then sret (err, c)
    else if negb (c_all_queued c) && (c_hdr_off c =? hdr_len c) && (c_body_off c =? c_body_len c) then
      let c := set_c_all_queued true c in
      let* p := ctx w_pend in
      (if c_reboot_after_response c && negb (p_queued p) then
         let* now := onhw (get_timer 0) in
         onpend (fun p => set_p_queued_at now (set_p_queued true p)) ;;;
         wlog [FL "WEB REBOOT: HTTP 200 queued grace_ms=500"; FNL]
       else sret tt) ;;;
      sret (ERR_OK, c)
    else sret (ERR_OK, c).

Definition status_reason (status : Z) : string :=
  if status =? 200 then "OK" else if status =? 400 then "Bad Request"
  else if status =? 413 then "Payload Too Large" else "Conflict".
Definition response_header (status : Z) (ctype : string) (len : Z) : list Z :=
  fmt [FL "HTTP/1.1 "; FD status; FL " "; FL (status_reason status); FS crlf; FL "Content-Type: "; FL ctype; FS crlf;
       FL "Cache-Control: no-store"; FS crlf; FL "Connection: close"; FS crlf;
       FL "Content-Length: "; FD (u32 len); FS crlf; FS crlf].

Definition ursus_http_start_response (c : conn) (status : Z) (ctype : string) (body : body_ref) : ST web_t (Z * conn) :=
  let* w := ctx id in
  let len := blen (cstr (body_bytes w body)) in
  let c := set_c_body_len len (set_c_body body c) in
  let h := response_header status ctype len in
  if 320 <=? blen h then sret (ERR_VAL, c)
  else
    let c := set_c_response_started true (set_c_total_len (blen h + len) (set_c_hdr h c)) in
    ursus_http_pump c.

Definition JSON : string := "application/json".
Definition TEXT : string := "text/plain; charset=utf-8".
Definition reply_lit (c : conn) (status : Z) (s : string) : ST web_t (Z * conn) :=
  ursus_http_start_response c status JSON (BStatic (json_line s)).
End pump.
