(* ===== verification/WebUpload.v ===== *)
(** Chunked uploads (cmd/ursusweb.c): opening a session, checking a chunk's
    headers, storing its bytes in the staging memory of its kind, and the check
    of the complete image.  A chunk's body may arrive in any number of pieces. *)
From S2P Require Import Prelude Bytes Fip Flash Ubi Shell Bl2 Jobs FipUpdate UbiEngine Migration FitUpdate Fit WebHeaders WebImage WebDevice WebState.

Definition shares_stage (k : upload_kind) : bool :=
  bool_decide (k = URSUS_UPLOAD_FIRMWARE) || bool_decide (k = URSUS_UPLOAD_INITRAMFS).
Definition kind_max (k : upload_kind) : Z :=
  if shares_stage k then URSUS_STAGE_MAX
  else if bool_decide (k = URSUS_UPLOAD_UBI_PRELOADER) then URSUS_UBI_PRELOADER_MAX else URSUS_FIP_STAGE_MAX.
Definition kind_addr (k : upload_kind) : Z :=
  if shares_stage k then URSUS_STAGE_ADDR
  else if bool_decide (k = URSUS_UPLOAD_UBI_PRELOADER) then URSUS_UBI_PRELOADER_ADDR else URSUS_FIP_STAGE_ADDR.

Section upload.
Context {P : Platform} {X : Ext} {B : Board} {T : FitLib} {N : Tcp}.
(** Where [memalign] places the BL2 candidate. *)
Variable memalign_addr : Z.

Definition ursus_upload_reject (c : conn) (status : Z) (cls reason : string) (expected got : Z) : ST web_t (Z * conn) :=
  set_reply [FJ "{'result':'REJECTED','reason_class':'"; FL cls; FJ "','reason':'"; FL reason;
             FJ "','expected':"; FD (u32 expected); FJ ",'got':"; FD (u32 got); FJ "}"; FNL] ;;;
  wlog [FL "UPLOAD ERROR: class="; FL cls; FL " reason="; FL reason; FL " expected="; FD (u32 expected);
        FL " got="; FD (u32 got); FNL] ;;;
  ursus_http_start_response c status JSON BReply.

(** The other uploads that use the same memory are dropped. *)
Definition drop_shared (k : upload_kind) : ST web_t unit :=
  match k with
  | URSUS_UPLOAD_FIRMWARE =>
    onstg (fun s => set_g_init sess_zero (set_g_exp ursus_reset_expert_state (set_g_img ursus_reset_image_state s))) ;;;
    ursus_log_reset
  | URSUS_UPLOAD_INITRAMFS =>
    onstg (fun s => set_g_fw sess_zero (set_g_img ursus_reset_image_state (set_g_exp ursus_reset_expert_state s)))
  | URSUS_UPLOAD_UBI_PRELOADER => onstg (set_g_pre_ok false)
  | URSUS_UPLOAD_VANILLA_FIP => onstg (fun s => set_g_fip sess_zero (set_g_van_ok false (set_g_fip_ok false s)))
  | _ => onstg (fun s => set_g_van sess_zero (set_g_van_ok false (set_g_fip_ok false s)))
  end.

Definition ursus_begin_upload (c : conn) (kind : upload_kind) : ST web_t (Z * conn) :=
  let max_len := kind_max kind in
  let h := cstr (c_reqhdr c) in
  let total := ursus_parse_header_ulong h "X-Ursus-Total" in
  match total with
  | None | Some 0 =>
    ursus_upload_reject c 400 URSUS_RC_UPLOAD_INCOMPLETE "missing or invalid declared size" 1 0
  | Some total =>
    if max_len <? total then
      ursus_upload_reject c 413 URSUS_RC_IMAGE_TOO_LARGE "declared image exceeds staging capacity" max_len total
    else match ursus_parse_header_value h "X-Ursus-Generation" URSUS_GENERATION_MAX with
    | None =>
      ursus_upload_reject c 400 URSUS_RC_UPLOAD_INCOMPLETE "missing or invalid upload generation" 0 0
    | Some generation =>
      if negb (ursus_generation_valid generation) then
        ursus_upload_reject c 400 URSUS_RC_UPLOAD_INCOMPLETE "missing or invalid upload generation" 0 0
      else match ursus_parse_header_value h "X-Ursus-Filename" (URSUS_FILENAME_MAX * 3) with
      | None => ursus_upload_reject c 400 URSUS_RC_UPLOAD_INCOMPLETE "missing or invalid filename" 0 0
      | Some encoded =>
        match ursus_decode_filename encoded URSUS_FILENAME_MAX with
        | None => ursus_upload_reject c 400 URSUS_RC_UPLOAD_INCOMPLETE "missing or invalid filename" 0 0
        | Some filename =>
          onstg (set_session kind (MkSess kind (kind_addr kind) max_len total 0 true generation filename)) ;;;
          drop_shared kind ;;;
          wlog [FL "UPLOAD BEGIN: kind="; FL (ursus_upload_kind_name kind); FL " generation="; FS generation;
                FL " filename="; FS filename; FL " declared="; FD (u32 total); FL " received=0"; FNL] ;;;
          set_reply [FJ "{'result':'UPLOAD_READY','reason_class':'OK','generation':'"; FS generation;
                     FJ "','filename':'"; FS filename; FJ "','declared_size':"; FD (u32 total);
                     FJ ",'received':0}"; FNL] ;;;
          ursus_http_start_response c 200 JSON BReply
        end
      end
    end
  end.

(** The headers of a chunk against its session; [Some] for a response sent. *)
Definition ursus_prepare_chunk (c : conn) (kind : upload_kind) : ST web_t (Z * conn) :=
  let* w := ctx id in
  let u := ursus_upload_session kind (w_stg w) in
  let h := cstr (c_reqhdr c) in
  let len := ursus_parse_content_length h in
  let c := set_c_content_len len c in
  if (len =? 0) || (URSUS_UPLOAD_CHUNK_MAX <? len) then
    ursus_upload_reject c 413 URSUS_RC_UPLOAD_INCOMPLETE "chunk must be 1..65536 bytes" URSUS_UPLOAD_CHUNK_MAX len
  else
    let off_h := ursus_parse_header_ulong h "X-Ursus-Offset" in
    let off := default 0 off_h in
    match off_h, ursus_parse_header_ulong h "X-Ursus-Total",
          ursus_parse_header_value h "X-Ursus-Generation" URSUS_GENERATION_MAX with
    | Some _, Some total, Some generation =>
      match u with
      | None =>
        ursus_upload_reject c 409 URSUS_RC_UPLOAD_INCOMPLETE "no active upload generation; begin upload first" 0 off
      | Some u =>
        if negb (s_active u) then
          ursus_upload_reject c 409 URSUS_RC_UPLOAD_INCOMPLETE "no active upload generation; begin upload first" 0 off
        else if negb (memeq generation (s_generation u)) then
          ursus_upload_reject c 409 URSUS_RC_UPLOAD_INCOMPLETE "stale or wrong upload generation" (s_received u) off
        else if negb (total =? s_total u) then
          ursus_upload_reject c 409 URSUS_RC_UPLOAD_INCOMPLETE "declared size changed during upload" (s_total u) total
        else if negb (off =? s_received u) then
          ursus_upload_reject c 409 URSUS_RC_UPLOAD_INCOMPLETE "unexpected chunk offset" (s_received u) off
        else if (total <? off) || (total - off <? len) then
          ursus_upload_reject c 413 URSUS_RC_UPLOAD_INCOMPLETE "chunk exceeds declared image size" total (u64 (off + len))
        else if s_max_len u <? u64 (off + len) then
          ursus_upload_reject c 413 URSUS_RC_IMAGE_TOO_LARGE "chunk exceeds staging capacity" (s_max_len u) (u64 (off + len))
        else
          sret (ERR_OK,
            set_c_upload_generation generation (set_c_upload_total total (set_c_upload_offset off
              (set_c_upload_addr (s_addr u) (set_c_upload_kind kind (set_c_is_upload true c))))))
      end
    | _, _, _ =>
      ursus_upload_reject c 400 URSUS_RC_UPLOAD_INCOMPLETE "chunk headers are incomplete"
        (match u with Some u => s_received u | None => 0 end) off
    end.

(** * The complete image *)

Definition verdict_word (vret : Z) : string := if nz vret then "REJECTED" else "VALID".

(** The next step a client may take with the image. *)
Definition plan_flags (w : web) (ret : Z) : (bool * bool * bool) * (string * string) :=
  let s := g_img (w_stg w) in
  let l := layout w in
  if negb (nz ret) && bool_decide (im_type s = URSUS_IMG_NONUBI_SYSUPGRADE) then
    let ready := layout_stock l in
    ((ready, false, false),
     (if ready then if is_layout l "OPENWRT_STOCK_LAYOUT" then "UPDATE_OPENWRT_STOCK_LAYOUT"
                    else "INSTALL_OPENWRT_STOCK_LAYOUT" else "NONE",
      if ready then im_reason_class s else URSUS_RC_LAYOUT_UNSUPPORTED))
  else if negb (nz ret) && bool_decide (im_type s = URSUS_IMG_UBI_SYSUPGRADE) then
    let update := layout_ubi l in
    let migrate := layout_stock l && g_pre_ok (w_stg w) && ursus_ubi_bl2_candidate_valid (us_bl2 (w_ubi w)) in
    ((false, update, migrate),
     (if update then "UPDATE_OPENWRT_UBI" else if migrate then "INSTALL_OPENWRT_UBI"
      else "INSTALL_OPENWRT_UBI_NEEDS_PRELOADER", im_reason_class s))
  else ((false, false, false), ("NONE", im_reason_class s))%string.

Definition ursus_build_plan_reply (ret : Z) : ST web_t unit :=
  let* w := ctx id in
  let s := g_img (w_stg w) in
  let u := g_fw (w_stg w) in
  let '((ready, update, migrate), (action, rclass)) := plan_flags w ret in
  set_reply
    [FJ "{'result':'"; FL (verdict_word ret); FJ "','image_type':'"; FL (ursus_image_name (im_type s));
     FJ "','size':"; FD (u32 (im_len s)); FJ ",'filename':'"; FS (s_filename u); FJ "','generation':'"; FS (s_generation u);
     FJ "','declared_size':"; FD (u32 (s_total u)); FJ ",'received':"; FD (u32 (s_received u));
     FJ ",'metadata_valid':"; FB (im_metadata_valid s); FJ ",'device_compatible':"; FB (im_device_compatible s);
     FJ ",'fit_valid':"; FB (im_fit_valid s); FJ ",'fit_hashes_valid':"; FB (im_fit_hashes_valid s);
     FJ ",'kernel_found':"; FB (im_kernel_found s); FJ ",'fdt_found':"; FB (im_fdt_found s);
     FJ ",'root_found':"; FB (im_root_found s); FJ ",'kernel_arch_valid':"; FB (im_kernel_arch_valid s);
     FJ ",'fdt_compatible':"; FB (im_fdt_compatible s); FJ ",'kernel_size':"; FD (u32 (im_kernel_size s));
     FJ ",'fdt_size':"; FD (u32 (im_fdt_size s)); FJ ",'root_size':"; FD (u32 (im_root_size s));
     FJ ",'current_layout':'"; FL (layout w); FJ "','stock_layout_install_available':"; FB ready;
     FJ ",'ubi_update_available':"; FB update; FJ ",'ubi_migration_available':"; FB migrate;
     FJ ",'ubi_preloader_valid':"; FB (g_pre_ok (w_stg w)); FJ ",'next_action':'"; FL action;
     FJ "','reason_class':'"; FL rclass; FJ "','reason':'"; FL (im_reason s); FJ "'}"; FNL].

Definition ursus_build_expert_reply (ret : Z) : ST web_t unit :=
  let* w := ctx id in
  let s := g_exp (w_stg w) in
  let u := g_init (w_stg w) in
  set_reply
    [FJ "{'result':'"; FL (verdict_word ret); FJ "','complete':true,'size':"; FD (u32 (im_len s));
     FJ ",'filename':'"; FS (s_filename u); FJ "','generation':'"; FS (s_generation u);
     FJ "','declared_size':"; FD (u32 (s_total u)); FJ ",'received':"; FD (u32 (s_received u));
     FJ ",'fit_valid':"; FB (im_fit_valid s); FJ ",'fit_hashes_valid':"; FB (im_fit_hashes_valid s);
     FJ ",'kernel_found':"; FB (im_kernel_found s); FJ ",'fdt_found':"; FB (im_fdt_found s);
     FJ ",'kernel_arch_valid':"; FB (im_kernel_arch_valid s); FJ ",'fdt_compatible':"; FB (im_fdt_compatible s);
     FJ ",'bootable':"; FB (im_bootable_fit s); FJ ",'reason_class':'"; FL (im_reason_class s);
     FJ "','reason':'"; FL (im_reason s); FJ "'}"; FNL].

(** The reply fields every complete upload of a boot image has. *)
Definition complete_reply (u : session) (vret : Z) (extra : list frag) (cls reason : string) : ST web_t unit :=
  set_reply
    ([FJ "{'result':'"; FL (verdict_word vret); FJ "','complete':true,'generation':'"; FS (s_generation u);
      FJ "','filename':'"; FS (s_filename u); FJ "','declared_size':"; FD (u32 (s_total u));
      FJ ",'received':"; FD (u32 (s_received u))] ++ extra ++
     [FJ ",'reason_class':'"; FL cls; FJ "','reason':'"; FL reason; FJ "'}"; FNL]).

Definition fip_class (vret : Z) : string :=
  if nz vret then if vret =? - ENODEV then URSUS_RC_DEVICE_MISMATCH else URSUS_RC_BAD_CONTAINER else URSUS_RC_OK.

(** The check of each kind; [None] when the scan of the image leaves it. *)
Definition check_firmware (u : session) : ST web_t (option Z) :=
  let* buf := onhw (ram_read (s_addr u) (s_total u)) in
  let* w := ctx id in
  let* r := on_val g_img set_g_img (ursus_validate_staged (s_addr u) buf (layout w)) in
  match r with
  | None => sret None
  | Some vret => ursus_build_plan_reply vret ;;; sret (Some vret)
  end.
Definition check_initramfs (u : session) : ST web_t Z :=
  let* buf := onhw (ram_read (s_addr u) (s_total u)) in
  let* w := ctx id in
  let* vret := on_val g_exp set_g_exp (ursus_validate_expert_fit (s_addr u) buf (layout w)) in
  ursus_build_expert_reply vret ;;; sret vret.

Definition on_bl2 {A} (m : bl2_ctx -> ST hw (A * bl2_ctx)) : ST ubi_t A :=
  let* b := ctx us_bl2 in
  let* r := onhw (m b) in
  onctx (set_us_bl2 (snd r)) ;;; sret (fst r).
Definition check_preloader (u : session) : ST web_t Z :=
  let* vret := onhw (ursus_ubi_validate_preloader (s_addr u) (s_total u)) in
  let* vret := (if nz vret then sret vret
                else on_ubi (on_bl2 (ursus_ubi_prepare_bl2_candidate memalign_addr (s_addr u) (s_total u)))) in
  let* w := ctx id in
  let cand := ursus_ubi_bl2_candidate_valid (us_bl2 (w_ubi w)) in
  onstg (set_g_pre_ok (negb (nz vret) && cand)) ;;;
  complete_reply u vret [FJ ",'ubi_bl2_candidate_valid':"; FB cand]
    (if nz vret then URSUS_RC_BAD_CONTAINER else URSUS_RC_OK)
    (if nz vret then "UBI preloader or full 128 KiB BL2 candidate validation failed"
     else "UBI preloader and full 128 KiB BL2 candidate validated") ;;;
  sret vret.

Definition check_vanilla (u : session) : ST web_t Z :=
  let* w := ctx id in
  let stock_limit := negb (layout_ubi (layout w)) in
  let* vret := onhw (validate_kind_at (s_addr u) (s_total u) stock_limit URSUS_FIP_KIND_VANILLA) in
  let* vret := (if nz vret then sret vret
                else let* m := onhw ursus_ubi_installed_bl2_matches_pin in sret (if nz m then - ENOEXEC else 0)) in
  onstg (set_g_van_ok (negb (nz vret))) ;;;
  complete_reply u vret
    [FJ ",'layout':'"; FL (if stock_limit then "STOCK" else "UBI"); FJ "','vanilla_fip_pinned':"; FB ursus_vanilla_fip_pinned]
    (fip_class vret)
    (if negb (nz vret) then "Pinned Vanilla U-Boot FIP validated for this board; installed BL2 is the pinned fast BL2"
     else if vret =? - ENODEV then "Not a Vanilla OpenWrt U-Boot FIP for this board"
     else if vret =? - ENOEXEC then "Installed BL2 is not the pinned fast BL2 of this UrsusBoot"
     else if stock_limit then "Vanilla U-Boot requires the OpenWrt UBI layout"
     else "Not the Vanilla FIP pinned into this UrsusBoot") ;;;
  sret vret.
Definition check_fip (u : session) : ST web_t Z :=
  let* w := ctx id in
  let stock_limit := negb (layout_ubi (layout w)) in
  let* vret := onhw (validate_kind_at (s_addr u) (s_total u) stock_limit URSUS_FIP_KIND_URSUS) in
  onstg (set_g_fip_ok (negb (nz vret))) ;;;
  complete_reply u vret [FJ ",'layout':'"; FL (if stock_limit then "STOCK" else "UBI"); FJ "'"] (fip_class vret)
    (if nz vret then if vret =? - ENODEV then "UrsusBoot FIP is for another device"
       else "Expected a complete UrsusBoot .fip container; raw u-boot.bin or u-boot.lzma is not an update FIP"
     else "UrsusBoot FIP validated for this board/layout") ;;;
  sret vret.

Definition check_upload (kind : upload_kind) (u : session) : ST web_t (option Z) :=
  match kind with
  | URSUS_UPLOAD_FIRMWARE => check_firmware u
  | URSUS_UPLOAD_INITRAMFS => let* v := check_initramfs u in sret (Some v)
  | URSUS_UPLOAD_UBI_PRELOADER => let* v := check_preloader u in sret (Some v)
  | URSUS_UPLOAD_VANILLA_FIP => let* v := check_vanilla u in sret (Some v)
  | _ => let* v := check_fip u in sret (Some v)
  end.

(** * A piece of a chunk's body *)

(** The chunk is complete: the session advances, and the last chunk starts the check. *)
Definition chunk_done (c : conn) (u : session) : ST web_t (option (Z * conn)) :=
  let done := u64 (c_upload_offset c + c_content_len c) in
  if negb (memeq (c_upload_generation c) (s_generation u)) then
    let* r := ursus_upload_reject c 409 URSUS_RC_UPLOAD_INCOMPLETE "upload generation changed while receiving chunk"
                (s_received u) (c_upload_offset c) in
    sret (Some r)
  else
    let u := set_s_received done u in
    onstg (set_session (c_upload_kind c) u) ;;;
    if done =? s_total u then
      let u := set_s_active false u in
      onstg (set_session (c_upload_kind c) u) ;;;
      wlog [FL "UPLOAD COMPLETE: kind="; FL (ursus_upload_kind_name (c_upload_kind c)); FL " generation=";
            FS (s_generation u); FL " filename="; FS (s_filename u); FL " declared="; FD (u32 (s_total u));
            FL " received="; FD (u32 (s_received u)); FNL] ;;;
      let* vret := check_upload (c_upload_kind c) u in
      match vret with
      | None => sret None
      | Some vret =>
        let* r := ursus_http_start_response c (if nz vret then 400 else 200) JSON BReply in sret (Some r)
      end
    else
      set_reply [FJ "{'result':'CHUNK_OK','reason_class':'OK','complete':false,'generation':'"; FS (s_generation u);
                 FJ "','filename':'"; FS (s_filename u); FJ "','received':"; FD (u32 (s_received u));
                 FJ ",'declared_size':"; FD (u32 (s_total u)); FJ "}"; FNL] ;;;
      let* r := ursus_http_start_response c 200 JSON BReply in sret (Some r).

Definition feed_body (c : conn) (data : list Z) : ST web_t (option (Z * conn)) :=
  let* w := ctx id in
  match ursus_upload_session (c_upload_kind c) (w_stg w) with
  | None => sret (Some (ERR_VAL, c))
  | Some u =>
    if negb (s_active u) then sret (Some (ERR_VAL, c))
    else
      let take := Z.min (u64 (c_content_len c - c_upload_received c)) (blen data) in
      (if nz take then
         onhw (ram_write (c_upload_addr c + c_upload_offset c + c_upload_received c) (slice 0 take data))
       else sret tt) ;;;
      let c := set_c_upload_received (c_upload_received c + take) c in
      if c_upload_received c =? c_content_len c then chunk_done c u else sret (Some (ERR_OK, c))
  end.
End upload.
