(* ===== verification/WebStatus.v ===== *)
(** The status document of the web server (cmd/ursusweb.c, ursus_build_status):
    which operations are available, which job is reported, how the installed
    system was judged, and the JSON text clients poll. *)
From S2P Require Import Prelude Bytes Fip Flash Ubi Shell Bl2 Jobs FipUpdate UbiEngine Migration FitUpdate Fit WebHeaders WebImage WebDevice WebState.

(** Values other parts of the system provide to the document: build stamp, RAM
    size, the dispatcher's reasons, UBI block counts, chip geometry, the link. *)
Class WebEnv := {
  env_build : list Z;
  env_ram_mib : Z;
  env_boot_reason : string;
  env_recovery_reason : string;
  env_peb_count : Z;
  env_good_pebs : Z;
  env_bad_pebs : Z;
  env_corrupt_pebs : Z;
  env_oob_size : Z;
  eth_is_active : bool;
  env_logo : list Z;
  env_favicon : list Z;
  env_root : list Z;
}.

Definition URSUS_PRODUCT_NAME : string := "UrsusBoot".
Definition URSUS_VERSION : string := "0.1.0-alpha5-t71".
Definition URSUS_PRODUCT_VERSION : string := "UrsusBoot 0.1.0-alpha5-t71".

(** * JSON *)

Inductive jval := JS (s : list Z) | JN (z : Z) | JB (b : bool).
Definition jval_text (v : jval) : list Z :=
  match v with
  | JS s => [34] ++ s ++ [34]
  | JN z => bytes_of (pretty z)
  | JB b => bytes_of (if b then "true" else "false")
  end.
Definition field_text (f : string * jval) : list Z := [34] ++ bytes_of (fst f) ++ [34; 58] ++ jval_text (snd f).
Fixpoint fields_text (l : list (string * jval)) : list Z :=
  match l with
  | [] => []
  | [f] => field_text f
  | f :: l' => field_text f ++ [44] ++ fields_text l'
  end.
Definition json_object (l : list (string * jval)) : list Z := [123] ++ fields_text l ++ [125; 10].
Definition JT (s : string) : jval := JS (bytes_of s).

(** * Which job is reported *)

Definition any_op_active (w : web) : bool :=
  ursus_ubi_update_active (us_upd (w_ubi w)) || ursus_ubi_migration_active (us_mig (w_ubi w)) ||
  ursus_fip_update_active (w_up w).

Record job_report := MkJob {
  j_operation : string;
  j_active : bool;
  j_complete : bool;
  j_failed : bool;
  j_stage : string;
  j_percent : Z;
  j_detail : string;
  j_error : Z;
  j_failed_stage : string;
  j_last_success : string;
  j_error_code : string;
  j_transaction : transaction_state;
}.
Definition upd_report (u : fit_update_ctx) : job_report :=
  MkJob "UBI_UPDATE" (ursus_ubi_update_active u) (ursus_ubi_update_complete u) (ursus_ubi_update_failed u)
    (ursus_upd_stage_name (upd_stage u)) (ursus_upd_percent (upd_stage u)) (ursus_upd_detail (upd_stage u)) (upd_error u)
    (ursus_ubi_update_failed_stage u) (ursus_ubi_update_last_success_stage u) (ursus_ubi_update_error_code u)
    (ursus_ubi_update_transaction_state u).
Definition mig_report (m : migration_ctx) : job_report :=
  MkJob "STOCK_TO_UBI" (ursus_ubi_migration_active m) (ursus_ubi_migration_complete m) (ursus_ubi_migration_failed m)
    (ursus_mig_stage_name (mig_stage m)) (ursus_mig_percent (mig_stage m)) (ursus_mig_detail (mig_stage m)) (mig_error m)
    (ursus_ubi_migration_failed_stage m) (ursus_ubi_migration_last_success_stage m) (ursus_ubi_migration_error_code m)
    (ursus_ubi_migration_transaction_state m).
Definition boot_report (c : update_ctx) : job_report :=
  MkJob "URSUSBOOT_UPDATE" (ursus_fip_update_active c) (ursus_fip_update_complete c) (ursus_fip_update_failed c)
    (ursus_update_stage_name (up_stage c)) (ursus_update_percent_value (up_stage c))
    (ursus_update_detail_text c (up_stage c)) (up_error c)
    (ursus_fip_update_failed_stage c) (ursus_update_stage_name (up_last_success_stage c)) (ursus_fip_update_error_code c)
    (ursus_fip_update_transaction_state c).
Definition no_report : job_report := MkJob "NONE" false false false "IDLE" 0 "Idle" 0 "NONE" "NONE" "NONE" NOT_STARTED.
Definition seen (j : job_report) : bool := j_active j || j_complete j || j_failed j.
(** A FIT update hides a migration, which hides a bootloader update. *)
Definition operation (w : web) : job_report :=
  let u := upd_report (us_upd (w_ubi w)) in
  let m := mig_report (us_mig (w_ubi w)) in
  let b := boot_report (w_up w) in
  if seen u then u else if seen m then m else if seen b then b else no_report.
Definition transaction_name (t : transaction_state) : string :=
  match t with
  | COMPLETION_PROVEN => "COMPLETION_PROVEN"
  | WRITE_STATE_UNKNOWN => "WRITE_STATE_UNKNOWN"
  | IN_PROGRESS => "IN_PROGRESS"
  | NOT_STARTED => "NOT_STARTED"
  end.

(** * What is available *)

Definition img_ok (s : image_state) : bool := bool_decide (im_reason_class s = URSUS_RC_OK).
Definition diag_fip_ok (w : web) : bool :=
  match pr_diag (w_probe w) with Some d => usable (ud_fip d) | None => false end.

Definition stock_layout_ready (w : web) : bool :=
  stock_image_ready (g_img (w_stg w)) && img_ok (g_img (w_stg w)) && layout_stock (layout w) && negb (any_op_active w).
Definition is_ubi_image (s : image_state) : bool := bool_decide (im_type s = URSUS_IMG_UBI_SYSUPGRADE) && img_ok s.
Definition ubi_update_ready (w : web) : bool :=
  is_ubi_image (g_img (w_stg w)) && layout_ubi (layout w) &&
  (ursus_ubi_migration_complete (us_mig (w_ubi w)) || diag_fip_ok w) && negb (any_op_active w).
Definition ubi_migrate_ready (w : web) : bool :=
  is_ubi_image (g_img (w_stg w)) && layout_stock (layout w) && g_pre_ok (w_stg w) &&
  ursus_ubi_bl2_candidate_valid (us_bl2 (w_ubi w)) && negb (any_op_active w).

(** * The installed system *)

(** [boot_validation_result] and [boot_validation_reason]. *)
Definition ubi_boot_reason (w : web) : string :=
  match pr_diag (w_probe w) with
  | None => if ursus_ubi_migration_complete (us_mig (w_ubi w)) then "UBI_MIGRATION_VERIFIED" else "UBI_ATTACH_FAILED"
  | Some d =>
    if negb (dg_present (ud_fip d)) then "FIP_MISSING"
    else if negb (dg_valid (ud_fip d)) then "FIP_INVALID"
    else if usable (ud_fit d) then "FIT_OK"
    else if usable (ud_fit_old d) then "FIT_OLD_FALLBACK"
    else if negb (dg_present (ud_fit d)) && negb (dg_present (ud_fit_old d)) then "FIT_MISSING"
    else "FIT_INVALID"
  end.
Definition boot_ok_reasons : list string := ["UBI_MIGRATION_VERIFIED"; "FIT_OK"; "FIT_OLD_FALLBACK"]%string.
Definition boot_validation (w : web) : string * string :=
  let l := layout w in
  if layout_ubi l then
    let r := ubi_boot_reason w in
    (if existsb (fun x => bool_decide (r = x)) boot_ok_reasons then "OK" else "ERROR", r)%string
  else if is_layout l "STOCK" then
    (if pr_stock_fip (w_probe w) && pr_stock_fit (w_probe w) then ("OK", "STOCK_OK") else ("ERROR", "STOCK_INCOMPLETE"))%string
  else if is_layout l "OPENWRT_STOCK_LAYOUT" then ("OK", "OPENWRT_STOCK_LAYOUT_OK")%string
  else ("UNKNOWN", "UNKNOWN")%string.

(** * The document *)

Definition vol_type_name (d : volume_diag) : string :=
  if dg_present d then if dg_static d then "static" else "dynamic" else "unknown".
Definition vol_fields (p v i t n : string) (d : volume_diag) : list (string * jval) :=
  [(p, JB (dg_present d)); (v, JB (dg_valid d)); (i, JN (dg_id d)); (t, JT (vol_type_name d)); (n, JN (dg_used d))].
Definition sess_fields (f g r t : string) (u : session) : list (string * jval) :=
  [(f, JS (s_filename u)); (g, JS (s_generation u)); (r, JN (u32 (s_received u))); (t, JN (u32 (s_total u)))].

Section status.
Context {B : Board} {E : WebEnv}.

Definition stage_state (s : image_state) : string :=
  match im_type s with URSUS_IMG_NONE => "IDLE" | URSUS_IMG_INVALID => "INVALID" | _ => "STAGED" end.
Definition validation_result (s : image_state) : string :=
  match im_type s with URSUS_IMG_NONE => "NOT_RUN" | _ => if img_ok s then "VALID" else "REJECTED" end.
Definition update_result (w : web) : string :=
  let u := upd_report (us_upd (w_ubi w)) in
  if seen u then if j_complete u then "COMPLETE" else if j_failed u then "FAILED" else "ACTIVE" else "NOT_RUN".

Definition device_fields (w : web) (listening : bool) : list (string * jval) :=
  let p := w_probe w in
  let d := default (MkUbiDiag 0 0 no_diag no_diag no_diag) (pr_diag p) in
  let attached := bool_decide (is_Some (pr_diag p)) in
  [("product", JT URSUS_PRODUCT_NAME); ("version", JT URSUS_VERSION); ("build", JS env_build);
   ("target", JT "Nokia XG-040G-MD"); ("board", JT "Nokia XG-040G-MD"); ("soc", JT "Airoha AN7581");
   ("boot_fdt_compatible", JT (if layout_ubi (layout w) then "nokia,xg-040g-md-ubi" else "nokia,xg-040g-md"));
   ("dram_mib", JN env_ram_mib); ("current_layout", JT (layout w)); ("recovery_latched", JB true);
   ("boot_reason", JT env_boot_reason); ("recovery_reason", JT env_recovery_reason);
   ("boot_fip", JB (pr_boot_fip p)); ("stock_fip", JB (pr_stock_fip p)); ("stock_fit", JB (pr_stock_fit p));
   ("ubi_fip", JB (pr_ubi_fip p)); ("ubi_fit", JB (pr_ubi_fit p)); ("ubi_attached", JB attached);
   ("ubi_peb_count", JN (if attached then env_peb_count else 0)); ("ubi_good_pebs", JN (if attached then env_good_pebs else 0));
   ("ubi_bad_pebs", JN (if attached then env_bad_pebs else 0)); ("ubi_corrupt_pebs", JN (if attached then env_corrupt_pebs else 0));
   ("ubi_free_pebs", JN (ud_free_pebs d)); ("ubi_leb_size", JN (ud_leb_size d))]%string ++
  vol_fields "fip_present" "fip_valid" "fip_volume_id" "fip_volume_type" "fip_bytes" (ud_fip d) ++
  vol_fields "fit_present" "fit_valid_on_flash" "fit_volume_id" "fit_volume_type" "fit_bytes" (ud_fit d) ++
  vol_fields "fit_old_present" "fit_old_valid" "fit_old_volume_id" "fit_old_volume_type" "fit_old_bytes" (ud_fit_old d) ++
  [("ip", JT "192.168.1.1"); ("stock_layout_install_available", JB (stock_layout_ready w));
   ("factory_install_available", JB (stock_layout_ready w)); ("ubi_update_available", JB (ubi_update_ready w));
   ("ubi_migration_available", JB (ubi_migrate_ready w)); ("flash_type", JT "SPI-NAND"); ("flash_vendor", JS (pr_vendor p));
   ("flash_size_mib", JN (match pr_mtd p with Some m => Z.shiftr (m_size m) 20 | None => 0 end));
   ("flash_chip", JS (pr_chip p)); ("flash_id", JS (pr_id p));
   ("flash_page_size", JN (match pr_mtd p with Some m => m_writesize m | None => 0 end));
   ("flash_oob_size", JN (match pr_mtd p with Some _ => env_oob_size | None => 0 end));
   ("flash_erase_size", JN (match pr_mtd p with Some m => m_erasesize m | None => 0 end));
   ("bad_blocks", JN (pr_bad_blocks p)); ("network_up", JB eth_is_active); ("ethernet_active", JB eth_is_active);
   ("web_listening", JB listening)]%string.

Definition image_fields (w : web) : list (string * jval) :=
  let s := g_img (w_stg w) in
  let '(vresult, vreason) := boot_validation w in
  [("stage_state", JT (stage_state s)); ("image_type", JT (ursus_image_name (im_type s))); ("staged_size", JN (u32 (im_len s)));
   ("metadata_valid", JB (im_metadata_valid s)); ("device_compatible", JB (im_device_compatible s));
   ("fit_valid", JB (im_fit_valid s)); ("fit_hashes_valid", JB (im_fit_hashes_valid s));
   ("kernel_found", JB (im_kernel_found s)); ("fdt_found", JB (im_fdt_found s)); ("root_found", JB (im_root_found s));
   ("kernel_arch_valid", JB (im_kernel_arch_valid s)); ("fdt_compatible", JB (im_fdt_compatible s));
   ("kernel_size", JN (u32 (im_kernel_size s))); ("fdt_size", JN (u32 (im_fdt_size s))); ("root_size", JN (u32 (im_root_size s)));
   ("reason_class", JT (im_reason_class s)); ("reason", JT (im_reason s));
   ("boot_validation_result", JT vresult); ("boot_validation_class", JT (layout w)); ("boot_validation_reason", JT vreason);
   ("last_validation_result", JT (validation_result s)); ("last_validation_class", JT (im_reason_class s));
   ("last_validation_reason", JT (im_reason s)); ("last_update_result", JT (update_result w))]%string.

Definition upload_fields (w : web) : list (string * jval) :=
  let g := w_stg w in
  sess_fields "firmware_filename" "firmware_generation" "firmware_upload_received" "firmware_upload_total" (g_fw g) ++
  [("expert_size", JN (u32 (im_len (g_exp g)))); ("expert_valid", JB (im_bootable_fit (g_exp g)));
   ("expert_reason_class", JT (im_reason_class (g_exp g))); ("expert_reason", JT (im_reason (g_exp g)))]%string ++
  sess_fields "initramfs_filename" "initramfs_generation" "initramfs_upload_received" "initramfs_upload_total" (g_init g) ++
  [("ubi_preloader_valid", JB (g_pre_ok g));
   ("ubi_bl2_candidate_valid", JB (ursus_ubi_bl2_candidate_valid (us_bl2 (w_ubi w))))]%string ++
  sess_fields "ubi_preloader_filename" "ubi_preloader_generation" "ubi_preloader_upload_received" "ubi_preloader_upload_total" (g_pre g) ++
  [("ursus_fip_valid", JB (g_fip_ok g))]%string ++
  sess_fields "ursus_fip_filename" "ursus_fip_generation" "ursus_fip_upload_received" "ursus_fip_upload_total" (g_fip g) ++
  [("vanilla_fip_pinned", JB ursus_vanilla_fip_pinned); ("vanilla_fip_valid", JB (g_van_ok g))]%string ++
  sess_fields "vanilla_fip_filename" "vanilla_fip_generation" "vanilla_fip_upload_received" "vanilla_fip_upload_total" (g_van g).

Definition job_fields (w : web) : list (string * jval) :=
  let b := boot_report (w_up w) in
  let o := operation w in
  [("bootloader_update_active", JB (j_active b)); ("bootloader_update_complete", JB (j_complete b));
   ("bootloader_update_failed", JB (j_failed b)); ("bootloader_update_stage", JT (j_stage b));
   ("bootloader_update_percent", JN (j_percent b)); ("bootloader_update_detail", JT (j_detail b));
   ("bootloader_update_error", JN (j_error b));
   ("bootloader_update_layout", JT (if up_ubi_layout (w_up w) then "UBI" else "STOCK"));
   ("bootloader_update_kind", JT (if is_vanilla (up_kind (w_up w)) then "VANILLA" else "URSUSBOOT"));
   ("operation", JT (j_operation o)); ("operation_active", JB (j_active o)); ("operation_complete", JB (j_complete o));
   ("operation_failed", JB (j_failed o)); ("operation_stage", JT (j_stage o)); ("operation_percent", JN (j_percent o));
   ("operation_detail", JT (j_detail o)); ("operation_error", JN (j_error o));
   ("operation_failed_at_stage", JT (j_failed_stage o)); ("operation_last_success_stage", JT (j_last_success o));
   ("operation_error_code", JT (j_error_code o)); ("operation_transaction_state", JT (transaction_name (j_transaction o)));
   ("api_version", JN 200)]%string.

Definition status_text (w : web) (listening : bool) : list Z :=
  json_object (device_fields w listening ++ image_fields w ++ upload_fields w ++ job_fields w).
Definition ursus_build_status (listening : bool) : ST web_t unit :=
  onctx (fun w => set_w_status (buf_put (cstr (snprintf_text STATUS_MAX (status_text w listening))) (w_status w)) w).
End status.
