(* ===== verification/WebRoute.v ===== *)
(** The requests of the web server (cmd/ursusweb.c, ursus_route_ready): static
    documents, uploads, discards, the console, and the guarded operations that
    start a flash engine, arm a boot or a stock-layout installation, reset the
    settings or reboot. *)
From S2P Require Import Prelude Bytes Fip Flash Ubi Shell Bl2 Jobs FipUpdate UbiEngine Migration FitUpdate Fit StockBoot WebHeaders WebImage WebDevice WebState WebUpload WebStatus.

Section route.
Context {P : Platform} {X : Ext} {B : Board} {T : FitLib} {N : Tcp} {E : WebEnv} {C : ConcatUbi}.

(** ["%08lx"]. *)
Definition hex08 (z : Z) : list Z := repeat 48 (8 - length (hex z)) ++ hex z.

(** The "X-Ursus-Confirm" header is exactly [word]. *)
Definition confirmed (c : conn) (word : string) (out_len : Z) : bool :=
  match ursus_parse_header_value (cstr (c_reqhdr c)) "X-Ursus-Confirm" out_len with
  | Some v => memeq v (bytes_of word)
  | None => false
  end.

Definition locked (c : conn) (reason : string) : ST web_t (Z * conn) :=
  reply_lit c 409 ("{'result':'REJECTED','reason_class':'OPERATION_LOCKED','reason':'" ++ reason ++ "'}").

(** * Console and discards *)

Definition route_console (c : conn) : ST web_t (Z * conn) :=
  let cmd := match ursus_parse_header_value (cstr (c_reqhdr c)) "X-Ursus-Command" 512 with
             | Some encoded => ursus_decode_filename encoded 256
             | None => None
             end in
  match cmd with
  | None => reply_lit c 400 "{'result':'REJECTED','reason':'empty or invalid command'}"
  | Some cmd =>
    let* busy := ctx w_cpend in
    match busy with
    | Some _ =>
      ursus_http_start_response c 409 TEXT (BStatic (bytes_of "another Web console command is still running" ++ [10]))
    | None => onctx (set_w_cpend (Some (c_id c, cmd))) ;;; sret (ERR_OK, c)
    end
  end.

Definition log_discard (kind : upload_kind) : ST web_t unit :=
  let* w := ctx id in
  match ursus_upload_session kind (w_stg w) with
  | None => sret tt
  | Some u =>
    wlog [FL "UPLOAD DISCARD: kind="; FL (ursus_upload_kind_name kind); FL " generation="; FS (s_generation u);
          FL " filename="; FS (s_filename u); FL " declared="; FD (u32 (s_total u)); FL " received=";
          FD (u32 (s_received u)); FL " class=UPLOAD_INCOMPLETE"; FNL]
  end.
Definition route_discard (c : conn) (kind : upload_kind) : ST web_t (Z * conn) :=
  log_discard kind ;;;
  onstg (set_session kind sess_zero) ;;;
  (match kind with
   | URSUS_UPLOAD_FIRMWARE => onstg (set_g_img ursus_reset_image_state)
   | URSUS_UPLOAD_INITRAMFS => onstg (set_g_exp ursus_reset_expert_state)
   | URSUS_UPLOAD_UBI_PRELOADER => onstg (set_g_pre_ok false)
   | URSUS_UPLOAD_VANILLA_FIP => onstg (set_g_van_ok false)
   | _ => onstg (set_g_fip_ok false)
   end) ;;;
  reply_lit c 200 "{'result':'DISCARDED'}".

(** * Operations *)

Definition route_boot_once (c : conn) : ST web_t (Z * conn) :=
  let* s := ctx (fun w => g_exp (w_stg w)) in
  if negb (im_bootable_fit s) then locked c "no validated initramfs/FIT"
  else
    onpend (set_p_expert true) ;;;
    wlog [FL "EXPERT: boot once armed, addr=0x"; FS (hex08 (im_addr s)); FL " size="; FD (u32 (im_len s)); FNL] ;;;
    reply_lit (set_c_stop_after_response true c) 200 "{'result':'BOOT_ONCE_ARMED','automatic_sysupgrade':false}".

Definition route_install_stock (c : conn) : ST web_t (Z * conn) :=
  let* w := ctx id in
  if negb (confirmed c "INSTALL-OPENWRT-STOCK-LAYOUT" 32) then locked c "confirmation required"
  else if negb (stock_image_ready (g_img (w_stg w))) || negb (layout_stock (layout w)) then
    locked c "validated OpenWrt non-UBI sysupgrade image required"
  else
    onpend (set_p_factory true) ;;;
    wlog [FL "OPENWRT_STOCK_LAYOUT: installation armed"; FNL] ;;;
    reply_lit (set_c_stop_after_response true c) 200 "{'result':'OPENWRT_STOCK_LAYOUT_INSTALL_ARMED'}".

(** The settings are kept unless the header says "0". *)
Definition keep_settings (c : conn) : bool :=
  match ursus_parse_header_value (cstr (c_reqhdr c)) "X-Ursus-Keep-Settings" 16 with
  | Some v => negb (memeq v (bytes_of "0"))
  | None => true
  end.
(** An attached UBI without a usable boot volume. *)
Definition fip_broken (w : web) : bool :=
  match pr_diag (w_probe w) with Some d => negb (usable (ud_fip d)) | None => false end.
Definition install_ubi_update (c : conn) : ST web_t (Z * conn) :=
  let* w := ctx id in
  let img := g_img (w_stg w) in
  if fip_broken w then
    reply_lit c 409 "{'result':'REJECTED','reason_class':'BOOTLOADER_REPAIR_REQUIRED','reason':'active UBI fip is missing or invalid; restore UrsusBoot first'}"
  else if any_op_active w then locked c "another operation is active"
  else
    let* ret := on_ubi (ursus_ubi_update_start (im_addr img) (im_len img) (keep_settings c)) in
    if nz ret then locked c "UBI update preflight could not start"
    else
      onpend (set_p_ubi true) ;;;
      wlog [FL "URSUS_UBI_UPDATE_BEGIN keep_settings="; FD (if keep_settings c then 1 else 0); FNL] ;;;
      reply_lit c 200 "{'result':'UBI_UPDATE_STARTED','reboot':'MANUAL'}".
Definition install_ubi_migration (c : conn) : ST web_t (Z * conn) :=
  let* w := ctx id in
  let img := g_img (w_stg w) in
  if negb (layout_stock (layout w)) then
    reply_lit c 409 "{'result':'REJECTED','reason_class':'LAYOUT_UNSUPPORTED','reason':'current NAND layout cannot be migrated'}"
  else if negb (g_pre_ok (w_stg w)) || negb (ursus_ubi_bl2_candidate_valid (us_bl2 (w_ubi w))) then
    locked c "validated UBI preloader and 128 KiB BL2 candidate required"
  else
    let* ret := on_ubi (ursus_ubi_migration_start (im_addr img) (im_len img) URSUS_UBI_PRELOADER_ADDR
                          (s_total (g_pre (w_stg w)))) in
    if nz ret then locked c "UBI migration preflight could not start"
    else
      onpend (set_p_mig true) ;;;
      wlog [FL "UBI MIGRATION: START - pre-write validation"; FNL] ;;;
      reply_lit c 200 "{'result':'UBI_MIGRATION_STARTED','commit':'BL2_LAST','bl2_layout':'FF800+PRELOADER@800+FFPAD'}".
Definition route_install_ubi (c : conn) : ST web_t (Z * conn) :=
  let* w := ctx id in
  if negb (confirmed c "INSTALL-UBI" 32) then locked c "confirmation required"
  else if negb (ubi_image_ready (g_img (w_stg w))) then locked c "validated UBI sysupgrade image required"
  else if layout_ubi (layout w) then install_ubi_update c
  else install_ubi_migration c.

Definition route_reset_settings (c : conn) : ST web_t (Z * conn) :=
  let* w := ctx id in
  if negb (confirmed c "RESET-OPENWRT-SETTINGS" 40) then locked c "confirmation required"
  else if any_op_active w then locked c "another operation is active"
  else if negb (layout_ubi (layout w)) && negb (is_layout (layout w) "OPENWRT_STOCK_LAYOUT") then
    reply_lit c 409 "{'result':'REJECTED','reason_class':'LAYOUT_UNSUPPORTED','reason':'OpenWrt settings reset requires an OpenWrt layout'}"
  else
    let* rret := (if layout_ubi (layout w) then on_ubi ursus_ubi_reset_settings
                  else on_fac ursus_factory_reset_settings) in
    if nz rret then
      wlog [FL "OPENWRT SETTINGS RESET: FAILED layout="; FL (layout w); FL " ret="; FD rret; FNL] ;;;
      reply_lit c 500 "{'result':'FAILED','reason_class':'WRITE_FAILED','reason':'rootfs_data reset failed'}"
    else
      wlog [FL "OPENWRT SETTINGS RESET: COMPLETE layout="; FL (layout w); FNL] ;;;
      reply_lit c 200 "{'result':'OPENWRT_SETTINGS_RESET_COMPLETE','reboot':'MANUAL'}".

(** A session that was received in full and found valid. *)
Definition fip_ready (ok : bool) (u : session) : bool :=
  ok && (s_received u =? s_total u) && nz (s_total u).
Definition flash_job_active (w : web) : bool :=
  ursus_ubi_migration_active (us_mig (w_ubi w)) || ursus_fip_update_active (w_up w).
Definition up_layout_name : ST web_t string :=
  ctx (fun w => if up_ubi_layout (w_up w) then "UBI"%string else "STOCK"%string).

Definition route_update_ursusboot (c : conn) : ST web_t (Z * conn) :=
  let* w := ctx id in
  let u := g_fip (w_stg w) in
  if negb (confirmed c "UPDATE-URSUSBOOT" 32) then locked c "confirmation required"
  else if negb (fip_ready (g_fip_ok (w_stg w)) u) then locked c "validated UrsusBoot FIP required"
  else if flash_job_active w then locked c "another flash operation is active"
  else
    let* uret := on_up (ursus_fip_update_start (s_addr u) (s_total u)) in
    if nz uret then locked c "UrsusBoot FIP update preflight failed"
    else
      onpend (set_p_boot true) ;;;
      let* l := up_layout_name in
      wlog [FL "URSUSBOOT UPDATE: START layout="; FL l; FL " file="; FS (s_filename u); FL " bytes=";
            FD (u32 (s_total u)); FNL] ;;;
      reply_lit c 200 "{'result':'URSUSBOOT_UPDATE_STARTED','reboot':'MANUAL'}".
Definition route_replace_vanilla (c : conn) : ST web_t (Z * conn) :=
  let* w := ctx id in
  let u := g_van (w_stg w) in
  if negb (confirmed c "REPLACE-URSUSBOOT-WITH-VANILLA" 40) then locked c "confirmation required"
  else if negb (fip_ready (g_van_ok (w_stg w)) u) then locked c "validated pinned Vanilla FIP required"
  else if flash_job_active w then locked c "another flash operation is active"
  else
    let* uret := on_up (ursus_vanilla_fip_update_start (s_addr u) (s_total u)) in
    if nz uret then locked c "Vanilla replacement preflight failed"
    else
      onpend (set_p_boot true) ;;;
      let* l := up_layout_name in
      wlog [FL "VANILLA REPLACE: START layout="; FL l; FL " file="; FS (s_filename u); FL " bytes=";
            FD (u32 (s_total u)); FNL] ;;;
      reply_lit c 200 "{'result':'VANILLA_REPLACE_STARTED','reboot':'MANUAL'}".

(** A reboot needs a completed job. *)
Definition reboot_gate (w : web) : bool :=
  ursus_ubi_update_complete (us_upd (w_ubi w)) || ursus_ubi_migration_complete (us_mig (w_ubi w)) ||
  ursus_fip_update_complete (w_up w).
Definition route_reboot (c : conn) : ST web_t (Z * conn) :=
  let* w := ctx id in
  wlog [FL "WEB REBOOT: REQUEST received migration_complete="; bit (ursus_ubi_migration_complete (us_mig (w_ubi w)));
        FL " update_complete="; bit (ursus_ubi_update_complete (us_upd (w_ubi w)));
        FL " fip_complete="; bit (ursus_fip_update_complete (w_up w)); FNL] ;;;
  if negb (reboot_gate w) || negb (confirmed c "REBOOT" 32) then
    wlog [FL "WEB REBOOT: REQUEST rejected gate="; bit (reboot_gate w); FL " confirm=";
          FS (default (bytes_of "MISSING") (ursus_parse_header_value (cstr (c_reqhdr c)) "X-Ursus-Confirm" 32)); FNL] ;;;
    reply_lit c 409 "{'result':'REJECTED','reason':'completed flash operation and explicit reboot confirmation required'}"
  else
    let* now := onhw (get_timer 0) in
    onpend (fun p => set_p_request_at now (set_p_reboot true p)) ;;;
    wlog [FL "WEB REBOOT: REQUEST accepted force_timeout_ms=3000 retries=3"; FNL] ;;;
    reply_lit (set_c_reboot_after_response true (set_c_stop_after_response true c)) 200 "{'result':'REBOOTING'}".

(** * The table, in the order it is searched *)

Definition routes : list (string * (conn -> ST web_t (Z * conn))) :=
  [("GET /logo.svg ", fun c => ursus_http_start_response c 200 "image/svg+xml" (BStatic env_logo));
   ("GET /favicon.svg ", fun c => ursus_http_start_response c 200 "image/svg+xml" (BStatic env_favicon));
   ("GET /api/status ", fun c => ursus_http_start_response c 200 JSON BStatus);
   ("GET /api/log ", fun c => ursus_http_start_response c 200 TEXT BLog);
   ("GET /api/operation-log ", fun c => ursus_http_start_response c 200 TEXT BLog);
   ("POST /api/console ", route_console);
   ("POST /api/discard ", fun c => route_discard c URSUS_UPLOAD_FIRMWARE);
   ("POST /api/expert/discard ", fun c => route_discard c URSUS_UPLOAD_INITRAMFS);
   ("POST /api/ubi-preloader-discard ", fun c => route_discard c URSUS_UPLOAD_UBI_PRELOADER);
   ("POST /api/vanilla-fip-discard ", fun c => route_discard c URSUS_UPLOAD_VANILLA_FIP);
   ("POST /api/ursus-fip-discard ", fun c => route_discard c URSUS_UPLOAD_URSUS_FIP);
   ("POST /api/firmware-begin ", fun c => ursus_begin_upload c URSUS_UPLOAD_FIRMWARE);
   ("POST /api/initramfs-begin ", fun c => ursus_begin_upload c URSUS_UPLOAD_INITRAMFS);
   ("POST /api/ubi-preloader-begin ", fun c => ursus_begin_upload c URSUS_UPLOAD_UBI_PRELOADER);
   ("POST /api/ursus-fip-begin ", fun c => ursus_begin_upload c URSUS_UPLOAD_URSUS_FIP);
   ("POST /api/vanilla-fip-begin ", fun c => ursus_begin_upload c URSUS_UPLOAD_VANILLA_FIP);
   ("POST /api/firmware-chunk ", fun c => ursus_prepare_chunk c URSUS_UPLOAD_FIRMWARE);
   ("POST /api/initramfs-chunk ", fun c => ursus_prepare_chunk c URSUS_UPLOAD_INITRAMFS);
   ("POST /api/ubi-preloader-chunk ", fun c => ursus_prepare_chunk c URSUS_UPLOAD_UBI_PRELOADER);
   ("POST /api/ursus-fip-chunk ", fun c => ursus_prepare_chunk c URSUS_UPLOAD_URSUS_FIP);
   ("POST /api/vanilla-fip-chunk ", fun c => ursus_prepare_chunk c URSUS_UPLOAD_VANILLA_FIP);
   ("POST /api/expert/boot-once ", route_boot_once);
   ("POST /api/install-openwrt-stock-layout ", route_install_stock);
   ("POST /api/install-ubi ", route_install_ubi);
   ("POST /api/reset-openwrt-settings ", route_reset_settings);
   ("POST /api/update-ursusboot ", route_update_ursusboot);
   ("POST /api/replace-with-vanilla ", route_replace_vanilla);
   ("POST /api/reboot ", route_reboot);
   ("GET / ", fun c => ursus_http_start_response c 200 "text/html; charset=utf-8" (BStatic env_root))]%string.
Definition route_not_found (c : conn) : ST web_t (Z * conn) :=
  set_reply [FJ "{'result':'NOT_FOUND'}"; FNL] ;;;
  ursus_http_start_response c 400 JSON BReply.
Fixpoint find_route (req : list Z) (l : list (string * (conn -> ST web_t (Z * conn)))) : conn -> ST web_t (Z * conn) :=
  match l with
  | [] => route_not_found
  | (lit, f) :: l' => if REQ_MATCH req lit then f else find_route req l'
  end.

Definition ursus_route_ready (c : conn) : ST web_t (Z * conn) :=
  ursus_build_status true ;;;
  find_route (cstr (c_reqhdr c)) routes c.
End route.
