(* ===== verification/WebServer.v ===== *)
(** Connections and the main loop of the web server (cmd/ursusweb.c): the TCP
    callbacks, the web console and the serial shell, receive errors, the polling
    of the flash engines, reboots, and the ursusweb and ursussettings commands.

    What happens between two turns of the loop is an input of the turn: the
    characters on the serial line, the callbacks lwIP makes, the time that
    passes.  A command line typed on either console is a parameter.  [None]
    results stand for an image scan that left its buffer. *)
From S2P Require Import Prelude Bytes Fip Flash Ubi Shell Bl2 Jobs FipUpdate UbiEngine Migration FitUpdate Mmio Led Fit WebHeaders WebImage WebDevice WebState WebUpload WebStatus WebRoute.

Definition URSUS_UART_LINE_MAX : Z := 256.

Section server.
Context {P : Platform} {X : Ext} {B : Board} {T : FitLib} {N : Tcp} {E : WebEnv} {C : ConcatUbi} {L : LedBoard}.
Variable memalign_addr : Z.
(** A console command: none when the recorder cannot be reset, else the return
    code and the recorded lines; it may use the network and the flash. *)
Variable run_line : list Z -> ST web_t (option (Z * list (list Z))).
(** A command typed on the serial line. *)
Variable run_uart : list Z -> ST web_t Z.
(** The driver's chip description, the bad PEBs of an attach. *)
Variable spinand : option spinand_device.

(** * Requests *)

Definition crlf2 : list Z := [13; 10; 13; 10].
Definition ends_headers (h : list Z) : bool :=
  (4 <=? length h)%nat && memeq (drop (length h - 4) h) crlf2.

(** The header loop: an error or answered request, the rest of the data, the connection. *)
Fixpoint feed_headers (data : list Z) (c : conn) : ST web_t ((option Z * list Z) * conn) :=
  if c_headers_done c then sret ((None, data), c)
  else match data with
  | [] => sret ((None, []), c)
  | b :: data' =>
    if URSUS_HTTP_HDR_MAX <=? blen (c_reqhdr c) + 1 then sret ((Some ERR_VAL, data), c)
    else
      let c := set_c_reqhdr (c_reqhdr c ++ [b]) c in
      if ends_headers (c_reqhdr c) then
        let c := set_c_headers_done true c in
        let* r := ursus_route_ready c in
        let '(err, c) := r in
        if negb (err =? ERR_OK) || c_response_started c then sret ((Some err, data'), c)
        else sret ((None, data'), c)
      else feed_headers data' c
  end.

Definition ursus_feed_bytes (c : conn) (data : list Z) : ST web_t (option (Z * conn)) :=
  if c_response_started c then sret (Some (ERR_OK, c))
  else
    let* r := feed_headers data c in
    let '((early, rest), c) := r in
    match early with
    | Some err => sret (Some (err, c))
    | None =>
      if c_is_upload c && (0 <? blen rest) then feed_body memalign_addr c rest else sret (Some (ERR_OK, c))
    end.

(** * Callbacks *)

Definition put_conn (c : conn) : ST web_t unit := onctx (fun w => set_w_conns (<[c_id c := c]> (w_conns w)) w).
Definition ursus_console_pending_clear (id : option Z) : ST web_t unit :=
  onctx (fun w =>
    match id, w_cpend w with
    | None, _ => set_w_cpend None w
    | Some i, Some (j, _) => if i =? j then set_w_cpend None w else w
    | Some _, None => w
    end).
Definition free_conn (id : Z) : ST web_t unit := onctx (fun w => set_w_conns (delete id (w_conns w)) w).
Definition ursus_conn_release (c : conn) : ST web_t unit :=
  ursus_console_pending_clear (Some (c_id c)) ;;;
  free_conn (c_id c) ;;;
  (if c_stop_after_response c then onctx (set_w_stop true) else sret tt).

(** [pbuf]s of one segment, while no error occurs. *)
Fixpoint feed_pbufs (c : conn) (q : list (list Z)) : ST web_t (option (Z * conn)) :=
  match q with
  | [] => sret (Some (ERR_OK, c))
  | d :: q' =>
    let* r := ursus_feed_bytes c d in
    match r with
    | None => sret None
    | Some (err, c) => if err =? ERR_OK then feed_pbufs c q' else sret (Some (err, c))
    end
  end.

Definition log_eof (c : conn) : ST web_t unit :=
  if c_is_upload c && negb (c_upload_received c =? c_content_len c) then
    let* w := ctx id in
    let u := default sess_zero (ursus_upload_session (c_upload_kind c) (w_stg w)) in
    wlog [FL "UPLOAD EOF: class=UPLOAD_INCOMPLETE generation="; FS (s_generation u); FL " filename="; FS (s_filename u);
          FL " declared="; FD (u32 (s_total u)); FL " received="; FD (u32 (s_received u)); FL " chunk_received=";
          FD (u32 (c_upload_received c)); FL " chunk_expected="; FD (u32 (c_content_len c)); FNL]
  else sret tt.

Inductive net_event :=
  | EvAccept (err : Z)
  | EvRecv (id : Z) (err : Z) (p : option (list (list Z)))
  | EvSent (id : Z) (len : Z)
  | EvPoll (id : Z)
  | EvErr (id : Z).

Definition ursus_http_recv (c : conn) (err : Z) (p : option (list (list Z))) : ST web_t (option Z) :=
  match p with
  | None =>
    let c := set_c_remote_eof true c in
    log_eof c ;;;
    (if negb (c_response_started c) then ursus_conn_release c else put_conn c) ;;;
    sret (Some ERR_OK)
  | Some q =>
    if negb (err =? ERR_OK) then ursus_conn_release c ;;; sret (Some ERR_ABRT)
    else
      let* r := feed_pbufs c q in
      match r with
      | None => sret None
      | Some (r, c) =>
        if negb (r =? ERR_OK) then ursus_conn_release c ;;; sret (Some ERR_ABRT)
        else put_conn c ;;; sret (Some ERR_OK)
      end
  end.

(** Sending goes on; the connection is released after an error or when the peer
    has acknowledged everything. *)
Definition pump_and_release (c : conn) : ST web_t Z :=
  let* r := ursus_http_pump c in
  let '(err, c) := r in
  if negb (err =? ERR_OK) then ursus_conn_release c ;;; sret ERR_ABRT
  else if c_all_queued c && (c_total_len c <=? c_acked c) then ursus_conn_release c ;;; sret ERR_OK
  else put_conn c ;;; sret ERR_OK.
Definition ursus_http_sent (c : conn) (len : Z) : ST web_t Z :=
  pump_and_release (set_c_acked (c_acked c + len) c).
Definition ursus_http_poll (c : conn) : ST web_t Z :=
  if negb (c_response_started c) then sret ERR_OK else pump_and_release c.
Definition ursus_http_err (id : Z) : ST web_t unit :=
  ursus_console_pending_clear (Some id) ;;; free_conn id.
Definition ursus_http_accept (err : Z) : ST web_t Z :=
  if negb (err =? ERR_OK) then sret ERR_VAL
  else
    let* ok := onhw malloc in
    if negb ok then sret ERR_ABRT
    else
      let* w := ctx id in
      let i := u32 (w_conn_id w + 1) in
      onctx (set_w_conn_id i) ;;;
      put_conn (conn_new i) ;;; sret ERR_OK.

Definition handle_event (e : net_event) : ST web_t (option Z) :=
  let* w := ctx id in
  match e with
  | EvAccept err => let* r := ursus_http_accept err in sret (Some r)
  | EvRecv i err p =>
    match w_conns w !! i with None => sret (Some ERR_ABRT) | Some c => ursus_http_recv c err p end
  | EvSent i len =>
    match w_conns w !! i with None => sret (Some ERR_OK) | Some c => let* r := ursus_http_sent c len in sret (Some r) end
  | EvPoll i =>
    match w_conns w !! i with None => sret (Some ERR_OK) | Some c => let* r := ursus_http_poll c in sret (Some r) end
  | EvErr i => ursus_http_err i ;;; sret (Some ERR_OK)
  end.
Fixpoint handle_events (l : list net_event) : ST web_t (option Z) :=
  match l with
  | [] => sret (Some ERR_OK)
  | e :: l' =>
    let* r := handle_event e in
    match r with None => sret None | Some _ => handle_events l' end
  end.

(** * The web console *)

(** Recorded lines without NULs, each ended by a newline, as far as they fit. *)
Fixpoint console_text (lines : list (list Z)) (acc : list Z) : list Z :=
  match lines with
  | [] => acc
  | l :: lines' =>
    let acc := acc ++ take (Z.to_nat (URSUS_CONSOLE_MAX - 1) - length acc) (filter (fun b => b <> 0) l) in
    let nl := (0 <? blen acc) && negb (List.last acc 0 =? 10) && (blen acc + 1 <? URSUS_CONSOLE_MAX) in
    console_text lines' (if nl then acc ++ [10] else acc)
  end.
Definition set_console (text : list Z) : ST web_t unit := onctx (fun w => set_w_console (buf_put text (w_console w)) w).
Definition ursus_console_capture (cmd : list Z) : ST web_t unit :=
  set_console [] ;;;
  let* r := run_line cmd in
  match r with
  | None => set_console (bytes_of "console recording unavailable" ++ [10])
  | Some (ret, lines) =>
    let text := console_text lines [] in
    let text := if blen text =? 0 then bytes_of "[no captured output]" ++ [10] else text in
    let text := if blen text + 48 <? URSUS_CONSOLE_MAX
                then text ++ fmt [FL "[return="; FD ret; FL "]"; FNL] else text in
    set_console text
  end.
Definition ursus_console_service_pending : ST web_t unit :=
  let* p := ctx w_cpend in
  match p with
  | None => sret tt
  | Some (i, cmd) =>
    ursus_console_capture cmd ;;;
    let* p' := ctx w_cpend in
    match p' with
    | None => sret tt
    | Some (j, _) =>
      if negb (i =? j) then sret tt
      else
        onctx (set_w_cpend None) ;;;
        let* w := ctx id in
        match w_conns w !! i with
        | None => sret tt
        | Some c =>
          let* r := ursus_http_start_response c 200 TEXT BConsole in
          let '(err, c) := r in
          if negb (err =? ERR_OK) then ursus_conn_release c else put_conn c
        end
    end
  end.
Definition ursus_console_capture_selftest : ST web_t Z :=
  ursus_console_capture (bytes_of "echo URSUS_CONSOLE_CAPTURE_SELFTEST") ;;;
  let* body := ctx w_console in
  set_console [] ;;;
  sret (if ursus_mem_has (cstr body) "URSUS_CONSOLE_CAPTURE_SELFTEST" then 0 else - EIO).

(** * The serial shell *)

Definition set_uart (l : list Z) : ST web_t unit := onctx (set_w_uart l).
(** The characters waiting, a negative one for a read error. *)
Fixpoint ursus_uart_shell_poll (input : list Z) : ST web_t unit :=
  match input with
  | [] => sret tt
  | ch :: input' =>
    if ch <? 0 then sret tt
    else
      let* w := ctx id in
      if (ch =? 10) && w_uart_cr w then onctx (set_w_uart_cr false) ;;; ursus_uart_shell_poll input'
      else
        onctx (set_w_uart_cr (ch =? 13)) ;;;
        let line := w_uart w in
        if (ch =? 13) || (ch =? 10) then
          (if blen line =? 0 then sret tt
           else let* _r := run_uart line in set_uart []) ;;;
          ursus_uart_shell_poll input'
        else if ch =? 3 then set_uart [] ;;; onctx (set_w_stop true)
        else if ch =? 21 then set_uart [] ;;; ursus_uart_shell_poll input'
        else if (ch =? 8) || (ch =? 127) then
          set_uart (take (length line - 1) line) ;;; ursus_uart_shell_poll input'
        else if (ch <? 0x20) || (0x7e <? ch) then ursus_uart_shell_poll input'
        else if URSUS_UART_LINE_MAX <=? blen line + 1 then set_uart [] ;;; ursus_uart_shell_poll input'
        else set_uart (line ++ [ch]) ;;; ursus_uart_shell_poll input'
  end.

(** * Receive errors *)

Definition ursus_rx_report (ret : Z) : ST web_t unit :=
  let* now := onhw (get_timer 0) in
  let* w := ctx id in
  let '(last, (reps, at_)) := w_rx w in
  if 0 <=? ret then
    (if nz last then
       wlog [FL "NETWORK: RX recovered after error "; FD last; FL " ("; FD reps; FL " repeats)."; FNL]
     else sret tt) ;;;
    onctx (set_w_rx (0, (0, at_)))
  else
    (if negb (ret =? last) then
       onctx (set_w_rx (ret, (1, now))) ;;;
       wlog [FL "NETWORK: RX error "; FD ret; FL "."; FNL]
     else
       let reps := u32 (reps + 1) in
       let* held := onhw (get_timer at_) in
       if 3000 <=? held then
         wlog [FL "NETWORK: RX error "; FD ret; FL " repeated "; FD reps; FL " times."; FNL] ;;;
         onctx (set_w_rx (ret, (reps, now)))
       else onctx (set_w_rx (ret, (reps, at_)))) ;;;
    if (ret =? - EINVAL) && negb eth_is_active then
      wlog [FL "NETWORK: Ethernet became inactive. WebFailsafe stopped cleanly; NAND operation is not restarted blindly."; FNL] ;;;
      onctx (set_w_network_failed true) ;;; onctx (set_w_stop true)
    else sret tt.

(** * The engines *)

Definition log_stage (old new : string) (percent : Z) (prefix detail : string) : ST web_t unit :=
  if bool_decide (old = new) then sret tt
  else wlog [FL prefix; FD percent; FL "% - "; FL new; FL " - "; FL detail; FNL].

Definition poll_ubi_update : ST web_t unit :=
  let* w := ctx id in
  let u := us_upd (w_ubi w) in
  if negb (p_ubi (w_pend w)) || negb (ursus_ubi_update_active u) then sret tt
  else
    let '(a, (b, c)) := w_last w in
    let stage := ursus_upd_stage_name (upd_stage u) in
    log_stage a stage (ursus_upd_percent (upd_stage u)) "UBI UPDATE: " (ursus_upd_detail (upd_stage u)) ;;;
    onctx (set_w_last (stage, (b, c))) ;;;
    let* ret := on_ubi ursus_ubi_update_step in
    let* u := ctx (fun w => us_upd (w_ubi w)) in
    if ret <? 0 then
      wlog [FL "URSUS_UBI_UPDATE_FAILED stage="; FL (ursus_upd_stage_name (upd_stage u)); FL " ret="; FD ret;
            FL " reboot=MANUAL"; FNL]
    else if 0 <? ret then
      wlog [FL "URSUS_UBI_UPDATE_COMPLETE readback=OK"; FNL] ;;;
      wlog [FL "URSUS_REBOOT_REQUIRED source=WEB_UI"; FNL] ;;;
      let* p := on_ubi (ursus_probe_device spinand env_bad_pebs) in
      onctx (set_w_probe p)
    else sret tt.
Definition poll_migration : ST web_t unit :=
  let* w := ctx id in
  let m := us_mig (w_ubi w) in
  if negb (p_mig (w_pend w)) || negb (ursus_ubi_migration_active m) then sret tt
  else
    let '(a, (b, c)) := w_last w in
    let stage := ursus_mig_stage_name (mig_stage m) in
    log_stage b stage (ursus_mig_percent (mig_stage m)) "UBI: " (ursus_mig_detail (mig_stage m)) ;;;
    onctx (set_w_last (a, (stage, c))) ;;;
    let* ret := on_ubi ursus_ubi_migration_step in
    let* m := ctx (fun w => us_mig (w_ubi w)) in
    if ret <? 0 then
      wlog [FL "UBI: ERROR - stage="; FL (ursus_mig_stage_name (mig_stage m)); FL " code="; FD ret;
            FL ". Auto reboot disabled."; FNL]
    else if 0 <? ret then
      wlog [FL "UBI: 100% - COMPLETE - seven UBI volumes and complete BL2 verified."; FNL] ;;;
      wlog [FL "UBI: NAND ready. Reboot manually from the Web UI."; FNL] ;;;
      onctx (set_layout "OPENWRT_UBI")
    else sret tt.
Definition poll_fip_update : ST web_t unit :=
  let* w := ctx id in
  let u := w_up w in
  if negb (p_boot (w_pend w)) || negb (ursus_fip_update_active u) then sret tt
  else
    let '(a, (b, c)) := w_last w in
    let stage := ursus_update_stage_name (up_stage u) in
    log_stage c stage (ursus_update_percent_value (up_stage u)) "URSUSBOOT: " (ursus_update_detail_text u (up_stage u)) ;;;
    onctx (set_w_last (a, (b, stage))) ;;;
    let* ret := on_up ursus_fip_update_step in
    let* u := ctx w_up in
    if ret <? 0 then
      wlog [FL "URSUSBOOT: ERROR - stage="; FL (ursus_update_stage_name (up_stage u)); FL " code="; FD ret;
            FL ". Auto reboot disabled."; FNL]
    else if 0 <? ret then wlog [FL "URSUSBOOT: 100% - COMPLETE - FIP verified. Reboot manually."; FNL]
    else sret tt.

(** * The main loop *)

(** What one turn sees. *)
Record turn := MkTurn {
  t_uart : list Z;
  t_rx : list net_event;
  t_rx_ret : Z;
  t_timeouts : list net_event;
  t_elapsed : Z;
}.

(** The two reboot deadlines. *)
Definition reboot_due : ST web_t bool :=
  let* p := ctx w_pend in
  let* grace := onhw (get_timer (p_queued_at p)) in
  let* force := onhw (get_timer (p_request_at p)) in
  if p_reboot p && p_queued p && (URSUS_REBOOT_GRACE_MS <=? grace) then
    wlog [FL "WEB REBOOT: grace expired action=reset"; FNL] ;;; sret true
  else if p_reboot p && nz (p_request_at p) && (URSUS_REBOOT_FORCE_MS <=? force) then
    wlog [FL "WEB REBOOT: response timeout action=forced-reset timeout_ms=3000"; FNL] ;;; sret true
  else sret false.

Definition loop_turn (t : turn) : ST web_t (option unit) :=
  onhw (mdelay (t_elapsed t)) ;;;
  ursus_uart_shell_poll (t_uart t) ;;;
  let* stop := ctx w_stop in
  if stop then sret (Some tt)
  else
    let* r := handle_events (t_rx t) in
    match r with
    | None => sret None
    | Some _ =>
      ursus_rx_report (t_rx_ret t) ;;;
      ursus_console_service_pending ;;;
      let* r := handle_events (t_timeouts t) in
      match r with
      | None => sret None
      | Some _ =>
        on_led ursus_led_poll ;;;
        let* due := reboot_due in
        if due then onctx (set_w_stop true) ;;; sret (Some tt)
        else poll_ubi_update ;;; poll_migration ;;; poll_fip_update ;;; sret (Some tt)
      end
    end.

(** The loop over the turns at hand; [Some true] when it was left. *)
Fixpoint main_loop (turns : list turn) : ST web_t (option bool) :=
  let* stop := ctx w_stop in
  if stop then sret (Some true)
  else match turns with
  | [] => sret (Some false)
  | t :: turns' =>
    let* r := loop_turn t in
    match r with None => sret None | Some _ => main_loop turns' end
  end.

(** * The commands *)

(** What the server does after its loop, in order, with the results. *)
Inductive web_action :=
  | AReset (ret : Z)
  | AInstall (ret : Z)
  | ABootm (addr : Z) (ret : Z).

(** The [reset] command, should it return. *)
Variable reset_cmd : ST hw Z.

Fixpoint reset_loop (k : nat) (attempt : Z) : ST web_t (list web_action) :=
  match k with
  | O => sret []
  | S k' =>
    wlog [FL "WEB REBOOT: invoking reset attempt="; FD attempt; FL "/3"; FNL] ;;;
    let* ret := onhw reset_cmd in
    wlog [FL "WEB REBOOT: reset returned attempt="; FD attempt; FL " ret="; FD ret; FNL] ;;;
    onhw (mdelay 250) ;;;
    let* l := reset_loop k' (attempt + 1) in sret (AReset ret :: l)
  end.

Definition web_finish : ST web_t (Z * list web_action) :=
  onctx (set_w_running false) ;;;
  ursus_console_pending_clear None ;;;
  let* w := ctx id in
  if w_network_failed w then sret (CMD_RET_FAILURE, [])
  else if p_reboot (w_pend w) then
    onhw (mdelay 300) ;;;
    let* l := reset_loop URSUS_REBOOT_RETRIES 1 in
    wlog [FL "WEB REBOOT: FAILED retries_exhausted=3"; FNL] ;;;
    sret (CMD_RET_FAILURE, l)
  else if p_factory (w_pend w) then
    let* ret := on_fac (ursus_factory_install (g_img (w_stg w)) (layout w)) in
    if nz ret then sret (CMD_RET_FAILURE, [AInstall ret])
    else
      onhw (mdelay 750) ;;;
      let* r := onhw reset_cmd in sret (CMD_RET_FAILURE, [AInstall 0; AReset r])
  else if p_expert (w_pend w) then
    let* ret := onhw (run_command (Bootm (im_addr (g_exp (w_stg w))) "")) in
    sret (CMD_RET_FAILURE, [ABootm (im_addr (g_exp (w_stg w))) ret])
  else sret (CMD_RET_SUCCESS, []).

Definition pend_init : pending := MkPend false false false false false false false 0 0.

(** [eth_up]: the Ethernet device and the interface came up; [listen_up]: the
    listener did.  The IP address variables and the LAN LED routing (Led.v), which
    have no part in this state, are set on the way. *)
Definition web_start (eth_up listen_up : bool) : ST web_t bool :=
  onctx (fun w => set_w_rx (0, (0, snd (snd (w_rx w)))) (set_w_network_failed false (set_w_running true w))) ;;;
  onstg (fun _ => stg_init) ;;;
  ursus_log_reset ;;;
  if nz ursus_header_parser_selftest then onctx (set_w_running false) ;;; sret false
  else
    wlog [FL URSUS_PRODUCT_VERSION; FL " WebFailsafe started"; FNL] ;;;
    onpend (fun _ => pend_init) ;;;
    let* r := ursus_console_capture_selftest in
    wlog [FL (if nz r then "CONSOLE: capture selftest FAILED" else "CONSOLE: capture selftest OK"); FNL] ;;;
    if negb eth_up then onctx (set_w_running false) ;;; sret false
    else
      let* p := on_ubi (ursus_probe_device spinand env_bad_pebs) in
      onctx (set_w_probe p) ;;;
      ursus_build_status false ;;;
      if negb listen_up then onctx (set_w_running false) ;;; sret false
      else
      set_uart [] ;;; onctx (set_w_uart_cr false) ;;; onctx (set_w_stop false) ;;;
      sret true.

(** Return value and actions; [None] while the server still runs after [turns]. *)
Definition do_ursusweb (eth_up listen_up : bool) (turns : list turn) : ST web_t (option (Z * list web_action)) :=
  let* running := ctx w_running in
  if running then sret (Some (CMD_RET_SUCCESS, []))
  else
    let* ok := web_start eth_up listen_up in
    if negb ok then sret (Some (CMD_RET_FAILURE, []))
    else
      let* r := main_loop turns in
      match r with
      | Some true => let* x := web_finish in sret (Some x)
      | _ => sret None
      end.

Definition do_ursussettings (args : list string) : ST web_t Z :=
  if negb (bool_decide (args = ["reset"%string])) then sret CMD_RET_USAGE
  else
    let* p := on_ubi (ursus_probe_device spinand env_bad_pebs) in
    onctx (set_w_probe p) ;;;
    let* w := ctx id in
    let* ret :=
      (if layout_ubi (layout w) then on_ubi ursus_ubi_reset_settings
       else if is_layout (layout w) "OPENWRT_STOCK_LAYOUT" then on_fac ursus_factory_reset_settings
       else
         let* r := on_ubi ursus_ubi_probe in
         let '(ret, (fip_ok, fit_ok)) := r in
         if negb (nz ret) && (fip_ok || fit_ok) then on_ubi ursus_ubi_reset_settings else sret (- EPERM)) in
    sret (if nz ret then CMD_RET_FAILURE else CMD_RET_SUCCESS).
End server.
