(* ===== verification/WebKeep.v ===== *)
(** Code that leaves the staging memory and the upload state alone, as a type
    class resolved on the structure of the program.  [Keeps R m]: running [m]
    relates the states before and after by the preorder [R]. *)
From S2P Require Import Prelude Bytes Fip Flash Ubi Shell Bl2 ReadOnly Jobs FipUpdate UbiEngine Migration FitUpdate Mmio Led Fit WebHeaders WebImage Concat WebDevice WebState WebUpload WebStatus WebRoute WebServer.

Class Keeps {S A} (R : S -> S -> Prop) (m : ST S A) : Prop := keeps s : R s (snd (m s)).

Section structure.
Context {S : Type} (R : S -> S -> Prop) `{!Reflexive R, !Transitive R}.

#[export] Instance sret_keeps {A} (a : A) : Keeps R (sret a).
Proof. by intros s. Qed.
#[export] Instance sget_keeps {A} (f : S -> A) : Keeps R (sget f).
Proof. by intros s. Qed.
#[export] Instance sbind_keeps {A B} (m : ST S A) (k : A -> ST S B) :
  Keeps R m -> (forall a, Keeps R (k a)) -> Keeps R (sbind m k).
Proof. intros Hm Hk s. unfold sbind. etrans; [apply (Hm s)|]. apply (Hk (fst (m s))). Qed.
#[export] Instance if_keeps {A} (b : bool) (m n : ST S A) : Keeps R m -> Keeps R n -> Keeps R (if b then m else n).
Proof. by destruct b. Qed.
#[export] Instance option_keeps {A B} (o : option B) (m : B -> ST S A) (n : ST S A) :
  (forall b, Keeps R (m b)) -> Keeps R n -> Keeps R (match o with Some b => m b | None => n end).
Proof. by destruct o. Qed.
#[export] Instance sum_keeps {A B C} (o : B + C) (m : B -> ST S A) (n : C -> ST S A) :
  (forall b, Keeps R (m b)) -> (forall c, Keeps R (n c)) ->
  Keeps R (match o with inl b => m b | inr c => n c end).
Proof. by destruct o. Qed.
#[export] Instance pair_keeps {A B C} (p : B * C) (m : B -> C -> ST S A) :
  (forall b c, Keeps R (m b c)) -> Keeps R (let '(b, c) := p in m b c).
Proof. by destruct p. Qed.
#[export] Instance list_keeps {A B} (l : list B) (m : ST S A) (n : B -> list B -> ST S A) :
  Keeps R m -> (forall b l', Keeps R (n b l')) -> Keeps R (match l with [] => m | b :: l' => n b l' end).
Proof. by destruct l. Qed.
End structure.

Lemma wp_keeps {S A} (R : S -> S -> Prop) (m : ST S A) `{!Keeps R m} (Q : A -> S -> Prop) s :
  (forall a s', R s s' -> Q a s') -> wp m Q s.
Proof.
  intros HQ. apply wp_intro. intros a s' E. apply HQ. pose proof (keeps (R := R) (m := m) s) as H. by rewrite E in H.
Qed.

(** * The machine *)

Definition ram_same (h h' : hw) : Prop := h_ram h' = h_ram h.
#[export] Instance ram_same_refl : Reflexive ram_same.
Proof. done. Qed.
#[export] Instance ram_same_trans : Transitive ram_same.
Proof. intros ? ? ? H1 H2. unfold ram_same in *. congruence. Qed.

#[export] Instance ro_keeps {A} (m : ST hw A) : ReadOnly m -> Keeps ram_same m | 20.
Proof. intros Hm h. destruct (Hm h) as [k ->]. by destruct h. Qed.

Section machine.
Context {P : Platform} {X : Ext} {B : Board}.

#[export] Instance smod_keeps f : (forall h, h_ram (f h) = h_ram h) -> Keeps ram_same (smod f).
Proof. intros H h. apply H. Qed.
#[export] Instance set_ubi_keeps u : Keeps ram_same (smod (set_ubi u)).
Proof. intros h. by destruct h. Qed.
#[export] Instance set_ubi_fun_keeps f : Keeps ram_same (smod (fun h => set_ubi (f h) h)).
Proof. intros h. by destruct h. Qed.
#[export] Instance set_env_redund_keeps b : Keeps ram_same (smod (set_env_redund b)).
Proof. intros h. by destruct h. Qed.
#[export] Instance set_mtds_keeps f : Keeps ram_same (smod (fun h => set_mtds (f h) h)).
Proof. intros h. by destruct h. Qed.
#[export] Instance set_env_keeps f : Keeps ram_same (smod (fun h => set_env (f h) h)).
Proof. intros h. by destruct h. Qed.
#[export] Instance set_flash_keeps f g k : Keeps ram_same (smod (fun h => set_flash (f h) (g h) (k h) h)).
Proof. intros h. by destruct h. Qed.
#[export] Instance upd_dev_keeps f : Keeps ram_same (upd_dev f).
Proof. intros h. unfold upd_dev, smod, ram_same. simpl. destruct (h_ubi h); [by destruct h|done]. Qed.
#[export] Instance flash_table_keeps u t : Keeps ram_same (flash_table u t).
Proof. unfold flash_table. apply _. Qed.
#[export] Instance update_layout_keeps t : Keeps ram_same (ubi_update_layout_vol t).
Proof. unfold ubi_update_layout_vol. apply _. Qed.
#[export] Instance data_changed_keeps i f : Keeps ram_same (ubi_data_changed i f).
Proof. unfold ubi_data_changed. apply _. Qed.
#[export] Instance upd_slot_keeps i f : Keeps ram_same (upd_slot i f).
Proof. unfold upd_slot. apply _. Qed.
#[export] Instance create_volume_keeps u n b st v : Keeps ram_same (ubi_create_volume u n b st v).
Proof. unfold ubi_create_volume. apply _. Qed.
#[export] Instance create_vol_keeps u n b st v : Keeps ram_same (ubi_create_vol u n b st v).
Proof. unfold ubi_create_vol. apply _. Qed.
#[export] Instance remove_vol_keeps u n : Keeps ram_same (ubi_remove_vol u n).
Proof. unfold ubi_remove_vol. apply _. Qed.
#[export] Instance change_record_keeps i f : Keeps ram_same (change_record i f).
Proof. unfold change_record. apply _. Qed.
#[export] Instance set_marker_keeps i v : Keeps ram_same (set_update_marker i v).
Proof. unfold set_update_marker. apply _. Qed.
#[export] Instance clear_marker_keeps i b : Keeps ram_same (clear_update_marker i b).
Proof. unfold clear_update_marker. apply _. Qed.
#[export] Instance unmap_keeps i : Keeps ram_same (ubi_unmap_lebs i).
Proof. unfold ubi_unmap_lebs. apply _. Qed.
#[export] Instance start_update_keeps i v b : Keeps ram_same (ubi_start_update i v b).
Proof. unfold ubi_start_update. apply _. Qed.
#[export] Instance write_leb_keeps i o c : Keeps ram_same (write_leb i o c).
Proof. unfold write_leb. apply _. Qed.
#[export] Instance more_update_loop_keeps k leb i off b : Keeps ram_same (more_update_loop k leb i off b).
Proof. revert off b. induction k; intros; simpl; apply _. Qed.
#[export] Instance more_update_keeps u i b : Keeps ram_same (ubi_more_update_data u i b).
Proof. unfold ubi_more_update_data. apply _. Qed.
#[export] Instance check_volume_keeps v : Keeps ram_same (ubi_check_volume v).
Proof. unfold ubi_check_volume. apply _. Qed.
#[export] Instance continue_write_keeps n b : Keeps ram_same (ubi_volume_continue_write n b).
Proof. unfold ubi_volume_continue_write. apply _. Qed.
#[export] Instance begin_write_keeps n b : Keeps ram_same (ubi_volume_begin_write n b).
Proof. unfold ubi_volume_begin_write. apply _. Qed.
#[export] Instance volume_write_keeps n b : Keeps ram_same (ubi_volume_write n b).
Proof. unfold ubi_volume_write. apply _. Qed.
#[export] Instance detach_keeps  : Keeps ram_same (ubi_detach).
Proof. unfold ubi_detach. apply _. Qed.
#[export] Instance area_keeps {A} a (m : ST hw A) (n : vtable -> ST hw A) :
  Keeps ram_same m -> (forall t, Keeps ram_same (n t)) ->
  Keeps ram_same (match a with UA_other => m | UA_table t => n t end).
Proof. by destruct a. Qed.
#[export] Instance scan_keeps m : Keeps ram_same (ubi_dev_scan m).
Proof. unfold ubi_dev_scan. apply _. Qed.
#[export] Instance part_keeps n : Keeps ram_same (ubi_part n).
Proof. unfold ubi_part. apply _. Qed.
#[export] Instance add_parts_keeps m l : Keeps ram_same (add_mtd_partitions m l).
Proof. unfold add_mtd_partitions. apply _. Qed.
#[export] Instance run_detach_keeps  : Keeps ram_same (run_command UbiDetach).
Proof. unfold run_command, command_code, do_ubi, with_ubi. apply _. Qed.
#[export] Instance run_part_keeps n : Keeps ram_same (run_command (UbiPart n)).
Proof. unfold run_command, command_code, do_ubi, with_ubi. apply _. Qed.
#[export] Instance run_create_keeps v n d i : Keeps ram_same (run_command (UbiCreate v n d i)).
Proof. unfold run_command, command_code, do_ubi, do_ubi_create, with_ubi. apply _. Qed.
#[export] Instance run_remove_keeps v : Keeps ram_same (run_command (UbiRemove v)).
Proof. unfold run_command, command_code, do_ubi, with_ubi. apply _. Qed.
#[export] Instance env_set_keeps n v : Keeps ram_same (env_set_ulong n v).
Proof. unfold env_set_ulong. apply _. Qed.
#[export] Instance env_ubi_save_keeps  : Keeps ram_same (env_ubi_save).
Proof. unfold env_ubi_save. apply _. Qed.
#[export] Instance env_save_keeps  : Keeps ram_same (env_save).
Proof. unfold env_save. apply _. Qed.
#[export] Instance store_max_keeps n : Keeps ram_same (ursus_ubi_store_rootfs_data_max n).
Proof. unfold ursus_ubi_store_rootfs_data_max. apply _. Qed.
#[export] Instance clean_rootfs_keeps b : Keeps ram_same (ursus_ubi_create_clean_rootfs_data b).
Proof. unfold ursus_ubi_create_clean_rootfs_data. apply _. Qed.
End machine.

(** * The engines' contexts *)

(** RAM is the same; so is the BL2 candidate. *)
Definition ubi_same (s s' : ubi_t) : Prop := ram_same (fst s) (fst s') /\ us_bl2 (snd s') = us_bl2 (snd s).
#[export] Instance ubi_same_refl : Reflexive ubi_same.
Proof. done. Qed.
#[export] Instance ubi_same_trans : Transitive ubi_same.
Proof. intros ? ? ? [H1 H2] [H3 H4]. split; [by etrans|congruence]. Qed.
Definition fst_same {C} (s s' : hw * C) : Prop := ram_same (fst s) (fst s').
#[export] Instance fst_same_refl {C} : Reflexive (@fst_same C).
Proof. done. Qed.
#[export] Instance fst_same_trans {C} : Transitive (@fst_same C).
Proof. intros ? ? ? H1 H2. unfold fst_same in *. by etrans. Qed.

#[export] Instance onhw_ubi_keeps {A} (m : ST hw A) : Keeps ram_same m -> Keeps ubi_same (onhw m).
Proof. intros Hm [h c]. split; [apply (Hm h)|done]. Qed.
#[export] Instance onhw_fst_keeps {C A} (m : ST hw A) : Keeps ram_same m -> Keeps (@fst_same C) (onhw m).
Proof. intros Hm [h c]. apply (Hm h). Qed.
#[export] Instance onctx_fst_keeps {C} (f : C -> C) : Keeps (@fst_same C) (onctx f).
Proof. by intros [h c]. Qed.
#[export] Instance ctx_keeps {C A} (R : hw * C -> hw * C -> Prop) `{!Reflexive R} (f : C -> A) : Keeps R (ctx f).
Proof. intros s. apply reflexivity. Qed.
#[export] Instance set_master_keeps m : Keeps ubi_same (onctx (set_us_master m)).
Proof. intros [h c]. split; [done|by destruct c]. Qed.
#[export] Instance set_ready_keeps m : Keeps ubi_same (onctx (set_us_mtd_ready m)).
Proof. intros [h c]. split; [done|by destruct c]. Qed.
#[export] Instance onupd_keeps f : Keeps ubi_same (onupd f).
Proof. intros [h c]. split; [done|by destruct c]. Qed.
#[export] Instance onmig_keeps f : Keeps ubi_same (onmig f).
Proof. intros [h c]. split; [done|by destruct c]. Qed.

Section engines.
Context {P : Platform} {X : Ext} {B : Board} {C : ConcatUbi}.

#[export] Instance register_mtd_keeps : Keeps ubi_same ursus_ubi_register_mtd.
Proof. unfold ursus_ubi_register_mtd. apply _. Qed.
#[export] Instance reset_settings_keeps : Keeps ubi_same ursus_ubi_reset_settings.
Proof. unfold ursus_ubi_reset_settings. apply _. Qed.
#[export] Instance update_start_keeps a n k : Keeps ubi_same (ursus_ubi_update_start a n k).
Proof. unfold ursus_ubi_update_start, fdt_header_ret. apply _. Qed.
#[export] Instance migration_start_keeps a n b k : Keeps ubi_same (ursus_ubi_migration_start a n b k).
Proof. unfold ursus_ubi_migration_start. apply _. Qed.

#[export] Instance register_ubi_part_keeps : Keeps fst_same ursus_update_register_ubi_part.
Proof. unfold ursus_update_register_ubi_part. apply _. Qed.
#[export] Instance detect_keeps : Keeps fst_same ursus_detect_ubi_layout.
Proof. unfold ursus_detect_ubi_layout. apply _. Qed.
#[export] Instance validate_kind_keeps a n l k : Keeps ram_same (validate_kind_at a n l k).
Proof. unfold validate_kind_at. apply _. Qed.
#[export] Instance fip_start_keeps a n k : Keeps fst_same (ursus_fip_update_start_kind a n k).
Proof. unfold ursus_fip_update_start_kind. apply _. Qed.

(** The UBI commands of a settings reset do not write to the client's memory. *)
Definition concat_quiet : Prop :=
  forall c, match c with UbiDetach | UbiPart _ | UbiCheck _ | UbiRemove _ | UbiCreate _ _ _ _ => Keeps ram_same (concat_ubi c) | _ => True end.

Lemma fac_step_keeps c : Keeps fst_same (factory_run c) -> Keeps fst_same (fac_step (Run c)).
Proof. intros H. unfold fac_step. apply _. Qed.
#[export] Instance fac_try_keeps m k : Keeps fst_same m -> Keeps fst_same k -> Keeps fst_same (fac_try m k).
Proof. unfold fac_try. apply _. Qed.
#[export] Instance get_subdevs_keeps l : Keeps ram_same (get_subdevs l).
Proof. induction l; simpl; apply _. Qed.
#[export] Instance concat_create_keeps l n : Keeps ram_same (mtd_concat_create l n).
Proof. unfold mtd_concat_create. apply _. Qed.
#[export] Instance add_device_keeps c : Keeps ram_same (add_mtd_device c).
Proof. unfold add_mtd_device. apply _. Qed.
#[export] Instance factory_register_keeps : Keeps fst_same ursus_factory_register_mtd.
Proof. unfold ursus_factory_register_mtd. apply _. Qed.
Lemma factory_reset_keeps : concat_quiet -> Keeps fst_same ursus_factory_reset_settings.
Proof.
  intros Hq. unfold ursus_factory_reset_settings, run_recorded.
  assert (Hstep : forall c, Keeps ram_same (concat_ubi c) -> factory_run c = onhw (concat_ubi c) ->
    Keeps fst_same (fac_step (Run c))) by (intros c Hc He; apply fac_step_keeps; rewrite He; apply _).
  pose proof (Hstep UbiDetach (Hq UbiDetach) eq_refl).
  pose proof (fun n => Hstep (UbiPart n) (Hq (UbiPart n)) eq_refl).
  pose proof (fun n => Hstep (UbiCheck n) (Hq (UbiCheck n)) eq_refl).
  pose proof (fun n => Hstep (UbiRemove n) (Hq (UbiRemove n)) eq_refl).
  pose proof (fun n z b i => Hstep (UbiCreate n z b i) (Hq (UbiCreate n z b i)) eq_refl).
  apply _.
Qed.
End engines.

(** * The server *)

(** The staging memory, the upload state, the connections and the BL2 candidate
    are the same. *)
Record quiet (s s' : web_t) : Prop := {
  q_ram : h_ram (fst s') = h_ram (fst s);
  q_stg : w_stg (snd s') = w_stg (snd s);
  q_conns : w_conns (snd s') = w_conns (snd s);
  q_bl2 : us_bl2 (w_ubi (snd s')) = us_bl2 (w_ubi (snd s));
}.
#[export] Instance quiet_refl : Reflexive quiet.
Proof. by split. Qed.
#[export] Instance quiet_trans : Transitive quiet.
Proof. intros ? ? ? [] []. split; congruence. Qed.

Ltac quiet_setter := intros [h w]; by split; destruct w.

Section server.
Context {P : Platform} {X : Ext} {B : Board} {T : FitLib} {N : Tcp} {E : WebEnv} {C : ConcatUbi}.

#[export] Instance onhw_quiet {A} (m : ST hw A) : Keeps ram_same m -> Keeps quiet (onhw m).
Proof. intros Hm [h w]. split; [apply (Hm h)|done..]. Qed.
#[export] Instance on_ubi_quiet {A} (m : ST ubi_t A) : Keeps ubi_same m -> Keeps quiet (on_ubi m).
Proof.
  intros Hm [h w]. destruct (Hm (h, w_ubi w)) as [H1 H2]. split; cbn [fst snd on_ubi]; [done|by destruct w..|].
  cbn [snd] in H2. rewrite <- H2. by destruct w.
Qed.
#[export] Instance on_up_quiet {A} (m : ST fst_t A) : Keeps fst_same m -> Keeps quiet (on_up m).
Proof. intros Hm [h w]. split; [apply (Hm (h, w_up w))|by destruct w..]. Qed.
#[export] Instance on_fac_quiet {A} (m : ST fac_t A) : Keeps fst_same m -> Keeps quiet (on_fac m).
Proof. intros Hm [h w]. split; [apply (Hm (h, w_fac w))|by destruct w..]. Qed.
#[export] Instance onpend_quiet f : Keeps quiet (onpend f).
Proof. quiet_setter. Qed.
#[export] Instance wlog_quiet l : Keeps quiet (wlog l).
Proof. quiet_setter. Qed.
#[export] Instance set_reply_quiet l : Keeps quiet (set_reply l).
Proof. quiet_setter. Qed.
#[export] Instance log_reset_quiet : Keeps quiet ursus_log_reset.
Proof. quiet_setter. Qed.
#[export] Instance set_cpend_quiet v : Keeps quiet (onctx (set_w_cpend v)).
Proof. quiet_setter. Qed.
#[export] Instance net_call_quiet f : Keeps quiet (net_call f).
Proof. quiet_setter. Qed.
#[export] Instance build_status_quiet l : Keeps quiet (ursus_build_status l).
Proof. quiet_setter. Qed.

#[global] Typeclasses Opaque wlog set_reply onpend net_call ursus_log_reset onhw on_ubi on_up on_fac onctx ctx onstg on_val.
#[export] Instance pump_loop_quiet k c b : Keeps quiet (pump_loop k c b).
Proof. revert c b. induction k; intros; simpl; apply _. Qed.
#[export] Instance pump_quiet c : Keeps quiet (ursus_http_pump c).
Proof. unfold ursus_http_pump. apply _. Qed.
#[export] Instance start_response_quiet c s t b : Keeps quiet (ursus_http_start_response c s t b).
Proof. unfold ursus_http_start_response. apply _. Qed.
#[export] Instance reply_lit_quiet c s t : Keeps quiet (reply_lit c s t).
Proof. unfold reply_lit. apply _. Qed.
#[export] Instance locked_quiet c r : Keeps quiet (locked c r).
Proof. unfold locked. apply _. Qed.
#[export] Instance reject_quiet c s k r e g : Keeps quiet (ursus_upload_reject c s k r e g).
Proof. unfold ursus_upload_reject. do 2 (apply sbind_keeps; [apply _..|intros _]). apply start_response_quiet. Qed.
#[global] Typeclasses Opaque ursus_http_start_response reply_lit locked ursus_upload_reject ursus_http_pump.

#[export] Instance console_quiet c : Keeps quiet (route_console c).
Proof.
  unfold route_console. destruct (match ursus_parse_header_value _ _ _ with Some _ => _ | None => _ end) as [cmd|]; [|apply _].
  apply sbind_keeps; [apply _..|]. intros [p|]; apply _.
Qed.
#[export] Instance boot_once_quiet c : Keeps quiet (route_boot_once c).
Proof. unfold route_boot_once. apply _. Qed.
#[export] Instance install_stock_quiet c : Keeps quiet (route_install_stock c).
Proof. unfold route_install_stock. apply _. Qed.
#[export] Instance install_ubi_quiet c : Keeps quiet (route_install_ubi c).
Proof. unfold route_install_ubi, install_ubi_update, install_ubi_migration. apply _. Qed.
#[export] Instance update_ursusboot_quiet c : Keeps quiet (route_update_ursusboot c).
Proof. unfold route_update_ursusboot, up_layout_name, ursus_fip_update_start. apply _. Qed.
#[export] Instance replace_vanilla_quiet c : Keeps quiet (route_replace_vanilla c).
Proof. unfold route_replace_vanilla, up_layout_name, ursus_vanilla_fip_update_start. apply _. Qed.
#[export] Instance reboot_quiet c : Keeps quiet (route_reboot c).
Proof. unfold route_reboot. apply _. Qed.
#[export] Instance not_found_quiet c : Keeps quiet (route_not_found c).
Proof. unfold route_not_found. apply _. Qed.
#[export] Instance prepare_chunk_quiet c k : Keeps quiet (ursus_prepare_chunk c k).
Proof.
  unfold ursus_prepare_chunk. apply sbind_keeps; [apply _..|]. intros w.
  cbv zeta. apply if_keeps; [apply _|].
  destruct (ursus_parse_header_ulong (cstr (c_reqhdr c)) "X-Ursus-Offset"),
    (ursus_parse_header_ulong (cstr (c_reqhdr c)) "X-Ursus-Total"),
    (ursus_parse_header_value (cstr (c_reqhdr c)) "X-Ursus-Generation" URSUS_GENERATION_MAX),
    (ursus_upload_session k (w_stg w)); apply _.
Qed.
Lemma reset_settings_quiet c : concat_quiet -> Keeps quiet (route_reset_settings c).
Proof. intros Hq. pose proof (factory_reset_keeps Hq). unfold route_reset_settings. apply _. Qed.
End server.
