(* ===== verification/FactoryThms.v ===== *)
(** The stock-layout installation writes only to the vendor's kernel and root
    partitions: the boot loader, its environment and the factory data keep every
    byte, on any platform.  Code that changes only cells of those partitions is a
    preorder for [Keeps]. *)
From S2P Require Import Prelude Bytes Fip Flash Ubi Shell Bl2 ReadOnly UbiEngine Fit StockBoot WebHeaders WebImage Concat WebDevice WebKeep Bench.

(** * The partitions *)

Definition factory_cell (x : Z) : Prop :=
  exists n o s, (n, o, s) ∈ ursus_factory_parts /\ o <= x < o + s.
Definition factory_names : list string := UBI_PART :: map (fun p => fst (fst p)) ursus_factory_parts.

(** A device that covers cells of the partitions only. *)
Record dev_in (m : mtd_info) : Prop := {
  di_cells : forall x, m_off m <= x < m_off m + m_size m -> factory_cell x;
  di_erase : 0 < m_erasesize m;
}.
(** The registered devices: one with a name of the installation covers its cells
    only, and a device that is no partition starts at cell 0. *)
Definition parts_ok (l : list mtd_info) : Prop :=
  Forall (fun m => (m_name m ∈ factory_names -> dev_in m) /\ (m_part m = false -> m_off m = 0 /\ 0 < m_erasesize m)) l.
Definition concat_ok (o : option mtd_concat) : Prop :=
  match o with Some c => Forall dev_in (cc_subdev c) /\ 0 < cc_erasesize c | None => True end.

(** Nothing outside the partitions changes. *)
Definition conf (h h' : hw) : Prop :=
  parts_ok (h_mtds h) -> parts_ok (h_mtds h') /\ forall x, ~ factory_cell x -> h_nand h' x = h_nand h x.
#[export] Instance conf_refl : Reflexive conf.
Proof. by intros h. Qed.
#[export] Instance conf_trans : Transitive conf.
Proof.
  intros h1 h2 h3 H1 H2 Hp. destruct (H1 Hp) as [Hp2 Hn]. destruct (H2 Hp2) as [Hp3 Hn2].
  split; [done|]. intros x Hx. by rewrite Hn2, Hn.
Qed.
#[export] Instance ro_conf {A} (m : ST hw A) : ReadOnly m -> Keeps conf m | 20.
Proof. intros Hm h. destruct (Hm h) as [k ->]. by destruct h. Qed.
#[export] Instance ram_write_conf a l : Keeps conf (ram_write a l).
Proof. intros h. by destruct h. Qed.

Definition fconf (s s' : fac_t) : Prop :=
  parts_ok (h_mtds (fst s)) -> concat_ok (f_concat (snd s)) ->
  parts_ok (h_mtds (fst s')) /\ concat_ok (f_concat (snd s')) /\
  forall x, ~ factory_cell x -> h_nand (fst s') x = h_nand (fst s) x.
#[export] Instance fconf_refl : Reflexive fconf.
Proof. by intros s. Qed.
#[export] Instance fconf_trans : Transitive fconf.
Proof.
  intros s1 s2 s3 H1 H2 Hp Hc. destruct (H1 Hp Hc) as (Hp2 & Hc2 & Hn). destruct (H2 Hp2 Hc2) as (Hp3 & Hc3 & Hn2).
  split_and!; [done..|]. intros x Hx. by rewrite Hn2, Hn.
Qed.
#[export] Instance onhw_fconf {A} (m : ST hw A) : Keeps conf m -> Keeps fconf (onhw m).
Proof. intros Hm [h c] Hp Hc. destruct (Hm h Hp). by split_and!. Qed.
#[export] Instance add_trace_fconf x : Keeps fconf (onctx (add_trace x)).
Proof. intros [h c] Hp Hc. by destruct c. Qed.

Section conf.
Context {P : Platform}.

(** * Ordinary devices *)

Lemma found_in name h m :
  name ∈ factory_names -> parts_ok (h_mtds h) -> fst (get_mtd_device_nm name h) = Some m -> dev_in m.
Proof.
  intros Hn Hp Hf. apply find_some in Hf as [Hin Hb]. apply bool_decide_eq_true in Hb. subst name.
  by apply (proj1 (Forall_forall _ _) Hp m Hin).
Qed.
(** Code that looks a device of the installation up by name. *)
Lemma named_conf {A} name (k : option mtd_info -> ST hw A) :
  name ∈ factory_names -> Keeps conf (k None) -> (forall m, dev_in m -> Keeps conf (k (Some m))) ->
  Keeps conf (let* m := get_mtd_device_nm name in k m).
Proof.
  intros Hn H0 H1 h Hp. unfold sbind. pose proof (found_in name h) as Hf.
  assert (Hs : snd (get_mtd_device_nm name h) = h) by done.
  destruct (fst (get_mtd_device_nm name h)) as [m|]; rewrite Hs; [|by apply H0].
  by apply (H1 m (Hf m Hn Hp eq_refl)).
Qed.

Lemma fill_conf m a n f nand x :
  dev_in m -> m_off m <= a -> a + n <= m_off m + m_size m -> ~ factory_cell x -> fill_cells nand a n f x = nand x.
Proof.
  intros [Hd _] Ha Hn Hx. unfold fill_cells. destruct (_ && _) eqn:E; [|done]. destruct Hx. apply Hd. lia.
Qed.
Lemma erase_conf m addr len : dev_in m -> 0 <= addr -> Keeps conf (mtd_erase m addr len).
Proof.
  intros Hd Ha h Hp. unfold mtd_erase. destruct (_ || _) eqn:Hr; [done|]. destruct (len =? 0); [done|].
  unfold sbind, next_out, smod, sret. destruct h. simpl in *. split; [done|]. intros x Hx.
  destruct (_ && _); [done|]. apply (fill_conf m); [done|lia..|done].
Qed.
Lemma write_conf m to buf : dev_in m -> Keeps conf (mtd_write m to buf).
Proof.
  intros Hd h Hp. unfold mtd_write. destruct (_ || _) eqn:Hr; [done|]. destruct (blen buf =? 0); [done|].
  unfold sbind, next_out, smod, sret. destruct h. simpl in *. split; [done|]. intros x Hx.
  destruct (_ && _); [done|]. destruct (o_cells _); [apply (fill_conf m); [done|lia..|done]|].
  unfold nand_program. destruct (_ && _) eqn:E; [|done]. destruct Hx. apply (di_cells m Hd). lia.
Qed.

Lemma erase_loop_conf m : dev_in m -> forall k addr len ret, 0 <= addr -> Keeps conf (mtd_erase_loop k m addr len ret).
Proof.
  intros Hd. pose proof (di_erase m Hd). induction k as [|k IH]; intros addr len ret Ha; cbn [mtd_erase_loop]; [apply _|].
  pose proof (erase_conf m addr (m_erasesize m) Hd Ha).
  pose proof (fun l r => IH (addr + m_erasesize m) l r ltac:(lia)). apply _.
Qed.
Lemma erase_cmd_conf part off len :
  part ∈ factory_names -> 0 <= off -> Keeps conf (run_command (MtdErase part off len)).
Proof.
  intros Hp Ho. assert (Keeps conf (do_mtd_erase part off len)); [|unfold run_command; cbn [command_code]; apply _].
  unfold do_mtd_erase. apply named_conf; [done|apply _|]. intros m Hd.
  pose proof (fun k l r => erase_loop_conf m Hd k off l r Ho). apply _.
Qed.

Lemma io_loop_conf m : dev_in m -> forall k rd off rem buf, Keeps conf (mtd_io_loop k m rd off rem buf).
Proof.
  intros Hd. induction k as [|k IH]; intros rd off rem buf; cbn [mtd_io_loop]; [apply _|].
  pose proof (fun to b => write_conf m to b Hd). apply _.
Qed.
#[export] Instance good_block_ro k m off : ReadOnly (first_good_block k m off).
Proof. revert off. induction k; intros; cbn [first_good_block]; apply _. Qed.
Lemma io_conf rd part addr off len : part ∈ factory_names -> Keeps conf (do_mtd_io rd part addr off len).
Proof.
  intros Hp. unfold do_mtd_io. apply named_conf; [done|apply _|]. intros m Hd.
  pose proof (io_loop_conf m Hd). cbv zeta. apply _.
Qed.

(** * The concatenation *)

Lemma concat_erase_loop_conf subs : Forall dev_in subs -> forall addr len, 0 <= addr ->
  Keeps conf (concat_erase_loop subs addr len).
Proof.
  induction 1 as [|d subs Hd Hs IH]; intros addr len Ha; cbn [concat_erase_loop]; [apply _|].
  pose proof (fun n => erase_conf d addr n Hd Ha). pose proof (fun l => IH 0 l ltac:(lia)). apply _.
Qed.
Lemma concat_find_in subs addr r : Forall dev_in subs -> 0 <= addr -> concat_find subs addr = Some r ->
  Forall dev_in (fst r) /\ 0 <= snd r.
Proof.
  intros Hs. revert addr. induction Hs as [|d subs Hd Hs IH]; intros addr Ha; cbn [concat_find]; [done|].
  destruct (Z.leb_spec (m_size d) addr); [apply IH; lia|]. intros [= <-]. by split; [constructor|].
Qed.
Lemma concat_erase_conf c addr len : Forall dev_in (cc_subdev c) -> 0 <= addr -> Keeps conf (mtd_erase_c c addr len).
Proof.
  intros Hs Ha. unfold mtd_erase_c, concat_erase. pose proof (concat_find_in (cc_subdev c) addr) as Hf.
  destruct (concat_find (cc_subdev c) addr) as [[subs b]|]; [|apply _].
  destruct (Hf (subs, b) Hs Ha eq_refl) as [Hs' Hb]. cbn [fst snd] in *.
  pose proof (fun l => concat_erase_loop_conf subs Hs' b l Hb). apply _.
Qed.
#[local] Instance concat_isbad_ro subs ofs : ReadOnly (concat_isbad_loop subs ofs).
Proof. revert ofs. induction subs; intros; cbn [concat_isbad_loop]; apply _. Qed.
Lemma erase_loop_c_conf c : Forall dev_in (cc_subdev c) -> 0 < cc_erasesize c ->
  forall k addr len ret, 0 <= addr -> Keeps conf (mtd_erase_loop_c k c addr len ret).
Proof.
  intros Hs He. induction k as [|k IH]; intros addr len ret Ha; cbn [mtd_erase_loop_c]; [apply _|].
  pose proof (concat_erase_conf c addr (cc_erasesize c) Hs Ha).
  pose proof (fun l r => IH (addr + cc_erasesize c) l r ltac:(lia)).
  unfold mtd_block_isbad_c, concat_block_isbad. apply _.
Qed.

(** * Registration *)

(** What a run from [h] preserves. *)
Definition kept (h : hw) (s : fac_t) : Prop :=
  parts_ok (h_mtds (fst s)) /\ concat_ok (f_concat (snd s)) /\
  forall x, ~ factory_cell x -> h_nand (fst s) x = h_nand h x.
Lemma wp_fconf {A} (m : ST fac_t A) :
  (forall h c, parts_ok (h_mtds h) -> concat_ok (f_concat c) -> wp m (fun _ => kept h) (h, c)) -> Keeps fconf m.
Proof. intros H [h c] Hp Hc. exact (wp_run _ _ _ _ _ (H h c Hp Hc) (surjective_pairing _)). Qed.

Lemma part_in master p : m_off master = 0 -> 0 < m_erasesize master -> p ∈ ursus_factory_parts -> dev_in (mtd_part_of master p).
Proof.
  destruct p as [[n o] s]. intros Hz He Hin. split; [|done]. cbn [mtd_part_of m_off m_size].
  intros x Hx. exists n, o, s. split; [done|lia].
Qed.
Lemma parts_added master l :
  m_off master = 0 -> 0 < m_erasesize master -> parts_ok l ->
  parts_ok (l ++ map (mtd_part_of master) ursus_factory_parts).
Proof.
  intros Hz He Hl. apply Forall_app. split; [done|]. apply Forall_map, Forall_forall. intros p Hp.
  split; [intros _; apply part_in; [done..|by apply list_elem_of_In]|]. by destruct p as [[? ?] ?].
Qed.

Lemma wp_get_subdevs names (Q : option (list mtd_info) -> hw -> Prop) h :
  parts_ok (h_mtds h) -> Forall (fun n => n ∈ factory_names) names ->
  (forall r, (forall l, r = Some l -> Forall dev_in l) -> Q r h) -> wp (get_subdevs names) Q h.
Proof.
  intros Hp Hn. revert Q. induction Hn as [|n names Hn _ IH]; intros Q HQ; cbn [get_subdevs].
  { wps. apply HQ. intros l [= <-]. constructor. }
  apply wp_bind. pose proof (found_in n h) as Hf. unfold get_mtd_device_nm in *. wps.
  cbn [sget fst] in Hf. destruct (find _ (h_mtds h)) as [d|]; [|wps; by apply HQ].
  apply wp_bind, IH. intros r Hr. wps. apply HQ. intros l. destruct r as [l'|]; [|done]. intros [= <-].
  constructor; [by apply Hf|by apply Hr].
Qed.
Lemma count_regions_pos subs : forall curr num mx, 0 < mx -> 0 < snd (count_regions curr num mx subs).
Proof.
  induction subs as [|d subs IH]; intros curr num mx Hm; cbn [count_regions]; [done|].
  case_match; apply IH; [done|]. destruct (Z.ltb_spec mx (m_erasesize d)); lia.
Qed.
Lemma wp_create subs name (Q : option mtd_concat -> hw -> Prop) h :
  Forall dev_in subs -> (forall r k, concat_ok r -> Q r (set_tick k h)) -> wp (mtd_concat_create subs name) Q h.
Proof.
  intros Hs HQ. unfold mtd_concat_create. apply wp_bind, wp_ro; [apply _|]. intros ok k.
  destruct ok; cbn [negb]; [|wps; by apply HQ]. destruct subs as [|d0 subs]; [wps; by apply HQ|].
  destruct (negb (forallb _ _)); [wps; by apply HQ|]. cbv zeta.
  assert (He : 0 < m_erasesize d0) by (inversion Hs as [|? ? [? He]]; done).
  pose proof (count_regions_pos (d0 :: subs) (m_erasesize d0) 1 _ He) as Hx.
  destruct (count_regions _ _ _ _) as [num mx]. cbn [snd] in Hx.
  destruct (num =? 1); [wps; by apply HQ|]. apply wp_bind, wp_ro; [apply _|]. intros ok k2.
  rewrite set_tick_twice. destruct ok; cbn [negb]; wps; by apply HQ.
Qed.

Lemma register_fconf : Keeps fconf ursus_factory_register_mtd.
Proof.
  apply wp_fconf. intros h c Hp Hc. unfold ursus_factory_register_mtd. wps. destruct (f_ready c); [by wps|].
  unfold ursus_find_master_nand. wps. destruct (find _ (h_mtds h)) as [master|] eqn:Hm; [|by wps].
  apply find_some in Hm as [Hin [Hpart _]%andb_true_iff].
  destruct (proj1 (Forall_forall _ _) Hp master Hin) as [_ [Hz He]]; [by destruct (m_part master)|].
  unfold add_mtd_partitions, next_out. wps. apply wp_intro. intros o h1 [= <- <-]. wps.
  destruct (nz (o_err _)) eqn:Ho; [wps; rewrite Ho; wps; by destruct h|]. wps. cif.
  set (h2 := set_mtds _ _).
  assert (Hn2 : h_nand h2 = h_nand h) by (by destruct h).
  assert (Hp2 : parts_ok (h_mtds h2)) by (pose proof (parts_added master _ Hz He Hp); by destruct h).
  clearbody h2. unfold get_mtd_device_nm at 1. wps.
  assert (Hkept : forall k c', concat_ok (f_concat c') -> kept h (set_tick k h2, c')).
  { intros k c' Hc'. split_and!; [by destruct h2|done|]. intros x _. rewrite <- Hn2. by destruct h2. }
  destruct (find _ _) as [kd|]; wps; [|rewrite <- (set_tick_id h2); apply Hkept; by destruct c].
  apply wp_get_subdevs; [done|repeat constructor; by vm_compute; tauto|]. intros subs Hsubs. wps.
  destruct subs as [subs|]; [|wps; rewrite <- (set_tick_id h2); apply Hkept; by destruct c].
  wps. apply wp_create; [by apply Hsubs|]. intros cc k Hcc. wps.
  destruct cc as [cc|]; [|wps; apply Hkept; by destruct c].
  unfold add_mtd_device. wps. apply wp_ro; [apply _|]. intros ok k2. rewrite set_tick_twice. wps.
  repeat (apply wp_if; intros _; wps); apply Hkept; by destruct c.
Qed.

(** * The installation *)

Context {C : ConcatUbi}.
(** UBI works on its device only and registers no device. *)
Definition ubi_confined : Prop := forall cmd h,
  h_mtds (snd (concat_ubi cmd h)) = h_mtds h /\
  forall x, ~ factory_cell x -> h_nand (snd (concat_ubi cmd h)) x = h_nand h x.

Lemma concat_erase_cmd_fconf part off len :
  part ∈ factory_names -> 0 <= off -> Keeps fconf (concat_erase_cmd part off len).
Proof.
  intros Hn Ho. pose proof (erase_cmd_conf part off len Hn Ho) as Hrun.
  apply wp_fconf. intros h c Hp Hc. unfold concat_erase_cmd, get_mtd_device_nm. wps.
  assert (Hk : forall A (m : ST hw A) (k : A -> Z), Keeps conf m ->
    wp (let* r := onhw m in sret (k r)) (fun _ => kept h) (h, c)).
  { intros A m k Hm. wps. apply (wp_keeps conf m). intros a h' Hcf. wps. destruct (Hcf Hp). by split_and!. }
  destruct (find _ _) as [m|], (f_concat c) as [cc|] eqn:Hcc.
  1,2,4: apply wp_onhw, (wp_keeps conf _); intros a h' Hcf; destruct (Hcf Hp); split_and!; cbn [snd]; by rewrite ?Hcc.
  destruct (bool_decide _); [|wps; split_and!; cbn [snd]; by rewrite ?Hcc].
  apply Hk. unfold do_mtd_erase_c. destruct Hc as [Hs He].
  pose proof (fun k l r => erase_loop_c_conf cc Hs He k off l r Ho). apply _.
Qed.

(** The commands of the installation. *)
Definition factory_cmd (cmd : command) : Prop :=
  match cmd with
  | MtdErase part off _ => part ∈ factory_names /\ 0 <= off
  | MtdRead part _ _ _ | MtdWrite part _ _ _ => part ∈ factory_names
  | _ => True
  end.
Lemma factory_run_fconf cmd : ubi_confined -> factory_cmd cmd -> Keeps fconf (factory_run cmd).
Proof.
  intros Hu Hc.
  assert (Hubi : Keeps conf (concat_ubi cmd)).
  { intros h Hp. destruct (Hu cmd h) as [-> Hn]. by split. }
  destruct cmd as [| | | | | | | |part off len|part a off len|part a off len|]; cbn [factory_run factory_cmd] in *; try apply _.
  - destruct Hc. by apply concat_erase_cmd_fconf.
  - pose proof (io_conf true part a off len Hc). unfold run_command. cbn [command_code]. apply _.
  - pose proof (io_conf false part a off len Hc). unfold run_command. cbn [command_code]. apply _.
Qed.
Definition factory_step (s : fstep) : Prop := match s with Run cmd => factory_cmd cmd | Compare _ _ => True end.
Lemma fac_step_fconf s : ubi_confined -> factory_step s -> Keeps fconf (fac_step s).
Proof.
  intros Hu Hs. unfold fac_step. destruct s as [cmd|off len].
  - pose proof (factory_run_fconf cmd Hu Hs). apply _.
  - unfold ursus_compare_stage_readback. apply _.
Qed.
#[local] Instance fac_try_fconf m k : Keeps fconf m -> Keeps fconf k -> Keeps fconf (fac_try m k).
Proof. unfold fac_try. apply _. Qed.
#[export] Instance capacity_ro k m off u : ReadOnly (capacity_loop k m off u).
Proof.
  revert off u. induction k; intros; cbn [capacity_loop]; [apply _|].
  apply if_ro; [apply _|]. apply sbind_ro; [apply _|]. intros bad. apply if_ro; apply _.
Qed.
#[local] Instance ctx_fconf {A} (f : factory_ctx -> A) : Keeps fconf (ctx f).
Proof. by intros s. Qed.
Lemma install_fconf img layout : ubi_confined -> Keeps fconf (ursus_factory_install img layout).
Proof.
  intros Hu. pose proof register_fconf.
  assert (Hs : forall s, factory_step s -> Keeps fconf (fac_step s)) by (intros s; by apply fac_step_fconf).
  unfold ursus_factory_install, factory_write_root, factory_write_kernel, run_recorded.
  assert (Hcap : forall n, Keeps fconf (ursus_factory_kernel_capacity_ok n)).
  { intros n. unfold ursus_factory_kernel_capacity_ok. apply _. }
  assert (Hin : forall n, n ∈ [UBI_PART; KERNEL_PART] -> n ∈ factory_names).
  { intros n Hn. unfold factory_names, ursus_factory_parts. set_solver. }
  apply if_keeps; [apply _|]. apply fac_try_fconf; [done|]. apply fac_try_fconf; [apply Hcap|].
  apply sbind_keeps; [apply _..|by apply Hs|intros _].
  do 10 (apply fac_try_fconf; [apply Hs; cbn; try split; (done || lia || (apply Hin; set_solver))|]).
  by apply Hs.
Qed.

End conf.

(** A UBI that rewrites the first block of its device on every command. *)
#[export] Instance busy_ubi : ConcatUbi := {|
  concat_ubi := fun _ =>
    smod (fun h => set_flash (fill_cells (h_nand h) 0x5cc0000 0x20000 (fun _ => 0)) (h_erased h) (h_areas h) h) ;;; sret 0 |}.
Lemma busy_confined : ubi_confined.
Proof.
  intros cmd h. split; [by destruct h|]. intros x Hx. destruct h. simpl. unfold fill_cells.
  destruct (_ && _) eqn:E; [|done]. destruct Hx. exists "ursus-ubi-data"%string, 0x5cc0000, 0x080e0000.
  split; [unfold ursus_factory_parts; set_solver|lia].
Qed.
Definition bench_stock_image : image_state :=
  MkImg URSUS_IMG_NONUBI_SYSUPGRADE URSUS_STAGE_ADDR 0x2000 true true true true true true true true true true true false
    false 0x800 0x100 0x1000 0x200 0x1000 "OK" "".
(** An installation that runs to its end. *)
Lemma bench_install_ok : fst (ursus_factory_install bench_stock_image "STOCK" (bench_hw, fac_init)) = 0.
Proof. vm_cast_no_check (eq_refl 0). Qed.
