(* ===== verification/FactoryDone.v ===== *)
(** A completed stock-layout installation: what is on the flash.  The "mtd read"
    command reads the pages of good eraseblocks in order; the installation ends
    with such a read of the kernel partition and a comparison with the image. *)
From S2P Require Import Prelude Bytes Fip Flash Ubi Shell Bl2 ReadOnly UbiEngine Fit StockBoot WebHeaders WebImage Concat ConcatThms WebDevice WebState WebKeep FactoryThms Bench.

(** * Pages in good blocks *)

(** [page_run m bad off rem l]: [l] are the pages a transfer of [rem] bytes uses
    from offset [off] on: one after the other, where whole eraseblocks may be left
    out, and never one of a block that is bad at its start. *)
Inductive page_run (m : mtd_info) (bad : Z -> bool) : Z -> Z -> list Z -> Prop :=
  | run_done off : page_run m bad off 0 []
  | run_page off rem l :
      rem <> 0 -> (off `mod` m_erasesize m = 0 -> bad ((m_off m + off) / m_erasesize m) = false) ->
      0 <= off -> off + m_writesize m <= m_size m ->
      page_run m bad (off + m_writesize m) (rem - m_writesize m) l -> page_run m bad off rem (off :: l)
  | run_skip off rem l :
      rem <> 0 -> off `mod` m_erasesize m = 0 ->
      page_run m bad (off + m_erasesize m) rem l -> page_run m bad off rem l.

Definition pages_bytes (nand : Z -> Z) (m : mtd_info) (l : list Z) : list Z :=
  concat (map (fun o => mread nand (m_off m + o) (m_writesize m)) l).

Section done.
Context {P : Platform}.

Lemma isbad_zero m off (Q : Z -> hw -> Prop) h :
  (forall r k, (r = 0 -> h_bad h ((m_off m + off) / m_erasesize m) = false) -> Q r (set_tick k h)) ->
  wp (mtd_block_isbad m off) Q h.
Proof.
  intros HQ. apply wp_ro_val; [apply _|]. intros k Hk. apply HQ. revert Hk.
  unfold mtd_block_isbad, sbind, sret, sget, next_out. simpl.
  destruct (_ || _); [done|]. destruct (nz _) eqn:Hz; simpl; [intros _ Hn; by rewrite Hn in Hz|].
  intros _. destruct h. simpl. by destruct (_ (_ / _)).
Qed.
(** A page is read completely or the read fails. *)
Lemma page_read m off (Q : Z * list Z -> hw -> Prop) h :
  full_transfers -> 0 < m_writesize m ->
  (forall r d k, (r = 0 -> d = mread (h_nand h) (m_off m + off) (m_writesize m) /\ 0 <= off /\ off + m_writesize m <= m_size m) ->
     Q (r, d) (set_tick k h)) -> wp (mtd_read m off (m_writesize m)) Q h.
Proof.
  intros Ht Hw HQ. unfold mtd_read. destruct (_ || _) eqn:Hr.
  { wps. rewrite <- (set_tick_id h). by apply HQ. }
  destruct (Z.eqb_spec (m_writesize m) 0); [lia|]. wps. unfold next_out. apply wp_intro. intros o h' [= <- <-]. wps.
  rewrite Ht. apply HQ. intros _. destruct h. simpl. split; [done|lia].
Qed.

Lemma io_read_run m : full_transfers -> 0 < m_writesize m -> forall k off n buf h,
  wp (mtd_io_loop k m true off (Z.of_nat n * m_writesize m) buf) (fun r h' =>
    exists ram t, h' = set_ram ram (set_tick t h) /\ (forall x, x < buf -> ram x = h_ram h x) /\
      (r = 0 -> exists l, page_run m (h_bad h) off (Z.of_nat n * m_writesize m) l /\
         mread ram buf (Z.of_nat n * m_writesize m) = pages_bytes (h_nand h) m l)) h.
Proof.
  intros Ht Hw. induction k as [|k IH]; intros off n buf h; cbn [mtd_io_loop].
  all: destruct (Z.eqb_spec (Z.of_nat n * m_writesize m) 0) as [Hz|Hnz].
  1,3: wps; exists (h_ram h), (h_tick h); rewrite Hz; split_and!; [by destruct h|done|]; intros _; exists [];
    split; [constructor|by rewrite mread_0].
  { wps. exists (h_ram h), (h_tick h). split_and!; [by destruct h|done|done]. }
  destruct n as [|n]; [lia|].
  apply wp_bind.
  assert (Hbad : forall (Q : Z -> hw -> Prop),
    (forall r t, (r = 0 -> off `mod` m_erasesize m = 0 -> h_bad h ((m_off m + off) / m_erasesize m) = false) ->
       (r <> 0 -> off `mod` m_erasesize m = 0) -> Q r (set_tick t h)) ->
    wp (if off `mod` m_erasesize m =? 0 then mtd_block_isbad m off else sret 0) Q h).
  { intros Q HQ. destruct (Z.eqb_spec (off `mod` m_erasesize m) 0).
    - apply isbad_zero. intros r t Hr. apply HQ; auto.
    - wps. rewrite <- (set_tick_id h). by apply HQ. }
  apply Hbad. intros bad t Hb0 Hb1. destruct (nz bad) eqn:Hnb.
  - apply nz_true in Hnb. eapply wp_mono; [apply IH|]. cbn beta. intros r h' (ram & t' & -> & Ho & Hok).
    exists ram, t'. split_and!; [by destruct h|destruct h; exact Ho|]. intros Hr. destruct (Hok Hr) as (l & Hl & Hm).
    exists l. destruct h. split; [|done]. apply run_skip; [lia|auto|done].
  - apply nz_false in Hnb. specialize (Hb0 Hnb). apply wp_bind, page_read; [done..|]. intros r d t2 Hd.
    cbv beta iota. unfold ram_write. wps. destruct (nz r) eqn:Hr.
    + wps. eexists _, t2. split_and!; [by destruct h| |intros ->; by rewrite nz_true in Hr].
      intros x Hx. destruct h. apply mwrite_outside. by left.
    + apply nz_false in Hr. destruct (Hd Hr) as (-> & Hoff & Hend). clear Hd.
      set (page := mread _ _ _). assert (Hpl : blen page = m_writesize m) by (apply blen_mread; lia).
      rewrite Hpl. replace (Z.of_nat (S n) * m_writesize m - m_writesize m) with (Z.of_nat n * m_writesize m) by lia.
      eapply wp_mono; [apply IH|]. cbn beta. intros r2 h' (ram & t' & -> & Ho & Hok).
      exists ram, t'. split_and!; [by destruct h| |].
      * intros x Hx. rewrite Ho by lia. destruct h. apply mwrite_outside. by left.
      * intros Hr2. destruct (Hok Hr2) as (l & Hl & Hm). exists (off :: l). split.
        { apply run_page; [lia|done|lia|lia|]. replace (Z.of_nat (S n) * m_writesize m - m_writesize m) with (Z.of_nat n * m_writesize m) by lia.
          by destruct h. }
        replace (Z.of_nat (S n) * m_writesize m) with (m_writesize m + Z.of_nat n * m_writesize m) by lia.
        rewrite mread_app by lia. unfold pages_bytes. cbn [map concat]. f_equal.
        -- rewrite (mread_ext ram (mwrite (h_ram h) buf page)).
           { rewrite <- Hpl at 1. rewrite mread_mwrite_same. unfold page. by destruct h. }
           intros x Hx. rewrite Ho by lia. by destruct h.
        -- rewrite Hm. by destruct h.
Qed.

Lemma first_good_run m k : forall off h, off `mod` m_erasesize m = 0 -> 0 < m_erasesize m ->
  wp (first_good_block k m off) (fun r h' => (exists t, h' = set_tick t h) /\
    forall o rem l bad, r = Some o -> rem <> 0 -> page_run m bad o rem l -> page_run m bad off rem l) h.
Proof.
  induction k as [|k IH]; intros off h Ha He; cbn [first_good_block].
  { wps. split; [exists (h_tick h); by rewrite set_tick_id|done]. }
  apply wp_bind, isbad_zero. intros r t _. destruct (nz r).
  - eapply wp_mono; [apply IH|]; [|done|].
    { rewrite <- (Z.mul_1_l (m_erasesize m)) at 1. by rewrite Z_mod_plus_full. }
    cbn beta. intros r' h' [[t' ->] Hrun]. rewrite set_tick_twice. split; [eauto|].
    intros o rem l bad Hr Hrem Hl. apply run_skip; [done..|]. by apply (Hrun o).
  - wps. split; [eauto|]. by intros o rem l bad [= <-].
Qed.

Definition kernel_dev (h : hw) : option mtd_info := fst (get_mtd_device_nm KERNEL_PART h).
(** The first [len] bytes "mtd read" finds on device [m] are [data]. *)
Definition holds (h : hw) (m : mtd_info) (len : Z) (data : list Z) : Prop :=
  exists l n, len <= n /\ page_run m (h_bad h) 0 n l /\ data = slice 0 len (pages_bytes (h_nand h) m l).

Lemma round_up ws len : 0 < ws -> 0 < len ->
  exists n, (if nz (len `mod` ws) then (len / ws + 1) * ws else len) = Z.of_nat n * ws /\ len <= Z.of_nat n * ws.
Proof.
  intros Hw Hl. pose proof (Z.div_mod len ws). pose proof (Z.mod_pos_bound len ws Hw). pose proof (Z.div_pos len ws).
  destruct (nz _) eqn:Hz.
  - exists (Z.to_nat (len / ws + 1)). lia.
  - apply nz_false in Hz. exists (Z.to_nat (len / ws)). lia.
Qed.
(** A read registers no device. *)
Definition devs_same (h h' : hw) : Prop := h_mtds h' = h_mtds h.
#[local] Instance devs_same_refl : Reflexive devs_same.
Proof. done. Qed.
#[local] Instance devs_same_trans : Transitive devs_same.
Proof. intros ? ? ? H1 H2. unfold devs_same in *. congruence. Qed.
#[local] Instance ro_devs {A} (m : ST hw A) : ReadOnly m -> Keeps devs_same m | 20.
Proof. intros Hm h. destruct (Hm h) as [k ->]. by destruct h. Qed.
#[local] Instance ram_write_devs a l : Keeps devs_same (ram_write a l).
Proof. intros h. by destruct h. Qed.
#[local] Instance io_read_devs k m off rem buf : Keeps devs_same (mtd_io_loop k m true off rem buf).
Proof. revert off rem buf. induction k; intros; cbn [mtd_io_loop]; apply _. Qed.
Lemma read_cmd_devs part addr off len : Keeps devs_same (run_command (MtdRead part addr off len)).
Proof. unfold run_command. cbn [command_code]. unfold do_mtd_io. cbv zeta. apply _. Qed.

(** What a successful "mtd read" of the kernel partition delivers. *)
Lemma kernel_read_dev addr len h : full_transfers -> 0 < addr < 2 ^ 32 -> 0 < len ->
  wp (run_command (MtdRead KERNEL_PART addr 0 len)) (fun r h' =>
    r = 0 -> exists m, kernel_dev h = Some m /\
      (0 < m_writesize m -> 0 < m_erasesize m -> holds h' m len (mread (h_ram h') addr len))) h.
Proof.
  intros Ht Ha Hl. unfold run_command. cbn [command_code]. apply wp_bind. unfold do_mtd_io. apply wp_bind.
  unfold get_mtd_device_nm at 1. apply wp_get.
  change (find _ (h_mtds h)) with (kernel_dev h). destruct (kernel_dev h) as [m|] eqn:Hm; [|by wps].
  destruct (decide (0 < m_writesize m /\ 0 < m_erasesize m)) as [[Hw He]|Hno].
  2:{ apply wp_intro. intros r h' _. wps. intros _. exists m. split; [done|lia]. }
  cbv zeta. rewrite Zmod_0_l, u32_small by lia. cif. destruct (Z.eqb_spec addr 0) as [|_]; [lia|].
  destruct (round_up (m_writesize m) len Hw Hl) as (n & -> & Hn).
  apply wp_bind. eapply wp_mono; [by apply first_good_run; [apply Zmod_0_l|]|]. cbn beta.
  intros [o|] h1 [[t ->] Hrun]; [|by wps]. apply wp_bind. eapply wp_mono; [by apply io_read_run|]. cbn beta.
  intros r h' (ram & t' & -> & _ & Hok). wps. destruct (nz r) eqn:Hr; wps; [done|]. intros _.
  apply nz_false in Hr. destruct (Hok Hr) as (l & Hl' & Hbytes). exists m. split; [done|]. intros _ _.
  exists l, (Z.of_nat n * m_writesize m). split; [done|].
  assert (Hbad : h_bad (set_ram ram (set_tick t' (set_tick t h))) = h_bad (set_tick t h)) by (by destruct h).
  rewrite Hbad. split; [apply (Hrun o); [done|lia|done]|].
  replace (h_nand (set_ram _ _)) with (h_nand (set_tick t h)) by (by destruct h). rewrite <- Hbytes.
  rewrite slice_mread, Z.add_0_r by lia. by destruct h.
Qed.
Lemma kernel_read_run addr len h : full_transfers -> 0 < addr < 2 ^ 32 -> 0 < len ->
  wp (run_command (MtdRead KERNEL_PART addr 0 len)) (fun r h' =>
    r = 0 -> exists m, kernel_dev h' = Some m /\
      (0 < m_writesize m -> 0 < m_erasesize m -> holds h' m len (mread (h_ram h') addr len))) h.
Proof.
  intros Ht Ha Hl. eapply wp_mono; [apply wp_and; [by apply kernel_read_dev|]|].
  - apply (wp_keeps devs_same _ (Keeps0 := read_cmd_devs _ _ _ _)). intros a s' Hs. exact Hs.
  - cbn beta. intros r h' [Hk Hd] Hr. destruct (Hk Hr) as (m & Hm & Hh). exists m. split; [|done].
    rewrite <- Hm. unfold kernel_dev, get_mtd_device_nm, sget. cbn [fst]. unfold devs_same in Hd. by rewrite Hd.
Qed.

(** * The installation *)

Context {C : ConcatUbi}.

Lemma wp_fac_try (m k : ST fac_t Z) (Q : Z -> fac_t -> Prop) s :
  (forall r s', r <> 0 -> Q r s') -> wp m (fun r s' => r = 0 -> wp k Q s') s -> wp (fac_try m k) Q s.
Proof.
  intros HQ Hm. unfold fac_try. apply wp_bind. eapply wp_mono; [exact Hm|]. cbn beta. intros r s' Hk.
  destruct (nz r) eqn:Hr; [wps; apply HQ; by apply nz_true|]. apply Hk. by apply nz_false.
Qed.

(** The last two steps. *)
Lemma read_compare_kernel img h c : full_transfers -> 0 < im_kernel_size img ->
  wp (fac_try (run_recorded (MtdRead KERNEL_PART URSUS_READBACK_ADDR 0 (im_kernel_size img)))
        (fac_step (Compare (im_kernel_off img) (im_kernel_size img)))) (fun ret s =>
    ret = 0 -> exists m, kernel_dev (fst s) = Some m /\
      (0 < m_writesize m -> 0 < m_erasesize m ->
        holds (fst s) m (im_kernel_size img)
          (mread (h_ram (fst s)) (URSUS_STAGE_ADDR + im_kernel_off img) (im_kernel_size img)))) (h, c).
Proof.
  intros Ht Hs. apply wp_fac_try; [done|]. unfold run_recorded, fac_step at 1. cbn [factory_run].
  wps. eapply wp_mono; [apply kernel_read_run; [done|done|done]|]. cbn beta. intros r h1 Hr. wps. intros ->.
  destruct (Hr eq_refl) as (m & Hm & Hh). unfold fac_step, ursus_compare_stage_readback. wps.
  destruct (_ || _); wps; [done|]. unfold ram_read. wps. cbn [fst].
  destruct (memeq _ _) eqn:He; [|done]. apply memeq_eq in He. intros _. exists m. split; [done|].
  rewrite He. exact Hh.
Qed.

Lemma install_read_back img layout h c :
  full_transfers -> 0 < im_kernel_size img ->
  wp (ursus_factory_install img layout) (fun ret s =>
    ret = 0 -> exists m, kernel_dev (fst s) = Some m /\
      (0 < m_writesize m -> 0 < m_erasesize m ->
        holds (fst s) m (im_kernel_size img)
          (mread (h_ram (fst s)) (URSUS_STAGE_ADDR + im_kernel_off img) (im_kernel_size img)))) (h, c).
Proof.
  intros Ht Hs. unfold ursus_factory_install. destruct (nz (factory_guard img layout)) eqn:Hg.
  { wps. intros Hz. by rewrite Hz in Hg. }
  assert (Hany : forall (m k : ST fac_t Z) (Q : Z -> fac_t -> Prop) s, (forall r s', r <> 0 -> Q r s') ->
    (forall s', wp k Q s') -> wp (fac_try m k) Q s).
  { intros m k Q s HQ Hk. apply wp_fac_try; [done|]. apply wp_intro. auto. }
  apply Hany; [done|]. intros s1. apply Hany; [done|]. intros s2. unfold factory_write_root.
  apply wp_bind, wp_intro. intros _ s3 _.
  do 9 (apply Hany; [done|]; intros [? ?]). by apply read_compare_kernel.
Qed.

(** ** The staged image is left alone *)

Definition low_ram (h h' : hw) : Prop := forall x, x < URSUS_READBACK_ADDR -> h_ram h' x = h_ram h x.
#[local] Instance low_ram_refl : Reflexive low_ram.
Proof. by intros h x. Qed.
#[local] Instance low_ram_trans : Transitive low_ram.
Proof. intros h1 h2 h3 H1 H2 x Hx. by rewrite H2, H1. Qed.
#[local] Instance same_low {A} (m : ST hw A) : Keeps ram_same m -> Keeps low_ram m | 30.
Proof. intros Hm h x _. specialize (Hm h). unfold ram_same in Hm. by rewrite Hm. Qed.
Definition flow (s s' : fac_t) : Prop := low_ram (fst s) (fst s').
#[local] Instance flow_refl : Reflexive flow.
Proof. intros s. apply low_ram_refl. Qed.
#[local] Instance flow_trans : Transitive flow.
Proof. intros s1 s2 s3. apply low_ram_trans. Qed.
#[local] Instance same_flow {A} (m : ST fac_t A) : Keeps fst_same m -> Keeps flow m | 30.
Proof. intros Hm s x _. specialize (Hm s). unfold fst_same, ram_same in Hm. exact (f_equal (fun f => f x) Hm). Qed.
#[local] Instance onhw_flow {A} (m : ST hw A) : Keeps low_ram m -> Keeps flow (onhw m).
Proof. intros Hm [h c]. apply (Hm h). Qed.
#[local] Instance onctx_flow f : Keeps flow (onctx f).
Proof. by intros [h c] x. Qed.

#[local] Instance erase_same m a n : Keeps ram_same (mtd_erase m a n).
Proof.
  intros h. unfold mtd_erase. destruct (_ || _); [done|]. destruct (_ =? 0); [done|]. by destruct h.
Qed.
#[local] Instance write_same m a b : Keeps ram_same (mtd_write m a b).
Proof.
  intros h. unfold mtd_write. destruct (_ || _); [done|]. destruct (_ =? 0); [done|]. by destruct h.
Qed.
#[local] Instance erase_loop_same k m a n r : Keeps ram_same (mtd_erase_loop k m a n r).
Proof. revert a n r. induction k; intros; cbn [mtd_erase_loop]; apply _. Qed.
#[local] Instance concat_loop_same l a n : Keeps ram_same (concat_erase_loop l a n).
Proof. revert a n. induction l; intros; cbn [concat_erase_loop]; apply _. Qed.
#[local] Instance concat_isbad_same l a : Keeps ram_same (concat_isbad_loop l a).
Proof. revert a. induction l; intros; cbn [concat_isbad_loop]; apply _. Qed.
#[local] Instance erase_loop_c_same k c a n r : Keeps ram_same (mtd_erase_loop_c k c a n r).
Proof.
  revert a n r. induction k; intros; cbn [mtd_erase_loop_c]; [apply _|].
  unfold mtd_block_isbad_c, concat_block_isbad, mtd_erase_c, concat_erase.
  destruct (concat_find (cc_subdev c) a) as [[? ?]|]; apply _.
Qed.
#[local] Instance run_erase_same p a n : Keeps ram_same (run_command (MtdErase p a n)).
Proof. unfold run_command. cbn [command_code]. unfold do_mtd_erase. apply _. Qed.
#[local] Instance erase_cmd_same p a n : Keeps fst_same (concat_erase_cmd p a n).
Proof.
  unfold concat_erase_cmd. apply sbind_keeps; [apply _..|]. intros m. apply sbind_keeps; [apply _..|]. intros cc.
  destruct m, cc; unfold do_mtd_erase_c; apply _.
Qed.

Lemma io_low m rd : forall k off rem buf, (rd = true -> URSUS_READBACK_ADDR <= buf) ->
  Keeps low_ram (mtd_io_loop k m rd off rem buf).
Proof.
  induction k as [|k IH]; intros off rem buf Hb; cbn [mtd_io_loop]; [apply _|].
  apply if_keeps; [apply _|]. apply sbind_keeps; [apply _..|]. intros bad. pose proof (fun o => IH o rem buf Hb).
  apply if_keeps; [apply _|]. destruct rd.
  - apply sbind_keeps; [apply _..|]. intros [ret data]. specialize (Hb eq_refl).
    apply sbind_keeps; [apply _..| |intros _].
    + intros h x Hx. destruct h. apply mwrite_outside. lia.
    + apply if_keeps; [apply _|]. apply IH. intros _. pose proof (blen_nonneg data). lia.
  - apply sbind_keeps; [apply _..|]. intros page. apply sbind_keeps; [apply _..|]. intros [ret n].
    apply if_keeps; [apply _|]. by apply IH.
Qed.
Lemma do_io_low rd p addr off len : (rd = true -> addr = URSUS_READBACK_ADDR) -> Keeps low_ram (do_mtd_io rd p addr off len).
Proof.
  intros Ha. unfold do_mtd_io. apply sbind_keeps; [apply _..|]. intros [m|]; [|apply _]. cbv zeta.
  assert (Hb : rd = true -> URSUS_READBACK_ADDR <= u32 addr) by (intros Hr; by rewrite (Ha Hr)).
  pose proof (fun k o r => io_low m rd k o r (u32 addr) Hb). apply _.
Qed.

(** UBI reads a volume into the readback buffer only. *)
Definition ubi_low : Prop := forall cmd, Keeps low_ram (concat_ubi cmd).
Definition readback_step (s : fstep) : Prop :=
  match s with Run (MtdRead _ a _ _) => a = URSUS_READBACK_ADDR | _ => True end.
Lemma fac_step_low s : ubi_low -> readback_step s -> Keeps flow (fac_step s).
Proof.
  intros Hu Hs. unfold fac_step. apply sbind_keeps; [apply _..| |apply _].
  destruct s as [cmd|off len]; [|unfold ursus_compare_stage_readback; apply _].
  pose proof (Hu cmd). destruct cmd as [| | | | | | | | |p a off len|p a off len|]; cbn [factory_run readback_step] in *;
    try apply _; unfold run_command; cbn [command_code].
  - pose proof (do_io_low true p a off len (fun _ => Hs)). apply _.
  - pose proof (do_io_low false p a off len ltac:(done)). apply _.
Qed.
#[local] Instance fac_try_low m k : Keeps flow m -> Keeps flow k -> Keeps flow (fac_try m k).
Proof. unfold fac_try. apply _. Qed.
Lemma install_low img layout : ubi_low -> Keeps flow (ursus_factory_install img layout).
Proof.
  intros Hu. assert (Hs : forall s, readback_step s -> Keeps flow (fac_step s)) by (intros s; by apply fac_step_low).
  assert (Hcap : forall n, Keeps flow (ursus_factory_kernel_capacity_ok n)).
  { intros n. unfold ursus_factory_kernel_capacity_ok. apply _. }
  unfold ursus_factory_install, factory_write_root, factory_write_kernel, run_recorded.
  apply if_keeps; [apply _|]. apply fac_try_low; [apply _|]. apply fac_try_low; [apply Hcap|].
  apply sbind_keeps; [apply _..|by apply Hs|intros _]. do 10 (apply fac_try_low; [by apply Hs|]). by apply Hs.
Qed.

(** The kernel lies in the staging memory when the guards passed. *)
Lemma guard_staged img layout :
  factory_guard img layout = 0 -> 0 <= im_kernel_off img -> 0 <= im_kernel_size img -> im_len img <= URSUS_STAGE_MAX ->
  im_kernel_off img < 2 ^ 63 ->
  0 < im_kernel_size img /\ URSUS_STAGE_ADDR + im_kernel_off img + im_kernel_size img <= URSUS_READBACK_ADDR.
Proof.
  unfold factory_guard, URSUS_STAGE_MAX, URSUS_STAGE_ADDR, URSUS_READBACK_ADDR, URSUS_STOCK_LAYOUT_KERNEL_SIZE.
  destruct (_ || _ || _); [done|]. destruct (negb _); [done|]. destruct (_ || _) eqn:E; [done|].
  intros _ Ho Hs Hl Hb. rewrite !orb_false_iff in E. destruct E as [[[[E1 E2] E3] E4] E5].
  rewrite u64_small in E4 by lia. lia.
Qed.

End done.

(** An image with a kernel in the staging memory, installed. *)
Definition kernel_hw : hw :=
  set_ram (mwrite (h_ram bench_hw) (URSUS_STAGE_ADDR + 0x200) (bytes_of "a kernel")) bench_hw.
Lemma kernel_install_ok : fst (ursus_factory_install bench_stock_image "STOCK" (kernel_hw, fac_init)) = 0.
Proof. vm_cast_no_check (eq_refl 0). Qed.
