(* ===== verification/WebInv.v ===== *)
(** The invariant of the upload state: sessions and chunks stay in the memory of
    their kind, uploads that share memory exclude each other, and an image that
    counts as validated is, byte for byte, the one that was validated. *)
From S2P Require Import Prelude Bytes Fip Flash Ubi Shell Bl2 ReadOnly Jobs FipUpdate UbiEngine Migration FitUpdate Mmio Led Fit WebHeaders WebImage WebAccept WebDevice WebState WebUpload WebStatus WebRoute WebServer WebKeep.

(** * Memory of a kind *)

Definition in_window (k : upload_kind) (x : Z) : Prop := kind_addr k <= x < kind_addr k + kind_max k.
Definition same_window (k k' : upload_kind) : Prop := kind_addr k = kind_addr k'.

Lemma windows_apart k k' x : in_window k x -> in_window k' x -> same_window k k'.
Proof.
  unfold in_window, same_window, kind_addr, kind_max, URSUS_STAGE_ADDR, URSUS_STAGE_MAX, URSUS_UBI_PRELOADER_ADDR,
    URSUS_UBI_PRELOADER_MAX, URSUS_FIP_STAGE_ADDR, URSUS_FIP_STAGE_MAX. destruct k, k'; simpl; lia.
Qed.

Section inv.
Context {P : Platform} {X : Ext} {B : Board} {T : FitLib} {N : Tcp} {E : WebEnv} {C : ConcatUbi}.
Variable memalign_addr : Z.

Definition wf_session (k : upload_kind) (u : session) : Prop :=
  u = sess_zero \/
  (s_addr u = kind_addr k /\ s_max_len u = kind_max k /\ 0 <= s_received u <= kind_max k /\ 0 < s_total u <= kind_max k).

(** The chunk a connection is receiving lies in the memory of its kind. *)
Definition chunk_ok (c : conn) : Prop :=
  let k := c_upload_kind c in
  k <> URSUS_UPLOAD_NONE /\ c_upload_addr c = kind_addr k /\ 0 <= c_upload_offset c /\
  0 <= c_upload_received c <= c_content_len c /\ c_upload_offset c + c_content_len c <= kind_max k.
Definition wf_conn (c : conn) : Prop :=
  (c_headers_done c = false -> c_is_upload c = false) /\
  (c_is_upload c = false -> c_upload_received c = 0) /\
  (c_is_upload c = true -> chunk_ok c).

(** * Verdicts *)

Definition fip_checked (kind : ursus_fip_kind) (ram : Z -> Z) (u : session) : Prop :=
  exists ok lim, ursus_fip_validate_kind ok (s_addr u) (mread ram (s_addr u) (s_total u)) lim kind = 0.
Definition preloader_checked (ram : Z -> Z) (u : session) : Prop :=
  sha256 (mread ram (s_addr u) (s_total u)) = preloader_sha256.
Definition img_at (i : image_state) : Prop := im_addr i = URSUS_STAGE_ADDR /\ 0 <= im_len i <= URSUS_STAGE_MAX.
Definition img_checked (ram : Z -> Z) (i : image_state) : Prop :=
  img_at i /\ (im_reason_class i = URSUS_RC_OK -> exists l, accepted (mread ram (im_addr i) (im_len i)) l i).
Definition exp_checked (ram : Z -> Z) (i : image_state) : Prop :=
  img_at i /\ exists l, expert_ok (mread ram (im_addr i) (im_len i)) l i.

Record stg_inv (ram : Z -> Z) (g : staging) : Prop := {
  si_sess : forall k u, ursus_upload_session k g = Some u -> wf_session k u;
  si_excl : ~ (s_active (g_fw g) = true /\ s_active (g_init g) = true) /\
            ~ (s_active (g_fip g) = true /\ s_active (g_van g) = true);
  si_fip : g_fip_ok g = true ->
    s_active (g_fip g) = false /\ s_active (g_van g) = false /\ fip_checked URSUS_FIP_KIND_URSUS ram (g_fip g);
  si_van : g_van_ok g = true ->
    s_active (g_fip g) = false /\ s_active (g_van g) = false /\ fip_checked URSUS_FIP_KIND_VANILLA ram (g_van g);
  si_pre : g_pre_ok g = true -> s_active (g_pre g) = false /\ preloader_checked ram (g_pre g);
  si_img : im_type (g_img g) <> URSUS_IMG_NONE ->
    s_active (g_fw g) = false /\ s_active (g_init g) = false /\ img_checked ram (g_img g);
  si_exp : im_bootable_fit (g_exp g) = true ->
    s_active (g_fw g) = false /\ s_active (g_init g) = false /\ exp_checked ram (g_exp g);
}.

(** What uploads never write: neither staging memory nor the BL2 candidate. *)
Definition outside (x : Z) : Prop :=
  (forall k, ~ in_window k x) /\ ~ (memalign_addr <= x < memalign_addr + URSUS_UBI_BL2_SIZE).
(** A property of the rest of the memory, to be kept along. *)
Variable F : (Z -> Z) -> Prop.
Definition frame_stable : Prop := forall ram ram', (forall x, outside x -> ram' x = ram x) -> F ram -> F ram'.

Record web_inv (s : web_t) : Prop := {
  wi_mem : F (h_ram (fst s));
  wi_stg : stg_inv (h_ram (fst s)) (w_stg (snd s));
  wi_conns : map_Forall (fun _ c => wf_conn c) (w_conns (snd s));
  wi_bl2 : bl2_buf (us_bl2 (w_ubi (snd s))) = None \/ bl2_buf (us_bl2 (w_ubi (snd s))) = Some memalign_addr;
}.

Lemma quiet_inv s s' : quiet s s' -> web_inv s -> web_inv s'.
Proof. intros [H1 H2 H3 H4] [I0 I1 I2 I3]. split; rewrite ?H1, ?H2, ?H3, ?H4; done. Qed.

(** ** The parts of the memory the verdicts depend on *)

Lemma mread_window ram ram' k a n :
  (forall x, in_window k x -> ram' x = ram x) -> kind_addr k <= a -> a + n <= kind_addr k + kind_max k ->
  mread ram' a n = mread ram a n.
Proof. intros H Ha Hn. apply mread_ext. intros x Hx. apply H. unfold in_window. lia. Qed.

Lemma mread_session ram ram' k u :
  wf_session k u -> (forall x, in_window k x -> ram' x = ram x) ->
  mread ram' (s_addr u) (s_total u) = mread ram (s_addr u) (s_total u).
Proof.
  intros [-> | (Ha & _ & _ & Ht)] H; [done|]. apply (mread_window _ _ k); [done|lia|lia].
Qed.
Lemma mread_img ram ram' i :
  img_at i -> (forall x, in_window URSUS_UPLOAD_FIRMWARE x -> ram' x = ram x) ->
  mread ram' (im_addr i) (im_len i) = mread ram (im_addr i) (im_len i).
Proof.
  intros [Ha Hl] H. apply (mread_window _ _ URSUS_UPLOAD_FIRMWARE); [done|rewrite Ha; done|].
  rewrite Ha. change (kind_addr URSUS_UPLOAD_FIRMWARE) with URSUS_STAGE_ADDR.
  change (kind_max URSUS_UPLOAD_FIRMWARE) with URSUS_STAGE_MAX. lia.
Qed.

(** A change of memory outside the windows of validated images. *)
Lemma stg_inv_ram ram ram' g :
  (forall x, in_window URSUS_UPLOAD_FIRMWARE x -> ram' x <> ram x ->
     im_type (g_img g) = URSUS_IMG_NONE /\ im_bootable_fit (g_exp g) = false) ->
  (forall x, in_window URSUS_UPLOAD_UBI_PRELOADER x -> ram' x <> ram x -> g_pre_ok g = false) ->
  (forall x, in_window URSUS_UPLOAD_URSUS_FIP x -> ram' x <> ram x -> g_fip_ok g = false /\ g_van_ok g = false) ->
  stg_inv ram g -> stg_inv ram' g.
Proof.
  intros Hf Hp Hu [I1 I2 I3 I4 I5 I6 I7].
  assert (Huf : g_fip_ok g = true \/ g_van_ok g = true -> forall x, in_window URSUS_UPLOAD_URSUS_FIP x -> ram' x = ram x).
  { intros Hok x Hx. destruct (Z.eq_dec (ram' x) (ram x)) as [|Hne]; [done|]. destruct (Hu x Hx Hne). by destruct Hok; congruence. }
  assert (Hff : im_type (g_img g) <> URSUS_IMG_NONE \/ im_bootable_fit (g_exp g) = true ->
    forall x, in_window URSUS_UPLOAD_FIRMWARE x -> ram' x = ram x).
  { intros Hok x Hx. destruct (Z.eq_dec (ram' x) (ram x)) as [|Hne]; [done|]. destruct (Hf x Hx Hne). by destruct Hok; congruence. }
  split; [done|done|..].
  - intros H. destruct (I3 H) as (H1 & H2 & ok & lim & H3). split_and!; [done|done|]. exists ok, lim.
    rewrite (mread_session ram ram' URSUS_UPLOAD_URSUS_FIP); [done|by apply I1|auto].
  - intros H. destruct (I4 H) as (H1 & H2 & ok & lim & H3). split_and!; [done|done|]. exists ok, lim.
    rewrite (mread_session ram ram' URSUS_UPLOAD_VANILLA_FIP); [done|by apply I1|].
    change (in_window URSUS_UPLOAD_VANILLA_FIP) with (in_window URSUS_UPLOAD_URSUS_FIP). auto.
  - intros H. destruct (I5 H) as (H1 & H2). split; [done|]. unfold preloader_checked.
    rewrite (mread_session ram ram' URSUS_UPLOAD_UBI_PRELOADER); [done|by apply I1|].
    intros x Hx. destruct (Z.eq_dec (ram' x) (ram x)) as [|Hne]; [done|]. specialize (Hp x Hx Hne). congruence.
  - intros H. destruct (I6 H) as (H1 & H2 & H3 & H4). split_and!; [done|done|]. split; [done|]. intros Hr.
    rewrite (mread_img ram ram'); [by apply H4|done|auto].
  - intros H. destruct (I7 H) as (H1 & H2 & H3 & l & H4). split_and!; [done|done|]. split; [done|]. exists l.
    rewrite (mread_img ram ram'); [done|done|auto].
Qed.

(** Receiving a chunk of an active upload. *)
Lemma stg_inv_write ram g k u a l :
  stg_inv ram g -> ursus_upload_session k g = Some u -> s_active u = true ->
  kind_addr k <= a -> a + blen l <= kind_addr k + kind_max k ->
  stg_inv (mwrite ram a l) g.
Proof.
  intros I Hu Hact Ha Hl.
  assert (Hin : forall x, mwrite ram a l x <> ram x -> in_window k x).
  { intros x Hx. destruct (decide (x < a \/ a + blen l <= x)) as [Ho|Ho].
    - by rewrite mwrite_outside in Hx.
    - unfold in_window. lia. }
  assert (Hact' : forall b : bool, (b = true -> s_active u = false) -> b = false).
  { intros [|] Hb; [|done]. rewrite Hb in Hact; done. }
  assert (Htype : (im_type (g_img g) <> URSUS_IMG_NONE -> s_active u = false) -> im_type (g_img g) = URSUS_IMG_NONE).
  { intros Hb. destruct (decide (im_type (g_img g) = URSUS_IMG_NONE)) as [|Hn]; [done|]. rewrite Hb in Hact; done. }
  apply (stg_inv_ram ram); [..|done]; intros x Hx Hne; pose proof (windows_apart _ _ _ (Hin x Hne) Hx) as Hw;
    destruct k; try done; injection Hu as <-.
  - split; [apply Htype; intros H; by destruct (si_img _ _ I H)|apply Hact'; intros H; by destruct (si_exp _ _ I H)].
  - split; [apply Htype; intros H; by destruct (si_img _ _ I H) as (? & ? & _)
           |apply Hact'; intros H; by destruct (si_exp _ _ I H) as (? & ? & _)].
  - apply Hact'. intros H. by destruct (si_pre _ _ I H).
  - split; apply Hact'; intros H; [by destruct (si_fip _ _ I H)|by destruct (si_van _ _ I H)].
  - split; apply Hact'; intros H; [by destruct (si_fip _ _ I H) as (? & ? & _)|by destruct (si_van _ _ I H) as (? & ? & _)].
Qed.
End inv.
