(* ===== verification/WebReply.v ===== *)
(** Every callback keeps the upload invariant.  A request's reply never touches
    the chunk a connection receives ([Replies], resolved on the structure of the
    handlers); only opening, discarding, a chunk's bytes and the check of a
    complete image change the staging state. *)
From S2P Require Import Prelude Bytes Fip Flash Ubi Shell Bl2 ReadOnly Jobs FipUpdate UbiEngine Migration FitUpdate Mmio Led Fit WebHeaders WebImage WebAccept WebDevice WebState WebUpload WebStatus WebRoute WebServer WebKeep WebInv.

(** * Replies *)

(** The fields of a connection that describe its chunk. *)
Definition up_part (c : conn) :=
  (c_headers_done c, c_is_upload c, c_upload_kind c, c_upload_addr c, c_upload_offset c, c_content_len c, c_upload_received c).
Class UpSame (c c' : conn) : Prop := up_same : up_part c' = up_part c.
Class Replies (c : conn) (m : ST web_t (Z * conn)) : Prop := replies s : UpSame c (snd (fst (m s))).

#[export] Instance up_refl c : UpSame c c | 0.
Proof. done. Qed.
Lemma up_trans c1 c2 c3 : UpSame c1 c2 -> UpSame c2 c3 -> UpSame c1 c3.
Proof. unfold UpSame. congruence. Qed.
#[export] Instance up_body v c c' : UpSame c c' -> UpSame c (set_c_body v c').
Proof. by destruct c'. Qed.
#[export] Instance up_body_len v c c' : UpSame c c' -> UpSame c (set_c_body_len v c').
Proof. by destruct c'. Qed.
#[export] Instance up_hdr v c c' : UpSame c c' -> UpSame c (set_c_hdr v c').
Proof. by destruct c'. Qed.
#[export] Instance up_total_len v c c' : UpSame c c' -> UpSame c (set_c_total_len v c').
Proof. by destruct c'. Qed.
#[export] Instance up_started v c c' : UpSame c c' -> UpSame c (set_c_response_started v c').
Proof. by destruct c'. Qed.
#[export] Instance up_sent v c c' : UpSame c c' -> UpSame c (set_c_sent v c').
Proof. by destruct c'. Qed.
#[export] Instance up_hdr_off v c c' : UpSame c c' -> UpSame c (set_c_hdr_off v c').
Proof. by destruct c'. Qed.
#[export] Instance up_body_off v c c' : UpSame c c' -> UpSame c (set_c_body_off v c').
Proof. by destruct c'. Qed.
#[export] Instance up_queued v c c' : UpSame c c' -> UpSame c (set_c_all_queued v c').
Proof. by destruct c'. Qed.
#[export] Instance up_eof v c c' : UpSame c c' -> UpSame c (set_c_remote_eof v c').
Proof. by destruct c'. Qed.
#[export] Instance up_acked v c c' : UpSame c c' -> UpSame c (set_c_acked v c').
Proof. by destruct c'. Qed.
#[export] Instance up_stop v c c' : UpSame c c' -> UpSame c (set_c_stop_after_response v c').
Proof. by destruct c'. Qed.
#[export] Instance up_reboot v c c' : UpSame c c' -> UpSame c (set_c_reboot_after_response v c').
Proof. by destruct c'. Qed.
#[export] Instance up_if (b : bool) c c1 c2 : UpSame c c1 -> UpSame c c2 -> UpSame c (if b then c1 else c2).
Proof. by destruct b. Qed.

#[export] Instance ret_replies c e c' : UpSame c c' -> Replies c (sret (e, c')).
Proof. intros H s. done. Qed.
#[export] Instance bind_replies {A} c (m : ST web_t A) k : (forall a, Replies c (k a)) -> Replies c (sbind m k) | 5.
Proof. intros H s. apply H. Qed.
#[export] Instance if_replies (b : bool) c m n : Replies c m -> Replies c n -> Replies c (if b then m else n).
Proof. by destruct b. Qed.
#[export] Instance option_replies {A} (o : option A) c m n :
  (forall a, Replies c (m a)) -> Replies c n -> Replies c (match o with Some a => m a | None => n end).
Proof. by destruct o. Qed.

Section replies.
Context {P : Platform} {X : Ext} {B : Board} {T : FitLib} {N : Tcp} {E : WebEnv} {C : ConcatUbi}.

Lemma pump_loop_up fuel c w s : UpSame c (snd (snd (fst (pump_loop fuel c w s)))).
Proof.
  revert c w s. induction fuel as [|k IH]; intros c w s; [done|]. simpl.
  destruct (_ || _); [|done]. unfold sbind at 1. destruct (_ <=? 0); [done|].
  unfold sbind at 1. unfold sbind at 1. destruct (_ =? ERR_MEM); [done|]. destruct (negb _); [done|].
  eapply up_trans; [|apply IH]. apply _.
Qed.
#[export] Instance pump_replies c c' : UpSame c c' -> Replies c (ursus_http_pump c').
Proof.
  intros Hc s. unfold ursus_http_pump. unfold sbind at 1.
  pose proof (up_trans _ _ _ Hc (pump_loop_up (Z.to_nat (unsent c')) c' false s)) as H.
  destruct (pump_loop _ c' false s) as [[err [wrote c1]] s1]. cbn [fst snd] in *.
  revert s1. apply if_replies; [apply _|]. apply bind_replies. intros e. apply if_replies; [apply _|].
  apply if_replies; [|apply _]. apply bind_replies. intros p. apply bind_replies. intros []. apply _.
Qed.
#[export] Instance response_replies c c' s t b : UpSame c c' -> Replies c (ursus_http_start_response c' s t b).
Proof. intros Hc. unfold ursus_http_start_response. apply bind_replies. intros w. cbv zeta. apply if_replies; apply _. Qed.
#[export] Instance lit_replies c c' s t : UpSame c c' -> Replies c (reply_lit c' s t).
Proof. intros Hc. unfold reply_lit. apply _. Qed.
#[export] Instance locked_replies c c' t : UpSame c c' -> Replies c (locked c' t).
Proof. intros Hc. unfold locked. apply _. Qed.
#[export] Instance reject_replies c c' s k r e g : UpSame c c' -> Replies c (ursus_upload_reject c' s k r e g).
Proof. intros Hc. unfold ursus_upload_reject. do 2 (apply bind_replies; intros _). apply _. Qed.

#[export] Instance console_replies c : Replies c (route_console c).
Proof. unfold route_console. destruct (match ursus_parse_header_value _ _ _ with Some _ => _ | None => _ end); apply _. Qed.
#[export] Instance discard_replies c k : Replies c (route_discard c k).
Proof. unfold route_discard. apply _. Qed.
#[export] Instance boot_once_replies c : Replies c (route_boot_once c).
Proof. unfold route_boot_once. apply _. Qed.
#[export] Instance install_stock_replies c : Replies c (route_install_stock c).
Proof. unfold route_install_stock. apply _. Qed.
#[export] Instance install_ubi_replies c : Replies c (route_install_ubi c).
Proof. unfold route_install_ubi, install_ubi_update, install_ubi_migration. apply _. Qed.
#[export] Instance reset_settings_replies c : Replies c (route_reset_settings c).
Proof. unfold route_reset_settings. apply _. Qed.
#[export] Instance update_ursusboot_replies c : Replies c (route_update_ursusboot c).
Proof. unfold route_update_ursusboot. apply _. Qed.
#[export] Instance replace_vanilla_replies c : Replies c (route_replace_vanilla c).
Proof. unfold route_replace_vanilla. apply _. Qed.
#[export] Instance reboot_replies c : Replies c (route_reboot c).
Proof. unfold route_reboot. apply _. Qed.
#[export] Instance not_found_replies c : Replies c (route_not_found c).
Proof. unfold route_not_found. apply _. Qed.
#[export] Instance begin_replies c k : Replies c (ursus_begin_upload c k).
Proof.
  unfold ursus_begin_upload. cbv zeta. destruct (ursus_parse_header_ulong _ _) as [[|n|n]|]; [apply _| |  |apply _];
    (apply if_replies; [apply _|];
     destruct (ursus_parse_header_value _ "X-Ursus-Generation" _); [|apply _]; apply if_replies; [apply _|];
     destruct (ursus_parse_header_value _ "X-Ursus-Filename" _); [|apply _];
     destruct (ursus_decode_filename _ _); [|apply _]; do 4 (apply bind_replies; intros _); apply _).
Qed.
End replies.
