(* ===== verification/WebInvThms.v ===== *)
(** Every callback keeps the upload invariant: opening and discarding a session,
    the headers of a chunk, its bytes in any pieces, the check of a complete
    image, replies, and the release of a connection. *)
From S2P Require Import Prelude Bytes Fip Flash Ubi Shell UbiIo Bl2 ReadOnly Jobs FipUpdate UbiEngine Migration FitUpdate Mmio Led Fit WebHeaders WebImage WebAccept WebDevice WebState WebUpload WebStatus WebRoute WebServer WebKeep WebInv WebReply.

(** * Connections *)

Definition idle (c : conn) : Prop := c_is_upload c = false /\ c_upload_received c = 0.

Lemma wf_idle c : idle c -> wf_conn c.
Proof. intros [H1 H2]. split_and!; [done|done|]. by rewrite H1. Qed.
Lemma up_idle c c' : UpSame c c' -> idle c -> idle c'.
Proof. unfold UpSame, up_part, idle. intros [= _ -> _ _ _ _ ->]. done. Qed.
Lemma up_wf c c' : UpSame c c' -> wf_conn c -> wf_conn c'.
Proof.
  unfold UpSame, up_part, wf_conn, chunk_ok. intros [= E1 E2 E3 E4 E5 E6 E7]. by rewrite E1, E2, E3, E4, E5, E6, E7.
Qed.
Lemma wp_replies c m s (Q : Z * conn -> web_t -> Prop) `{!Replies c m} :
  (forall r s', UpSame c (snd r) -> Q r s') -> wp m Q s.
Proof. intros HQ. apply wp_intro. intros r s' E0. apply HQ. pose proof (replies (c := c) (m := m) s) as H. by rewrite E0 in H. Qed.

Lemma strtoul_loop_nonneg base l v : 0 <= v -> 0 <= fst (strtoul_loop base v l).
Proof.
  revert v. induction l as [|a l IH]; intros v Hv; simpl; [done|].
  destruct (decode_digit a <? base); [|done]. apply IH. apply u64_range.
Qed.
Lemma header_ulong_nonneg h name v : ursus_parse_header_ulong h name = Some v -> 0 <= v.
Proof.
  unfold ursus_parse_header_ulong, simple_strtoul. destruct (ursus_parse_header_value h name 32) as [tmp|]; [|done].
  destruct (fixup_radix tmp 10) as [b l].
  pose proof (strtoul_loop_nonneg b l 0 ltac:(lia)) as H. destruct (strtoul_loop b 0 l) as [v' r].
  destruct (_ || _); [done|]. by intros [= ->].
Qed.

Section keep.
Context {P : Platform} {X : Ext} {B : Board} {T : FitLib} {N : Tcp} {E : WebEnv} {C : ConcatUbi} {L : LedBoard}.
Variable memalign_addr : Z.
Variable F : (Z -> Z) -> Prop.
Hypothesis F_stable : frame_stable memalign_addr F.
Abbreviation inv := (web_inv memalign_addr F).

Lemma wp_quiet_inv {A} (m : ST web_t A) s (Q : A -> web_t -> Prop) :
  Keeps quiet m -> inv s -> (forall a s', inv s' -> Q a s') -> wp m Q s.
Proof.
  intros Hm Hi HQ. apply (wp_keeps quiet m). intros a s' Hq. apply HQ. exact (quiet_inv _ _ _ _ Hq Hi).
Qed.
Lemma wp_reply_inv c m s (Q : Z * conn -> web_t -> Prop) :
  Keeps quiet m -> Replies c m -> inv s -> (forall r s', UpSame c (snd r) -> inv s' -> Q r s') -> wp m Q s.
Proof.
  intros Hm Hr Hi HQ. eapply wp_mono; [apply wp_and|].
  - apply (wp_replies c m s (fun r _ => UpSame c (snd r))). auto.
  - by apply (wp_quiet_inv m s (fun _ s' => inv s')).
  - cbn beta. intros r s' [H1 H2]. auto.
Qed.

(** * A change of the staging state *)

Lemma inv_stg h w g : inv (h, w) -> stg_inv (h_ram h) g -> inv (h, set_w_stg g w).
Proof. intros [I0 I1 I2 I3] Hg. by split; cbn [fst snd]; destruct w. Qed.
Lemma wp_onstg f h w (Q : unit -> web_t -> Prop) : Q tt (h, set_w_stg (f (w_stg w)) w) -> wp (onstg f) Q (h, w).
Proof. intros H. unfold onstg. by wps. Qed.

(** ** Opening *)

Definition opened (k : upload_kind) (g : staging) : staging :=
  match k with
  | URSUS_UPLOAD_FIRMWARE => set_g_init sess_zero (set_g_exp ursus_reset_expert_state (set_g_img ursus_reset_image_state g))
  | URSUS_UPLOAD_INITRAMFS => set_g_fw sess_zero (set_g_img ursus_reset_image_state (set_g_exp ursus_reset_expert_state g))
  | URSUS_UPLOAD_UBI_PRELOADER => set_g_pre_ok false g
  | URSUS_UPLOAD_VANILLA_FIP => set_g_fip sess_zero (set_g_van_ok false (set_g_fip_ok false g))
  | _ => set_g_van sess_zero (set_g_van_ok false (set_g_fip_ok false g))
  end.
Lemma wf_zero k : wf_session k sess_zero.
Proof. by left. Qed.
Lemma stg_inv_open ram g k u :
  stg_inv ram g -> wf_session k u -> k <> URSUS_UPLOAD_NONE -> stg_inv ram (opened k (set_session k u g)).
Proof.
  intros [I1 I2 I3 I4 I5 I6 I7] Hu Hk.
  assert (forall k' v, k' <> k -> ursus_upload_session k' g = Some v -> wf_session k' v) as I1' by auto.
  destruct g as [fw ini pre fip van pok fok vok img ex]. pose proof wf_zero as Hz.
  destruct k; [done|..]; (split; cbn in *; [|try tauto..]);
    try (intros [] v; cbn; intros [= <-]; auto; by apply (I1 _ _ eq_refl)); try done.
  all: split; first [tauto | by intros [_ [=]] | by intros [[=] _]].
Qed.
Lemma drop_shared_spec k h w (Q : unit -> web_t -> Prop) :
  (forall w', quiet (h, set_w_stg (opened k (w_stg w)) w) (h, w') -> Q tt (h, w')) -> wp (drop_shared k) Q (h, w).
Proof.
  intros HQ. destruct k; cbn [drop_shared]; wps; apply wp_onstg; try (by apply HQ); cbn [opened] in HQ.
  unfold ursus_log_reset. wps. apply HQ. by destruct w.
Qed.

Lemma reject_inv c st s cls r e g (Q : Z * conn -> web_t -> Prop) :
  inv s -> (forall rr s', UpSame c (snd rr) -> inv s' -> Q rr s') -> wp (ursus_upload_reject c st cls r e g) Q s.
Proof. intros Hi HQ. apply (wp_reply_inv c); [apply _|apply _|done|done]. Qed.

(** The accepted branch of a begin request. *)
Lemma open_inv {A} k u (m : ST web_t A) s (Q : A -> web_t -> Prop) :
  inv s -> wf_session k u -> k <> URSUS_UPLOAD_NONE -> (forall s', inv s' -> wp m Q s') ->
  wp (onstg (set_session k u) ;;; drop_shared k ;;; m) Q s.
Proof.
  intros Hi Hu Hk Hm. destruct s as [h w]. wps. apply wp_onstg. wps. apply drop_shared_spec. intros w' Hq.
  apply Hm. apply (quiet_inv _ _ _ _ Hq). destruct Hi as [I0 I1 I2 I3].
  assert (stg_inv (h_ram h) (opened k (set_session k u (w_stg w)))) by (by apply stg_inv_open).
  destruct w. by split.
Qed.
Lemma begin_upload_inv c k s : inv s -> k <> URSUS_UPLOAD_NONE -> wp (ursus_begin_upload c k) (fun _ s' => inv s') s.
Proof.
  intros Hi Hk. unfold ursus_begin_upload. cbv zeta.
  assert (Hrej : forall st cls r e g, wp (ursus_upload_reject c st cls r e g) (fun _ s' => inv s') s)
    by (intros; by apply reject_inv).
  destruct (ursus_parse_header_ulong (cstr (c_reqhdr c)) "X-Ursus-Total") as [total|] eqn:Ht; [|apply Hrej].
  pose proof (header_ulong_nonneg _ _ _ Ht) as H0.
  destruct total as [|p|p]; [apply Hrej| |lia].
  destruct (Z.ltb_spec (kind_max k) (Z.pos p)) as [|Hmax]; [apply Hrej|].
  destruct (ursus_parse_header_value _ "X-Ursus-Generation" _) as [gen|]; [|apply Hrej].
  destruct (negb _); [apply Hrej|].
  destruct (ursus_parse_header_value _ "X-Ursus-Filename" _) as [enc|]; [|apply Hrej].
  destruct (ursus_decode_filename _ _) as [name|]; [|apply Hrej].
  apply open_inv; [done| |done|].
  - right. cbn. split_and!; [done|done|lia|lia|lia|done].
  - intros s' Hi'. apply wp_bind, wp_quiet_inv; [apply _|done|]. intros _ s1 H1. apply wp_bind, wp_quiet_inv; [apply _|done|].
    intros _ s2 H2. apply wp_quiet_inv; [apply _|done|auto].
Qed.

(** ** Discarding *)

Definition discarded (k : upload_kind) (g : staging) : staging :=
  match k with
  | URSUS_UPLOAD_FIRMWARE => set_g_img ursus_reset_image_state g
  | URSUS_UPLOAD_INITRAMFS => set_g_exp ursus_reset_expert_state g
  | URSUS_UPLOAD_UBI_PRELOADER => set_g_pre_ok false g
  | URSUS_UPLOAD_VANILLA_FIP => set_g_van_ok false g
  | _ => set_g_fip_ok false g
  end.
Lemma stg_inv_discard ram g k : stg_inv ram g -> stg_inv ram (discarded k (set_session k sess_zero g)).
Proof.
  intros [I1 I2 I3 I4 I5 I6 I7]. destruct g as [fw ini pre fip van pok fok vok img ex]. pose proof wf_zero as Hz.
  destruct k; (split; cbn in *; [|try tauto..]);
    try (intros [] v; cbn; intros [= <-]; auto; by apply (I1 _ _ eq_refl)); try done.
  all: split; first [tauto | by intros [_ [=]] | by intros [[=] _]].
Qed.
#[export] Instance log_discard_quiet k : Keeps quiet (log_discard k).
Proof.
  unfold log_discard. apply sbind_keeps; [apply _..|]. intros w. destruct (ursus_upload_session k (w_stg w)); apply _.
Qed.
Lemma discard_inv c k s : inv s -> wp (route_discard c k) (fun _ s' => inv s') s.
Proof.
  intros Hi. unfold route_discard. apply wp_bind, wp_quiet_inv; [apply _|done|]. intros _ [h w] Hi1.
  wps. apply wp_onstg. wps.
  assert (Hd : inv (h, set_w_stg (discarded k (set_session k sess_zero (w_stg w))) w)).
  { apply inv_stg; [done|]. apply stg_inv_discard. apply Hi1. }
  destruct k; wps; apply wp_onstg; (apply wp_quiet_inv; [apply _| |by auto]); destruct w; exact Hd.
Qed.

(** ** The headers of a chunk *)

Lemma idle_len v c : idle c -> idle (set_c_content_len v c).
Proof. by destruct c. Qed.
Lemma prepare_chunk_wf c k s :
  inv s -> idle c -> c_headers_done c = true -> k <> URSUS_UPLOAD_NONE ->
  wp (ursus_prepare_chunk c k) (fun r s' => wf_conn (snd r) /\ inv s') s.
Proof.
  intros Hi Hidle Hdone Hk. unfold ursus_prepare_chunk. destruct s as [h w]. wps. cbv zeta.
  set (c1 := set_c_content_len _ c).
  assert (Hrej : forall st cls r e g, wp (ursus_upload_reject c1 st cls r e g) (fun rr s' => wf_conn (snd rr) /\ inv s') (h, w)).
  { intros. apply reject_inv; [done|]. intros rr s' Hup Hs'. split; [|done].
    apply wf_idle. eapply up_idle; [done|]. by apply idle_len. }
  set (hd := cstr (c_reqhdr c)) in *. unfold id.
  destruct (_ || _) eqn:Hlen; [apply Hrej|]. apply orb_false_elim in Hlen as [Hl0 Hlmax].
  destruct (ursus_parse_header_ulong hd "X-Ursus-Offset") as [off|] eqn:Hoff; [|apply Hrej].
  destruct (ursus_parse_header_ulong hd "X-Ursus-Total") as [total|] eqn:Htot; [|apply Hrej].
  destruct (ursus_parse_header_value hd "X-Ursus-Generation" URSUS_GENERATION_MAX) as [gen|]; [|apply Hrej].
  destruct (ursus_upload_session k (w_stg w)) as [u|] eqn:Hu; [|apply Hrej]. cbn [default].
  destruct (s_active u) eqn:Hact; cbn [negb]; [|apply Hrej].
  destruct (negb (memeq _ _)); [apply Hrej|].
  destruct (Z.eqb_spec total (s_total u)) as [Ht|]; cbn [negb]; [|apply Hrej].
  destruct (Z.eqb_spec off (s_received u)) as [Ho|]; cbn [negb]; [|apply Hrej].
  destruct (_ || _) eqn:Hfit; [apply Hrej|]. apply orb_false_elim in Hfit as [Hf1 Hf2].
  destruct (s_max_len u <? _) eqn:Hmax; [apply Hrej|]. wps. split; [|done].
  destruct (si_sess _ _ (wi_stg _ _ _ Hi) k u Hu) as [->|(Ha & Hm & Hr & Hs)]; [done|].
  assert (0 <= ursus_parse_content_length hd).
  { unfold ursus_parse_content_length. destruct (ursus_parse_header_ulong hd "Content-Length") eqn:Hc; [|done].
    by apply header_ulong_nonneg in Hc. }
  pose proof (header_ulong_nonneg _ _ _ Hoff).
  destruct Hidle as [Hup0 Hrec0]. unfold c1. destruct c. cbn in *. subst.
  split_and!; cbn; [done|done|]. intros _. unfold chunk_ok. cbn. split_and!; [done|done|lia|lia|lia|lia].
Qed.

(** ** The session of a chunk *)

(** An active upload: no verdict stands on its memory. *)
Lemma stg_inv_session ram g k u u' :
  stg_inv ram g -> ursus_upload_session k g = Some u -> s_active u = true -> wf_session k u' ->
  stg_inv ram (set_session k u' g).
Proof.
  intros [I1 I2 I3 I4 I5 I6 I7] Hu Hact Hw. destruct g as [fw ini pre fip van pok fok vok img ex].
  destruct k; [done|..]; injection Hu as <-; 
    (split; cbn in *; [intros [] v; cbn; intros [= <-]; first [assumption | by apply I1]|..]);
    try assumption; try (split; intros [? ?]; tauto); intros Hf; exfalso.
  - destruct (I6 Hf) as (? & ? & _). congruence.
  - destruct (I7 Hf) as (? & ? & _). congruence.
  - destruct (I6 Hf) as (? & ? & _). congruence.
  - destruct (I7 Hf) as (? & ? & _). congruence.
  - destruct (I5 Hf). congruence.
  - destruct (I3 Hf) as (? & ? & _). congruence.
  - destruct (I4 Hf) as (? & ? & _). congruence.
  - destruct (I3 Hf) as (? & ? & _). congruence.
  - destruct (I4 Hf) as (? & ? & _). congruence.
Qed.

(** The session of a complete upload, and what its check may assume. *)
Definition closed (ram : Z -> Z) (k : upload_kind) (u : session) (g : staging) : Prop :=
  stg_inv ram g /\ ursus_upload_session k g = Some u /\ s_active u = false /\
  (shares_stage k = true -> s_active (g_fw g) = false /\ s_active (g_init g) = false) /\
  (k = URSUS_UPLOAD_URSUS_FIP \/ k = URSUS_UPLOAD_VANILLA_FIP -> s_active (g_fip g) = false /\ s_active (g_van g) = false).
Lemma close_session ram g k u u' :
  stg_inv ram g -> ursus_upload_session k g = Some u -> s_active u = true -> wf_session k u' -> s_active u' = false ->
  closed ram k u' (set_session k u' g).
Proof.
  intros I Hu Hact Hw Hc. pose proof (stg_inv_session _ _ _ _ _ I Hu Hact Hw) as I'. destruct I as [_ I2 _ _ _ _ _].
  assert (Hoff : forall b1 b2, ~ (b1 = true /\ b2 = true) -> b1 = true -> b2 = false) by (by intros [] [] Hn Ht; try done; destruct Hn).
  split; [done|]. destruct I2 as [E1 E2]. destruct g as [fw ini pre fip van pok fok vok img ex].
  destruct k; [done|..]; injection Hu as <-; cbn in *; split_and!; try done; try (by intros [[=]|[=]]); intros _; split; try done.
  - by eapply Hoff.
  - destruct (s_active fw); [by destruct E1|done].
  - by eapply Hoff.
  - destruct (s_active fip); [by destruct E2|done].
Qed.

(** ** Verdicts *)

Lemma stg_inv_img ram g i :
  stg_inv ram g -> s_active (g_fw g) = false -> s_active (g_init g) = false ->
  (im_type i <> URSUS_IMG_NONE -> img_checked ram i) -> stg_inv ram (set_g_img i g).
Proof. intros [I1 I2 I3 I4 I5 I6 I7] H1 H2 Hi. destruct g. by split; cbn in *; [|auto..]; intros [] v; cbn; intros [= <-]; apply I1. Qed.
Lemma stg_inv_exp ram g i :
  stg_inv ram g -> s_active (g_fw g) = false -> s_active (g_init g) = false ->
  (im_bootable_fit i = true -> exp_checked ram i) -> stg_inv ram (set_g_exp i g).
Proof. intros [I1 I2 I3 I4 I5 I6 I7] H1 H2 Hi. destruct g. by split; cbn in *; [|auto..]; intros [] v; cbn; intros [= <-]; apply I1. Qed.
Lemma stg_inv_pre_ok ram g b :
  stg_inv ram g -> s_active (g_pre g) = false -> (b = true -> preloader_checked ram (g_pre g)) -> stg_inv ram (set_g_pre_ok b g).
Proof. intros [I1 I2 I3 I4 I5 I6 I7] H1 Hi. destruct g. by split; cbn in *; [|auto..]; intros [] v; cbn; intros [= <-]; apply I1. Qed.
Lemma stg_inv_fip_ok ram g b :
  stg_inv ram g -> s_active (g_fip g) = false -> s_active (g_van g) = false ->
  (b = true -> fip_checked URSUS_FIP_KIND_URSUS ram (g_fip g)) -> stg_inv ram (set_g_fip_ok b g).
Proof. intros [I1 I2 I3 I4 I5 I6 I7] H1 H2 Hi. destruct g. by split; cbn in *; [|auto..]; intros [] v; cbn; intros [= <-]; apply I1. Qed.
Lemma stg_inv_van_ok ram g b :
  stg_inv ram g -> s_active (g_fip g) = false -> s_active (g_van g) = false ->
  (b = true -> fip_checked URSUS_FIP_KIND_VANILLA ram (g_van g)) -> stg_inv ram (set_g_van_ok b g).
Proof. intros [I1 I2 I3 I4 I5 I6 I7] H1 H2 Hi. destruct g. by split; cbn in *; [|auto..]; intros [] v; cbn; intros [= <-]; apply I1. Qed.

(** * The check of a complete image *)

Lemma wp_on_val {A} get set (m : ST val_t A) h w (Q : A -> web_t -> Prop) :
  wp m (fun a s => Q a (fst s, put_log (v_log (snd s)) (set_w_stg (set (v_img (snd s)) (w_stg w)) w)))
     (h, MkVal (get (w_stg w)) (cstr (w_log w))) -> wp (on_val get set m) Q (h, w).
Proof.
  intros H. apply wp_intro. unfold on_val. cbn [fst snd]. intros a s' [= <- <-].
  eapply wp_run in H; [exact H|]. by destruct (m _) as [? [? ?]].
Qed.
Lemma wp_ubi_web {A} (m : ST ubi_t A) h w (Q : A -> web_t -> Prop) :
  wp m (fun a s => Q a (fst s, set_w_ubi (snd s) w)) (h, w_ubi w) -> wp (on_ubi m) Q (h, w).
Proof.
  intros H. apply wp_intro. unfold on_ubi. cbn [fst snd]. intros a s' [= <- <-].
  eapply wp_run in H; [exact H|]. by destruct (m _) as [? [? ?]].
Qed.

#[local] Instance default_platform_keeps a l : Keeps fst_same (ursus_fit_default_platform a l).
Proof. unfold ursus_fit_default_platform, check_platform_fdt, on_img. apply _. Qed.
#[local] Instance verdict_keeps r c t : Keeps fst_same (verdict r c t).
Proof. unfold verdict, on_img. apply _. Qed.
#[local] Instance on_img_keeps f : Keeps fst_same (on_img f).
Proof. unfold on_img. apply _. Qed.
#[local] Instance logf_keeps l : Keeps fst_same (logf l).
Proof. unfold logf. apply _. Qed.
#[local] Instance staged_report_keeps l r : Keeps fst_same (staged_report l r).
Proof. unfold staged_report. apply sbind_keeps; [apply _..|intros s]. do 2 (apply sbind_keeps; [apply _..|intros _]). apply _. Qed.
#[local] Typeclasses Opaque staged_report logf verdict on_img ursus_fit_default_platform.
#[local] Instance nonubi_keeps b m l : Keeps fst_same (nonubi_verdict b m l).
Proof. unfold nonubi_verdict. apply _. Qed.
#[local] Instance ubi_verdict_keeps a b m l : Keeps fst_same (ubi_verdict a b m l).
Proof. unfold ubi_verdict. apply _. Qed.
#[local] Instance fit_verdict_keeps a b m l : Keeps fst_same (fit_verdict a b m l).
Proof. unfold fit_verdict. apply _. Qed.
#[export] Instance staged_keeps a l n : Keeps fst_same (ursus_validate_staged a l n).
Proof.
  unfold ursus_validate_staged, staged_verdict. do 2 (apply sbind_keeps; [apply _..|intros _]).
  apply if_keeps; [apply sbind_keeps; apply _|]. apply if_keeps; [apply sbind_keeps; apply _|].
  destruct (ursus_parse_fwtool_meta l) as [[mret m]|]; apply _.
Qed.
#[export] Instance expert_keeps a l n : Keeps fst_same (ursus_validate_expert_fit a l n).
Proof.
  unfold ursus_validate_expert_fit, expert_verdict. do 2 (apply sbind_keeps; [apply _..|intros _]).
  apply sbind_keeps; [apply _..|]. intros ret. apply sbind_keeps; [apply _..|]. intros i.
  apply sbind_keeps; [apply _..|intros _]. apply _.
Qed.

(** The session of a complete upload has its kind's address and a size in range. *)
Definition full (k : upload_kind) (u : session) : Prop := s_addr u = kind_addr k /\ 0 < s_total u <= kind_max k.
Lemma inv_log t h w : inv (h, w) -> inv (h, put_log t w).
Proof. intros [I0 I1 I2 I3]. destruct w. by split. Qed.

#[export] Instance plan_quiet v : Keeps quiet (ursus_build_plan_reply v).
Proof.
  unfold ursus_build_plan_reply. apply sbind_keeps; [apply _..|]. intros w. cbv zeta.
  destruct (plan_flags _ _) as [[[a b] c] [d e]]. apply set_reply_quiet.
Qed.
#[export] Instance expert_reply_quiet v : Keeps quiet (ursus_build_expert_reply v).
Proof. unfold ursus_build_expert_reply. apply sbind_keeps; [apply _..|]. intros w. cbv zeta. apply set_reply_quiet. Qed.
#[export] Instance complete_reply_quiet u v x a b : Keeps quiet (complete_reply u v x a b).
Proof. unfold complete_reply. apply set_reply_quiet. Qed.

Lemma check_firmware_inv u h w :
  inv (h, w) -> closed (h_ram h) URSUS_UPLOAD_FIRMWARE u (w_stg w) -> full URSUS_UPLOAD_FIRMWARE u ->
  wp (check_firmware u) (fun r s => forall v, r = Some v -> inv s) (h, w).
Proof.
  intros Hi (Hg & Hu & Ha & Hs & _) [Haddr Htot]. destruct (Hs eq_refl) as [H1 H2]. unfold check_firmware.
  wps. unfold ram_read. wps. unfold id. apply wp_on_val.
  set (buf := mread (h_ram h) (s_addr u) (s_total u)). set (c0 := MkVal _ _).
  eapply wp_mono; [apply wp_and; [apply (validate_staged_sound (s_addr u) buf (layout w) h c0)|
    apply (wp_keeps fst_same _ (fun _ s => fst_same (h, c0) s)); auto]|].
  cbn beta. intros r [h1 c1] [Hj Hram]. cbn [fst snd] in *.
  destruct r as [vret|]; [|by wps]. destruct (Hj vret eq_refl) as (Ja & Jl & Jok).
  assert (Hb : blen buf = s_total u) by (apply blen_mread; lia).
  assert (Hi1 : inv (h1, set_w_stg (set_g_img (v_img c1) (w_stg w)) w)).
  { destruct Hi as [I0 I1 I2 I3]. unfold fst_same, ram_same in Hram. cbn [fst] in Hram.
    assert (F (h_ram h1)) by (rewrite Hram; exact I0).
    assert (stg_inv (h_ram h1) (set_g_img (v_img c1) (w_stg w))).
    { rewrite Hram. apply stg_inv_img; [done..|]. intros _. split; [split; [by rewrite Ja|rewrite Jl, Hb]|].
      - change URSUS_STAGE_MAX with (kind_max URSUS_UPLOAD_FIRMWARE). lia.
      - intros Hr. exists (layout w). rewrite Ja, Jl, Hb. apply Jok. by right. }
    by destruct w. }
  apply wp_bind, wp_quiet_inv; [apply _|by apply inv_log|]. intros _ s' Hs'. by wps.
Qed.
Lemma check_initramfs_inv u h w :
  inv (h, w) -> closed (h_ram h) URSUS_UPLOAD_INITRAMFS u (w_stg w) -> full URSUS_UPLOAD_INITRAMFS u ->
  wp (check_initramfs u) (fun _ s => inv s) (h, w).
Proof.
  intros Hi (Hg & Hu & Ha & Hs & _) [Haddr Htot]. destruct (Hs eq_refl) as [H1 H2]. unfold check_initramfs.
  wps. unfold ram_read. wps. unfold id. apply wp_on_val.
  set (buf := mread (h_ram h) (s_addr u) (s_total u)). set (c0 := MkVal _ _).
  eapply wp_mono; [apply wp_and; [apply (validate_expert_sound (s_addr u) buf (layout w) h c0)|
    apply (wp_keeps fst_same _ (fun _ s => fst_same (h, c0) s)); auto]|].
  cbn beta. intros vret [h1 c1] [(Ja & Jl & Jb & Jok) Hram]. cbn [fst snd] in *.
  assert (Hb : blen buf = s_total u) by (apply blen_mread; lia).
  assert (Hi1 : inv (h1, set_w_stg (set_g_exp (v_img c1) (w_stg w)) w)).
  { destruct Hi as [I0 I1 I2 I3]. unfold fst_same, ram_same in Hram. cbn [fst] in Hram.
    assert (F (h_ram h1)) by (rewrite Hram; exact I0).
    assert (stg_inv (h_ram h1) (set_g_exp (v_img c1) (w_stg w))).
    { rewrite Hram. apply stg_inv_exp; [done..|]. intros Hbt. split; [split; [by rewrite Ja|rewrite Jl, Hb]|].
      - change URSUS_STAGE_MAX with (kind_max URSUS_UPLOAD_INITRAMFS). lia.
      - exists (layout w). rewrite Ja, Jl, Hb. apply Jok. by apply Jb. }
    by destruct w. }
  apply wp_bind, wp_quiet_inv; [apply _|by apply inv_log|]. intros _ s' Hs'. by wps.
Qed.

(** ** Boot images *)

Lemma wp_validate_kind a n lim kind h (Q : Z -> hw -> Prop) :
  (forall h', h_ram h' = h_ram h ->
     (forall r ok, r = ursus_fip_validate_kind ok a (mread (h_ram h) a n) lim kind -> Q r h')) ->
  wp (validate_kind_at a n lim kind) Q h.
Proof.
  intros HQ. unfold validate_kind_at. wps.
  apply (wp_keeps ram_same malloc). intros ok h1 H1. unfold ram_same in H1. wps. unfold ram_read. wps.
  apply (HQ h1 H1 _ ok). by rewrite H1.
Qed.
Lemma inv_ram h h' w : h_ram h' = h_ram h -> inv (h, w) -> inv (h', w).
Proof. intros Hr. apply quiet_inv. by split. Qed.

Lemma check_fip_inv u h w :
  inv (h, w) -> closed (h_ram h) URSUS_UPLOAD_URSUS_FIP u (w_stg w) -> wp (check_fip u) (fun _ s => inv s) (h, w).
Proof.
  intros Hi (Hg & [= Hu] & Ha & _ & Hs). destruct (Hs (or_introl eq_refl)) as [H1 H2]. unfold check_fip.
  wps. unfold id. wps. apply wp_validate_kind. intros h1 Hr ret ok Hret. wps. apply wp_onstg. wps.
  apply wp_quiet_inv; [apply _| |intros _ s Hs'; by wps].
  apply inv_stg; [by apply (inv_ram h)|]. rewrite Hr. apply stg_inv_fip_ok; [done..|]. rewrite Hu. intros Hz.
  apply negb_true_iff, nz_false in Hz. exists ok, (negb (layout_ubi (layout w))). congruence.
Qed.
Lemma check_vanilla_inv u h w :
  inv (h, w) -> closed (h_ram h) URSUS_UPLOAD_VANILLA_FIP u (w_stg w) -> wp (check_vanilla u) (fun _ s => inv s) (h, w).
Proof.
  intros Hi (Hg & [= Hu] & Ha & _ & Hs). destruct (Hs (or_intror eq_refl)) as [H1 H2]. unfold check_vanilla.
  wps. unfold id. wps. apply wp_validate_kind. intros h1 Hr ret ok Hret.
  set (m := if nz ret then _ else _).
  assert (Hm : wp m (fun r s => snd s = w /\ h_ram (fst s) = h_ram h /\ (r = 0 -> ret = 0)) (h1, w)).
  { unfold m. destruct (nz ret) eqn:Hz; wps; [done|].
    apply (wp_keeps ram_same ursus_ubi_installed_bl2_matches_pin). intros r h2 H3. unfold ram_same in H3. wps.
    apply nz_false in Hz. split_and!; [done|cbn [fst]; congruence|done]. }
  wps. eapply wp_mono; [exact Hm|]. intros r [h2 w2] (Hw & Hr2 & Hz). cbn [fst snd] in *. subst w2.
  wps. apply wp_onstg. wps. apply wp_quiet_inv; [apply _| |intros _ s Hs'; by wps].
  apply inv_stg; [by apply (inv_ram h)|]. rewrite Hr2. apply stg_inv_van_ok; [done..|]. rewrite Hu. intros Hn.
  apply negb_true_iff, nz_false in Hn. exists ok, (negb (layout_ubi (layout w))). rewrite <- Hret. auto.
Qed.

(** The candidate buffer lies outside the staging memory. *)
Hypothesis memalign_apart : forall k x, in_window k x -> x < memalign_addr \/ memalign_addr + URSUS_UBI_BL2_SIZE <= x.

Lemma prepare_bl2_inv a n b h :
  bl2_buf b = None \/ bl2_buf b = Some memalign_addr ->
  wp (ursus_ubi_prepare_bl2_candidate memalign_addr a n b) (fun r h' =>
    (bl2_buf (snd r) = None \/ bl2_buf (snd r) = Some memalign_addr) /\
    forall x, ~ (memalign_addr <= x < memalign_addr + URSUS_UBI_BL2_SIZE) -> h_ram h' x = h_ram h x) h.
Proof.
  intros Hb. unfold ursus_ubi_prepare_bl2_candidate. cbv zeta.
  destruct ((n =? 0) || _) eqn:Hn; [by wps|]. apply orb_false_elim in Hn as [_ Hn].
  wps. cbn [bl2_buf]. set (m := match bl2_buf b with Some _ => _ | None => _ end).
  assert (Hm : Keeps ram_same m) by (unfold m; destruct (bl2_buf b); apply _).
  apply (wp_keeps ram_same m). intros ok h1 H1. unfold ram_same in H1. clear Hm m.
  destruct ok; cbn [negb]; [|wps; rewrite H1; done].
  assert (Hd : default memalign_addr (bl2_buf b) = memalign_addr) by (by destruct Hb as [->| ->]). rewrite Hd.
  destruct (a =? 0); [wps; rewrite H1; by auto|].
  wps. apply ram_write_spec. intros h2 _ H2. wps. unfold ram_read at 1. wps.
  apply ram_write_spec. intros h3 _ H3. wps. unfold ram_read at 1. wps.
  assert (Hout : forall x, ~ (memalign_addr <= x < memalign_addr + URSUS_UBI_BL2_SIZE) -> h_ram h3 x = h_ram h x).
  { intros x Hx. unfold URSUS_UBI_BL2_SIZE, URSUS_BL2_PRELOADER_OFF in *.
    rewrite H3, mwrite_outside, H2, mwrite_outside; [by rewrite H1|..].
    - unfold blen. rewrite repeat_length. lia.
    - destruct (Z.leb_spec 0 n).
      + rewrite blen_mread by done. lia.
      + unfold mread. replace (Z.to_nat n) with O by lia. change (blen (mread_nat (h_ram h2) a 0)) with 0. lia. }
  unfold ram_read. repeat first [apply wp_if; intros _ | wp1; cbn beta | split; [by right|done]].
Qed.

Lemma check_preloader_inv u h w :
  inv (h, w) -> closed (h_ram h) URSUS_UPLOAD_UBI_PRELOADER u (w_stg w) ->
  wp (check_preloader memalign_addr u) (fun _ s => inv s) (h, w).
Proof.
  intros Hi (Hg & [= Hu] & Ha & _). unfold check_preloader. wps.
  assert (Hp : wp (ursus_ubi_validate_preloader (s_addr u) (s_total u)) (fun r h' => h_ram h' = h_ram h /\
    (r = 0 -> sha256 (mread (h_ram h) (s_addr u) (s_total u)) = preloader_sha256)) h).
  { unfold ursus_ubi_validate_preloader, ram_read. destruct (_ || _); [by wps|]. destruct (_ =? 0); [by wps|]. wps.
    destruct (_ || _); [by wps|]. destruct (memeq (sha256 _) preloader_sha256) eqn:Hm; cbn [negb]; wps; [|done].
    split; [done|]. intros _. by apply memeq_eq in Hm. }
  eapply wp_mono; [exact Hp|]. cbn beta. intros ret h1 [Hr Hok].
  set (m := if nz ret then _ else _).
  assert (Hm : wp m (fun r s => inv s /\ w_stg (snd s) = w_stg w /\ (r = 0 -> preloader_checked (h_ram (fst s)) u)) (h1, w)).
  { unfold m. destruct (nz ret) eqn:Hz; wps.
    - split_and!; [by apply (inv_ram h)|done|]. intros ->. done.
    - apply nz_false in Hz. specialize (Hok Hz). apply wp_ubi_web. unfold on_bl2. wps.
      eapply wp_mono; [apply prepare_bl2_inv, (wi_bl2 _ _ _ Hi)|]. cbn beta. intros [r b] h2 [Hb Hout0]. wps. cbn [fst snd] in *.
      assert (Hout : forall k x, in_window k x -> h_ram h2 x = h_ram h1 x).
      { intros k x Hx. apply Hout0. specialize (memalign_apart k x Hx). lia. }
      assert (Hst : stg_inv (h_ram h2) (w_stg w)).
      { apply (stg_inv_ram (h_ram h)); [..|done]; intros x Hx Hne; destruct Hne; rewrite <- Hr; by eapply Hout. }
      split_and!; [split; cbn [fst snd]|by destruct w|].
      + apply (F_stable (h_ram h)); [|apply Hi]. intros x [_ Hx]. rewrite <- Hr. by apply Hout0.
      + by destruct w.
      + destruct w. apply Hi.
      + destruct w as [? ? ? ? ? ? ? ? ? ? ? ub]. by destruct ub.
      + intros _. unfold preloader_checked.
        rewrite (mread_session (h_ram h) (h_ram h2) URSUS_UPLOAD_UBI_PRELOADER); [done| |intros x Hx; rewrite <- Hr; by eapply Hout].
        apply (si_sess _ _ Hg). by rewrite <- Hu. }
  wps. eapply wp_mono; [exact Hm|]. cbn beta. intros r [h2 w2] (Hi2 & Hw2 & Hok2). cbn [fst snd] in *.
  wps. unfold id. apply wp_onstg. wps. apply wp_quiet_inv; [apply _| |intros _ s Hs'; by wps].
  apply inv_stg; [done|]. apply stg_inv_pre_ok; [apply Hi2|by rewrite Hw2, Hu|]. intros Hb.
  apply andb_prop in Hb as [Hz _]. apply negb_true_iff, nz_false in Hz. rewrite Hw2, Hu. auto.
Qed.

(** ** A chunk *)

Lemma kind_max_u64 k : kind_max k < 2 ^ 64.
Proof. by destruct k. Qed.
Definition fed (r : option (Z * conn)) (s : web_t) : Prop := forall e c, r = Some (e, c) -> wf_conn c /\ inv s.

Lemma check_upload_inv k u h w :
  inv (h, w) -> closed (h_ram h) k u (w_stg w) -> full k u ->
  wp (check_upload memalign_addr k u) (fun r s => forall v, r = Some v -> inv s) (h, w).
Proof.
  intros Hi Hc Hf. destruct k; cbn [check_upload].
  - by destruct Hc as (_ & [=] & _).
  - by apply check_firmware_inv.
  - wps. eapply wp_mono; [by apply check_initramfs_inv|]. intros v s Hs. by wps.
  - wps. eapply wp_mono; [by apply check_preloader_inv|]. intros v s Hs. by wps.
  - wps. eapply wp_mono; [by apply check_fip_inv|]. intros v s Hs. by wps.
  - wps. eapply wp_mono; [by apply check_vanilla_inv|]. intros v s Hs. by wps.
Qed.

Lemma response_fed c st t b s :
  inv s -> wf_conn c -> wp (let* r := ursus_http_start_response c st t b in sret (Some r)) fed s.
Proof.
  intros Hi Hc. apply wp_bind, (wp_reply_inv c); [apply _|apply _|done|]. intros [e c'] s' Hup Hs'. wps.
  intros e0 c0 [= <- <-]. split; [|done]. by apply (up_wf c).
Qed.

Lemma chunk_done_inv c u h w :
  inv (h, w) -> wf_conn c -> c_is_upload c = true -> ursus_upload_session (c_upload_kind c) (w_stg w) = Some u ->
  s_active u = true -> wp (chunk_done memalign_addr c u) fed (h, w).
Proof.
  intros Hi Hc Hup Hu Hact. destruct Hc as (Hc1 & Hc2 & Hc3). pose proof (Hc3 Hup) as (Hk & Ha & Ho & Hr & Hm).
  assert (Hc : wf_conn c) by done. unfold chunk_done.
  pose proof (kind_max_u64 (c_upload_kind c)). rewrite u64_small by lia.
  destruct (negb (memeq _ _)).
  { wps. apply reject_inv; [done|]. intros [e c'] s' Hs' Hi'. wps. intros e0 c0 [= <- <-]. split; [by apply (up_wf c)|done]. }
  destruct (si_sess _ _ (wi_stg _ _ _ Hi) _ _ Hu) as [->|(Sa & Sm & Sr & St)]; [done|].
  set (k := c_upload_kind c) in *. set (dn := c_upload_offset c + c_content_len c) in *.
  set (u1 := set_s_received dn u).
  assert (W1 : wf_session k u1) by (right; unfold u1; destruct u; cbn in *; split_and!; [done|done|lia..]).
  assert (W2 : wf_session k (set_s_active false u1)).
  { right. unfold u1. destruct u; cbn in *; split_and!; [done|done|lia..]. }
  wps. apply wp_onstg. destruct (dn =? s_total u1).
  - wps. apply wp_onstg.
    assert (Hcl : closed (h_ram h) k (set_s_active false u1) (set_session k (set_s_active false u1) (w_stg w))).
    { apply (close_session _ _ _ u); [apply Hi|done|done|done|]. by destruct u1. }
    assert (Hset : set_session k (set_s_active false u1) (set_session k u1 (w_stg w)) =
                   set_session k (set_s_active false u1) (w_stg w)) by (by destruct k, (w_stg w)).
    assert (Hw : w_stg (set_w_stg (set_session k u1 (w_stg w)) w) = set_session k u1 (w_stg w)) by (by destruct w).
    rewrite Hw, Hset. set (u2 := set_s_active false u1) in *.
    assert (Hi2 : inv (h, set_w_stg (set_session k u2 (w_stg w)) (set_w_stg (set_session k u1 (w_stg w)) w))).
    { apply inv_stg; [apply inv_stg; [done|]|by destruct Hcl]. apply (stg_inv_session _ _ _ u); [apply Hi|done..]. }
    assert (Hf2 : full k u2) by (unfold full, u2, u1; by destruct u).
    wps. apply (wp_keeps quiet (wlog _)). intros _ [h3 w3] Hq. pose proof (quiet_inv _ _ _ _ Hq Hi2) as Hi3.
    destruct Hq as [Q1 Q2 _ _]. cbn [fst snd] in *.
    assert (Hcl3 : closed (h_ram h3) k u2 (w_stg w3)) by (rewrite Q1, Q2; by destruct w).
    wps. eapply wp_mono; [by apply check_upload_inv|]. intros [v|] s Hs; [|by wps].
    apply response_fed; [by eapply Hs|done].
  - wps. apply wp_quiet_inv; [apply _| |].
    + apply inv_stg; [done|]. apply (stg_inv_session _ _ _ u); [apply Hi|done..].
    + intros _ s' Hs'. by apply response_fed.
Qed.

Lemma feed_body_inv c data s :
  inv s -> wf_conn c -> c_is_upload c = true -> wp (feed_body memalign_addr c data) fed s.
Proof.
  intros Hi Hc Hup. destruct s as [h w]. pose proof Hc as (_ & _ & Hc3). destruct (Hc3 Hup) as (Hk & Ha & Ho & Hr & Hm).
  unfold feed_body. wps. unfold id. destruct (ursus_upload_session _ _) as [u|] eqn:Hu; [|wps; by intros ? ? [= <- <-]].
  destruct (s_active u) eqn:Hact; cbn [negb]; [|wps; by intros ? ? [= <- <-]].
  pose proof (kind_max_u64 (c_upload_kind c)). rewrite u64_small by lia.
  set (take := Z.min _ _). assert (Ht : 0 <= take <= c_content_len c - c_upload_received c) by (unfold take, blen; lia).
  set (wr := if nz take then _ else _).
  assert (Hwr : wp wr (fun _ s => inv s /\ ursus_upload_session (c_upload_kind c) (w_stg (snd s)) = Some u) (h, w)).
  { unfold wr. destruct (nz take); wps; [|done]. apply ram_write_spec. intros h1 Hfr Hram. split; [|done].
    assert (blen (slice 0 take data) <= take) as Hb by (unfold blen, slice; rewrite length_take; lia).
    split; cbn [fst snd]; rewrite ?Hram; [|apply (stg_inv_write _ _ (c_upload_kind c) u); [apply Hi|done|done|lia|lia]|apply Hi..].
    apply (F_stable (h_ram h)); [|apply Hi]. intros x [Hx _]. apply mwrite_outside.
    specialize (Hx (c_upload_kind c)). unfold in_window in Hx. lia. }
  wps. eapply wp_mono; [exact Hwr|]. intros _ [h1 w1] [Hi1 Hu1]. cbn [snd] in Hu1. cbv zeta.
  set (c1 := set_c_upload_received _ c).
  assert (Hc1 : wf_conn c1 /\ c_is_upload c1 = true /\ c_upload_kind c1 = c_upload_kind c).
  { unfold c1. destruct Hc as (H1 & H2 & _). destruct c. cbn in *. split; [|done].
    split_and!; cbn; [done|by rewrite Hup|]. intros _. unfold chunk_ok. cbn. split_and!; [done|done|lia..]. }
  destruct Hc1 as (Hc1 & Hup1 & Hk1).
  destruct (_ =? _).
  - apply chunk_done_inv; [done|done|done|by rewrite Hk1|done].
  - wps. by intros ? ? [= <- <-].
Qed.

(** * Requests *)

Hypothesis Hconcat : concat_quiet.

Definition good (f : conn -> ST web_t (Z * conn)) : Prop :=
  forall c s, inv s -> idle c -> c_headers_done c = true -> wp (f c) (fun r s' => wf_conn (snd r) /\ inv s') s.
Lemma good_reply f : (forall c, Keeps quiet (f c)) -> (forall c, Replies c (f c)) -> good f.
Proof.
  intros Hq Hr c s Hi Hc _. apply (wp_reply_inv c); [apply _|apply _|done|]. intros r s' Hup Hs'. split; [|done].
  by eapply up_wf, wf_idle.
Qed.
Lemma good_inv f : (forall c, Replies c (f c)) -> (forall c s, inv s -> wp (f c) (fun _ s' => inv s') s) -> good f.
Proof.
  intros Hr Hf c s Hi Hc _. eapply wp_mono; [apply wp_and; [apply (wp_replies c _ s (fun r _ => UpSame c (snd r))); auto|by apply Hf]|].
  cbn beta. intros r s' [Hup Hs']. split; [|done]. by eapply up_wf, wf_idle.
Qed.
Lemma good_begin k : k <> URSUS_UPLOAD_NONE -> good (fun c => ursus_begin_upload c k).
Proof. intros Hk. apply good_inv; [apply _|]. intros. by apply begin_upload_inv. Qed.
Lemma good_discard k : good (fun c => route_discard c k).
Proof. apply good_inv; [apply _|]. intros. by apply discard_inv. Qed.
Lemma good_chunk k : k <> URSUS_UPLOAD_NONE -> good (fun c => ursus_prepare_chunk c k).
Proof. intros Hk c s Hi Hc Hd. by apply prepare_chunk_wf. Qed.

Lemma good_routes : Forall (fun p => good (snd p)) routes.
Proof.
  pose proof (fun c => reset_settings_quiet c Hconcat) as Hreset.
  unfold routes. do 6 (apply Forall_cons_2; [cbn [snd]; apply good_reply; intros c; apply _|]).
  do 5 (apply Forall_cons_2; [cbn [snd]; apply good_discard|]).
  do 5 (apply Forall_cons_2; [cbn [snd]; by apply good_begin|]).
  do 5 (apply Forall_cons_2; [cbn [snd]; by apply good_chunk|]).
  do 8 (apply Forall_cons_2; [cbn [snd]; apply good_reply; intros c; apply _|]). apply Forall_nil_2.
Qed.
Lemma find_route_good req l : Forall (fun p => good (snd p)) l -> good (find_route req l).
Proof.
  induction 1 as [|[lit f] l Hf _ IH]; cbn [find_route]; [apply good_reply; apply _|]. by destruct (REQ_MATCH req lit).
Qed.
Lemma route_ready_inv c s :
  inv s -> idle c -> c_headers_done c = true -> wp (ursus_route_ready c) (fun r s' => wf_conn (snd r) /\ inv s') s.
Proof.
  intros Hi Hc Hd. unfold ursus_route_ready. apply wp_bind, wp_quiet_inv; [apply _|done|]. intros _ s' Hi'.
  by apply (find_route_good _ _ good_routes).
Qed.

(** * Data *)

Lemma feed_headers_inv data c s :
  inv s -> wf_conn c -> wp (feed_headers data c) (fun r s' => wf_conn (snd r) /\ inv s') s.
Proof.
  revert c s. induction data as [|b data IH]; intros c s Hi Hc; cbn [feed_headers];
    (destruct (c_headers_done c) eqn:Hd; [by wps|]); [by wps|].
  destruct (_ <=? _); [by wps|]. cbv zeta.
  assert (Hidle : idle c) by (destruct Hc as (H1 & H2 & _); split; auto).
  destruct (ends_headers _).
  - apply wp_bind. eapply wp_mono; [apply route_ready_inv; [done| |]; by destruct c|].
    cbn beta. intros [e c'] s' [Hc' Hs']. cbn [snd] in Hc'. destruct (_ || _); by wps.
  - apply IH; [done|]. apply wf_idle. by destruct c.
Qed.
Lemma feed_bytes_inv c data s : inv s -> wf_conn c -> wp (ursus_feed_bytes memalign_addr c data) fed s.
Proof.
  intros Hi Hc. unfold ursus_feed_bytes. destruct (c_response_started c); [wps; by intros ? ? [= <- <-]|].
  apply wp_bind. eapply wp_mono; [by apply feed_headers_inv|]. cbn beta. intros [[early rest] c1] s1 [Hc1 Hs1]. cbn [snd] in Hc1.
  destruct early as [e|]; [wps; by intros ? ? [= <- <-]|].
  destruct (c_is_upload c1) eqn:Hup; cbn [andb]; [|wps; by intros ? ? [= <- <-]].
  destruct (0 <? _); [by apply feed_body_inv|]. wps. by intros ? ? [= <- <-].
Qed.
Lemma feed_pbufs_inv q c s : inv s -> wf_conn c -> wp (feed_pbufs memalign_addr c q) fed s.
Proof.
  revert c s. induction q as [|d q IH]; intros c s Hi Hc; cbn [feed_pbufs]; [wps; by intros ? ? [= <- <-]|].
  apply wp_bind. eapply wp_mono; [by apply feed_bytes_inv|]. intros [[e c1]|] s1 H1; [|by wps].
  destruct (H1 _ _ eq_refl) as [Hc1 Hs1]. destruct (e =? ERR_OK); [by apply IH|]. wps. by intros ? ? [= <- <-].
Qed.

(** * Callbacks *)

Lemma put_conn_inv c s : inv s -> wf_conn c -> wp (put_conn c) (fun _ s' => inv s') s.
Proof.
  intros [I0 I1 I2 I3] Hc. destruct s as [h w]. unfold put_conn. wps. destruct w. split; cbn in *; [done|done| |done].
  by apply map_Forall_insert_2.
Qed.
Lemma free_conn_inv i s : inv s -> wp (free_conn i) (fun _ s' => inv s') s.
Proof.
  intros [I0 I1 I2 I3]. destruct s as [h w]. unfold free_conn. wps. destruct w. split; cbn in *; [done|done| |done].
  by apply map_Forall_delete.
Qed.
#[export] Instance pending_clear_quiet i : Keeps quiet (ursus_console_pending_clear i).
Proof.
  intros [h w]. unfold ursus_console_pending_clear. destruct i as [i|]; [|by split; destruct w].
  unfold onctx, smod. cbn [fst snd]. destruct (w_cpend w) as [[j ?]|] eqn:?; [destruct (i =? j)|]; by split; destruct w.
Qed.
#[local] Instance set_stop_quiet v : Keeps quiet (onctx (set_w_stop v)).
Proof. quiet_setter. Qed.
Lemma conn_release_inv c s : inv s -> wp (ursus_conn_release c) (fun _ s' => inv s') s.
Proof.
  intros Hi. unfold ursus_conn_release. apply wp_bind, wp_quiet_inv; [apply _|done|]. intros _ s1 H1.
  apply wp_bind. eapply wp_mono; [by apply free_conn_inv|]. cbn beta. intros _ s2 H2. apply wp_quiet_inv; [apply _|done|auto].
Qed.
#[local] Instance log_eof_quiet c : Keeps quiet (log_eof c).
Proof. unfold log_eof. apply if_keeps; [|apply _]. apply sbind_keeps; [apply _..|]. intros w. apply wlog_quiet. Qed.

(** A callback that completes. *)
Definition kept (r : option Z) (s : web_t) : Prop := forall e, r = Some e -> inv s.

Ltac kfin := wps; solve [done | unfold kept; by intros | unfold kept; intros ? [=]].
Lemma recv_inv c err p s : inv s -> wf_conn c -> wp (ursus_http_recv memalign_addr c err p) kept s.
Proof.
  intros Hi Hc. unfold ursus_http_recv. destruct p as [q|].
  - destruct (negb _).
    + apply wp_bind. eapply wp_mono; [by apply conn_release_inv|]. cbn beta. intros _ s1 H1. kfin.
    + apply wp_bind. eapply wp_mono; [by apply feed_pbufs_inv|]. intros [[e c1]|] s1 H1; [|kfin].
      destruct (H1 _ _ eq_refl) as [Hc1 Hs1]. destruct (negb _); apply wp_bind.
      * eapply wp_mono; [by apply conn_release_inv|]. cbn beta. intros _ s2 H2. kfin.
      * eapply wp_mono; [by apply put_conn_inv|]. cbn beta. intros _ s2 H2. kfin.
  - cbv zeta. apply wp_bind, wp_quiet_inv; [apply _|done|]. intros _ s1 H1. apply wp_bind.
    assert (Hc1 : wf_conn (set_c_remote_eof true c)) by (by destruct c).
    destruct (negb _); (eapply wp_mono; [first [by apply conn_release_inv | by apply put_conn_inv]|]); cbn beta; intros _ s2 H2; kfin.
Qed.
Lemma pump_release_inv c s : inv s -> wf_conn c -> wp (pump_and_release c) (fun _ s' => inv s') s.
Proof.
  intros Hi Hc. unfold pump_and_release. apply wp_bind, (wp_reply_inv c); [apply _|apply _|done|].
  intros [e c1] s1 Hup H1. cbn [snd] in Hup. assert (Hc1 : wf_conn c1) by (by apply (up_wf c)).
  destruct (negb _); [|destruct (_ && _)]; apply wp_bind.
  1,2: eapply wp_mono; [by apply conn_release_inv|]; cbn beta; intros _ s2 H2; kfin.
  eapply wp_mono; [by apply put_conn_inv|]. cbn beta. intros _ s2 H2. kfin.
Qed.
#[local] Instance conn_id_quiet v : Keeps quiet (onctx (set_w_conn_id v)).
Proof. quiet_setter. Qed.
Lemma accept_inv err s : inv s -> wp (ursus_http_accept err) (fun _ s' => inv s') s.
Proof.
  intros Hi. unfold ursus_http_accept. destruct (negb (err =? ERR_OK)); [kfin|].
  apply wp_bind, wp_quiet_inv; [apply _|done|]. intros ok s1 H1. destruct (negb ok); [kfin|].
  apply wp_bind, wp_quiet_inv; [apply _|done|]. intros w s2 H2. cbv zeta.
  apply wp_bind, wp_quiet_inv; [apply _|done|]. intros _ s3 H3. apply wp_bind.
  eapply wp_mono; [apply put_conn_inv; [done|by apply wf_idle]|]. cbn beta. intros _ s4 H4. kfin.
Qed.
Lemma handle_event_inv e s : inv s -> wp (handle_event memalign_addr e) kept s.
Proof.
  intros Hi. unfold handle_event. destruct s as [h w]. wps. unfold id.
  assert (Hcs : forall i c, w_conns w !! i = Some c -> wf_conn c) by apply (wi_conns _ _ _ Hi).
  destruct e as [err|i err p|i len|i|i].
  - apply wp_bind. eapply wp_mono; [by apply accept_inv|]. intros r s' Hs'. kfin.
  - destruct (w_conns w !! i) as [c|] eqn:Hc; [|kfin]. apply recv_inv; [done|by eapply Hcs].
  - destruct (w_conns w !! i) as [c|] eqn:Hc; [|kfin]. apply wp_bind. unfold ursus_http_sent.
    eapply wp_mono; [apply pump_release_inv; [done|]|intros r s' Hs'; kfin]. apply (up_wf c); [apply _|by eapply Hcs].
  - destruct (w_conns w !! i) as [c|] eqn:Hc; [|kfin]. apply wp_bind. unfold ursus_http_poll.
    destruct (negb _); [kfin|]. eapply wp_mono; [apply pump_release_inv; [done|by eapply Hcs]|intros r s' Hs'; kfin].
  - apply wp_bind. unfold ursus_http_err. apply wp_bind, wp_quiet_inv; [apply _|done|]. intros _ s1 H1.
    eapply wp_mono; [by apply free_conn_inv|]. cbn beta. intros _ s2 H2. kfin.
Qed.
Lemma handle_events_inv l s : inv s -> wp (handle_events memalign_addr l) kept s.
Proof.
  revert s. induction l as [|e l IH]; intros s Hi; cbn [handle_events]; [kfin|].
  apply wp_bind. eapply wp_mono; [by apply handle_event_inv|]. intros [r|] s1 H1; [|kfin]. apply IH. by eapply H1.
Qed.
End keep.
