(* ===== verification/WebRun.v ===== *)
(** Runs of the web server between its start and a flash operation: callbacks in
    any order, each complete, with anything in between that leaves the staging
    memory, the upload state and the connections alone.  The verdicts the server
    relies on when it starts a flash operation hold of the bytes in memory then. *)
From S2P Require Import Prelude Bytes Fip Flash Ubi Shell Bl2 Jobs FipUpdate UbiEngine Migration FitUpdate Mmio Led Fit WebHeaders WebImage WebAccept WebDevice WebState WebUpload WebStatus WebRoute WebServer WebKeep WebInv WebReply WebInvThms Bench StockThms.

(** Between two callbacks: timers, LEDs, console commands and engine steps that
    do not write to staging memory (the engines read back above it). *)
Record calm (s s' : web_t) : Prop := {
  cm_ram : forall k x, in_window k x -> h_ram (fst s') x = h_ram (fst s) x;
  cm_stg : w_stg (snd s') = w_stg (snd s);
  cm_conns : w_conns (snd s') = w_conns (snd s);
  cm_bl2 : bl2_buf (us_bl2 (w_ubi (snd s'))) = bl2_buf (us_bl2 (w_ubi (snd s)));
}.
(** The server has started and nobody has connected. *)
Record fresh_server (s : web_t) : Prop := {
  fs_stg : w_stg (snd s) = stg_init;
  fs_conns : w_conns (snd s) = ∅;
  fs_bl2 : bl2_buf (us_bl2 (w_ubi (snd s))) = None;
}.

Section run.
Context {P : Platform} {X : Ext} {B : Board} {T : FitLib} {N : Tcp} {E : WebEnv} {C : ConcatUbi} {L : LedBoard}.
Variable memalign_addr : Z.

Inductive web_run : web_t -> web_t -> Prop :=
  | run_done s : web_run s s
  | run_event s e r s1 s2 : handle_event memalign_addr e s = (Some r, s1) -> web_run s1 s2 -> web_run s s2
  | run_calm s s1 s2 : calm s s1 -> web_run s1 s2 -> web_run s s2.

Definition memalign_apart : Prop :=
  forall k x, in_window k x -> x < memalign_addr \/ memalign_addr + URSUS_UBI_BL2_SIZE <= x.
Abbreviation inv := (web_inv memalign_addr (fun _ => True)).

Lemma stg_inv_start ram : stg_inv ram stg_init.
Proof. split; cbn; [|by split; intros [[=] _]|done..]. intros [] u; cbn; intros [= <-]; apply wf_zero. Qed.
Lemma fresh_inv s : fresh_server s -> inv s.
Proof.
  intros [H1 H2 H3]. split; [done|rewrite H1; apply stg_inv_start|rewrite H2; apply map_Forall_empty|by left].
Qed.
Lemma calm_inv s s' : calm s s' -> inv s -> inv s'.
Proof.
  intros [H1 H2 H3 H4] [I0 I1 I2 I3]. split; [done| |by rewrite H3|by rewrite H4].
  rewrite H2. apply (stg_inv_ram (h_ram (fst s))); [..|done]; intros x Hx Hne; destruct Hne; by eapply H1.
Qed.
Lemma run_inv s s' : memalign_apart -> concat_quiet -> web_run s s' -> inv s -> inv s'.
Proof.
  intros Ha Hq. induction 1 as [s|s e r s1 s2 He _ IH|s s1 s2 Hc _ IH]; intros Hi; [done| |].
  - apply IH. refine (wp_run _ _ _ _ _ (handle_event_inv memalign_addr _ _ Ha Hq e s Hi) He r eq_refl). done.
  - apply IH. by apply (calm_inv s).
Qed.

(** C36: uploads are well formed.  In every state the server reaches, each upload
    session is empty or has the address and capacity of its kind, a declared size
    between 1 and that capacity and at most that many bytes received; and the
    chunk each connection is receiving lies inside the memory of its kind. *)
Theorem uploads_well_formed s0 s :
  memalign_apart -> concat_quiet -> fresh_server s0 -> web_run s0 s ->
  (forall k u, ursus_upload_session k (w_stg (snd s)) = Some u -> wf_session k u) /\
  (forall i c, w_conns (snd s) !! i = Some c -> wf_conn c).
Proof.
  intros Ha Hq Hf Hr. destruct (run_inv _ _ Ha Hq Hr (fresh_inv _ Hf)) as [_ [I1 _ _ _ _ _ _] I2 _].
  split; [done|]. intros i c Hc. by eapply I2.
Qed.


(** C16: uploads write nowhere else.  From a state the server reaches, a callback
    (data in any pieces, acknowledgements, errors, new connections) changes no
    byte of memory outside the three staging areas and the buffer of the BL2
    candidate, whatever lengths and offsets the client's headers claim. *)
Theorem callbacks_write_staging_only s0 s e r s' x :
  memalign_apart -> concat_quiet -> fresh_server s0 -> web_run s0 s -> handle_event memalign_addr e s = (Some r, s') ->
  outside memalign_addr x -> h_ram (fst s') x = h_ram (fst s) x.
Proof.
  intros Ha Hq Hf Hr He Hx.
  set (F := fun ram => forall y, outside memalign_addr y -> ram y = h_ram (fst s) y).
  assert (HF : frame_stable memalign_addr F).
  { intros ram ram' Heq HF y Hy. rewrite Heq by done. by apply HF. }
  destruct (run_inv _ _ Ha Hq Hr (fresh_inv _ Hf)) as [_ I1 I2 I3].
  assert (Hi : web_inv memalign_addr F s) by (by split).
  by apply (wp_run _ _ _ _ _ (handle_event_inv memalign_addr F HF Ha Hq e s Hi) He r eq_refl).
Qed.
End run.

(** * A run *)

#[local] Instance bench_tcp : Tcp := {| tcp_sndbuf := fun _ => 4096; tcp_write := fun _ => 0; tcp_output := fun _ => 0 |}.
#[local] Instance bench_env : WebEnv := {|
  env_build := []; env_ram_mib := 512; env_boot_reason := "POWER_ON"; env_recovery_reason := "BUTTON"; env_peb_count := 0;
  env_good_pebs := 0; env_bad_pebs := 0; env_corrupt_pebs := 0; env_oob_size := 64; eth_is_active := true;
  env_logo := []; env_favicon := []; env_root := [] |}.
#[local] Instance bench_concat : ConcatUbi := {| concat_ubi := fun _ => sret 0 |}.
Definition bench_memalign : Z := 0x88100000.

Definition web_init : web :=
  MkWeb stg_init probe_none [] [] [] [] pend_init false false None O uctx_init up_init fac_init led_init ∅ 0 (0, (0, 0)) [] false
    (EmptyString, (EmptyString, EmptyString)) true.
Definition web0 : web_t := (bench_hw, web_init).

Definition request (lines : list string) : list Z := concat (map (fun l => bytes_of l ++ crlf) lines) ++ crlf.
Definition begin_request : list Z :=
  request ["POST /api/ursus-fip-begin HTTP/1.1"; "X-Ursus-Total: 1037"; "X-Ursus-Generation: upload-0001"; "X-Ursus-Filename: u.fip"].
Definition chunk_request (off len : string) : list Z :=
  request ["POST /api/ursus-fip-chunk HTTP/1.1"; "Content-Length: " ++ len; "X-Ursus-Offset: " ++ off;
           "X-Ursus-Total: 1037"; "X-Ursus-Generation: upload-0001"]%string.
(** A FIP uploaded in two chunks, the second in two segments. *)
Definition bench_events : list net_event :=
  [EvAccept 0; EvRecv 1 0 (Some [begin_request]);
   EvAccept 0; EvRecv 2 0 (Some [chunk_request "0" "1000" ++ take 1000 bench_fip]);
   EvAccept 0; EvRecv 3 0 (Some [chunk_request "1000" "37" ++ take 20 (drop 1000 bench_fip); drop 1020 bench_fip])].
Definition web1 : web_t := snd (handle_events bench_memalign bench_events web0).


Lemma events_run `{Platform, Ext, Board, FitLib, Tcp, WebEnv, ConcatUbi} a l s r s' :
  handle_events a l s = (Some r, s') -> web_run a s s'.
Proof.
  revert s. induction l as [|e l IH]; intros s; cbn [handle_events]; [intros [= _ <-]; constructor|].
  unfold sbind. destruct (handle_event a e s) as [[q|] s1] eqn:He; cbn [fst snd]; [|by intros [=]].
  intros Hl. by eapply run_event, IH.
Qed.
Lemma bench_apart : memalign_apart bench_memalign.
Proof.
  intros k x. unfold in_window, bench_memalign, kind_addr, kind_max, URSUS_STAGE_ADDR, URSUS_STAGE_MAX, URSUS_UBI_PRELOADER_ADDR,
    URSUS_UBI_PRELOADER_MAX, URSUS_FIP_STAGE_ADDR, URSUS_FIP_STAGE_MAX, URSUS_UBI_BL2_SIZE. destruct k; simpl; lia.
Qed.
Lemma bench_outside : outside bench_memalign 0x80000000.
Proof.
  unfold outside, in_window, bench_memalign, kind_addr, kind_max, URSUS_STAGE_ADDR, URSUS_STAGE_MAX, URSUS_UBI_PRELOADER_ADDR,
    URSUS_UBI_PRELOADER_MAX, URSUS_FIP_STAGE_ADDR, URSUS_FIP_STAGE_MAX, URSUS_UBI_BL2_SIZE.
  split; [intros []; simpl; lia|lia].
Qed.
Lemma bench_concat_quiet : concat_quiet.
Proof. intros []; try done; apply _. Qed.
Lemma web0_fresh : fresh_server web0.
Proof. by split. Qed.
Lemma web1_end : fst (handle_events bench_memalign bench_events web0) = Some 0.
Proof. vm_cast_no_check (eq_refl (Some 0)). Qed.
Lemma web1_run : web_run bench_memalign web0 web1.
Proof. unfold web1. exact (events_run _ bench_events _ 0 _ (pair_fst _ _ web1_end)). Qed.
Lemma web1_valid : (g_fip_ok (w_stg (snd web1)), s_received (g_fip (w_stg (snd web1)))) = (true, 1037).
Proof. vm_cast_no_check (eq_refl (true, 1037)). Qed.

Lemma uploads_well_formed_witness :
  s_received (g_fip (w_stg (snd web1))) = 1037 /\ wf_session URSUS_UPLOAD_URSUS_FIP (g_fip (w_stg (snd web1))).
Proof.
  pose proof web1_valid as H. apply pair_equal_spec in H as [_ Hr]. split; [exact Hr|].
  apply (proj1 (uploads_well_formed bench_memalign web0 web1 bench_apart bench_concat_quiet web0_fresh web1_run)). done.
Defined.

(** The last callback of the run. *)
Definition late_events : list net_event := take 5 bench_events.
Definition late_chunk : net_event := List.last bench_events (EvPoll 0).
Definition web_a : web_t := snd (handle_events bench_memalign late_events web0).
Lemma web_a_end : fst (handle_events bench_memalign late_events web0) = Some 0.
Proof. vm_cast_no_check (eq_refl (Some 0)). Qed.
Lemma web_a_run : web_run bench_memalign web0 web_a.
Proof. unfold web_a. exact (events_run _ late_events _ 0 _ (pair_fst _ _ web_a_end)). Qed.
Lemma callbacks_write_staging_only_witness :
  fst (handle_event bench_memalign late_chunk web_a) = Some 0 /\
  h_ram (fst (snd (handle_event bench_memalign late_chunk web_a))) 0x80000000 = h_ram (fst web_a) 0x80000000.
Proof.
  assert (Hf : fst (handle_event bench_memalign late_chunk web_a) = Some 0) by (vm_cast_no_check (eq_refl (Some 0))).
  split; [exact Hf|].
  refine (callbacks_write_staging_only bench_memalign web0 web_a late_chunk 0 _ 0x80000000 bench_apart bench_concat_quiet web0_fresh _
    (pair_fst _ _ Hf) _).
  - exact web_a_run.
  - exact bench_outside.
Defined.
