(* ===== verification/WebReplyThms.v ===== *)
(** Responses reach the client whole and in order: however TCP paces the sender,
    what was handed to it is a prefix of the header and the body. *)
From S2P Require Import Prelude Bytes Fip Flash Ubi Shell Bl2 Jobs FipUpdate UbiEngine Migration FitUpdate Mmio Led Fit WebHeaders WebImage WebDevice WebState Bench WebRun.

Lemma take_slice a n (l : list Z) :
  0 <= a -> 0 <= n -> take (Z.to_nat a) l ++ slice a n l = take (Z.to_nat (a + n)) l.
Proof. intros Ha Hn. unfold slice. rewrite Z2Nat.inj_add by lia. apply take_take_drop. Qed.

Section response.
Context {N : Tcp}.

(** What a connection that answers with the text [l] has sent so far. *)
Record sending (l : list Z) (c : conn) : Prop := {
  sg_body : c_body c = BStatic l;
  sg_len : c_body_len c = blen l;
  sg_hdr : 0 <= c_hdr_off c <= hdr_len c;
  sg_off : 0 <= c_body_off c <= blen l;
  sg_order : c_hdr_off c < hdr_len c -> c_body_off c = 0;
  sg_sent : c_sent c = take (Z.to_nat (c_hdr_off c + c_body_off c)) (c_hdr c ++ l);
}.

Lemma sending_more l c chunk in_hdr :
  sending l c -> in_hdr = (c_hdr_off c <? hdr_len c) ->
  0 <= chunk <= (if in_hdr then hdr_len c - c_hdr_off c else c_body_len c - c_body_off c) ->
  let data := if in_hdr then slice (c_hdr_off c) chunk (c_hdr c) else slice (c_body_off c) chunk l in
  let c' := set_c_sent (c_sent c ++ data) c in
  sending l (if in_hdr then set_c_hdr_off (c_hdr_off c' + chunk) c' else set_c_body_off (c_body_off c' + chunk) c').
Proof.
  intros [H1 H2 H3 H4 H5 H6] Hin Hch. unfold hdr_len in *. destruct (Z.ltb_spec (c_hdr_off c) (blen (c_hdr c))); subst in_hdr; cbv zeta.
  - specialize (H5 H). split; unfold hdr_len; destruct c; cbn in *; subst; [done|done|lia|lia|lia|].
    rewrite <- (slice_app_l c_hdr_off chunk c_hdr l) by lia. rewrite !Z.add_0_r, take_slice by lia. done.
  - rewrite H2 in Hch. split; unfold hdr_len; destruct c; cbn in *; subst; [done|done|lia|lia|lia|].
    assert (c_hdr_off = blen c_hdr) as -> by lia.
    replace (slice c_body_off chunk l) with (slice (blen c_hdr + c_body_off) chunk (c_hdr ++ l)).
    + rewrite take_slice by lia. f_equal. lia.
    + rewrite slice_app_r by lia. f_equal. lia.
Qed.

(** A response counts as queued only when nothing is left. *)
Definition whole (c : conn) : Prop :=
  c_all_queued c = true -> c_hdr_off c = hdr_len c /\ c_body_off c = c_body_len c.
Definition answering (l hdr : list Z) (c : conn) : Prop := sending l c /\ whole c /\ c_hdr c = hdr.

Lemma wp_net_call f s (Q : Z -> web_t -> Prop) : (forall a s', Q a s') -> wp (net_call f) Q s.
Proof. intros H. apply wp_intro. auto. Qed.
Lemma wp_any {A} (m : ST web_t A) s (Q : A -> web_t -> Prop) : (forall a s', Q a s') -> wp m Q s.
Proof. intros H. apply wp_intro. auto. Qed.

Lemma pump_loop_answering l hdr fuel c wrote s :
  answering l hdr c -> wp (pump_loop fuel c wrote) (fun r _ => answering l hdr (snd (snd r))) s.
Proof.
  revert c wrote s. induction fuel as [|k IH]; intros c w s Hc; cbn [pump_loop]; [by wps|].
  destruct (_ || _) eqn:Hgo; [|by wps]. wps. apply wp_net_call. intros snd_ s1.
  destruct (Z.leb_spec snd_ 0) as [|Hs]; [by wps|]. destruct s1 as [h1 w1]. wps. apply wp_net_call. intros err s2.
  destruct (err =? ERR_MEM); [by wps|]. destruct (negb _); [by wps|]. cbv zeta.
  destruct Hc as (Hc & Hw & <-). rewrite (sg_body _ _ Hc). cbn [body_bytes].
  set (chunk := Z.min _ 1024). set (c1 := if c_hdr_off c <? hdr_len c then set_c_hdr_off _ _ else _). apply IH.
  split_and!.
  - apply sending_more; [done|done|]. unfold chunk. apply orb_prop in Hgo. destruct Hc as [_ H2 H3 H4 _ _].
    destruct (Z.ltb_spec (c_hdr_off c) (hdr_len c)); lia.
  - intros Hq. assert (c_all_queued c = true) as Hq' by (revert Hq; unfold c1; by destruct (c_hdr_off c <? hdr_len c), c).
    destruct (Hw Hq'). apply orb_prop in Hgo. lia.
  - unfold c1. by destruct (c_hdr_off c <? hdr_len c), c.
Qed.
Lemma pump_answering l hdr c s :
  answering l hdr c -> wp (ursus_http_pump c) (fun r _ => answering l hdr (snd r)) s.
Proof.
  intros Hc. unfold ursus_http_pump. apply wp_bind. eapply wp_mono; [by apply pump_loop_answering|].
  cbn beta. intros [err [wrote c1]] s1 H1. cbn [snd] in H1. destruct (negb _); [by wps|].
  apply wp_bind, wp_any. intros err2 s2. destruct (negb _); [by wps|].
  destruct (_ && _) eqn:Hd; [|by wps]. cbv zeta. apply wp_bind, wp_any. intros p s3. apply wp_bind, wp_any. intros _ s4. wps.
  apply andb_prop in Hd as [Hd Hb]. apply andb_prop in Hd as [_ Hh]. destruct H1 as (H1 & H2 & H3).
  split_and!; [|intros _|]; destruct c1; cbn in *; [|unfold hdr_len in *; cbn in *; lia|done].
  destruct H1 as [? ? ? ? ? ?]. by split.
Qed.

(** The states of a connection from the reply to its end: every callback sends
    more, with whatever answers TCP gives. *)
Inductive answered (c0 : conn) (status : Z) (ctype : string) (l : list Z) : conn -> Prop :=
  | ans_start s e c s' :
      ursus_http_start_response c0 status ctype (BStatic l) s = ((e, c), s') -> c_response_started c = true ->
      answered c0 status ctype l c
  | ans_pump c s e c' s' : answered c0 status ctype l c -> ursus_http_pump c s = ((e, c'), s') -> answered c0 status ctype l c'.

End response.

(** A sender with room for 50 bytes in every fourth call. *)
#[local] Instance slow_tcp : Tcp := {|
  tcp_sndbuf := fun n => if (n `mod` 4 =? 0)%nat then 50 else 0; tcp_write := fun _ => 0; tcp_output := fun _ => 0 |}.
Definition ans1 : Z * conn * web_t := ursus_http_start_response (conn_new 1) 200 TEXT (BStatic [104; 105]) web0.
Definition ans2 : Z * conn * web_t := ursus_http_pump (snd (fst ans1)) (snd ans1).
