(* ===== verification/WebLoopThms.v ===== *)
(** The main loop: an accepted reboot happens although the client is gone, and
    what a failed migration step leaves behind. *)
From S2P Require Import Prelude Bytes Fip Flash Ubi Shell Bl2 ReadOnly Jobs FipUpdate UbiEngine Migration FitUpdate Mmio Led Fit StockBoot WebHeaders WebImage WebDevice WebState WebUpload WebStatus WebRoute WebServer WebKeep WebInvThms Bench StockThms WebRun.

(** * The reboot deadline *)

(** Time, pending requests and the loop's flags are the same. *)
Record steady (s s' : web_t) : Prop := {
  sy_clock : h_clock (fst s') = h_clock (fst s);
  sy_pend : w_pend (snd s') = w_pend (snd s);
  sy_stop : w_stop (snd s') = w_stop (snd s);
  sy_cpend : w_cpend (snd s') = w_cpend (snd s);
  sy_net : w_network_failed (snd s') = w_network_failed (snd s);
}.
#[export] Instance steady_refl : Reflexive steady.
Proof. by split. Qed.
#[export] Instance steady_trans : Transitive steady.
Proof. intros ? ? ? [] []. split; congruence. Qed.
#[export] Instance wlog_steady l : Keeps steady (wlog l).
Proof. intros [h w]. by split; destruct w. Qed.
#[export] Instance set_rx_steady v : Keeps steady (onctx (set_w_rx v)).
Proof. intros [h w]. by split; destruct w. Qed.
#[export] Instance timer_steady b : Keeps steady (onhw (get_timer b)).
Proof. intros [h w]. by split. Qed.

Section loop.
Context {P : Platform} {X : Ext} {B : Board} {T : FitLib} {N : Tcp} {E : WebEnv} {C : ConcatUbi} {L : LedBoard}.
Variables (memalign_addr : Z) (run_line : list Z -> ST web_t (option (Z * list (list Z)))) (run_uart : list Z -> ST web_t Z) (spinand : option spinand_device)
  (reset_cmd : ST hw Z).

#[local] Instance led_steady : Keeps steady (on_led ursus_led_poll).
Proof.
  intros [h w]. unfold on_led. cbn [fst snd].
  assert (H : h_clock (fst (snd (ursus_led_poll (h, w_led w)))) = h_clock h); [|by split; destruct w].
  unfold ursus_led_poll, sbind, ctx, sget, id. cbn [fst snd]. destruct (active_pattern _); [done|..]; cbn [fst snd];
    unfold onhw, get_timer, sget; cbn [fst snd]; (destruct (_ && _); [done|]); [by destruct (_ <=? _)%nat|done].
Qed.
Lemma rx_steady ret : 0 <= ret -> Keeps steady (ursus_rx_report ret).
Proof.
  intros Hr. unfold ursus_rx_report. apply sbind_keeps; [apply _..|]. intros now. apply sbind_keeps; [apply _..|]. intros w.
  destruct (w_rx w) as [last [reps at_]]. destruct (Z.leb_spec 0 ret); [|lia].
  apply sbind_keeps; [apply _..|]. intros _. apply _.
Qed.

(** A turn in which nothing arrives. *)
Definition silent (t : turn) : Prop := t_uart t = [] /\ t_rx t = [] /\ t_timeouts t = [] /\ 0 <= t_rx_ret t.

Lemma reset_loop_all k n s :
  wp (reset_loop reset_cmd k n) (fun l _ => length l = k /\ Forall (fun a => exists r, a = AReset r) l) s.
Proof.
  revert n s. induction k as [|k IH]; intros n s; cbn [reset_loop]; [by wps|].
  apply wp_bind, wp_intro. intros _ s1 _. apply wp_bind, wp_intro. intros ret s2 _. apply wp_bind, wp_intro. intros _ s3 _.
  apply wp_bind, wp_intro. intros _ s4 _. apply wp_bind. eapply wp_mono; [apply IH|]. cbn beta. intros l s5 [Hl Hf]. wps.
  split; [simpl; congruence|]. constructor; eauto.
Qed.

(** C38: an accepted reboot does not depend on the client.  Once a confirmed reboot
    request was accepted (3000 ms ago or more), a turn in which nothing at all
    arrives ends the loop, whatever the connections, jobs and LEDs do, and the
    server then invokes the reset command, three times should it return. *)
Theorem reboot_happens_without_client t ts s :
  w_stop (snd s) = false -> w_cpend (snd s) = None -> w_network_failed (snd s) = false ->
  p_reboot (w_pend (snd s)) = true -> p_request_at (w_pend (snd s)) <> 0 -> silent t ->
  URSUS_REBOOT_FORCE_MS <= u64 (h_clock (fst s) + t_elapsed t - p_request_at (w_pend (snd s))) ->
  wp (main_loop memalign_addr run_line run_uart spinand (t :: ts)) (fun r s' => r = Some true /\
    wp (web_finish reset_cmd) (fun x _ => fst x = CMD_RET_FAILURE /\ length (snd x) = URSUS_REBOOT_RETRIES /\
      Forall (fun a => exists r, a = AReset r) (snd x)) s') s.
Proof.
  intros Hstop Hcp Hnet Hreb Hat (Hu & Hrx & Hto & Hret) Hdue. destruct s as [h w]. cbn [fst snd] in *.
  cbn [main_loop]. wps. rewrite Hstop. unfold loop_turn. wps. rewrite Hu, Hrx, Hto. unfold mdelay. wps.
  cbn [ursus_uart_shell_poll handle_events]. wps. rewrite Hstop. wps.
  pose proof (rx_steady _ Hret) as Hrxk. apply (wp_keeps steady (ursus_rx_report (t_rx_ret t))). intros _ s1 [Y1 Y2 Y3 Y4 Y5]. cbn [fst snd] in *.
  destruct s1 as [h1 w1]. wps. unfold ursus_console_service_pending. wps. cbn [fst snd] in *. rewrite Y4, Hcp. wps.
  apply (wp_keeps steady (on_led ursus_led_poll)). intros _ s2 [Z1 Z2 Z3 Z4 Z5]. destruct s2 as [h2 w2]. cbn [fst snd] in *.
  wps. unfold reboot_due. wps. unfold get_timer. wps.
  assert (Hc : h_clock h2 = h_clock h + t_elapsed t) by (rewrite Z1, Y1; by destruct h).
  assert (Hp : w_pend w2 = w_pend w) by congruence. rewrite Hc, Hp, Hreb. cbn [andb].
  assert (Hend : forall w3, w_pend w3 = w_pend w -> w_network_failed w3 = false -> w_stop w3 = true ->
    wp (main_loop memalign_addr run_line run_uart spinand ts) (fun r s' => r = Some true /\
      wp (web_finish reset_cmd) (fun x _ => fst x = CMD_RET_FAILURE /\ length (snd x) = URSUS_REBOOT_RETRIES /\
        Forall (fun a => exists r, a = AReset r) (snd x)) s') (h2, w3)).
  { intros w3 P1 P2 P3. assert (Hml : main_loop memalign_addr run_line run_uart spinand ts (h2, w3) = (Some true, (h2, w3))).
    { destruct ts; cbn [main_loop]; unfold sbind, ctx, sget; cbn [fst snd]; by rewrite P3. }
    apply wp_intro. intros r s' Er. rewrite Hml in Er. injection Er as <- <-. split; [done|].
    unfold web_finish, ursus_console_pending_clear. wps. unfold id.
    assert (w_network_failed (set_w_cpend None (set_w_running false w3)) = false) as -> by (by destruct w3).
    assert (p_reboot (w_pend (set_w_cpend None (set_w_running false w3))) = true) as -> by (destruct w3; cbn in *; congruence).
    unfold mdelay. wps. eapply wp_mono; [apply reset_loop_all|]. cbn beta. intros l s5 [Hl Hf].
    apply wp_bind, wp_intro. intros _ s6 _. by wps. }
  destruct (_ && _).
  - wps. unfold wlog. wps. apply Hend; destruct w2; cbn in *; congruence.
  - apply nz_true in Hat. rewrite Hat. cbn [andb]. destruct (Z.leb_spec URSUS_REBOOT_FORCE_MS (u64 (h_clock h + t_elapsed t - p_request_at (w_pend w)))); [|lia].
    wps. unfold wlog. wps. apply Hend; destruct w2; cbn in *; congruence.
Qed.

(** * A failing command *)

Lemma find_none name l : Forall (fun m => m_name m <> name) l -> find (fun m => bool_decide (m_name m = name)) l = None.
Proof. induction 1 as [|m l Hm _ IH]; [done|]. cbn [find]. by rewrite bool_decide_false. Qed.

(** The erase of a missing partition: the engine's result is positive. *)
Lemma format_fails h u :
  mig_active (us_mig u) = true -> mig_announced (us_mig u) = true -> mig_stage (us_mig u) = URSUS_MIG_FORMAT_UBI ->
  URSUS_MIG_STAGE_HOLD_MS <= u64 (h_clock h - mig_announced_at (us_mig u)) ->
  Forall (fun m => m_name m <> "ursus-ubi-full"%string) (h_mtds h) ->
  wp ursus_ubi_migration_step (fun r s => r = 1 /\ ursus_ubi_migration_failed (us_mig (snd s)) = true /\
    ursus_ubi_migration_transaction_state (us_mig (snd s)) = WRITE_STATE_UNKNOWN) (h, u).
Proof.
  intros Ha Han Hst Hheld Hno. unfold ursus_ubi_migration_step. wps. rewrite Ha, Han. cbn [negb]. wps. unfold get_timer. wps.
  destruct (Z.ltb_spec (u64 (h_clock h - mig_announced_at (us_mig u))) URSUS_MIG_STAGE_HOLD_MS); [lia|].
  unfold onmig. wps. rewrite Hst. cbn [mig_stage_step]. unfold mig_format_ubi, onmig. wps.
  unfold run_command at 1. cbn [command_code do_ubi]. unfold ubi_detach. wps. unfold mig_cmd, mig_try. wps.
  unfold run_command, command_code, do_mtd_erase, get_mtd_device_nm. wps.
  assert (h_mtds (set_ubi None h) = h_mtds h) as -> by (by destruct h). rewrite (find_none _ _ Hno). wps. cif.
  unfold ursus_mig_fail, onmig. wps. destruct u as [? ? ? ? m ?]. by destruct m.
Qed.

End loop.

(** * Instances *)

#[local] Existing Instance bench_env.
#[local] Existing Instance bench_concat.
#[local] Instance loop_leds : LedBoard := {| led_get_by_label := fun _ => true |}.
#[local] Instance loop_tcp : Tcp := {| tcp_sndbuf := fun _ => 0; tcp_write := fun _ => 0; tcp_output := fun _ => 0 |}.
Definition reboot_pend : pending := MkPend false false false false false true false 0 1000.
Definition reboot_web : web_t := (bench_hw, set_w_pend reboot_pend web_init).
Definition silent_turn : turn := MkTurn [] [] 0 [] 5000.
Lemma reboot_happens_without_client_witness :
  p_reboot (w_pend (snd reboot_web)) = true /\
  wp (main_loop bench_memalign (fun _ => sret None) (fun _ => sret 0) None [silent_turn]) (fun r s' => r = Some true /\
    wp (web_finish (sret 0)) (fun x _ => fst x = CMD_RET_FAILURE /\ length (snd x) = URSUS_REBOOT_RETRIES /\
      Forall (fun a => exists r, a = AReset r) (snd x)) s') reboot_web.
Proof.
  split; [reflexivity|].
  apply (reboot_happens_without_client bench_memalign (fun _ => sret None) (fun _ => sret 0) None (sret 0) silent_turn [] reboot_web);
    [reflexivity..|done|by split_and!|by vm_compute].
Defined.

Definition mig_web : web :=
  set_w_pend (MkPend false false false true false false false 0 0)
    (set_w_ubi (set_us_mig (set_mig_announced true (set_mig_active true (set_mig_stage URSUS_MIG_FORMAT_UBI mig_zero))) uctx_init) web_init).
