(* ===== verification/WebDeliver.v ===== *)
(** An upload delivers the file: chunk by chunk, whatever the sizes of the chunks
    and however TCP cuts them, the staging memory ends up with the file's bytes
    and the session is complete. *)
From S2P Require Import Prelude Bytes Fip Flash Ubi Shell UbiIo Bl2 ReadOnly Jobs FipUpdate UbiEngine Migration FitUpdate Mmio Led Fit WebHeaders WebImage WebImageThms WebAccept WebDevice WebState WebUpload WebStatus WebRoute WebServer WebKeep WebInv WebReply WebInvThms Bench StockThms WebRun.

(** * The check of an image changes no session and no staged byte *)

Record staged_same (s s' : web_t) : Prop := {
  ss_ram : forall k x, in_window k x -> h_ram (fst s') x = h_ram (fst s) x;
  ss_sess : forall k, ursus_upload_session k (w_stg (snd s')) = ursus_upload_session k (w_stg (snd s));
}.
#[export] Instance staged_same_refl : Reflexive staged_same.
Proof. by split. Qed.
#[export] Instance staged_same_trans : Transitive staged_same.
Proof. intros s1 s2 s3 [H1 H2] [H3 H4]. split; intros k; [intros y Hy; by rewrite (H3 k), (H1 k)|by rewrite H4, H2]. Qed.
Lemma quiet_staged s s' : quiet s s' -> staged_same s s'.
Proof. intros [H1 H2 _ _]. split; intros; by rewrite ?H1, ?H2. Qed.
#[export] Instance quiet_keeps_staged {A} (m : ST web_t A) : Keeps quiet m -> Keeps staged_same m | 20.
Proof. intros Hm s. apply quiet_staged, (Hm s). Qed.
Lemma onstg_staged f : (forall k g, ursus_upload_session k (f g) = ursus_upload_session k g) -> Keeps staged_same (onstg f).
Proof. intros Hf [h w]. split; [done|]. intros k. destruct w. cbn. apply Hf. Qed.
Lemma on_val_staged {A} get set (m : ST val_t A) :
  (forall i k g, ursus_upload_session k (set i g) = ursus_upload_session k g) -> Keeps fst_same m ->
  Keeps staged_same (on_val get set m).
Proof.
  intros Hs Hm [h w]. specialize (Hm (h, MkVal (get (w_stg w)) (cstr (w_log w)))). unfold fst_same, ram_same in Hm. cbn [fst] in Hm.
  unfold on_val. cbv zeta. split; cbn [fst snd]; [intros k y _; exact (f_equal (fun f => f y) Hm)|]. intros k. rewrite <- (Hs (v_img (snd (snd (m (h, MkVal (get (w_stg w)) (cstr (w_log w))))))) k (w_stg w)).
  unfold put_log. by destruct w.
Qed.
#[export] Instance val_img_staged {A} (m : ST val_t A) : Keeps fst_same m -> Keeps staged_same (on_val g_img set_g_img m).
Proof. apply on_val_staged. by intros i [] []. Qed.
#[export] Instance val_exp_staged {A} (m : ST val_t A) : Keeps fst_same m -> Keeps staged_same (on_val g_exp set_g_exp m).
Proof. apply on_val_staged. by intros i [] []. Qed.
#[export] Instance pre_ok_staged b : Keeps staged_same (onstg (set_g_pre_ok b)).
Proof. apply onstg_staged. by intros [] []. Qed.
#[export] Instance fip_ok_staged b : Keeps staged_same (onstg (set_g_fip_ok b)).
Proof. apply onstg_staged. by intros [] []. Qed.
#[export] Instance van_ok_staged b : Keeps staged_same (onstg (set_g_van_ok b)).
Proof. apply onstg_staged. by intros [] []. Qed.

Section deliver.
Context {P : Platform} {X : Ext} {B : Board} {T : FitLib} {N : Tcp} {E : WebEnv} {C : ConcatUbi}.
Variable memalign_addr : Z.
Hypothesis memalign_apart : forall k x, in_window k x -> x < memalign_addr \/ memalign_addr + URSUS_UBI_BL2_SIZE <= x.

#[local] Instance check_firmware_staged u : Keeps staged_same (check_firmware u).
Proof.
  unfold check_firmware. apply sbind_keeps; [apply _..|]. intros b. apply sbind_keeps; [apply _..|]. intros w.
  apply sbind_keeps; [apply _..|]. intros [v|]; apply _.
Qed.
#[local] Instance check_initramfs_staged u : Keeps staged_same (check_initramfs u).
Proof. unfold check_initramfs. apply _. Qed.
#[local] Instance check_fip_staged u : Keeps staged_same (check_fip u).
Proof. unfold check_fip. apply _. Qed.
#[local] Instance check_vanilla_staged u : Keeps staged_same (check_vanilla u).
Proof. unfold check_vanilla. apply _. Qed.
Lemma check_preloader_staged u h w :
  bl2_buf (us_bl2 (w_ubi w)) = None \/ bl2_buf (us_bl2 (w_ubi w)) = Some memalign_addr ->
  wp (check_preloader memalign_addr u) (fun _ s => staged_same (h, w) s) (h, w).
Proof.
  intros Hb. unfold check_preloader. wps.
  apply (wp_keeps ram_same (ursus_ubi_validate_preloader (s_addr u) (s_total u))). intros ret h1 Hr. unfold ram_same in Hr.
  set (m := if nz ret then _ else _).
  assert (Hm : wp m (fun _ s => staged_same (h, w) s) (h1, w)).
  { unfold m. destruct (nz ret); wps; [split; cbn; intros; by rewrite ?Hr|]. apply wp_ubi_web. unfold on_bl2. wps.
    eapply wp_mono; [by apply (prepare_bl2_inv memalign_addr)|]. cbn beta. intros [r b] h2 [_ Hout]. wps.
    split; cbn [fst snd]; [|by destruct w]. intros k x Hx. rewrite <- Hr. apply Hout. specialize (memalign_apart k x Hx). lia. }
  wps. eapply wp_mono; [exact Hm|]. cbn beta. intros r s1 H1.
  apply (wp_keeps staged_same _ (fun _ s => staged_same (h, w) s)). intros a s' Hs'. by etrans.
Qed.
Lemma check_upload_staged k u h w :
  bl2_buf (us_bl2 (w_ubi w)) = None \/ bl2_buf (us_bl2 (w_ubi w)) = Some memalign_addr ->
  wp (check_upload memalign_addr k u) (fun _ s => staged_same (h, w) s) (h, w).
Proof.
  intros Hb. destruct k; cbn [check_upload]; [..|];
    try (by apply (wp_keeps staged_same _ (fun _ s => staged_same (h, w) s))).
  wps. eapply wp_mono; [by apply check_preloader_staged|]. intros v s Hs. by wps.
Qed.

(** The check answers, unless the metadata scan of a firmware image leaves it. *)
Definition scannable (k : upload_kind) (u : session) : Prop := k = URSUS_UPLOAD_FIRMWARE -> 32 <= s_total u.
Lemma validate_staged_answers a buf l s : 32 <= blen buf -> wp (ursus_validate_staged a buf l) (fun r _ => r <> None) s.
Proof.
  intros Hb. assert (Hrep : forall ret s1, wp (staged_report l ret) (fun r _ => r <> None) s1).
  { intros ret s1. unfold staged_report. apply wp_bind, wp_intro. intros i s2 _. apply wp_bind, wp_intro. intros _ s3 _.
    apply wp_bind, wp_intro. intros _ s4 _. by wps. }
  unfold ursus_validate_staged. apply wp_bind, wp_intro. intros _ s1 _. apply wp_bind, wp_intro. intros _ s2 _.
  destruct (_ || _); [apply wp_bind, wp_intro; intros ret s3 _; apply Hrep|].
  destruct (_ <? _); [apply wp_bind, wp_intro; intros ret s3 _; apply Hrep|].
  destruct (ursus_parse_fwtool_meta buf) as [[mret m]|] eqn:Hp.
  - apply wp_bind, wp_intro. intros _ s3 _. apply wp_bind, wp_intro. intros ret s4 _. apply Hrep.
  - exfalso. unfold ursus_parse_fwtool_meta in Hp. destruct (Z.ltb_spec (blen buf) 24); [lia|].
    revert Hp. apply fwtool_scan_ends. destruct (Z.ltb_spec 0x100000 (blen buf)); lia.
Qed.
Lemma check_upload_answers k u s : scannable k u -> wp (check_upload memalign_addr k u) (fun r _ => r <> None) s.
Proof.
  intros Hs. destruct k; cbn [check_upload]; try (apply wp_bind, wp_intro; intros v s1 _; by wps).
  specialize (Hs eq_refl). unfold check_firmware. destruct s as [h w]. wps. unfold ram_read. wps. unfold id. apply wp_on_val.
  eapply wp_mono; [apply validate_staged_answers; rewrite blen_mread by lia; lia|]. cbn beta. intros [v|] s1 H1; [|done].
  apply wp_bind, wp_intro. intros _ s2 _. by wps.
Qed.

(** * A chunk *)

(** The session after [dn] bytes. *)
Definition advanced (dn : Z) (u : session) : session :=
  let u1 := set_s_received dn u in if dn =? s_total u then set_s_active false u1 else u1.

Lemma session_set k u g v : ursus_upload_session k g = Some v -> ursus_upload_session k (set_session k u g) = Some u.
Proof. by destruct k, g. Qed.
Lemma set_session_twice k u v g : set_session k u (set_session k v g) = set_session k u g.
Proof. by destruct k, g. Qed.

(** A reply after a change: same chunk, same stage. *)
Definition replied (c : conn) (s0 : web_t) (r : option (Z * conn)) (s : web_t) : Prop :=
  exists e c', r = Some (e, c') /\ UpSame c c' /\ staged_same s0 s.
Lemma wp_replied c st t b s0 s :
  staged_same s0 s -> wp (let* r := ursus_http_start_response c st t b in sret (Some r)) (replied c s0) s.
Proof.
  intros Hs. apply wp_bind. eapply wp_mono.
  - apply wp_and; [apply (wp_replies c _ s (fun r _ => UpSame c (snd r))); auto|].
    apply (wp_keeps staged_same _ (fun _ s' => staged_same s s')); auto.
  - cbn beta. intros [e c'] s' [Hu Hs']. wps. exists e, c'. split_and!; [done|done|by etrans].
Qed.

Lemma chunk_done_spec c u h w :
  bl2_buf (us_bl2 (w_ubi w)) = None \/ bl2_buf (us_bl2 (w_ubi w)) = Some memalign_addr ->
  ursus_upload_session (c_upload_kind c) (w_stg w) = Some u -> c_upload_generation c = s_generation u ->
  0 <= c_upload_offset c + c_content_len c < 2 ^ 64 -> scannable (c_upload_kind c) u ->
  let dn := c_upload_offset c + c_content_len c in
  wp (chunk_done memalign_addr c u)
    (replied c (h, set_w_stg (set_session (c_upload_kind c) (advanced dn u) (w_stg w)) w)) (h, w).
Proof.
  intros Hb Hu Hg Hr Hscan dn. unfold chunk_done. rewrite u64_small by done. fold dn. rewrite Hg, memeq_refl. cbn [negb].
  assert (Ht : s_total (set_s_received dn u) = s_total u) by (by destruct u). wps. apply wp_onstg.
  unfold advanced. cbv zeta. rewrite Ht. destruct (dn =? s_total u).
  - wps. apply wp_onstg. set (u2 := set_s_active false _).
    assert (w_stg (set_w_stg (set_session (c_upload_kind c) (set_s_received dn u) (w_stg w)) w) =
            set_session (c_upload_kind c) (set_s_received dn u) (w_stg w)) as -> by (by destruct w).
    rewrite set_session_twice.
    set (w2 := set_w_stg _ (set_w_stg _ w)). set (w3 := set_w_stg _ w).
    assert (w2 = w3) as -> by (unfold w2, w3; by destruct w).
    wps. apply (wp_keeps quiet (wlog _)). intros _ [h4 w4] Hq. wps.
    assert (H4 : bl2_buf (us_bl2 (w_ubi w4)) = None \/ bl2_buf (us_bl2 (w_ubi w4)) = Some memalign_addr).
    { pose proof (q_bl2 _ _ Hq) as Hq4. cbn [snd] in Hq4. rewrite Hq4. unfold w3. by destruct w. }
    eapply wp_mono; [apply wp_and; [by apply check_upload_staged|apply (check_upload_answers (c_upload_kind c) u2); unfold u2; by destruct u]|].
    cbn beta. intros [v|] s5 [H5 Hne]; [|done].
    apply wp_replied. etrans; [by apply quiet_staged|done].
  - wps. apply (wp_keeps quiet (set_reply _)). intros _ s5 H5. apply wp_replied. by apply quiet_staged.
Qed.

(** ** Its pieces *)

Lemma mwrite_app m a d e x : mwrite (mwrite m a d) (a + blen d) e x = mwrite m a (d ++ e) x.
Proof.
  unfold mwrite. rewrite blen_app. unfold blen in *.
  destruct (Z.leb_spec (a + Z.of_nat (length d)) x), (Z.ltb_spec x (a + Z.of_nat (length d) + Z.of_nat (length e))),
    (Z.leb_spec a x), (Z.ltb_spec x (a + (Z.of_nat (length d) + Z.of_nat (length e)))),
    (Z.ltb_spec x (a + Z.of_nat (length d))); cbn [andb]; try lia; try done.
  - rewrite lookup_app_r by lia. do 2 f_equal. lia.
  - rewrite lookup_app_l by lia. done.
Qed.
Lemma feed_empty q c s :
  Forall (fun d => d = []) q -> c_headers_done c = true -> feed_pbufs memalign_addr c q s = (Some (ERR_OK, c), s).
Proof.
  intros Hq Hd. induction Hq as [|d q -> _ IH]; [done|]. cbn [feed_pbufs]. unfold sbind, ursus_feed_bytes.
  destruct (c_response_started c); [exact IH|]. cbn [feed_headers]. rewrite Hd. unfold sbind, sret. cbn [fst snd].
  replace (c_is_upload c && (0 <? blen [])) with false by (by destruct (c_is_upload c)). exact IH.
Qed.
Lemma concat_nil (q : list (list Z)) : blen (concat q) = 0 -> Forall (fun d => d = []) q.
Proof.
  induction q as [|d q IH]; [constructor|]. cbn [concat]. rewrite blen_app. pose proof (blen_nonneg d). pose proof (blen_nonneg (concat q)).
  intros H1. constructor; [|apply IH; lia]. destruct d; [done|]. unfold blen in *. simpl in *. lia.
Qed.

(** The chunk is in place and the session has advanced. *)
Definition delivered (k : upload_kind) (ram : Z -> Z) (a : Z) (data : list Z) (u' : session) (s : web_t) : Prop :=
  (forall x, in_window k x -> h_ram (fst s) x = mwrite ram a data x) /\
  ursus_upload_session k (w_stg (snd s)) = Some u'.

Definition bl2_ready (s : web_t) : Prop :=
  bl2_buf (us_bl2 (w_ubi (snd s))) = None \/ bl2_buf (us_bl2 (w_ubi (snd s))) = Some memalign_addr.

(** A chunk's body in pieces [q], of which [n] bytes have arrived before. *)
Record receiving (c : conn) (u : session) (q : list (list Z)) (s : web_t) : Prop := {
  rv_upload : c_is_upload c = true;
  rv_done : c_headers_done c = true;
  rv_open : c_response_started c = false;
  rv_len : 0 <= c_upload_received c /\ c_upload_received c + blen (concat q) = c_content_len c;
  rv_range : 0 <= c_upload_offset c /\ c_upload_offset c + c_content_len c < 2 ^ 64;
  rv_some : 0 < blen (concat q);
  rv_session : ursus_upload_session (c_upload_kind c) (w_stg (snd s)) = Some u;
  rv_active : s_active u = true;
  rv_gen : c_upload_generation c = s_generation u;
  rv_bl2 : bl2_ready s;
  rv_scan : scannable (c_upload_kind c) u;
}.

Lemma feed_pieces q c u h w :
  receiving c u q (h, w) ->
  wp (feed_pbufs memalign_addr c q) (fun r s => is_Some r /\
    delivered (c_upload_kind c) (h_ram h) (c_upload_addr c + c_upload_offset c + c_upload_received c) (concat q)
      (advanced (c_upload_offset c + c_content_len c) u) s) (h, w).
Proof.
  revert c h. induction q as [|d q IH]; intros c h R; [pose proof (rv_some _ _ _ _ R) as H0; by vm_compute in H0|]. pose proof R as [R1 R2 R3 R4 R5 R6 R7 R8 R9 R10 R11].
  cbn [concat] in *. rewrite blen_app in R4, R6. pose proof (blen_nonneg d) as Hd0. pose proof (blen_nonneg (concat q)) as Hq0.
  cbn [feed_pbufs]. wps. unfold ursus_feed_bytes. rewrite R3. wps.
  assert (feed_headers d c = sret ((None, d), c)) as -> by (destruct d; cbn [feed_headers]; by rewrite R2).
  wps. rewrite R1. cbn [andb]. destruct (Z.ltb_spec 0 (blen d)) as [Hd|Hd].
  2:{ assert (d = []) as -> by (destruct d; [done|unfold blen in Hd; simpl in Hd; lia]). wps. cbn [app]. apply IH. by split. }
  unfold feed_body. wps. unfold id. cbn [snd] in R7. rewrite R7, R8. cbn [negb]. rewrite u64_small by lia.
  assert (Z.min (c_content_len c - c_upload_received c) (blen d) = blen d) as -> by lia.
  rewrite (proj2 (nz_true (blen d))) by lia. wps. rewrite slice_all.
  apply ram_write_spec. intros h1 _ Hram. wps. cbv zeta. set (c1 := set_c_upload_received _ c).
  assert (Hc1 : c_upload_received c1 = c_upload_received c + blen d /\ c_content_len c1 = c_content_len c /\
    c_upload_kind c1 = c_upload_kind c /\ c_upload_addr c1 = c_upload_addr c /\ c_upload_offset c1 = c_upload_offset c /\
    c_headers_done c1 = true /\ c_is_upload c1 = true /\ c_response_started c1 = false /\
    c_upload_generation c1 = c_upload_generation c) by (unfold c1; by destruct c).
  destruct Hc1 as (E1 & E2 & E3 & E4 & E5 & E6 & E7 & E8 & E9).
  destruct (Z.eqb_spec (c_upload_received c1) (c_content_len c1)) as [Heq|Hne].
  - eapply wp_mono; [apply chunk_done_spec; [exact R10|by rewrite E3|by rewrite E9|rewrite E5, E2; lia|by rewrite E3]|]. cbn beta.
    intros r2 s2 (e & c2 & -> & Hup & Hst). rewrite E3, E5, E2 in Hst.
    assert (Hend : delivered (c_upload_kind c) (h_ram h) (c_upload_addr c + c_upload_offset c + c_upload_received c) (d ++ concat q)
        (advanced (c_upload_offset c + c_content_len c) u) s2).
    { assert (Hq : Forall (fun d => d = []) q) by (apply concat_nil; lia).
      assert (concat q = []) as -> by (clear -Hq; by induction Hq as [|d' q' -> _ IHq]). rewrite app_nil_r.
      destruct Hst as [S1 S2]. split; [intros x Hx; by rewrite (S1 _ x Hx), <- Hram|]. rewrite S2. cbn [snd].
      destruct w. cbn in *. by apply (session_set _ _ _ u). }
    destruct (e =? ERR_OK); [|by wps; eauto].
    apply wp_intro. intros r s' Er. rewrite feed_empty in Er; [injection Er as <- <-; by eauto| |].
    + apply concat_nil. lia.
    + unfold UpSame, up_part in Hup. injection Hup as -> _ _ _ _ _ _. done.
  - wps. change (ERR_OK =? ERR_OK) with true. cbv iota. eapply wp_mono; [apply (IH c1 h1)|].
    + split; rewrite ?E1, ?E2, ?E3, ?E5, ?E9; try done; lia.
    + cbn beta. intros r s [Hr [H1 H2]]. rewrite E1, E2, E3, E4, E5 in *. split; [done|]. split; [|done].
      intros x Hx. rewrite H1, Hram by done. rewrite <- mwrite_app. f_equal; lia.
Qed.

(** * A file *)

(** A request for a chunk, once its headers are complete: what the end of the
    headers and the data behind it do. *)
Definition put_chunk (k : upload_kind) (c : conn) (q : list (list Z)) : ST web_t (option (Z * conn)) :=
  let* r := ursus_prepare_chunk c k in
  let '(e, c1) := r in
  if negb (e =? ERR_OK) || c_response_started c1 then sret (Some (e, c1)) else feed_pbufs memalign_addr c1 q.
Fixpoint put_chunks (k : upload_kind) (l : list (conn * list (list Z))) : ST web_t (option unit) :=
  match l with
  | [] => sret (Some tt)
  | (c, q) :: l' =>
    let* r := put_chunk k c q in
    match r with None => sret None | Some _ => put_chunks k l' end
  end.

(** The headers of the request of [c]. *)
Record asks (c : conn) (gen : list Z) (total off len : Z) : Prop := {
  ak_idle : idle c;
  ak_done : c_headers_done c = true;
  ak_open : c_response_started c = false;
  ak_len : ursus_parse_content_length (cstr (c_reqhdr c)) = len;
  ak_off : ursus_parse_header_ulong (cstr (c_reqhdr c)) "X-Ursus-Offset" = Some off;
  ak_total : ursus_parse_header_ulong (cstr (c_reqhdr c)) "X-Ursus-Total" = Some total;
  ak_gen : ursus_parse_header_value (cstr (c_reqhdr c)) "X-Ursus-Generation" URSUS_GENERATION_MAX = Some gen;
}.
(** A client that sends [l] from offset [off] on, in chunks of 1 to 65536 bytes. *)
Fixpoint client (gen : list Z) (total off : Z) (l : list (conn * list (list Z))) : Prop :=
  match l with
  | [] => off = total
  | (c, q) :: l' =>
    asks c gen total off (blen (concat q)) /\ 0 < blen (concat q) <= URSUS_UPLOAD_CHUNK_MAX /\
    client gen total (off + blen (concat q)) l'
  end.
Definition file_of (l : list (conn * list (list Z))) : list Z := concat (map (fun p => concat (snd p)) l).

Lemma prepare_accepts k c u len s :
  ursus_upload_session k (w_stg (snd s)) = Some u -> s_active u = true ->
  asks c (s_generation u) (s_total u) (s_received u) len -> 0 < len <= URSUS_UPLOAD_CHUNK_MAX ->
  0 <= s_received u -> s_received u + len <= s_total u -> s_total u <= s_max_len u < 2 ^ 64 ->
  exists c1, ursus_prepare_chunk c k s = ((ERR_OK, c1), s) /\ c_is_upload c1 = true /\ c_headers_done c1 = true /\
    c_response_started c1 = false /\ c_upload_received c1 = 0 /\ c_content_len c1 = len /\ c_upload_kind c1 = k /\
    c_upload_addr c1 = s_addr u /\ c_upload_offset c1 = s_received u /\ c_upload_generation c1 = s_generation u.
Proof.
  intros Hu Ha [[I1 I2] A2 A3 A4 A5 A6 A7] Hl H0 Hle Hm. unfold ursus_prepare_chunk, sbind, ctx, sget, id. cbn [fst snd].
  rewrite A4, A5, A6, A7, Hu, Ha. cbn [default].
  destruct (Z.eqb_spec len 0); [lia|]. destruct (Z.ltb_spec URSUS_UPLOAD_CHUNK_MAX len); [lia|]. cbn [orb negb].
  rewrite memeq_refl, !Z.eqb_refl. cbn [negb]. destruct (Z.ltb_spec (s_total u) (s_received u)); [lia|].
  destruct (Z.ltb_spec (s_total u - s_received u) len); [lia|]. cbn [orb]. rewrite u64_small by lia.
  destruct (Z.ltb_spec (s_max_len u) (s_received u + len)); [lia|]. eexists. split; [reflexivity|]. destruct c. by cbn in *.
Qed.

Hypothesis Hconcat : concat_quiet.
Abbreviation inv := (web_inv memalign_addr (fun _ => True)).

Lemma mwrite_ext m m' a l x : m x = m' x -> mwrite m a l x = mwrite m' a l x.
Proof. intros H. unfold mwrite. by rewrite H. Qed.
Lemma true_stable : frame_stable memalign_addr (fun _ => True).
Proof. done. Qed.
Lemma client_bound gen total l off : client gen total off l -> off <= total.
Proof. revert off. induction l as [|[c q] l IH]; intros off; cbn; [lia|]. intros (_ & ? & H). specialize (IH _ H). lia. Qed.

Lemma put_chunk_delivers k c q u s :
  inv s -> ursus_upload_session k (w_stg (snd s)) = Some u -> s_active u = true ->
  asks c (s_generation u) (s_total u) (s_received u) (blen (concat q)) -> 0 < blen (concat q) <= URSUS_UPLOAD_CHUNK_MAX ->
  s_received u + blen (concat q) <= s_total u -> scannable k u ->
  wp (put_chunk k c q) (fun r s' => is_Some r /\ inv s' /\
    delivered k (h_ram (fst s)) (s_addr u + s_received u) (concat q) (advanced (s_received u + blen (concat q)) u) s') s.
Proof.
  intros Hi Hu Ha Hask Hl Hle Hscan. assert (Hk : k <> URSUS_UPLOAD_NONE) by (by intros ->).
  destruct (si_sess _ _ (wi_stg _ _ _ Hi) k u Hu) as [->|(Sa & Sm & Sr & St)]; [done|]. pose proof (kind_max_u64 k) as Hmax.
  destruct (prepare_accepts k c u _ s Hu Ha Hask Hl) as (c1 & Hp & C1 & C2 & C3 & C4 & C5 & C6 & C7 & C8 & C9); [lia..|].
  assert (Hwf : wf_conn c1).
  { pose proof (prepare_chunk_wf memalign_addr _ c k s Hi (ak_idle _ _ _ _ _ Hask) (ak_done _ _ _ _ _ Hask) Hk) as Hwp.
    apply (wp_run _ _ _ _ _ Hwp) in Hp as [Hp _]. exact Hp. }
  unfold put_chunk. apply wp_bind, wp_intro. intros r s1 Er. rewrite Hp in Er. injection Er as <- <-. rewrite C3.
  change (negb (ERR_OK =? ERR_OK) || false) with false. cbv iota. destruct s as [h w].
  eapply wp_mono; [apply wp_and; [apply (feed_pieces q c1 u h w)|apply (feed_pbufs_inv memalign_addr _ true_stable memalign_apart Hconcat q c1 (h, w) Hi Hwf)]|].
  - split; rewrite ?C1, ?C2, ?C4, ?C5, ?C6, ?C8, ?C9; try done; try lia. apply (wi_bl2 _ _ _ Hi).
  - cbn beta. intros r s' [[Hr H1] H2]. split; [done|]. split; [destruct Hr as [[e c'] ->]; by destruct (H2 e c' eq_refl)|].
    rewrite C4, C5, C6, C7, C8, Z.add_0_r in H1. exact H1.
Qed.

Lemma put_chunks_deliver k l u s :
  inv s -> ursus_upload_session k (w_stg (snd s)) = Some u -> s_active u = true -> s_received u < s_total u ->
  client (s_generation u) (s_total u) (s_received u) l -> scannable k u ->
  wp (put_chunks k l) (fun r s' => r = Some tt /\
    delivered k (h_ram (fst s)) (s_addr u + s_received u) (file_of l) (set_s_active false (set_s_received (s_total u) u)) s') s.
Proof.
  revert u s. induction l as [|[c q] l IH]; intros u s Hi Hu Ha Hlt Hc Hscan; cbn [client put_chunks] in *; [lia|].
  destruct Hc as (Hask & Hl & Hc).
  pose proof (client_bound _ _ _ _ Hc) as Hle.
  apply wp_bind. eapply wp_mono; [by apply put_chunk_delivers|]. cbn beta. intros r1 s1 ([[e c'] ->] & Hi1 & [D1 D2]). set (dn := s_received u + blen (concat q)) in *.
  assert (Hfile : file_of ((c, q) :: l) = concat q ++ file_of l) by done.
  destruct (Z.eqb_spec dn (s_total u)) as [Hd|Hd].
  - assert (l = []) as ->.
    { destruct l as [|[c2 q2] l]; [done|]. cbn in Hc. destruct Hc as (_ & ? & Hc). apply client_bound in Hc. lia. }
    cbn [put_chunks]. wps. split; [done|]. rewrite Hfile. change (file_of []) with (@nil Z). rewrite app_nil_r.
    split; [done|]. rewrite D2. unfold advanced. rewrite Hd, Z.eqb_refl. done.
  - assert (Hadv : advanced dn u = set_s_received dn u) by (unfold advanced; by destruct (Z.eqb_spec dn (s_total u))).
    rewrite Hadv in D2. set (u1 := set_s_received dn u) in *.
    assert (E1 : s_generation u1 = s_generation u /\ s_total u1 = s_total u /\ s_received u1 = dn /\ s_active u1 = true /\ s_addr u1 = s_addr u)
      by (unfold u1; by destruct u).
    destruct E1 as (E1 & E2 & E3 & E4 & E5).
    eapply wp_mono; [apply (IH u1 s1); [done|done|done|lia|by rewrite E1, E2, E3|unfold scannable; by rewrite E2]|]. cbn beta. intros r s2 [Hr [F1 F2]].
    split; [done|]. rewrite E2, E3, E5 in *. rewrite Hfile. split.
    + intros x Hx. rewrite F1 by done. rewrite <- mwrite_app. unfold dn. rewrite Z.add_assoc. by apply mwrite_ext, D1.
    + rewrite F2. unfold u1. by destruct u.
Qed.

End deliver.

(** * A file in two chunks *)

#[local] Existing Instance bench_tcp.
#[local] Existing Instance bench_env.
#[local] Existing Instance bench_concat.
Definition opened_web : web_t := snd (handle_events bench_memalign (take 2 bench_events) web0).
Definition chunk_conn (id : Z) (off len : string) : conn :=
  set_c_headers_done true (set_c_reqhdr (chunk_request off len) (conn_new id)).
Definition bench_client : list (conn * list (list Z)) :=
  [(chunk_conn 2 "0" "1000", [take 600 bench_fip; take 400 (drop 600 bench_fip)]);
   (chunk_conn 3 "1000" "37", [take 20 (drop 1000 bench_fip); []; drop 1020 bench_fip])].
Definition bench_session : session :=
  MkSess URSUS_UPLOAD_URSUS_FIP URSUS_FIP_STAGE_ADDR URSUS_FIP_STAGE_MAX 1037 0 true (bytes_of "upload-0001") (bytes_of "u.fip").
Lemma opened_end : fst (handle_events bench_memalign (take 2 bench_events) web0) = Some 0.
Proof. vm_cast_no_check (eq_refl (Some 0)). Qed.
Lemma opened_run : web_run bench_memalign web0 opened_web.
Proof. unfold opened_web. exact (events_run _ (take 2 bench_events) _ 0 _ (pair_fst _ _ opened_end)). Qed.
Lemma opened_session : ursus_upload_session URSUS_UPLOAD_URSUS_FIP (w_stg (snd opened_web)) = Some bench_session.
Proof. vm_cast_no_check (eq_refl (Some bench_session)). Qed.
Lemma bench_asks id off len o n :
  ursus_parse_content_length (chunk_request off len) = n ->
  ursus_parse_header_ulong (chunk_request off len) "X-Ursus-Offset" = Some o ->
  ursus_parse_header_ulong (chunk_request off len) "X-Ursus-Total" = Some 1037 ->
  ursus_parse_header_value (chunk_request off len) "X-Ursus-Generation" URSUS_GENERATION_MAX = Some (bytes_of "upload-0001") ->
  cstr (chunk_request off len) = chunk_request off len ->
  asks (chunk_conn id off len) (bytes_of "upload-0001") 1037 o n.
Proof. intros H1 H2 H3 H4 H5. split; [done|done|done|..]; cbn [c_reqhdr chunk_conn set_c_headers_done set_c_reqhdr conn_new]; by rewrite H5. Qed.
Lemma bench_client_ok : client (bytes_of "upload-0001") 1037 0 bench_client.
Proof.
  split; [apply bench_asks; vm_compute; reflexivity|]. split; [by vm_compute|].
  split; [apply bench_asks; vm_compute; reflexivity|]. split; [by vm_compute|]. vm_compute. reflexivity.
Qed.
