(* ===== verification/Sha256.v ===== *)
(** SHA-256 (lib/sha256.c, lib/sha256_common.c), the digest of the pinned boot
    images: the compression function with its rotating register names, the
    buffering of partial blocks, padding, and the chunked driver.  Words are 32-bit
    values, blocks and messages byte lists. *)
From S2P Require Import Prelude Bytes.

Record sha256_context := MkSha {
  sc_total0 : Z;
  sc_total1 : Z;
  sc_state : list Z;
  sc_buffer : list Z;
}.

(** [GET_UINT32_BE(n, b, i)] and [PUT_UINT32_BE(n, b, i)]. *)
Definition GET_UINT32_BE (b : list Z) (i : nat) : Z :=
  Z.lor (Z.lor (Z.lor (Z.shiftl (nth i b 0) 24) (Z.shiftl (nth (i + 1) b 0) 16))
               (Z.shiftl (nth (i + 2) b 0) 8)) (nth (i + 3) b 0).
Definition u8 (z : Z) : Z := z `mod` 256.
Definition PUT_UINT32_BE (n : Z) : list Z :=
  [u8 (Z.shiftr n 24); u8 (Z.shiftr n 16); u8 (Z.shiftr n 8); u8 n].

Definition sha256_init_state : list Z :=
  [0x6A09E667; 0xBB67AE85; 0x3C6EF372; 0xA54FF53A; 0x510E527F; 0x9B05688C; 0x1F83D9AB; 0x5BE0CD19].
(** The buffer is not initialised. *)
Definition sha256_starts (buffer : list Z) : sha256_context := MkSha 0 0 sha256_init_state buffer.

(** * The compression function *)

Definition SHR (x n : Z) : Z := Z.shiftr (Z.land x 0xFFFFFFFF) n.
Definition ROTR (x n : Z) : Z := Z.lor (SHR x n) (u32 (Z.shiftl x (32 - n))).
Definition S0 (x : Z) : Z := Z.lxor (Z.lxor (ROTR x 7) (ROTR x 18)) (SHR x 3).
Definition S1 (x : Z) : Z := Z.lxor (Z.lxor (ROTR x 17) (ROTR x 19)) (SHR x 10).
Definition S2 (x : Z) : Z := Z.lxor (Z.lxor (ROTR x 2) (ROTR x 13)) (ROTR x 22).
Definition S3 (x : Z) : Z := Z.lxor (Z.lxor (ROTR x 6) (ROTR x 11)) (ROTR x 25).
Definition F0 (x y z : Z) : Z := Z.lor (Z.land x y) (Z.land z (Z.lor x y)).
Definition F1 (x y z : Z) : Z := Z.lxor z (Z.land x (Z.lxor y z)).

(** [R(t)], the next word of the schedule. *)
Definition R (w : list Z) (t : nat) : Z :=
  u32 (S1 (nth (t - 2) w 0) + nth (t - 7) w 0 + S0 (nth (t - 15) w 0) + nth (t - 16) w 0).

(** The variable that plays role [j] ([a] is 0, [h] is 7) in round [t]: the rounds
    name the variables [A] to [H] rotated by one each time. *)
Definition role (t j : nat) : nat := (j + 7 * t) mod 8.
(** [P(a,b,c,d,e,f,g,h,x,K)] in round [t]; [r] holds [A] to [H]. *)
Definition P (t : nat) (r : list Z) (x K : Z) : list Z :=
  let v j := nth (role t j) r 0 in
  let temp1 := u32 (v 7%nat + S3 (v 4%nat) + F1 (v 4%nat) (v 5%nat) (v 6%nat) + K + x) in
  let temp2 := u32 (S2 (v 0%nat) + F0 (v 0%nat) (v 1%nat) (v 2%nat)) in
  <[role t 7 := u32 (temp1 + temp2)]> (<[role t 3 := u32 (v 3%nat + temp1)]> r).

Definition K256 : list Z :=
  [0x428A2F98; 0x71374491; 0xB5C0FBCF; 0xE9B5DBA5; 0x3956C25B; 0x59F111F1; 0x923F82A4; 0xAB1C5ED5;
   0xD807AA98; 0x12835B01; 0x243185BE; 0x550C7DC3; 0x72BE5D74; 0x80DEB1FE; 0x9BDC06A7; 0xC19BF174;
   0xE49B69C1; 0xEFBE4786; 0x0FC19DC6; 0x240CA1CC; 0x2DE92C6F; 0x4A7484AA; 0x5CB0A9DC; 0x76F988DA;
   0x983E5152; 0xA831C66D; 0xB00327C8; 0xBF597FC7; 0xC6E00BF3; 0xD5A79147; 0x06CA6351; 0x14292967;
   0x27B70A85; 0x2E1B2138; 0x4D2C6DFC; 0x53380D13; 0x650A7354; 0x766A0ABB; 0x81C2C92E; 0x92722C85;
   0xA2BFE8A1; 0xA81A664B; 0xC24B8B70; 0xC76C51A3; 0xD192E819; 0xD6990624; 0xF40E3585; 0x106AA070;
   0x19A4C116; 0x1E376C08; 0x2748774C; 0x34B0BCB5; 0x391C0CB3; 0x4ED8AA4A; 0x5B9CCA4F; 0x682E6FF3;
   0x748F82EE; 0x78A5636F; 0x84C87814; 0x8CC70208; 0x90BEFFFA; 0xA4506CEB; 0xBEF9A3F7; 0xC67178F2].

(** The rounds from [t] on; from round 16 on the schedule is extended. *)
Fixpoint rounds (ks : list Z) (t : nat) (w r : list Z) : list Z :=
  match ks with
  | [] => r
  | K :: ks' =>
    let w := if (t <? 16)%nat then w else w ++ [R w t] in
    rounds ks' (S t) w (P t r (nth t w 0) K)
  end.
Definition first_words (data : list Z) : list Z := map (fun i => GET_UINT32_BE data (4 * i)) (seq 0 16).
Definition sha256_process_one (st data : list Z) : list Z :=
  zip_with (fun a b => u32 (a + b)) st (rounds K256 0 (first_words data) st).
Fixpoint sha256_process (blocks : nat) (st data : list Z) : list Z :=
  match blocks with
  | O => st
  | S blocks' => sha256_process blocks' (sha256_process_one st data) (drop 64 data)
  end.

(** * Messages *)

(** [memcpy] of [l] into the buffer at [pos]. *)
Definition buf_copy (buf : list Z) (pos : nat) (l : list Z) : list Z :=
  take pos buf ++ l ++ drop (pos + length l) buf.

Definition sha256_update (c : sha256_context) (input : list Z) : sha256_context :=
  let len := blen input in
  if len =? 0 then c
  else
    let left := Z.land (sc_total0 c) 0x3F in
    let fill := 64 - left in
    let total0 := u32 (sc_total0 c + len) in
    let total1 := if total0 <? len then u32 (sc_total1 c + 1) else sc_total1 c in
    let full := nz left && (fill <=? len) in
    let buf := if full then buf_copy (sc_buffer c) (Z.to_nat left) (take (Z.to_nat fill) input) else sc_buffer c in
    let st := if full then sha256_process 1 (sc_state c) buf else sc_state c in
    let input := if full then drop (Z.to_nat fill) input else input in
    let left := if full then 0 else left in
    let n := (length input / 64)%nat in
    let st := sha256_process n st input in
    let rest := drop (n * 64) input in
    MkSha total0 total1 st (if nz (blen rest) then buf_copy buf (Z.to_nat left) rest else buf).

Definition sha256_padding : list Z := 0x80 :: repeat 0 63.
Definition sha256_finish (c : sha256_context) : list Z :=
  let high := Z.lor (Z.shiftr (sc_total0 c) 29) (u32 (Z.shiftl (sc_total1 c) 3)) in
  let low := u32 (Z.shiftl (sc_total0 c) 3) in
  let msglen := PUT_UINT32_BE high ++ PUT_UINT32_BE low in
  let last := Z.land (sc_total0 c) 0x3F in
  let padn := if last <? 56 then 56 - last else 120 - last in
  let c := sha256_update c (take (Z.to_nat padn) sha256_padding) in
  let c := sha256_update c msglen in
  concat (map PUT_UINT32_BE (sc_state c)).

(** * The driver *)

Definition CHUNKSZ_SHA256 : Z := 64 * 1024.
(** The loop of a build with a watchdog; [fuel] bounds the chunks. *)
Fixpoint csum_loop (fuel : nat) (chunk_sz : Z) (c : sha256_context) (curr : list Z) : sha256_context :=
  match fuel, curr with
  | S fuel', _ :: _ =>
    let chunk := if chunk_sz <? blen curr then chunk_sz else blen curr in
    csum_loop fuel' chunk_sz (sha256_update c (take (Z.to_nat chunk) curr)) (drop (Z.to_nat chunk) curr)
  | _, _ => c
  end.
Definition sha256_csum_wd (watchdog : bool) (buffer input : list Z) (chunk_sz : Z) : list Z :=
  let c := sha256_starts buffer in
  sha256_finish (if watchdog then csum_loop (length input) chunk_sz c input else sha256_update c input).

(** "abc", and a message of two blocks in chunks of seven bytes. *)
Example sha256_abc :
  sha256_csum_wd false (repeat 0 64) (bytes_of "abc") CHUNKSZ_SHA256 =
  [0xba; 0x78; 0x16; 0xbf; 0x8f; 0x01; 0xcf; 0xea; 0x41; 0x41; 0x40; 0xde; 0x5d; 0xae; 0x22; 0x23;
   0xb0; 0x03; 0x61; 0xa3; 0x96; 0x17; 0x7a; 0x9c; 0xb4; 0x10; 0xff; 0x61; 0xf2; 0x00; 0x15; 0xad].
Proof. vm_compute. reflexivity. Qed.
Example sha256_two_blocks :
  sha256_csum_wd true (repeat 0 64) (bytes_of "abcdbcdecdefdefgefghfghighijhijkijkljklmklmnlmnomnopnopq") 7 =
  [0x24; 0x8d; 0x6a; 0x61; 0xd2; 0x06; 0x38; 0xb8; 0xe5; 0xc0; 0x26; 0x93; 0x0c; 0x3e; 0x60; 0x39;
   0xa3; 0x3c; 0xe4; 0x59; 0x64; 0xff; 0x21; 0x67; 0xf6; 0xec; 0xed; 0xd4; 0x19; 0xdb; 0x06; 0xc1].
Proof. vm_compute. reflexivity. Qed.
