(* ===== verification/Sha256Thms.v ===== *)
(** The SHA-256 of the program against the standard: a reference digest written
    from FIPS 180-4 with its own padding, schedule, shift register and constants
    (fractional parts of roots of primes), and the equality of the two for every
    message, whatever the partition of the message into updates. *)
From S2P Require Import Prelude Bytes Sha256.

(** * The reference *)

Module Fips.

Definition word (z : Z) : Prop := 0 <= z < 2 ^ 32.

(** Rotation by arithmetic: the low [n] bits move to the top. *)
Definition rotr (n x : Z) : Z := x / 2 ^ n + x `mod` 2 ^ n * 2 ^ (32 - n).
Definition shr (n x : Z) : Z := x / 2 ^ n.
Definition xor3 (a b c : Z) : Z := Z.lxor a (Z.lxor b c).
Definition Ch (x y z : Z) : Z := Z.lxor (Z.land x y) (Z.land (Z.lnot x) z).
Definition Maj (x y z : Z) : Z := xor3 (Z.land x y) (Z.land x z) (Z.land y z).
Definition Sigma0 (x : Z) : Z := xor3 (rotr 2 x) (rotr 13 x) (rotr 22 x).
Definition Sigma1 (x : Z) : Z := xor3 (rotr 6 x) (rotr 11 x) (rotr 25 x).
Definition sigma0 (x : Z) : Z := xor3 (rotr 7 x) (rotr 18 x) (shr 3 x).
Definition sigma1 (x : Z) : Z := xor3 (rotr 17 x) (rotr 19 x) (shr 10 x).

(** The first sixty-four primes. *)
Definition is_prime (n : nat) : bool := forallb (fun d => negb (n mod d =? 0)%nat) (seq 2 (n - 2)).
Definition primes : list nat := List.filter is_prime (seq 2 310).
(** The integer cube root below [2 ^ bits]. *)
Fixpoint cbrt (bits : nat) (acc x : Z) : Z :=
  match bits with
  | O => acc
  | S b => let t := acc + 2 ^ Z.of_nat b in cbrt b (if t * t * t <=? x then t else acc) x
  end.
Definition frac_cbrt (p : nat) : Z := cbrt 40 0 (Z.of_nat p * 2 ^ 96) `mod` 2 ^ 32.
Definition frac_sqrt (p : nat) : Z := Z.sqrt (Z.of_nat p * 2 ^ 64) `mod` 2 ^ 32.
Definition K : list Z := map frac_cbrt primes.
Definition H0 : list Z := map frac_sqrt (take 8 primes).

(** The message schedule: [n] more words after those of [w]. *)
Definition next_word (w : list Z) : Z :=
  let t := length w in
  (sigma1 (nth (t - 2) w 0) + nth (t - 7) w 0 + sigma0 (nth (t - 15) w 0) + nth (t - 16) w 0) `mod` 2 ^ 32.
Fixpoint extend (n : nat) (w : list Z) : list Z :=
  match n with O => w | S n' => extend n' (w ++ [next_word w]) end.

(** One round of the eight-word shift register. *)
Definition round (r : list Z) (kw : Z * Z) : list Z :=
  match r with
  | [a; b; c; d; e; f; g; h] =>
    let T1 := h + Sigma1 e + Ch e f g + fst kw + snd kw in
    let T2 := Sigma0 a + Maj a b c in
    [(T1 + T2) `mod` 2 ^ 32; a; b; c; (d + T1) `mod` 2 ^ 32; e; f; g]
  | _ => r
  end.

Definition be_word (l : list Z) : Z := fold_left (fun acc b => 256 * acc + b) l 0.
Definition block_words (block : list Z) : list Z :=
  map (fun i => be_word (take 4 (drop (4 * i) block))) (seq 0 16).
Definition compress (H block : list Z) : list Z :=
  zip_with (fun a b => (a + b) `mod` 2 ^ 32) H
    (fold_left round (zip K (extend 48 (block_words block))) H).

Definition be_bytes (n : nat) (z : Z) : list Z := rev (le_encode n z).
(** [0x80], zero bytes up to 56 modulo 64, the length in bits on eight bytes. *)
Definition pad (m : list Z) : list Z :=
  m ++ [0x80] ++ repeat 0 (Z.to_nat ((55 - blen m) `mod` 64)) ++ be_bytes 8 (8 * blen m).
Fixpoint blocks (n : nat) (l : list Z) : list (list Z) :=
  match n with O => [] | S n' => take 64 l :: blocks n' (drop 64 l) end.
Definition hash (H : list Z) (l : list Z) : list Z := fold_left compress (blocks (length l / 64) l) H.
Definition digest (m : list Z) : list Z := concat (map (be_bytes 4) (hash H0 (pad m))).

End Fips.
Import Fips.

(** The reference yields the published digest of "abc". *)
Example fips_abc :
  digest (bytes_of "abc") =
  [0xba; 0x78; 0x16; 0xbf; 0x8f; 0x01; 0xcf; 0xea; 0x41; 0x41; 0x40; 0xde; 0x5d; 0xae; 0x22; 0x23;
   0xb0; 0x03; 0x61; 0xa3; 0x96; 0x17; 0x7a; 0x9c; 0xb4; 0x10; 0xff; 0x61; 0xf2; 0x00; 0x15; 0xad].
Proof. vm_compute. reflexivity. Qed.

(** The constants of the code are the roots of the primes. *)
Lemma K256_roots : K256 = K.
Proof. vm_compute. reflexivity. Qed.
Lemma init_state_roots : sha256_init_state = H0.
Proof. vm_compute. reflexivity. Qed.

(** * Words *)

Lemma F1_Ch x y z : F1 x y z = Ch x y z.
Proof.
  apply Z.bits_inj'. intros i Hi. unfold F1, Ch. rewrite !Z.lxor_spec, !Z.land_spec, Z.lxor_spec, Z.lnot_spec by lia.
  by destruct (Z.testbit x i), (Z.testbit y i), (Z.testbit z i).
Qed.
Lemma F0_Maj x y z : F0 x y z = Maj x y z.
Proof.
  apply Z.bits_inj'. intros i Hi. unfold F0, Maj, xor3. rewrite Z.lor_spec, !Z.lxor_spec, !Z.land_spec, Z.lor_spec.
  by destruct (Z.testbit x i), (Z.testbit y i), (Z.testbit z i).
Qed.

(** Disjoint fields: the disjunction is the sum. *)
Lemma lor_field a b k : 0 <= k -> 0 <= b < 2 ^ k -> Z.lor (a * 2 ^ k) b = a * 2 ^ k + b.
Proof.
  intros Hk Hb. rewrite <- Z.lxor_lor, Z.add_nocarry_lxor; [done| |].
  all: apply Z.bits_inj'; intros i Hi; rewrite Z.land_spec, Z.bits_0.
  all: destruct (decide (i < k)) as [Hik|Hik]; [by rewrite Z.mul_pow2_bits_low|].
  all: rewrite <- (Z.mod_small b (2 ^ k)), Z.mod_pow2_bits_high by lia; apply andb_false_r.
Qed.

Lemma SHR_shr x n : word x -> 0 <= n -> SHR x n = shr n x.
Proof.
  intros Hx Hn. unfold SHR, shr. rewrite Z.shiftr_div_pow2 by done. f_equal.
  change 0xFFFFFFFF with (Z.ones 32). rewrite Z.land_ones by lia. by apply Z.mod_small.
Qed.
Lemma ROTR_rotr x n : word x -> 0 < n < 32 -> ROTR x n = rotr n x.
Proof.
  intros Hx Hn. unfold ROTR, rotr. rewrite SHR_shr by (done || lia). unfold shr, u32.
  rewrite Z.shiftl_mul_pow2 by lia.
  assert (2 ^ 32 = 2 ^ n * 2 ^ (32 - n)) as E by (rewrite <- Z.pow_add_r by lia; f_equal; lia).
  rewrite E, Zmult_mod_distr_r. rewrite Z.lor_comm, lor_field; [lia..|].
  split; [apply Z.div_pos; unfold word in Hx; lia|].
  apply Z.div_lt_upper_bound; [lia|]. rewrite <- E. apply Hx.
Qed.

Ltac rot := unfold S0, S1, S2, S3, sigma0, sigma1, Sigma0, Sigma1, xor3; intros; rewrite !ROTR_rotr, ?SHR_shr by (done || lia); by rewrite Z.lxor_assoc.
Lemma S0_sigma0 x : word x -> S0 x = sigma0 x.
Proof. rot. Qed.
Lemma S1_sigma1 x : word x -> S1 x = sigma1 x.
Proof. rot. Qed.
Lemma S2_Sigma0 x : word x -> S2 x = Sigma0 x.
Proof. rot. Qed.
Lemma S3_Sigma1 x : word x -> S3 x = Sigma1 x.
Proof. rot. Qed.

Lemma u32_word z : word (u32 z).
Proof. apply u32_range. Qed.
Lemma nth_word w i : Forall word w -> word (nth i w 0).
Proof.
  intros H. destruct (decide (i < length w)%nat) as [Hi|Hi].
  - rewrite List.Forall_forall in H. by apply H, nth_In.
  - rewrite nth_overflow by lia. by split.
Qed.
Create HintDb sha.
#[local] Hint Resolve u32_word nth_word : sha.

(** * The compression function *)

(** The registers in the order of their roles in round [t]. *)
Definition view (t : nat) (r : list Z) : list Z := map (fun j => nth (role t j) r 0) (seq 0 8).

Lemma role_mod t j : role t j = role (t mod 8) j.
Proof. unfold role. rewrite <- (Nat.Div0.add_mod_idemp_r j (7 * t)), <- Nat.Div0.mul_mod_idemp_r, Nat.Div0.add_mod_idemp_r. done. Qed.
Lemma role_succ t j : role (S t) j = role (S (t mod 8)) j.
Proof.
  rewrite (role_mod (S t)), (role_mod (S (t mod 8))). f_equal.
  change (S t) with (1 + t)%nat. change (S (t mod 8)) with (1 + t mod 8)%nat. by rewrite Nat.Div0.add_mod_idemp_r.
Qed.

(** A round under the rotated names is a step of the shift register. *)
Lemma P_round t r x k :
  length r = 8%nat -> Forall word r -> view (S t) (P t r x k) = round (view t r) (k, x).
Proof.
  intros Hl Hw. unfold view, P. rewrite (map_ext _ _ (fun j => f_equal (fun i => nth i _ 0) (role_succ t j))).
  rewrite (map_ext (fun j => nth (role t j) r 0) _ (fun j => f_equal (fun i => nth i r 0) (role_mod t j))).
  rewrite !(role_mod t). assert (t mod 8 < 8)%nat as Ht by (apply Nat.mod_upper_bound; lia).
  generalize dependent (t mod 8)%nat. clear t. intros t Ht.
  do 8 (destruct r as [|? r]; [done|]). destruct r; [|done]. rewrite !Forall_cons_iff in Hw. destruct_and!.
  assert (forall a b c d e f g h : Z, word a -> word e ->
    u32 (u32 (h + S3 e + F1 e f g + k + x) + u32 (S2 a + F0 a b c)) =
      (h + Sigma1 e + Ch e f g + k + x + (Sigma0 a + Maj a b c)) `mod` 2 ^ 32 /\
    u32 (d + u32 (h + S3 e + F1 e f g + k + x)) = (d + (h + Sigma1 e + Ch e f g + k + x)) `mod` 2 ^ 32) as E.
  { intros. rewrite S3_Sigma1, S2_Sigma0, F1_Ch, F0_Maj by done. unfold u32.
    by rewrite <- Zplus_mod, Zplus_mod_idemp_r. }
  do 8 (destruct t as [|t]; [cbn -[u32 S3 S2 F1 F0 Sigma0 Sigma1 Ch Maj Z.pow Z.modulo Z.add];
    match goal with |- [_; ?a; ?b; ?c; _; ?e; ?f; ?g] = [(?h + _ + _ + _ + _ + _) `mod` _; _; _; _; (?d + _) `mod` _; _; _; _] =>
      by destruct (E a b c d e f g h) as [-> ->] end|]). lia.
Qed.

Lemma length_P t r x k : length (P t r x k) = length r.
Proof. unfold P. by rewrite !length_insert. Qed.
Lemma P_words t r x k : Forall word r -> Forall word (P t r x k).
Proof. intros. unfold P. auto using Forall_insert with sha. Qed.

Lemma length_rounds ks t w r : length (rounds ks t w r) = length r.
Proof. revert t w r. induction ks as [|k ks IH]; intros; [done|]. cbn [rounds]. by rewrite IH, length_P. Qed.

Lemma extend_app n w : exists v, extend n w = w ++ v.
Proof.
  revert w. induction n as [|n IH]; intros w; [exists []; by rewrite app_nil_r|].
  cbn [extend]. destruct (IH (w ++ [next_word w])) as [v ->]. eexists. by rewrite <- app_assoc.
Qed.
Lemma extend_nth n w i : (i < length w)%nat -> nth i (extend n w) 0 = nth i w 0.
Proof. intros. destruct (extend_app n w) as [v ->]. by apply app_nth1. Qed.
Lemma length_extend n w : length (extend n w) = (n + length w)%nat.
Proof. revert w. induction n as [|n IH]; intros w; [done|]. simpl. rewrite IH, length_app. simpl. lia. Qed.
Lemma R_next w : Forall word w -> R w (length w) = next_word w.
Proof. intros. unfold R, next_word. rewrite S1_sigma1, S0_sigma0 by auto with sha. done. Qed.

(** The rounds from [t] on, the schedule being extended on the way. *)
Lemma rounds_fold ks t w r :
  (16 <= length w)%nat -> length w = Nat.max 16 t -> (t + length ks = 64)%nat ->
  length r = 8%nat -> Forall word r -> Forall word w ->
  view 64 (rounds ks t w r) = fold_left round (zip ks (drop t (extend (64 - length w) w))) (view t r).
Proof.
  revert t w r. induction ks as [|k ks IH]; intros t w r Hw Hm Ht Hr Hwr Hww.
  { simpl in *. assert (t = 64)%nat as -> by lia. done. }
  simpl in Ht. cbn [rounds].
  remember (if (t <? 16)%nat then w else w ++ [R w t]) as w' eqn:Ew.
  assert (extend (64 - length w) w = extend (64 - length w') w' /\ length w' = Nat.max 16 (S t) /\ Forall word w') as (Ee & Hm' & Hw').
  { subst w'. destruct (Nat.ltb_spec t 16); [split_and!; [done|lia|done]|].
    assert (length w = t) as <- by lia. rewrite length_app. simpl length.
    replace (64 - length w)%nat with (S (64 - (length w + 1)))%nat by lia.
    split_and!; [cbn [extend]; by rewrite R_next|lia|].
    apply Forall_app. split; [done|]. by constructor; [apply u32_range|]. }
  rewrite Ee, IH by (rewrite ?length_P; auto using P_words; lia). clear Ee Ew.
  assert (t < length (extend (64 - length w') w'))%nat as Hlt by (rewrite length_extend; lia).
  destruct (lookup_lt_is_Some_2 _ _ Hlt) as [x Hx]. rewrite (drop_S _ x t Hx). cbn [zip zip_with fold_left]. f_equal.
  rewrite P_round by done. f_equal. f_equal.
  rewrite <- (extend_nth (64 - length w') w') by lia. by apply nth_lookup_Some.
Qed.

Lemma GET_be_word b i :
  bytes_ok b -> (i + 4 <= length b)%nat -> GET_UINT32_BE b i = be_word (take 4 (drop i b)) /\ word (GET_UINT32_BE b i).
Proof.
  intros Hb Hi. rewrite <- (take_drop i b) at 1 3. unfold GET_UINT32_BE.
  assert (length (take i b) = i) as Hl by (rewrite length_take; lia).
  rewrite !app_nth2 by lia. rewrite Hl, Nat.sub_diag. replace (i + 1 - i)%nat with 1%nat by lia.
  replace (i + 2 - i)%nat with 2%nat by lia. replace (i + 3 - i)%nat with 3%nat by lia.
  assert (4 <= length (drop i b))%nat as Hd by (rewrite length_drop; lia).
  pose proof (Forall_drop _ i _ Hb) as Hbd. revert Hd Hbd. generalize (drop i b). intros l Hd Hbd.
  do 4 (destruct l as [|? l]; [simpl in Hd; lia|]). rewrite !Forall_cons_iff in Hbd. unfold is_byte in Hbd.
  unfold be_word, word. cbn [nth take fold_left]. rewrite !Z.shiftl_mul_pow2 by lia.
  rewrite (lor_field z) by lia. replace (z * 2 ^ 24 + z0 * 2 ^ 16) with ((z * 2 ^ 8 + z0) * 2 ^ 16) by lia.
  rewrite lor_field by lia.
  replace ((z * 2 ^ 8 + z0) * 2 ^ 16 + z1 * 2 ^ 8) with (((z * 2 ^ 8 + z0) * 2 ^ 8 + z1) * 2 ^ 8) by lia.
  change (take 0 l) with (@nil Z). cbn [fold_left]. rewrite lor_field by lia. lia.
Qed.

Lemma first_words_block data :
  bytes_ok data -> (64 <= length data)%nat ->
  first_words data = block_words (take 64 data) /\ Forall word (first_words data).
Proof.
  intros Hb Hl. unfold first_words, block_words. split.
  - apply map_ext_in. intros i Hi%in_seq. destruct (GET_be_word data (4 * i) Hb) as [-> _]; [lia|].
    f_equal. rewrite skipn_firstn_comm, take_take. f_equal. lia.
  - apply List.Forall_forall. intros x (i & <- & Hi%in_seq)%in_map_iff. apply GET_be_word; [done|lia].
Qed.

(** A state: eight words. *)
Definition state_ok (st : list Z) : Prop := length st = 8%nat /\ Forall word st.

Lemma view_0 r : length r = 8%nat -> view 0 r = r /\ view 64 r = r.
Proof. intros. do 8 (destruct r as [|? r]; [done|]). by destruct r. Qed.

Lemma process_one_compress st data :
  state_ok st -> bytes_ok data -> (64 <= length data)%nat ->
  sha256_process_one st data = compress st (take 64 data).
Proof.
  intros [Hl Hw] Hb Hd. destruct (first_words_block data Hb Hd) as [E Hww]. unfold sha256_process_one, compress.
  assert (length (first_words data) = 16%nat) as Hf by (unfold first_words; by rewrite length_map, length_seq).
  pose proof (rounds_fold K256 0 (first_words data) st) as Hr. rewrite Hf in Hr.
  change (64 - 16)%nat with 48%nat in Hr. rewrite drop_0 in Hr.
  specialize (Hr ltac:(lia) eq_refl eq_refl Hl Hw Hww).
  rewrite (proj1 (view_0 st Hl)), (proj2 (view_0 (rounds _ _ _ _) (eq_trans (length_rounds _ _ _ _) Hl))), E, K256_roots in Hr.
  apply (f_equal (zip_with (fun a b => u32 (a + b)) st)) in Hr. rewrite E, K256_roots. exact Hr.
Qed.

(** * Blocks *)

Lemma state_ok_H0 : state_ok H0.
Proof. rewrite <- init_state_roots. split; [done|]. repeat (constructor; [by split|]). constructor. Qed.
Lemma compress_ok st b : state_ok st -> state_ok (compress st b).
Proof.
  intros [Hl _]. split.
  - unfold compress. rewrite length_zip_with. cut (forall l r, length r = 8%nat -> length (fold_left round l r) = 8%nat).
    { intros ->; [lia|done]. }
    intros l. induction l as [|x l IH]; intros r Hr; [done|]. apply IH.
    do 8 (destruct r as [|? r]; [done|]). by destruct r.
  - apply List.Forall_forall. intros x Hx%list_elem_of_In. unfold compress in Hx.
    apply elem_of_lookup_zip_with in Hx as (i & a & b' & -> & _). apply Z.mod_pos_bound. lia.
Qed.
Lemma hash_ok l st : state_ok st -> state_ok (fold_left compress l st).
Proof. revert st. induction l; intros; [done|]. simpl. auto using compress_ok. Qed.

Lemma process_blocks n st data :
  state_ok st -> bytes_ok data -> (n * 64 <= length data)%nat ->
  sha256_process n st data = fold_left compress (blocks n data) st.
Proof.
  revert st data. induction n as [|n IH]; intros st data Hs Hb Hl; [done|].
  cbn [sha256_process blocks fold_left]. rewrite process_one_compress by (done || lia).
  apply IH; [by apply compress_ok|by apply Forall_drop|rewrite length_drop; lia].
Qed.
Lemma blocks_add a b l : blocks (a + b) l = blocks a l ++ blocks b (drop (a * 64) l).
Proof.
  revert l. induction a as [|a IH]; intros l; [done|]. cbn [Nat.add blocks]. rewrite IH. cbn [app].
  by rewrite drop_drop.
Qed.
Lemma blocks_app n l l' : (n * 64 <= length l)%nat -> blocks n (l ++ l') = blocks n l.
Proof.
  revert l. induction n as [|n IH]; intros l Hl; [done|]. cbn [blocks].
  rewrite take_app_le, drop_app_le by lia. by rewrite IH by (rewrite length_drop; lia).
Qed.

(** The blocks of [m ++ l], once those of [m] have been done. *)
Lemma hash_app st m l :
  hash st (m ++ l) = hash (hash st m) (drop (length m / 64 * 64) m ++ l).
Proof.
  unfold hash. pose proof (Nat.div_mod_eq (length m) 64) as Hm.
  remember (drop (length m / 64 * 64) m) as t eqn:Et.
  assert (length t = length m mod 64)%nat as Ht by (subst t; rewrite length_drop; lia).
  assert (length (m ++ l) / 64 = length m / 64 + length (t ++ l) / 64)%nat as ->.
  { rewrite !length_app, Ht. rewrite Hm at 1.
    replace (64 * (length m / 64) + length m mod 64 + length l)%nat
      with (length m mod 64 + length l + length m / 64 * 64)%nat by lia.
    rewrite Nat.div_add by lia. lia. }
  rewrite blocks_add, fold_left_app, blocks_app by lia. by rewrite drop_app_le, <- Et by lia.
Qed.

(** * Updates *)

(** The context has seen the message [m]. *)
Record Rep (c : sha256_context) (m : list Z) : Prop := {
  rep_total : sc_total0 c + 2 ^ 32 * sc_total1 c = u64 (blen m);
  rep_total0 : word (sc_total0 c);
  rep_state : sc_state c = hash H0 m;
  rep_buffer : length (sc_buffer c) = 64%nat;
  rep_pending : take (length m mod 64) (sc_buffer c) = drop (length m / 64 * 64) m;
  rep_bytes : bytes_ok m;
}.

Lemma Rep_left c m : Rep c m -> Z.land (sc_total0 c) 0x3F = Z.of_nat (length m mod 64).
Proof.
  intros []. change 0x3F with (Z.ones 6). rewrite Z.land_ones by lia. rewrite Nat2Z.inj_mod. unfold word, u64, blen in *.
  assert (sc_total0 c = Z.of_nat (length m) + 64 * (- 2 ^ 58 * (Z.of_nat (length m) / 2 ^ 64) - 2 ^ 26 * sc_total1 c)) as ->.
  { pose proof (Z.div_mod (Z.of_nat (length m)) (2 ^ 64)). lia. }
  change (2 ^ 6) with 64. rewrite Z.mul_comm. apply Z.mod_add. lia.
Qed.

Lemma starts_Rep buffer : length buffer = 64%nat -> Rep (sha256_starts buffer) [].
Proof.
  intros Hb. split; [done|by split|exact init_state_roots|done|done|constructor].
Qed.

(** The counter of 64 bits, in two words. *)
Lemma total_add t0 t1 n len :
  word t0 -> 0 <= len < 2 ^ 32 -> t0 + 2 ^ 32 * t1 = u64 n ->
  u32 (t0 + len) + 2 ^ 32 * (if u32 (t0 + len) <? len then u32 (t1 + 1) else t1) = u64 (n + len).
Proof.
  unfold word. intros Ht Hl E.
  assert (0 <= t1 < 2 ^ 32) as H1 by (pose proof (u64_range n); lia).
  replace (u64 (n + len)) with (u64 (t0 + 2 ^ 32 * t1 + len)).
  2: { rewrite E. unfold u64. by rewrite Zplus_mod_idemp_l. }
  unfold u32, u64. destruct (Z.ltb_spec (t0 + len) (2 ^ 32)) as [Hc|Hc].
  - rewrite (Z.mod_small (t0 + len)) by lia. rewrite (proj2 (Z.ltb_ge _ _)) by lia. rewrite Z.mod_small; lia.
  - replace ((t0 + len) `mod` 2 ^ 32) with (t0 + len - 2 ^ 32).
    2: { rewrite <- (Z.mod_add (t0 + len) (-1)) by lia. symmetry. apply Z.mod_small. lia. }
    rewrite (proj2 (Z.ltb_lt _ _)) by lia. destruct (decide (t1 = 2 ^ 32 - 1)) as [->|Hne].
    + change ((2 ^ 32 - 1 + 1) `mod` 2 ^ 32) with 0.
      rewrite <- (Z.mod_add (t0 + 2 ^ 32 * (2 ^ 32 - 1) + len) (-1)) by lia. rewrite Z.mod_small; lia.
    + rewrite (Z.mod_small (t1 + 1)) by lia. rewrite Z.mod_small; lia.
Qed.

Definition put_rest (buf : list Z) (left : nat) (rest : list Z) : list Z :=
  if nz (blen rest) then buf_copy buf left rest else buf.
Lemma length_buf_copy buf left l :
  (left + length l <= length buf)%nat -> length (buf_copy buf left l) = length buf.
Proof. intros. unfold buf_copy. rewrite !length_app, length_take, length_drop. lia. Qed.
Lemma put_rest_spec buf left l :
  (left + length l <= length buf)%nat ->
  length (put_rest buf left l) = length buf /\ take (left + length l) (put_rest buf left l) = take left buf ++ l.
Proof.
  intros Hl. unfold put_rest. destruct (nz (blen l)) eqn:E.
  - split; [by apply length_buf_copy|]. unfold buf_copy. rewrite app_assoc.
    rewrite take_app_le by (rewrite length_app, length_take; lia). apply take_ge. rewrite length_app, length_take. lia.
  - apply nz_false in E. destruct l; [|done]. split; [done|]. by rewrite Nat.add_0_r, app_nil_r.
Qed.

(** The pending bytes [p] and the input, with the state and buffer after them. *)
Definition absorbs (st p input st' buf' : list Z) : Prop :=
  let l := p ++ input in
  st' = hash st l /\ length buf' = 64%nat /\ take (length l mod 64) buf' = drop (length l / 64 * 64) l.

Lemma absorb_aligned st buf input :
  state_ok st -> length buf = 64%nat -> bytes_ok input ->
  let n := (length input / 64)%nat in
  absorbs st [] input (sha256_process n st input) (put_rest buf 0 (drop (n * 64) input)).
Proof.
  intros Hs Hb Hi n. pose proof (Nat.div_mod_eq (length input) 64) as Hm. pose proof (Nat.mod_upper_bound (length input) 64).
  assert (length (drop (n * 64) input) = length input mod 64)%nat as Hr by (rewrite length_drop; lia).
  destruct (put_rest_spec buf 0 (drop (n * 64) input)) as [E1 E2]; [lia|]. rewrite Hr in E2.
  split_and!; [apply process_blocks; [done..|lia]|lia|apply E2].
Qed.
Lemma absorb_short st buf left input :
  length buf = 64%nat -> (left + length input < 64)%nat ->
  absorbs st (take left buf) input st (put_rest buf left input).
Proof.
  intros Hb Hl. destruct (put_rest_spec buf left input) as [E1 E2]; [lia|].
  assert (length (take left buf ++ input) = left + length input)%nat as Hll by (rewrite length_app, length_take; lia).
  unfold absorbs, hash. rewrite Hll, Nat.div_small, Nat.mod_small by lia. split_and!; [done|lia|done].
Qed.
(** A full buffer is a block, after which nothing is pending. *)
Lemma absorb_full st buf left input st' buf' :
  state_ok st -> length buf = 64%nat -> bytes_ok (take left buf) -> bytes_ok input -> (left < 64)%nat ->
  let fill := (64 - left)%nat in
  (fill <= length input)%nat ->
  absorbs (sha256_process 1 st (buf_copy buf left (take fill input))) [] (drop fill input) st' buf' ->
  absorbs st (take left buf) input st' buf'.
Proof.
  intros Hs Hb Hp Hi Hl fill Hf (E1 & E2 & E3). subst fill.
  remember (buf_copy buf left (take (64 - left) input)) as blk eqn:Eb.
  assert (blk = take left buf ++ take (64 - left) input) as Ek.
  { subst blk. unfold buf_copy. rewrite length_take, (drop_ge buf) by lia. by rewrite app_nil_r. }
  assert (length blk = 64%nat) as Hk by (rewrite Ek, length_app, !length_take; lia).
  assert (take left buf ++ input = blk ++ drop (64 - left) input) as El.
  { rewrite Ek, <- app_assoc. by rewrite take_drop. }
  assert (bytes_ok blk) as Hbk by (rewrite Ek; apply Forall_app; split; [done|by apply Forall_take]).
  unfold absorbs. rewrite El. clear Eb Ek El. rewrite process_blocks in E1 by (done || lia).
  split_and!; [|done|].
  - rewrite E1, (hash_app st blk), Hk. assert (hash st blk = fold_left compress (blocks 1 blk) st) as -> by (unfold hash; by rewrite Hk).
    by rewrite (drop_ge blk) by (simpl; lia).
  - rewrite length_app, Hk. cbn [app] in E3.
    replace (64 + length (drop (64 - left) input))%nat with (length (drop (64 - left) input) + 1 * 64)%nat by lia.
    rewrite Nat.Div0.mod_add, Nat.div_add by lia. rewrite E3. rewrite drop_app_ge by lia. f_equal. lia.
Qed.

Lemma absorbs_Rep c m input st' buf' t0 t1 :
  Rep c m -> bytes_ok input -> word t0 -> t0 + 2 ^ 32 * t1 = u64 (blen (m ++ input)) ->
  absorbs (sc_state c) (take (length m mod 64) (sc_buffer c)) input st' buf' ->
  Rep (MkSha t0 t1 st' buf') (m ++ input).
Proof.
  intros [] Hi Ht Ht' (E1 & E2 & E3). rewrite rep_pending0 in *. rewrite rep_state0 in E1. rewrite <- hash_app in E1.
  pose proof (Nat.div_mod_eq (length m) 64) as Hm.
  split; cbn [sc_total0 sc_total1 sc_state sc_buffer]; [done|done|done|done| |by apply Forall_app].
  assert (length (m ++ input) = length (drop (length m / 64 * 64) m ++ input) + length m / 64 * 64)%nat as El.
  { rewrite !length_app, length_drop. lia. }
  rewrite El, Nat.Div0.mod_add, Nat.div_add, E3 by lia.
  rewrite Nat.mul_add_distr_r, (Nat.add_comm _ (length m / 64 * 64)), <- drop_drop. by rewrite (drop_app_le m input) by lia.
Qed.

(** One update, of any length. *)
Lemma update_Rep c m input :
  Rep c m -> bytes_ok input -> blen input < 2 ^ 32 -> Rep (sha256_update c input) (m ++ input).
Proof.
  intros Hc Hi Hl. pose proof (blen_nonneg input). unfold sha256_update. destruct (Z.eqb_spec (blen input) 0) as [E|E].
  { unfold blen in E. destruct input; [|done]. by rewrite app_nil_r. }
  rewrite (Rep_left c m Hc). pose proof (Nat.mod_upper_bound (length m) 64) as Hm.
  assert (state_ok (sc_state c)) as Hs by (rewrite (rep_state _ _ Hc); apply hash_ok, state_ok_H0).
  assert (bytes_ok (take (length m mod 64) (sc_buffer c))) as Hp.
  { rewrite (rep_pending _ _ Hc). apply Forall_drop, (rep_bytes _ _ Hc). }
  pose proof (rep_buffer _ _ Hc) as Hb.
  apply (absorbs_Rep c); [done|done|apply u32_range|rewrite blen_app; apply total_add; [apply Hc|done|apply Hc]|].
  remember (length m mod 64)%nat as left eqn:El. clear El.
  change (if nz (blen ?r) then buf_copy ?b ?l ?r else ?b) with (put_rest b l r).
  destruct (nz (Z.of_nat left)) eqn:En; cbn [andb].
  - apply nz_true in En. destruct (Z.leb_spec (64 - Z.of_nat left) (blen input)) as [Hf|Hf]; unfold blen in Hf.
    + rewrite Nat2Z.id. replace (Z.to_nat (64 - Z.of_nat left)) with (64 - left)%nat by lia.
      apply absorb_full; [done..|lia|lia|]. apply absorb_aligned; [|by rewrite length_buf_copy by (rewrite length_take; lia)|by apply Forall_drop].
      rewrite process_blocks; [by apply hash_ok|done| |rewrite length_buf_copy; [lia|rewrite length_take; lia]].
      unfold buf_copy. rewrite length_take, (drop_ge (sc_buffer c)), app_nil_r by lia. apply Forall_app. split; [done|by apply Forall_take].
    + rewrite Nat2Z.id, Nat.div_small by lia. apply (absorb_short _ _ left input); [done|unfold blen in *; lia].
  - apply nz_false in En. assert (left = 0%nat) as -> by lia. by apply absorb_aligned.
Qed.

(** * The digest *)

Lemma PUT_be n : PUT_UINT32_BE n = be_bytes 4 n.
Proof.
  unfold PUT_UINT32_BE, be_bytes, u8. rewrite !Z.shiftr_div_pow2 by lia. cbn [le_encode rev app].
  rewrite !Z.div_div by lia. done.
Qed.
Lemma le_encode_app n k l h :
  0 <= l < 256 ^ Z.of_nat n -> le_encode (n + k) (l + 256 ^ Z.of_nat n * h) = le_encode n l ++ le_encode k h.
Proof.
  revert l. induction n as [|n IH]; intros l Hl.
  { simpl in Hl. cbn [Nat.add le_encode app]. f_equal. simpl. lia. }
  rewrite Nat2Z.inj_succ, Z.pow_succ_r in * by lia. cbn [Nat.add le_encode app].
  replace (l + 256 * 256 ^ Z.of_nat n * h) with (l + 256 ^ Z.of_nat n * h * 256) by lia.
  rewrite Z.mod_add, Z.div_add by lia. f_equal. apply IH.
  split; [apply Z.div_pos; lia|apply Z.div_lt_upper_bound; lia].
Qed.

(** The length field. *)
Lemma msglen_be c m :
  Rep c m -> blen m < 2 ^ 61 ->
  PUT_UINT32_BE (Z.lor (Z.shiftr (sc_total0 c) 29) (u32 (Z.shiftl (sc_total1 c) 3))) ++
  PUT_UINT32_BE (u32 (Z.shiftl (sc_total0 c) 3)) = be_bytes 8 (8 * blen m).
Proof.
  intros Hc Hm. pose proof (rep_total _ _ Hc) as Ht. pose proof (rep_total0 _ _ Hc) as H0. unfold word in H0.
  pose proof (blen_nonneg m). rewrite u64_small in Ht by lia.
  rewrite Z.shiftr_div_pow2, !Z.shiftl_mul_pow2 by lia. rewrite (u32_small (sc_total1 c * 2 ^ 3)) by lia.
  assert (0 <= sc_total0 c / 2 ^ 29 < 2 ^ 3) by (split; [apply Z.div_pos|apply Z.div_lt_upper_bound]; lia).
  rewrite Z.lor_comm, lor_field by lia. rewrite !PUT_be. unfold be_bytes. rewrite <- rev_app_distr. f_equal.
  change 8%nat with (4 + 4)%nat.
  rewrite <- le_encode_app by apply u32_range. f_equal. change (256 ^ Z.of_nat 4) with (2 ^ 32). unfold u32.
  assert ((sc_total0 c * 2 ^ 3) `mod` 2 ^ 32 = sc_total0 c `mod` 2 ^ 29 * 2 ^ 3) as ->.
  { change (2 ^ 32) with (2 ^ 29 * 2 ^ 3). apply Zmult_mod_distr_r. }
  pose proof (Z.div_mod (sc_total0 c) (2 ^ 29)). lia.
Qed.

Lemma take_repeat0 k n : (k <= n)%nat -> take k (repeat 0 n) = repeat 0 k.
Proof. revert k. induction n as [|n IH]; intros [|k] Hk; simpl; [done|lia|done|]. f_equal. apply IH. lia. Qed.
(** The padding bytes. *)
Lemma padding_take n :
  let last := n mod 64 in
  take (Z.to_nat (if last <? 56 then 56 - last else 120 - last)) sha256_padding =
  [0x80] ++ repeat 0 (Z.to_nat ((55 - n) mod 64)).
Proof.
  intros last. pose proof (Z.mod_pos_bound n 64). fold last in H.
  assert ((55 - n) mod 64 = if last <? 56 then 55 - last else 119 - last) as ->.
  { rewrite <- (Zminus_mod_idemp_r 55 n). fold last. destruct (Z.ltb_spec last 56); [apply Z.mod_small; lia|].
    rewrite <- (Z.mod_add _ 1) by lia. rewrite Z.mod_small; lia. }
  unfold sha256_padding. destruct (Z.ltb_spec last 56).
  - replace (Z.to_nat (56 - last)) with (S (Z.to_nat (55 - last))) by lia. cbn [take app]. f_equal. apply take_repeat0. lia.
  - replace (Z.to_nat (120 - last)) with (S (Z.to_nat (119 - last))) by lia. cbn [take app]. f_equal. apply take_repeat0. lia.
Qed.

Lemma be_bytes_ok n z : bytes_ok (be_bytes n z).
Proof.
  apply Forall_rev. revert z. induction n; intros z; [constructor|]. cbn [le_encode]. constructor; [|done].
  apply Z.mod_pos_bound. lia.
Qed.
Lemma padding_ok n : bytes_ok (take n sha256_padding).
Proof.
  apply Forall_take. constructor; [by split|]. apply List.Forall_forall. intros x ->%repeat_spec. by split.
Qed.

Lemma finish_digest c m : Rep c m -> blen m < 2 ^ 61 -> sha256_finish c = digest m.
Proof.
  intros Hc Hm. unfold sha256_finish. rewrite (msglen_be c m) by done. rewrite (Rep_left c m Hc).
  rewrite Nat2Z.inj_mod. change (Z.of_nat (length m)) with (blen m). cbv zeta.
  change (Z.of_nat 64) with 64. rewrite padding_take.
  assert (bytes_ok ([0x80] ++ repeat 0 (Z.to_nat ((55 - blen m) mod 64)))) as Hp.
  { rewrite <- padding_take. apply padding_ok. }
  assert (Rep (sha256_update (sha256_update c ([0x80] ++ repeat 0 (Z.to_nat ((55 - blen m) mod 64)))) (be_bytes 8 (8 * blen m))) (pad m)) as [].
  { unfold pad. rewrite 2 app_assoc, <- (app_assoc m). apply update_Rep; [apply update_Rep; [done..|]|apply be_bytes_ok|done].
    unfold blen. rewrite length_app, repeat_length. pose proof (Z.mod_pos_bound (55 - Z.of_nat (length m)) 64). simpl. lia. }
  rewrite rep_state0. unfold digest. f_equal. apply map_ext, PUT_be.
Qed.

(** Any partition of the message into updates. *)
Lemma updates_Rep ps c m :
  Rep c m -> Forall (fun p => bytes_ok p /\ blen p < 2 ^ 32) ps -> Rep (fold_left sha256_update ps c) (m ++ concat ps).
Proof.
  intros Hc Hp. revert c m Hc. induction Hp as [|p ps [] _ IH]; intros c m Hc; cbn [fold_left concat]; [by rewrite app_nil_r|].
  rewrite app_assoc. apply IH. by apply update_Rep.
Qed.
Lemma csum_loop_updates fuel chunk_sz c input :
  0 < chunk_sz -> (length input <= fuel)%nat -> bytes_ok input -> blen input < 2 ^ 32 ->
  exists ps, csum_loop fuel chunk_sz c input = fold_left sha256_update ps c /\ concat ps = input /\
             Forall (fun p => bytes_ok p /\ blen p < 2 ^ 32) ps.
Proof.
  intros Hz. revert c input. induction fuel as [|fuel IH]; intros c input Hf Hb Hl.
  { destruct input; [|simpl in Hf; lia]. by exists []. }
  destruct input as [|x t]; [by exists []|]. remember (x :: t) as input eqn:Ei.
  remember (Z.to_nat (if chunk_sz <? blen input then chunk_sz else blen input)) as k eqn:Ek.
  assert (csum_loop (S fuel) chunk_sz c input = csum_loop fuel chunk_sz (sha256_update c (take k input)) (drop k input)) as ->
    by (by rewrite Ek, Ei).
  assert (0 < k <= length input)%nat as Hk.
  { subst k. assert (0 < length input)%nat by (subst input; simpl; lia). unfold blen. destruct (Z.ltb_spec chunk_sz (Z.of_nat (length input))); lia. }
  destruct (IH (sha256_update c (take k input)) (drop k input)) as (ps & E1 & E2 & E3).
  { rewrite length_drop. lia. } { by apply Forall_drop. } { unfold blen in *. rewrite length_drop. lia. }
  exists (take k input :: ps). cbn [fold_left concat]. rewrite E2, take_drop. split_and!; [done|done|].
  constructor; [|done]. split; [by apply Forall_take|]. unfold blen in *. rewrite length_take. lia.
Qed.

(** C9: the digest of lib/sha256.c is the SHA-256 of FIPS 180-4, for every input
    below 4 GiB, every positive chunk size, with and without the watchdog loop and
    whatever the uninitialised block buffer holds; the reference has its own padding,
    schedule, shift register, arithmetic rotations and constants computed from the
    roots of primes. *)
Theorem sha256_csum_is_fips watchdog buffer input chunk_sz :
  length buffer = 64%nat -> bytes_ok input -> blen input < 2 ^ 32 -> 0 < chunk_sz ->
  sha256_csum_wd watchdog buffer input chunk_sz = digest input.
Proof.
  intros Hb Hi Hl Hz. pose proof (starts_Rep buffer Hb) as Hs. apply finish_digest; [|lia].
  destruct watchdog; [|by apply (update_Rep _ [])].
  destruct (csum_loop_updates (length input) chunk_sz (sha256_starts buffer) input) as (ps & -> & E & Hp); [done..|].
  rewrite <- E. by apply (updates_Rep _ _ []).
Qed.
Lemma sha256_csum_is_fips_witness :
  sha256_csum_wd true (repeat 165 64) (bytes_of "abc") 2 = digest (bytes_of "abc").
Proof.
  apply (sha256_csum_is_fips true); [reflexivity| |reflexivity|reflexivity].
  repeat (constructor; [by split|]). constructor.
Defined.
