(* ===== verification/Crc32Thms.v ===== *)
(** The CRC-32 of the library against the bitwise one of the firmware trailer
    check ([ursus_crc32_fwtool]): the table is the polynomial's, a step through it
    is eight steps of the shift register, a word is four bytes, and neither the
    alignment of the buffer nor the chunks of the watchdog loop matter.  The
    ARMv8 instruction enters as the pseudocode of the architecture manual. *)
From S2P Require Import Prelude Bytes WebImage WebImageThms Crc32.

(** * The instruction *)

Module Arm.
(** [BitReverse] on [n] bits. *)
Fixpoint BitReverse (n : nat) (x : Z) : Z :=
  match n with
  | O => 0
  | S n' => Z.lor (Z.shiftl (Z.land x 1) (Z.of_nat n')) (BitReverse n' (Z.shiftr x 1))
  end.
(** [Poly32Mod2]: [k] steps down from bit [32 + k - 1]. *)
Fixpoint Poly32Mod2 (k : nat) (data poly : Z) : Z :=
  match k with
  | O => Z.land data 0xffffffff
  | S k' =>
    Poly32Mod2 k' (if Z.testbit data (32 + Z.of_nat k') then Z.lxor data (Z.shiftl poly (Z.of_nat k')) else data) poly
  end.
(** [CRC32B Wd, Wn, Wm]. *)
Definition CRC32B (acc val : Z) : Z :=
  let tempacc := Z.shiftl (BitReverse 32 acc) 8 in
  let tempval := Z.shiftl (BitReverse 8 val) 32 in
  BitReverse 32 (Poly32Mod2 8 (Z.lxor tempacc tempval) 0x04C11DB7).
End Arm.
Import Arm.

Example arm_check : Z.lxor (fold_left CRC32B (bytes_of "123456789") 0xffffffff) 0xffffffff = 0xcbf43926.
Proof. vm_compute. reflexivity. Qed.

(** * Bits *)

Lemma land1_testbit x i : 0 <= i -> Z.testbit (Z.land x 1) i = (i =? 0) && Z.testbit x 0.
Proof.
  intros. rewrite Z.land_spec. destruct (Z.eqb_spec i 0) as [->|]; [by rewrite andb_true_r|].
  rewrite (Z.bits_above_log2 1) by (simpl; lia). by rewrite andb_false_r.
Qed.
Lemma BitReverse_testbit n x i :
  0 <= i -> Z.testbit (BitReverse n x) i = (i <? Z.of_nat n) && Z.testbit x (Z.of_nat n - 1 - i).
Proof.
  revert x. induction n as [|n IH]; intros x Hi; cbn [BitReverse].
  { rewrite Z.bits_0. by rewrite (proj2 (Z.ltb_ge i (Z.of_nat 0))) by lia. }
  rewrite Z.lor_spec, IH by done. rewrite Z.shiftl_spec by done.
  destruct (Z.ltb_spec i (Z.of_nat n)).
  - rewrite (Z.testbit_neg_r _ (i - Z.of_nat n)) by lia. rewrite (proj2 (Z.ltb_lt i (Z.of_nat (S n)))) by lia.
    rewrite Z.shiftr_spec by lia. cbn [orb andb]. f_equal. lia.
  - rewrite land1_testbit by lia. cbn [andb]. rewrite orb_false_r.
    destruct (Z.eqb_spec (i - Z.of_nat n) 0).
    + rewrite (proj2 (Z.ltb_lt i (Z.of_nat (S n)))) by lia. cbn [andb]. f_equal. lia.
    + by rewrite (proj2 (Z.ltb_ge i (Z.of_nat (S n)))) by lia.
Qed.
Lemma crc_bit_testbit c i :
  0 <= i -> Z.testbit (crc_bit c) i = xorb (Z.testbit c (i + 1)) (Z.testbit c 0 && Z.testbit 0xedb88320 i).
Proof.
  intros Hi. unfold crc_bit. rewrite Z.lxor_spec, Z.shiftr_spec by done. f_equal.
  assert ((Z.land c 1 =? 0) = negb (Z.testbit c 0)) as ->.
  { change 1 with (Z.ones 1). rewrite Z.land_ones by lia. change (2 ^ 1) with 2. rewrite Zmod_even, Z.bit0_odd, <- Z.negb_even.
    by destruct (Z.even c). }
  destruct (Z.testbit c 0); [done|]. apply Z.bits_0.
Qed.

(** Bit [i] of the reflected polynomial is bit [31 - i] of the polynomial. *)
Lemma poly_reflected i : 0 <= i -> Z.testbit 0xedb88320 i = (i <? 32) && Z.testbit 0x04C11DB7 (31 - i).
Proof.
  intros. change 0xedb88320 with (BitReverse 32 0x04C11DB7). rewrite BitReverse_testbit by done.
  done.
Qed.
(** A step of the division is a step of the reflected register. *)
Lemma poly_step k data :
  crc_bit (BitReverse (32 + S k) data) =
  BitReverse (32 + k) (if Z.testbit data (32 + Z.of_nat k) then Z.lxor data (Z.shiftl 0x04C11DB7 (Z.of_nat k)) else data).
Proof.
  apply Z.bits_inj'. intros i Hi. rewrite crc_bit_testbit, !BitReverse_testbit, poly_reflected by lia.
  replace (Z.of_nat (32 + S k) - 1 - 0) with (32 + Z.of_nat k) by lia.
  rewrite (proj2 (Z.ltb_lt 0 _)) by lia. cbn [andb].
  replace (Z.of_nat (32 + S k) - 1 - (i + 1)) with (Z.of_nat (32 + k) - 1 - i) by lia.
  assert ((i + 1 <? Z.of_nat (32 + S k)) = (i <? Z.of_nat (32 + k))) as -> by (destruct (Z.ltb_spec (i + 1) (Z.of_nat (32 + S k))), (Z.ltb_spec i (Z.of_nat (32 + k))); done || lia).
  destruct (Z.testbit data (32 + Z.of_nat k)); cbn [andb]; [|by rewrite xorb_false_r].
  destruct (Z.ltb_spec i (Z.of_nat (32 + k))); cbn [andb xorb].
  - rewrite Z.lxor_spec, Z.shiftl_spec by lia. f_equal.
    replace (Z.of_nat (32 + k) - 1 - i - Z.of_nat k) with (31 - i) by lia.
    destruct (Z.ltb_spec i 32); [done|]. rewrite Z.testbit_neg_r by lia. done.
  - by rewrite (proj2 (Z.ltb_ge i 32)) by lia.
Qed.
Lemma Poly32Mod2_crc k data :
  BitReverse 32 (Poly32Mod2 k data 0x04C11DB7) = Nat.iter k crc_bit (BitReverse (32 + k) data).
Proof.
  revert data. induction k as [|k IH]; intros data; cbn [Poly32Mod2].
  - apply Z.bits_inj'. intros i Hi. cbn [Nat.iter nat_rect]. rewrite !BitReverse_testbit by done.
    change (Z.of_nat 32) with 32. change (Z.of_nat (32 + 0)) with 32. destruct (Z.ltb_spec i 32); [|done]. cbn [andb].
    rewrite Z.land_spec. change 0xffffffff with (Z.ones 32). rewrite Z.ones_spec_low by lia. apply andb_true_r.
  - rewrite IH, Nat.iter_succ_r, poly_step. done.
Qed.

(** The instruction is the bitwise step. *)
Lemma CRC32B_crc_byte c b : 0 <= c < 2 ^ 32 -> is_byte b -> CRC32B c b = crc_byte c b.
Proof.
  intros Hc Hb. unfold CRC32B, crc_byte. rewrite Poly32Mod2_crc. f_equal.
  apply Z.bits_inj'. intros i Hi. rewrite BitReverse_testbit by done. change (Z.of_nat (32 + 8)) with 40.
  assert (forall x n j, 0 <= x < 2 ^ n -> 0 <= n -> n <= j -> Z.testbit x j = false) as Hhi.
  { intros x n j Hx Hn Hj. by rewrite <- (Z.mod_small x (2 ^ n)), Z.mod_pow2_bits_high by lia. }
  rewrite !Z.lxor_spec. destruct (Z.ltb_spec i 40); cbn [andb].
  2: { rewrite (Hhi c 32), (Hhi b 8) by (done || lia). done. }
  rewrite !Z.shiftl_spec by lia.
  assert (forall n x s, (n <= 32)%nat -> 0 <= x < 2 ^ Z.of_nat n -> s = 40 - Z.of_nat n ->
    Z.testbit (BitReverse n x) (40 - 1 - i - s) = Z.testbit x i) as Hr.
  { intros n x s Hn Hx ->. destruct (Z.ltb_spec i (Z.of_nat n)).
    - rewrite BitReverse_testbit by lia. rewrite (proj2 (Z.ltb_lt _ _)) by lia. cbn [andb]. f_equal. lia.
    - rewrite Z.testbit_neg_r by lia. symmetry. apply (Hhi x (Z.of_nat n)); [done|lia|done]. }
  rewrite (Hr 32%nat), (Hr 8%nat) by (done || lia). done.
Qed.

(** * The table *)

(** The static table is the one [make_crc_table] generates, and its entries are
    eight steps of the register. *)
Lemma crc_table_made : crc_table = make_crc_table.
Proof. vm_compute. reflexivity. Qed.
Lemma crc_table_steps : crc_table = map (fun n => Nat.iter 8 crc_bit (Z.of_nat n)) (seq 0 256).
Proof. vm_compute. reflexivity. Qed.
Lemma crc_table_nth i : 0 <= i < 256 -> nth (Z.to_nat i) crc_table 0 = Nat.iter 8 crc_bit i.
Proof.
  intros Hi. rewrite crc_table_steps, (nth_indep _ 0 (Nat.iter 8 crc_bit (Z.of_nat 0))) by (rewrite length_map, length_seq; lia).
  rewrite (map_nth (fun n => Nat.iter 8 crc_bit (Z.of_nat n))), seq_nth by lia. rewrite Nat.add_0_l, Z2Nat.id by lia. done.
Qed.

(** The register is linear, and shifts while its low bits are clear. *)
Lemma crc_bit_lxor a b : crc_bit (Z.lxor a b) = Z.lxor (crc_bit a) (crc_bit b).
Proof.
  apply Z.bits_inj'. intros i Hi. rewrite Z.lxor_spec, !crc_bit_testbit, !Z.lxor_spec by done.
  destruct (Z.testbit a (i + 1)), (Z.testbit b (i + 1)), (Z.testbit a 0), (Z.testbit b 0), (Z.testbit 0xedb88320 i); done.
Qed.
Lemma crc_iter_lxor k a b : Nat.iter k crc_bit (Z.lxor a b) = Z.lxor (Nat.iter k crc_bit a) (Nat.iter k crc_bit b).
Proof. induction k as [|k IH]; [done|]. cbn [Nat.iter nat_rect] in *. rewrite <- crc_bit_lxor. f_equal. exact IH. Qed.
Lemma crc_iter_shift k h : Nat.iter k crc_bit (h * 2 ^ Z.of_nat k) = h.
Proof.
  induction k as [|k IH]; [simpl; lia|]. rewrite Nat.iter_succ_r. rewrite <- IH at 2. f_equal.
  rewrite Nat2Z.inj_succ, Z.pow_succ_r by lia. unfold crc_bit.
  replace (h * (2 * 2 ^ Z.of_nat k)) with (h * 2 ^ Z.of_nat k * 2 ^ 1) by lia.
  change (Z.land ?a 1) with (Z.land a (Z.ones 1)). rewrite Z.land_ones, Z.mod_mul, Z.shiftr_div_pow2, Z.div_mul by lia. apply Z.lxor_0_r.
Qed.

(** A byte through the table. *)
Lemma DO_CRC_byte c x : 0 <= c < 2 ^ 32 -> is_byte x -> DO_CRC crc_table c x = crc_byte c x.
Proof.
  intros Hc Hx. unfold DO_CRC, crc_byte. remember (Z.lxor c x) as y eqn:Ey.
  assert (Z.shiftr c 8 = y / 2 ^ 8) as ->.
  { rewrite Ey, <- Z.shiftr_div_pow2, Z.shiftr_lxor by lia.
    rewrite (Z.shiftr_div_pow2 x), (Z.div_small x) by (done || lia). by rewrite Z.lxor_0_r. }
  change 255 with (Z.ones 8). rewrite Z.land_ones by lia. change (2 ^ 8) with 256. rewrite crc_table_nth by (apply Z.mod_pos_bound; lia).
  assert (y = Z.lxor (y mod 256) (y / 256 * 2 ^ Z.of_nat 8)) as Hy.
  { rewrite Z.lxor_comm, <- Z.add_nocarry_lxor; [pose proof (Z.div_mod y 256); lia|].
    apply Z.bits_inj'. intros i Hi. rewrite Z.land_spec, Z.bits_0. change 256 with (2 ^ 8). change (Z.of_nat 8) with 8.
    destruct (Z.ltb_spec i 8); [by rewrite Z.mul_pow2_bits_low|]. rewrite Z.mod_pow2_bits_high by lia. apply andb_false_r. }
  rewrite Hy at 3. rewrite crc_iter_lxor, crc_iter_shift. done.
Qed.

(** A word: the register after [lxor] of the bytes, pushed out eight bits at a time. *)
Lemma DO_CRC_shift c x w : 0 <= c < 2 ^ 32 -> is_byte x -> 0 <= w ->
  DO_CRC crc_table (Z.lxor c (x + 256 * w)) 0 = Z.lxor (DO_CRC crc_table c x) w.
Proof.
  intros Hc Hx Hw. unfold DO_CRC. rewrite Z.lxor_0_r.
  assert (Z.land (Z.lxor c (x + 256 * w)) 255 = Z.land (Z.lxor c x) 255) as ->.
  { apply Z.bits_inj'. intros i Hi. rewrite !Z.land_spec, !Z.lxor_spec. change 255 with (Z.ones 8).
    destruct (Z.ltb_spec i 8); [|by rewrite Z.ones_spec_high, !andb_false_r by lia]. f_equal. f_equal.
    rewrite <- (Z.mod_pow2_bits_low (x + 256 * w) 8) by lia. change (2 ^ 8) with 256.
    rewrite Z.mul_comm, Z.mod_add by lia. by rewrite Z.mod_small by done. }
  rewrite Z.shiftr_lxor, (Z.shiftr_div_pow2 (x + 256 * w)) by lia. change (2 ^ 8) with 256.
  replace ((x + 256 * w) / 256) with w; [by rewrite Z.lxor_assoc|].
  rewrite Z.mul_comm, Z.div_add, Z.div_small by (done || lia). lia.
Qed.

(** * The loops *)

#[local] Opaque crc_byte DO_CRC crc_table.
Notation fwtool := ursus_crc32_fwtool.
Definition crc_ok32 (c : Z) : Prop := 0 <= c < 2 ^ 32.

Lemma fwtool_app a b c : fwtool c (a ++ b) = fwtool (fwtool c a) b.
Proof. apply fold_left_app. Qed.
Lemma fwtool_steps (f : Z -> Z -> Z) l c :
  (forall c b, crc_ok32 c -> is_byte b -> f c b = crc_byte c b) -> crc_ok32 c -> bytes_ok l ->
  fold_left f l c = fwtool c l.
Proof.
  intros Hf Hc Hl. revert c Hc. induction Hl as [|b l Hb _ IH]; intros c Hc; [done|].
  cbn [fold_left]. rewrite Hf by done. apply IH. by apply crc_byte_range.
Qed.

Lemma align_loop_fwtool c addr buf :
  crc_ok32 c -> bytes_ok buf ->
  exists a b, buf = a ++ b /\ align_loop crc_table c addr buf = (fwtool c a, b).
Proof.
  intros Hc Hb. revert c addr Hc. induction Hb as [|x buf Hx _ IH]; intros c addr Hc; [by exists [], []|].
  cbn [align_loop]. rewrite DO_CRC_byte by done. destruct (_ && _).
  - destruct (IH (crc_byte c x) (addr + 1)) as (a & b & -> & ->); [by apply crc_byte_range|]. by exists (x :: a), b.
  - by exists [x], buf.
Qed.

Lemma word_bytes l c :
  crc_ok32 c -> bytes_ok l ->
  Nat.iter (length l) (fun c => DO_CRC crc_table c 0) (Z.lxor c (le_decode l)) = fwtool c l.
Proof.
  intros Hc Hl. revert c Hc. induction Hl as [|b l Hb Hl IH]; intros c Hc; [apply Z.lxor_0_r|].
  cbn [length le_decode]. rewrite Nat.iter_succ_r, DO_CRC_shift by (done || apply le_decode_range, Hl).
  rewrite DO_CRC_byte by done. apply IH. by apply crc_byte_range.
Qed.
Lemma word_loop_fwtool n c b :
  crc_ok32 c -> bytes_ok b -> (n * 4 <= length b)%nat ->
  word_loop crc_table n c b = (fwtool c (take (n * 4) b), drop (n * 4) b).
Proof.
  revert c b. induction n as [|n IH]; intros c b Hc Hb Hl; [done|]. cbn [word_loop].
  assert (length (take 4 b) = 4%nat) as H4 by (rewrite length_take; lia).
  pose proof (word_bytes (take 4 b) c Hc (Forall_take _ 4 _ Hb)) as Hw. rewrite H4 in Hw. cbn [Nat.iter nat_rect] in Hw.
  change (le32 0 b) with (le_decode (take 4 b)). rewrite Hw.
  rewrite IH; [|by apply crc_range, Forall_take|by apply Forall_drop|rewrite length_drop; lia].
  rewrite <- fwtool_app, drop_drop. change (S n * 4)%nat with (4 + n * 4)%nat. f_equal. f_equal.
  rewrite <- (take_drop 4 b) at 3. rewrite take_app_add' by done. done.
Qed.

(** What the compiler's builtin does: the instruction of the architecture manual. *)
Definition builtin_ok (f : option (Z -> Z -> Z)) : Prop :=
  match f with Some crc32b => forall c b, crc_ok32 c -> is_byte b -> crc32b c b = CRC32B c b | None => True end.

Lemma no_comp_fwtool f c addr buf :
  builtin_ok f -> crc_ok32 c -> bytes_ok buf -> crc32_no_comp f c addr buf = fwtool c buf.
Proof.
  intros Hf Hc Hb. unfold crc32_no_comp. destruct f as [f|].
  { apply fwtool_steps; [|done..]. intros. rewrite Hf by done. by apply CRC32B_crc_byte. }
  assert (exists a b, buf = a ++ b /\
    (if nz (Z.land addr 3) && nz (blen buf) then align_loop crc_table c addr buf else (c, buf)) = (fwtool c a, b)) as (a & b & -> & ->).
  { destruct (_ && _); [by apply align_loop_fwtool|]. by exists [], buf. }
  apply Forall_app in Hb as [Ha Hb]. assert (crc_ok32 (fwtool c a)) as Hca by (by apply crc_range).
  assert (Z.to_nat (Z.shiftr (blen b) 2) = length b / 4)%nat as ->.
  { rewrite Z.shiftr_div_pow2 by lia. unfold blen. change (2 ^ 2) with (Z.of_nat 4). rewrite <- Nat2Z.inj_div. lia. }
  pose proof (Nat.div_mod_eq (length b) 4). rewrite word_loop_fwtool by (done || lia).
  rewrite (take_ge (drop _ b)).
  - rewrite (fwtool_steps (DO_CRC crc_table)); [|intros; by apply DO_CRC_byte|by apply crc_range, Forall_take|by apply Forall_drop].
    rewrite <- fwtool_app, take_drop. by rewrite fwtool_app.
  - change 3 with (Z.ones 2). rewrite Z.land_ones by lia. unfold blen. change (2 ^ 2) with (Z.of_nat 4).
    rewrite <- Nat2Z.inj_mod, length_drop. lia.
Qed.

(** * The checksum *)

Definition ones_comp (c : Z) : Z := Z.lxor c 0xffffffff.
Lemma ones_comp_ok c : crc_ok32 c -> crc_ok32 (ones_comp c).
Proof. intros. by apply lxor_range. Qed.
Lemma ones_comp_comp c : ones_comp (ones_comp c) = c.
Proof. unfold ones_comp. by rewrite Z.lxor_assoc, Z.lxor_nilpotent, Z.lxor_0_r. Qed.

Lemma crc32_fwtool f c addr buf :
  builtin_ok f -> crc_ok32 c -> bytes_ok buf ->
  crc32 f c addr buf = ones_comp (fwtool (ones_comp c) buf).
Proof. intros. unfold crc32. by rewrite no_comp_fwtool by (done || by apply ones_comp_ok). Qed.
Lemma crc32_ok f c addr buf : builtin_ok f -> crc_ok32 c -> bytes_ok buf -> crc_ok32 (crc32 f c addr buf).
Proof. intros. rewrite crc32_fwtool by done. by apply ones_comp_ok, crc_range; [apply ones_comp_ok|]. Qed.

Lemma crc32_chunks_fwtool f fuel chunk_sz c addr buf :
  builtin_ok f -> 0 < chunk_sz -> (length buf <= fuel)%nat -> crc_ok32 c -> bytes_ok buf ->
  crc32_chunks f fuel chunk_sz c addr buf = ones_comp (fwtool (ones_comp c) buf).
Proof.
  intros Hf Hz. revert c addr buf. induction fuel as [|fuel IH]; intros c addr buf Hl Hc Hb.
  { destruct buf; [|simpl in Hl; lia]. symmetry. apply ones_comp_comp. }
  destruct buf as [|x t]; [symmetry; apply ones_comp_comp|]. remember (x :: t) as buf eqn:Ei.
  remember (if chunk_sz <? blen buf then chunk_sz else blen buf) as k eqn:Ek.
  assert (crc32_chunks f (S fuel) chunk_sz c addr buf =
    crc32_chunks f fuel chunk_sz (crc32 f c addr (take (Z.to_nat k) buf)) (addr + k) (drop (Z.to_nat k) buf)) as -> by (by rewrite Ek, Ei).
  assert (0 < Z.to_nat k <= length buf)%nat as Hk.
  { subst k. assert (0 < length buf)%nat by (subst buf; simpl; lia). unfold blen. destruct (Z.ltb_spec chunk_sz (Z.of_nat (length buf))); lia. }
  rewrite IH; [|rewrite length_drop; lia|by apply crc32_ok, Forall_take|by apply Forall_drop].
  rewrite crc32_fwtool by (done || by apply Forall_take). rewrite ones_comp_comp, <- fwtool_app, take_drop. done.
Qed.

(** C23: [crc32_wd] is the one's complement of the bitwise CRC of the firmware
    trailer check, for both builds (the 256-entry table read a word at a time, the
    ARMv8 instruction), from any address, with and without the watchdog loop and
    for any positive chunk size; and the static table is the one [make_crc_table]
    generates.  The hypothesis on the builtin is the architecture's pseudocode of
    [CRC32B], a division in the polynomial with reversed bits. *)
Theorem crc32_wd_is_fwtool f watchdog crc addr buf chunk_sz :
  builtin_ok f -> 0 <= crc < 2 ^ 32 -> bytes_ok buf -> 0 < chunk_sz ->
  crc_table = make_crc_table /\
  crc32_wd f watchdog crc addr buf chunk_sz =
  Z.lxor (ursus_crc32_fwtool (Z.lxor crc 0xffffffff) buf) 0xffffffff.
Proof.
  intros Hf Hc Hb Hz. split; [apply crc_table_made|].
  destruct watchdog; [by apply crc32_chunks_fwtool|by apply crc32_fwtool].
Qed.
Lemma crc32_wd_is_fwtool_witness :
  crc32_wd (Some CRC32B) true 0 3 (bytes_of "ursus") 2 =
  Z.lxor (ursus_crc32_fwtool (Z.lxor 0 0xffffffff) (bytes_of "ursus")) 0xffffffff.
Proof.
  apply (crc32_wd_is_fwtool (Some CRC32B)); [done|by split| |reflexivity].
  repeat (constructor; [by split|]). constructor.
Defined.
