(* ===== verification/Fdt.v ===== *)
(** Flattened device trees (scripts/dtc/libfdt/fdt.c and fdt_ro.c), the container of
    the FIT images: the header check, the tags of the structure block, the walk
    over nodes and properties, strings, and the lookups the program calls.

    The tree is untrusted input, so reads are explicit: [fdt] holds the bytes from
    the pointer [addr] on, and a read outside of them is [None] in the result, as is
    a loop that exhausts its fuel (the number of bytes).  A null pointer of the code
    is a separate [None] or an error inside the result.  The build makes no
    assumptions on its input ([FDT_ASSUME_MASK] is 0), so every [can_assume] is
    false.  Pointers into the tree are offsets from [addr]. *)
From S2P Require Import Prelude Bytes.

Definition s32 (z : Z) : Z := let r := u32 z in if r <? 2 ^ 31 then r else r - 2 ^ 32.
Definition INT_MAX : Z := 2 ^ 31 - 1.

Definition FDT_MAGIC : Z := 0xd00dfeed.
Definition FDT_SW_MAGIC : Z := 0x2ff20112.
Definition FDT_TAGSIZE : Z := 4.
Definition FDT_BEGIN_NODE : Z := 1.
Definition FDT_END_NODE : Z := 2.
Definition FDT_PROP : Z := 3.
Definition FDT_NOP : Z := 4.
Definition FDT_END : Z := 9.
Definition FDT_FIRST_SUPPORTED_VERSION : Z := 0x02.
Definition FDT_LAST_SUPPORTED_VERSION : Z := 0x11.
Definition FDT_ERR_NOTFOUND : Z := 1.
Definition FDT_ERR_BADOFFSET : Z := 4.
Definition FDT_ERR_BADPATH : Z := 5.
Definition FDT_ERR_BADSTATE : Z := 7.
Definition FDT_ERR_TRUNCATED : Z := 8.
Definition FDT_ERR_BADMAGIC : Z := 9.
Definition FDT_ERR_BADVERSION : Z := 10.
Definition FDT_ERR_BADSTRUCTURE : Z := 11.
Definition FDT_ERR_INTERNAL : Z := 13.
Definition FDT_ERR_ALIGNMENT : Z := 19.

(** [fdt_header_size_]: FDT_V1_SIZE to FDT_V17_SIZE. *)
Definition fdt_header_size_ (version : Z) : Z :=
  if version <=? 1 then 28 else if version <=? 2 then 32 else if version <=? 3 then 36
  else if version <=? 16 then 36 else 40.
Definition check_off_ (hdrsize totalsize off : Z) : bool := (hdrsize <=? off) && (off <=? totalsize).
Definition check_block_ (hdrsize totalsize base size : Z) : bool :=
  if negb (check_off_ hdrsize totalsize base) then false
  else if u32 (base + size) <? base then false
  else check_off_ hdrsize totalsize (u32 (base + size)).
(** [FDT_TAGALIGN(x)]. *)
Definition FDT_TAGALIGN (x : Z) : Z := Z.land (x + FDT_TAGSIZE - 1) (Z.lnot (FDT_TAGSIZE - 1)).

Definition be_decode (l : list Z) : Z := fold_left (fun acc b => 256 * acc + b) l 0.

(** The position after the first zero among the first [n] bytes ([memchr]); [None]
    when the bytes run out before the search ends. *)
Fixpoint find0 (n : nat) (l : list Z) : option (option nat) :=
  match n, l with
  | O, _ => Some None
  | S _, [] => None
  | S n', b :: l' => if b =? 0 then Some (Some O) else option_map (option_map S) (find0 n' l')
  end.
(** The bytes up to a terminator. *)
Fixpoint c_string (l : list Z) : option (list Z) :=
  match l with
  | [] => None
  | b :: l' => if b =? 0 then Some [] else option_map (cons b) (c_string l')
  end.
(** [strrchr(s, '/') + 1] in a terminated string: the part after the last slash. *)
Fixpoint after_slash (s : list Z) : option (list Z) :=
  match s with
  | [] => None
  | b :: s' => match after_slash s' with Some r => Some r | None => if b =? 47 then Some s' else None end
  end.

(** The part before the first slash. *)
Fixpoint until_slash (s : list Z) : list Z :=
  match s with
  | [] => []
  | b :: s' => if b =? 47 then [] else b :: until_slash s'
  end.

Section Tree.
Context (addr : Z) (fdt : list Z).

(** ** The header *)

Definition fdt_get_header (off : Z) : Z := be_decode (slice off 4 fdt).
Definition fdt_magic : Z := fdt_get_header 0.
Definition fdt_totalsize : Z := fdt_get_header 4.
Definition fdt_off_dt_struct : Z := fdt_get_header 8.
Definition fdt_off_dt_strings : Z := fdt_get_header 12.
Definition fdt_off_mem_rsvmap : Z := fdt_get_header 16.
Definition fdt_version : Z := fdt_get_header 20.
Definition fdt_last_comp_version : Z := fdt_get_header 24.
Definition fdt_size_dt_strings : Z := fdt_get_header 32.
Definition fdt_size_dt_struct : Z := fdt_get_header 36.

Definition fdt_ro_probe_ : Z :=
  if nz (Z.land addr 7) then - FDT_ERR_ALIGNMENT
  else
    let fin := if fdt_totalsize <? INT_MAX then fdt_totalsize else - FDT_ERR_TRUNCATED in
    if fdt_magic =? FDT_MAGIC then
      if fdt_version <? FDT_FIRST_SUPPORTED_VERSION then - FDT_ERR_BADVERSION
      else if FDT_LAST_SUPPORTED_VERSION <? fdt_last_comp_version then - FDT_ERR_BADVERSION
      else fin
    else if fdt_magic =? FDT_SW_MAGIC then
      if fdt_size_dt_struct =? 0 then - FDT_ERR_BADSTATE else fin
    else - FDT_ERR_BADMAGIC.

Definition fdt_check_header : Z :=
  if nz (Z.land addr 7) then - FDT_ERR_ALIGNMENT
  else if negb (fdt_magic =? FDT_MAGIC) then - FDT_ERR_BADMAGIC
  else if (fdt_version <? FDT_FIRST_SUPPORTED_VERSION) || (FDT_LAST_SUPPORTED_VERSION <? fdt_last_comp_version)
  then - FDT_ERR_BADVERSION
  else if fdt_version <? fdt_last_comp_version then - FDT_ERR_BADVERSION
  else
    let hdrsize := fdt_header_size_ fdt_version in
    if (fdt_totalsize <? hdrsize) || (INT_MAX <? fdt_totalsize) then - FDT_ERR_TRUNCATED
    else if negb (check_off_ hdrsize fdt_totalsize fdt_off_mem_rsvmap) then - FDT_ERR_TRUNCATED
    else if negb (if fdt_version <? 17 then check_off_ hdrsize fdt_totalsize fdt_off_dt_struct
                  else check_block_ hdrsize fdt_totalsize fdt_off_dt_struct fdt_size_dt_struct) then - FDT_ERR_TRUNCATED
    else if negb (check_block_ hdrsize fdt_totalsize fdt_off_dt_strings fdt_size_dt_strings) then - FDT_ERR_TRUNCATED
    else 0.

(** ** Reads *)

Definition ld (pos n : Z) : option (list Z) :=
  if (0 <=? pos) && (pos + n <=? blen fdt) then Some (slice pos n fdt) else None.
Definition fdt32_ld_ (pos : Z) : option Z := option_map be_decode (ld pos 4).
Definition ld8 (pos : Z) : option Z := option_map be_decode (ld pos 1).
Definition strings_at (pos : Z) : list Z := if pos <? 0 then [] else drop (Z.to_nat pos) fdt.

(** ** Tags *)

Definition fdt_offset_ptr_ (offset : Z) : Z := fdt_off_dt_struct + offset.
Definition fdt_offset_ptr (offset len : Z) : option Z :=
  let uoffset := u32 offset in
  let absoffset := u32 (offset + fdt_off_dt_struct) in
  if offset <? 0 then None
  else if (absoffset <? uoffset) || (u32 (absoffset + len) <? absoffset) || (fdt_totalsize <? u32 (absoffset + len)) then None
  else if (0x11 <=? fdt_version) && ((u32 (uoffset + len) <? uoffset) || (fdt_size_dt_struct <? u32 (offset + len))) then None
  else Some (fdt_offset_ptr_ offset).

(** The name of a node: whether the terminator was found, and the offset after the
    last byte looked at. *)
Fixpoint skip_name (fuel : nat) (offset : Z) : option (bool * Z) :=
  match fuel with
  | O => None
  | S fuel' =>
    match fdt_offset_ptr offset 1 with
    | None => Some (false, offset + 1)
    | Some p =>
      match ld8 p with
      | None => None
      | Some c => if nz c then skip_name fuel' (offset + 1) else Some (true, offset + 1)
      end
    end
  end.

(** The tag and [*nextoffset]. *)
Definition fdt_next_tag (startoffset : Z) : option (Z * Z) :=
  match fdt_offset_ptr startoffset FDT_TAGSIZE with
  | None => Some (FDT_END, - FDT_ERR_TRUNCATED)
  | Some tagp =>
    tag ← fdt32_ld_ tagp;
    let offset := startoffset + FDT_TAGSIZE in
    let bad := Some (FDT_END, - FDT_ERR_BADSTRUCTURE) in
    let finish offset :=
      match fdt_offset_ptr startoffset (u32 (offset - startoffset)) with
      | None => bad
      | Some _ => Some (tag, s32 (FDT_TAGALIGN offset))
      end in
    if tag =? FDT_BEGIN_NODE then
      '(p, offset) ← skip_name (S (length fdt)) offset;
      if negb p then bad else finish offset
    else if tag =? FDT_PROP then
      match fdt_offset_ptr offset 4 with
      | None => bad
      | Some lenp =>
        len ← fdt32_ld_ lenp;
        let sum := u32 (len + offset) in
        if (INT_MAX <=? sum) || (sum <? u32 offset) then bad
        else
          let offset := s32 (offset + (12 - FDT_TAGSIZE + len)) in
          let offset :=
            if (fdt_version <? 0x10) && (8 <=? len) && nz (u32 (offset - len) `mod` 8) then s32 (offset + 4) else offset in
          finish offset
      end
    else if (tag =? FDT_END) || (tag =? FDT_END_NODE) || (tag =? FDT_NOP) then finish offset
    else bad
  end.

(** [fdt_check_node_offset_] and [fdt_check_prop_offset_]: the next offset or an
    error; C's remainder is zero exactly when the modulus is. *)
Definition check_tag_offset (want offset : Z) : option Z :=
  if (offset <? 0) || nz (offset `mod` FDT_TAGSIZE) then Some (- FDT_ERR_BADOFFSET)
  else
    '(tag, next) ← fdt_next_tag offset;
    Some (if negb (tag =? want) then - FDT_ERR_BADOFFSET else next).
Definition fdt_check_node_offset_ (offset : Z) : option Z := check_tag_offset FDT_BEGIN_NODE offset.
Definition fdt_check_prop_offset_ (offset : Z) : option Z := check_tag_offset FDT_PROP offset.

(** ** Nodes *)

(** The loop of [fdt_next_node] from [nextoffset]; [depth] is [None] for a null
    pointer.  Result: the returned offset and the depth. *)
Fixpoint next_node_loop (fuel : nat) (nextoffset : Z) (depth : option Z) : option (Z * option Z) :=
  match fuel with
  | O => None
  | S fuel' =>
    let offset := nextoffset in
    '(tag, nextoffset) ← fdt_next_tag offset;
    if tag =? FDT_BEGIN_NODE then Some (offset, option_map (fun d => d + 1) depth)
    else if tag =? FDT_END_NODE then
      let depth := option_map (fun d => d - 1) depth in
      if default 0 depth <? 0 then Some (nextoffset, depth) else next_node_loop fuel' nextoffset depth
    else if tag =? FDT_END then
      Some (if (0 <=? nextoffset) || ((nextoffset =? - FDT_ERR_TRUNCATED) && negb (bool_decide (is_Some depth)))
            then - FDT_ERR_NOTFOUND else nextoffset, depth)
    else next_node_loop fuel' nextoffset depth
  end.
Definition fdt_next_node (offset : Z) (depth : option Z) : option (Z * option Z) :=
  let fuel := S (length fdt) in
  if 0 <=? offset then
    nextoffset ← fdt_check_node_offset_ offset;
    if nextoffset <? 0 then Some (nextoffset, depth) else next_node_loop fuel nextoffset depth
  else next_node_loop fuel 0 depth.

Definition fdt_first_subnode (offset : Z) : option Z :=
  '(offset, depth) ← fdt_next_node offset (Some 0);
  Some (if (offset <? 0) || negb (default 0 depth =? 1) then - FDT_ERR_NOTFOUND else offset).
Fixpoint next_subnode_loop (fuel : nat) (offset : Z) (depth : option Z) : option Z :=
  match fuel with
  | O => None
  | S fuel' =>
    '(offset, depth) ← fdt_next_node offset depth;
    if (offset <? 0) || (default 0 depth <? 1) then Some (- FDT_ERR_NOTFOUND)
    else if 1 <? default 0 depth then next_subnode_loop fuel' offset depth else Some offset
  end.
Definition fdt_next_subnode (offset : Z) : option Z := next_subnode_loop (S (length fdt)) offset (Some 1).

(** ** Strings *)

(** [fdt_get_string]: an error, or the position and length of the string. *)
Definition fdt_get_string (stroffset : Z) : option (Z + Z * Z) :=
  let totalsize := fdt_ro_probe_ in
  if totalsize <? 0 then Some (inl totalsize)
  else
    let bad := Some (inl (- FDT_ERR_BADOFFSET)) in
    let absoffset := u32 (stroffset + fdt_off_dt_strings) in
    if totalsize <=? absoffset then bad
    else
      let len := totalsize - absoffset in
      let search len :=
        match find0 (Z.to_nat len) (strings_at absoffset) with
        | None => None
        | Some None => Some (inl (- FDT_ERR_TRUNCATED))
        | Some (Some n) => Some (inr (absoffset, Z.of_nat n))
        end in
      if fdt_magic =? FDT_MAGIC then
        if stroffset <? 0 then bad
        else if 17 <=? fdt_version then
          if fdt_size_dt_strings <=? u32 stroffset then bad
          else
            let avail := u32 (fdt_size_dt_strings - stroffset) in
            search (if avail <? len then avail else len)
        else search len
      else if fdt_magic =? FDT_SW_MAGIC then
        let sw_stroffset := u32 (- stroffset) in
        if (0 <=? stroffset) || (fdt_size_dt_strings <? sw_stroffset) then bad
        else search (if sw_stroffset <? len then sw_stroffset else len)
      else Some (inl (- FDT_ERR_INTERNAL)).

Definition fdt_string_eq_ (stroffset : Z) (s : list Z) : option bool :=
  r ← fdt_get_string stroffset;
  match r with
  | inl _ => Some false
  | inr (p, slen) =>
    if negb (slen =? blen s) then Some false else d ← ld p (blen s); Some (memeq d s)
  end.

(** ** Properties *)

Fixpoint nextprop_loop (fuel : nat) (offset : Z) : option Z :=
  match fuel with
  | O => None
  | S fuel' =>
    '(tag, nextoffset) ← fdt_next_tag offset;
    if tag =? FDT_END then Some (if 0 <=? nextoffset then - FDT_ERR_BADSTRUCTURE else nextoffset)
    else if tag =? FDT_PROP then Some offset
    else if tag =? FDT_NOP then nextprop_loop fuel' nextoffset
    else Some (- FDT_ERR_NOTFOUND)
  end.
Definition nextprop_ (offset : Z) : option Z := nextprop_loop (S (length fdt)) offset.
Definition fdt_first_property_offset (nodeoffset : Z) : option Z :=
  offset ← fdt_check_node_offset_ nodeoffset;
  if offset <? 0 then Some offset else nextprop_ offset.
Definition fdt_next_property_offset (offset : Z) : option Z :=
  offset ← fdt_check_prop_offset_ offset;
  if offset <? 0 then Some offset else nextprop_ offset.

(** An error, or the position of the [fdt_property] and [*lenp]. *)
Definition fdt_get_property_by_offset_ (offset : Z) : option (Z + Z * Z) :=
  err ← fdt_check_prop_offset_ offset;
  if err <? 0 then Some (inl err)
  else
    let prop := fdt_offset_ptr_ offset in
    len ← fdt32_ld_ (prop + 4);
    Some (inr (prop, s32 len)).
(** The loop over the properties; the result adds [*poffset]. *)
Fixpoint property_loop (fuel : nat) (offset : Z) (name : list Z) : option (Z + Z * Z * Z) :=
  match fuel with
  | O => None
  | S fuel' =>
    if offset <? 0 then Some (inl offset)
    else
      r ← fdt_get_property_by_offset_ offset;
      match r with
      | inl _ => Some (inl (- FDT_ERR_INTERNAL))
      | inr (prop, len) =>
        nameoff ← fdt32_ld_ (prop + 8);
        eq ← fdt_string_eq_ (s32 nameoff) name;
        if (eq : bool) then Some (inr (prop, len, offset))
        else next ← fdt_next_property_offset offset; property_loop fuel' next name
      end
  end.
Definition fdt_get_property_namelen_ (offset : Z) (name : list Z) : option (Z + Z * Z * Z) :=
  offset ← fdt_first_property_offset offset;
  property_loop (S (length fdt)) offset name.
(** [fdt_getprop_namelen]: an error, or the position of the value and [*lenp]. *)
Definition fdt_getprop_namelen (nodeoffset : Z) (name : list Z) : option (Z + Z * Z) :=
  r ← fdt_get_property_namelen_ nodeoffset name;
  match r with
  | inl err => Some (inl err)
  | inr (prop, lenp, poffset) =>
    len ← fdt32_ld_ (prop + 4);
    Some (inr (if (fdt_version <? 0x10) && nz ((poffset + 12) `mod` 8) && (8 <=? len) then prop + 12 + 4 else prop + 12, lenp))
  end.

(** ** Names and paths *)

(** [fdt_get_name]: an error, or the name, whose length is [*len]. *)
Definition fdt_get_name (nodeoffset : Z) : option (Z + list Z) :=
  let nh := fdt_offset_ptr_ nodeoffset in
  if fdt_ro_probe_ <? 0 then Some (inl fdt_ro_probe_)
  else
    err ← fdt_check_node_offset_ nodeoffset;
    if err <? 0 then Some (inl err)
    else
      nameptr ← c_string (strings_at (nh + FDT_TAGSIZE));
      if fdt_version <? 0x10 then
        match after_slash nameptr with
        | None => Some (inl (- FDT_ERR_BADSTRUCTURE))
        | Some leaf => Some (inr leaf)
        end
      else Some (inr nameptr).

(** [p] and [s] compared over [len]; then the byte of [p] after them. *)
Definition fdt_nodename_eq_ (offset : Z) (s : list Z) : option bool :=
  r ← fdt_get_name offset;
  match r with
  | inl _ => Some false
  | inr p =>
    if blen p <? blen s then Some false
    else if negb (memeq (take (length s) p) s) then Some false
    else if (length p =? length s)%nat then Some true
    else Some (negb (existsb (fun c => c =? 64) s) && (nth (length s) p 0 =? 64))
  end.

Fixpoint subnode_loop (fuel : nat) (offset : Z) (depth : option Z) (name : list Z) : option Z :=
  match fuel with
  | O => None
  | S fuel' =>
    if (0 <=? offset) && (0 <=? default 0 depth) then
      eq ← (if default 0 depth =? 1 then fdt_nodename_eq_ offset name else Some false);
      if (eq : bool) then Some offset
      else '(offset, depth) ← fdt_next_node offset depth; subnode_loop fuel' offset depth name
    else Some (if default 0 depth <? 0 then - FDT_ERR_NOTFOUND else offset)
  end.
Definition fdt_subnode_offset_namelen (offset : Z) (name : list Z) : option Z :=
  if fdt_ro_probe_ <? 0 then Some fdt_ro_probe_
  else subnode_loop (S (S (length fdt))) offset (Some 0) name.

(** The components of the rest of a path, from [offset]. *)
Fixpoint path_loop (fuel : nat) (offset : Z) (p : list Z) : option Z :=
  match fuel, p with
  | O, _ => None
  | S _, [] => Some offset
  | S fuel', c :: p' =>
    if c =? 47 then path_loop fuel' offset p'
    else
      let name := until_slash p in
      offset ← fdt_subnode_offset_namelen offset name;
      if offset <? 0 then Some offset else path_loop fuel' offset (drop (length name) p)
  end.
(** [alias] is the offset of the path that an alias of that name stands for, and
    [None] without such an alias; no caller passes a path without a slash. *)
Definition fdt_path_offset_namelen (alias : list Z -> option Z) (path : list Z) : option Z :=
  if fdt_ro_probe_ <? 0 then Some fdt_ro_probe_
  else
    match path with
    | [] => Some (- FDT_ERR_BADPATH)
    | c :: _ =>
      if c =? 47 then path_loop (S (length path)) 0 path
      else
        let name := until_slash path in
        match alias name with
        | None => Some (- FDT_ERR_BADPATH)
        | Some offset => path_loop (S (length path)) offset (drop (length name) path)
        end
    end.
End Tree.

(** [memcmp(a, l, n) == 0] for the [n] bytes [a], read up to the first difference. *)
Fixpoint memcmp0 (a l : list Z) : option bool :=
  match a, l with
  | [], _ => Some true
  | _ :: _, [] => None
  | x :: a', y :: l' => if x =? y then memcmp0 a' l' else Some false
  end.
(** [fdt_stringlist_contains] on a list in memory: [strlist] holds the bytes from the
    pointer on, of which [listlen] are the list. *)
Fixpoint stringlist_loop (fuel : nat) (strlist : list Z) (listlen : Z) (str : list Z) : option bool :=
  match fuel with
  | O => None
  | S fuel' =>
    if listlen <? blen str then Some false
    else
      eq ← memcmp0 (str ++ [0]) strlist;
      if (eq : bool) then Some true
      else
        match find0 (Z.to_nat listlen) strlist with
        | None => None
        | Some None => Some false
        | Some (Some p) => stringlist_loop fuel' (drop (S p) strlist) (listlen - (Z.of_nat p + 1)) str
        end
  end.
Definition fdt_stringlist_contains (strlist : list Z) (listlen : Z) (str : list Z) : option bool :=
  stringlist_loop (S (length strlist)) strlist listlen str.

(** * An example *)

(** A version 17 tree: [/] with [compatible], and [/images] with the node
    [kernel@1] and its [data]. *)
Definition be32b (z : Z) : list Z := rev (le_encode 4 z).
Definition sample_struct : list Z :=
  be32b 1 ++ [0; 0; 0; 0] ++ be32b 3 ++ be32b 4 ++ be32b 0 ++ [97; 98; 99; 0] ++
  be32b 1 ++ bytes_of "images" ++ [0; 0] ++
  be32b 1 ++ bytes_of "kernel@1" ++ [0; 0; 0; 0] ++ be32b 3 ++ be32b 3 ++ be32b 11 ++ [7; 8; 9; 0] ++
  be32b 2 ++ be32b 2 ++ be32b 2 ++ be32b 9.
Definition sample_strings : list Z := bytes_of "compatible" ++ [0] ++ bytes_of "data" ++ [0].
Definition sample_tree : list Z :=
  let ss := blen sample_struct in
  let ts := blen sample_strings in
  concat (map be32b [FDT_MAGIC; 56 + ss + ts; 56; 56 + ss; 40; 17; 16; 0; ts; ss]) ++ repeat 0 16 ++
  sample_struct ++ sample_strings.

Example sample_header : fdt_check_header 0 sample_tree = 0.
Proof. vm_compute. reflexivity. Qed.
Example sample_lookup :
  let sub := fdt_subnode_offset_namelen 0 sample_tree in
  fdt_path_offset_namelen 0 sample_tree (fun _ => None) (bytes_of "/images") = Some 24 /\
  sub 24 (bytes_of "kernel@1") = Some 36 /\
  sub 24 (bytes_of "kernel") = Some 36 /\
  sub 24 (bytes_of "fdt@1") = Some (- FDT_ERR_NOTFOUND) /\
  fdt_first_subnode sample_tree 24 = Some 36 /\
  fdt_next_subnode sample_tree 36 = Some (- FDT_ERR_NOTFOUND) /\
  fdt_getprop_namelen 0 sample_tree 36 (bytes_of "data") = Some (inr (56 + 64, 3)).
Proof. vm_compute. repeat split. Qed.
Example sample_contains :
  fdt_stringlist_contains [97; 98; 0; 99; 100; 0] 6 (bytes_of "cd") = Some true /\
   fdt_stringlist_contains [97; 98; 0; 99; 100; 0] 6 (bytes_of "b") = Some false.
Proof. vm_compute. repeat split. Qed.
