(* ===== verification/FdtThms.v ===== *)
(** Device-tree lookups on untrusted input: once [fdt_check_header] accepts a blob
    and its [totalsize] bytes are there, no lookup reads outside of them, every loop
    ends, and the values handed out lie inside, whatever the rest of the blob is. *)
From S2P Require Import Prelude Bytes Fdt.

(** * Results of reads *)

(** [m] neither reads out of bounds nor runs out of fuel, and its result is in [Q]. *)
Definition ok {A} (m : option A) (Q : A -> Prop) : Prop := exists a, m = Some a /\ Q a.
Lemma ok_ret {A} (a : A) (Q : A -> Prop) : Q a -> ok (Some a) Q.
Proof. by exists a. Qed.
Lemma ok_bind {A B} (m : option A) (k : A -> option B) (P : A -> Prop) (Q : B -> Prop) :
  ok m P -> (forall a, P a -> ok (k a) Q) -> ok (m ≫= k) Q.
Proof. intros (a & -> & Ha) Hk. by apply Hk. Qed.
Lemma ok_mono {A} (m : option A) (P Q : A -> Prop) : ok m P -> (forall a, P a -> Q a) -> ok m Q.
Proof. intros (a & -> & Ha) H. exists a. auto. Qed.
Lemma ok_if {A} (b : bool) (m n : option A) (Q : A -> Prop) :
  (b = true -> ok m Q) -> (b = false -> ok n Q) -> ok (if b then m else n) Q.
Proof. destruct b; auto. Qed.

(** * Integers *)

Lemma u32_nowrap a len : 0 <= a < 2 ^ 32 -> 0 <= len < 2 ^ 32 -> a <= u32 (a + len) -> u32 (a + len) = a + len.
Proof.
  intros Ha Hl H. destruct (decide (a + len < 2 ^ 32)); [apply u32_small; lia|].
  unfold u32 in H. rewrite <- (Z.mod_add _ (-1)), Z.mod_small in H by lia. lia.
Qed.
Lemma s32_small z : - 2 ^ 31 <= z < 2 ^ 31 -> s32 z = z.
Proof.
  intros Hz. unfold s32. destruct (decide (0 <= z)).
  - rewrite u32_small by lia. by rewrite (proj2 (Z.ltb_lt _ _)) by lia.
  - replace (u32 z) with (z + 2 ^ 32).
    + rewrite (proj2 (Z.ltb_ge _ _)) by lia. lia.
    + unfold u32. rewrite <- (Z.mod_add z 1) by lia. rewrite Z.mod_small; lia.
Qed.
Lemma u32_s32 z k : u32 (s32 z + k) = u32 (z + k).
Proof.
  unfold s32. destruct (_ <? _); unfold u32; [by rewrite Zplus_mod_idemp_l|].
  replace (z mod 2 ^ 32 - 2 ^ 32 + k) with (z mod 2 ^ 32 + k + (-1) * 2 ^ 32) by lia.
  by rewrite Z.mod_add, Zplus_mod_idemp_l by lia.
Qed.
Lemma s32_s32 z k : s32 (s32 z + k) = s32 (z + k).
Proof. unfold s32 at 1 3. by rewrite u32_s32. Qed.

Lemma be_decode_app l a : fold_left (fun acc b => 256 * acc + b) l a = a * 256 ^ blen l + be_decode l.
Proof.
  unfold be_decode, blen. revert a. induction l as [|b l IH]; intros a; [simpl; lia|].
  cbn [fold_left]. rewrite IH, (IH (256 * 0 + b)). rewrite length_cons, Nat2Z.inj_succ, Z.pow_succ_r by lia. lia.
Qed.
Lemma be_decode_range l : bytes_ok l -> 0 <= be_decode l < 256 ^ blen l.
Proof.
  induction 1 as [|b l Hb Hl IH]; [done|]. unfold be_decode. cbn [fold_left]. rewrite be_decode_app.
  unfold blen in *. rewrite length_cons, Nat2Z.inj_succ, Z.pow_succ_r by lia. unfold is_byte in Hb. nia.
Qed.
Lemma be_decode_u32 l : bytes_ok l -> (length l <= 4)%nat -> 0 <= be_decode l < 2 ^ 32.
Proof.
  intros Hb Hl. pose proof (be_decode_range l Hb) as H. unfold blen in H.
  assert (256 ^ Z.of_nat (length l) <= 256 ^ 4) by (apply Z.pow_le_mono_r; lia). change (2 ^ 32) with (256 ^ 4). lia.
Qed.

Lemma TAGALIGN_spec e : 0 <= e -> e <= FDT_TAGALIGN e <= e + 3 /\ FDT_TAGALIGN e `mod` 4 = 0.
Proof.
  intros He. unfold FDT_TAGALIGN, FDT_TAGSIZE. change (4 - 1) with (Z.ones 2). replace (e + 4 - 1) with (e + 3) by lia.
  rewrite <- Z.ldiff_land, Z.ldiff_ones_r, Z.shiftl_mul_pow2, Z.shiftr_div_pow2 by lia. change (2 ^ 2) with 4.
  rewrite Z.mod_mul by lia. pose proof (Z.div_mod (e + 3) 4). pose proof (Z.mod_pos_bound (e + 3) 4). lia.
Qed.

(** * Strings *)

Lemma find0_ok n l : (n <= length l)%nat -> ok (find0 n l) (fun r => forall k, r = Some k -> (k < n)%nat).
Proof.
  revert l. induction n as [|n IH]; intros l Hl; [by apply ok_ret|]. destruct l as [|b l]; [simpl in Hl; lia|].
  cbn [find0]. destruct (b =? 0); [apply ok_ret; intros k [= <-]; lia|].
  destruct (IH l) as (r & -> & Hr); [simpl in Hl; lia|]. apply ok_ret. intros k. destruct r as [j|]; [|done].
  intros [= <-]. specialize (Hr j eq_refl). lia.
Qed.
Lemma c_string_ok l i : l !! i = Some 0 -> ok (c_string l) (fun _ => True).
Proof.
  revert i. induction l as [|b l IH]; intros i Hi; [done|]. cbn [c_string].
  destruct (Z.eqb_spec b 0); [by apply ok_ret|]. destruct i as [|i]; [by injection Hi|].
  destruct (IH i Hi) as (s & -> & _). by apply ok_ret.
Qed.
Lemma memeq_length a b : memeq a b = true -> length a = length b.
Proof. by intros ->%memeq_eq. Qed.

Section Accepted.
Context (addr : Z) (fdt : list Z).
Hypothesis Hhdr : fdt_check_header addr fdt = 0.
Hypothesis Hlen : fdt_totalsize fdt <= blen fdt.
Hypothesis Hbytes : bytes_ok fdt.

Notation T := (fdt_off_dt_struct fdt).
Notation total := (fdt_totalsize fdt).

(** * The header *)

Lemma field_range off : 0 <= fdt_get_header fdt off < 2 ^ 32.
Proof.
  apply be_decode_u32; [by apply slice_bytes_ok|]. unfold slice. rewrite length_take. lia.
Qed.
Lemma header_facts : 28 <= T <= total /\ total <= INT_MAX /\ fdt_magic fdt = FDT_MAGIC.
Proof.
  pose proof (field_range 8) as HT. change (fdt_get_header fdt 8) with T in HT.
  assert (28 <= fdt_header_size_ (fdt_version fdt)) as Hh.
  { unfold fdt_header_size_. repeat destruct (_ <=? _); lia. }
  revert Hhdr. unfold fdt_check_header, FDT_ERR_ALIGNMENT, FDT_ERR_BADMAGIC, FDT_ERR_BADVERSION, FDT_ERR_TRUNCATED.
  destruct (nz _); [done|]. destruct (Z.eqb_spec (fdt_magic fdt) FDT_MAGIC); [|done]. cbn [negb].
  destruct (_ || _); [done|]. destruct (_ <? _); [done|].
  destruct (Z.ltb_spec total (fdt_header_size_ (fdt_version fdt))); [done|].
  destruct (Z.ltb_spec INT_MAX total); [done|]. cbn [orb]. destruct (negb _); [done|].
  destruct (if fdt_version fdt <? 17 then _ else _) eqn:Es; [|done]. intros _.
  assert (check_off_ (fdt_header_size_ (fdt_version fdt)) total T = true) as Ho.
  { revert Es. destruct (_ <? 17); [done|]. unfold check_block_. by destruct (check_off_ _ _ T). }
  unfold check_off_ in Ho. apply andb_true_iff in Ho as [H1%Z.leb_le H2%Z.leb_le]. lia.
Qed.

(** * Reads and tags *)

Lemma ld_ok pos n : 0 <= pos -> 0 <= n -> pos + n <= total ->
  ok (ld fdt pos n) (fun l => l = slice pos n fdt /\ blen l = n).
Proof.
  intros. unfold ld. rewrite (proj2 (Z.leb_le _ _)), (proj2 (Z.leb_le _ _)) by lia. apply ok_ret.
  split; [done|]. apply blen_slice; lia.
Qed.
Lemma ld32_ok pos : 0 <= pos -> pos + 4 <= total -> ok (fdt32_ld_ fdt pos) (fun v => 0 <= v < 2 ^ 32).
Proof.
  intros. unfold fdt32_ld_. destruct (ld_ok pos 4) as (l & -> & -> & Hl); [lia..|]. apply ok_ret.
  apply be_decode_u32; [by apply slice_bytes_ok|]. unfold slice. rewrite length_take. lia.
Qed.

Lemma ptr_spec offset len p :
  offset < 2 ^ 31 -> 0 <= len < 2 ^ 32 -> fdt_offset_ptr fdt offset len = Some p ->
  0 <= offset /\ p = T + offset /\ p + len <= total.
Proof.
  intros Ho Hl. destruct header_facts as (HT & Ht & _). unfold INT_MAX in Ht. unfold fdt_offset_ptr, fdt_offset_ptr_.
  destruct (Z.ltb_spec offset 0); [done|]. rewrite (u32_small (offset + T)), (u32_small offset) by lia.
  destruct (Z.ltb_spec (offset + T) offset); [done|]. cbn [orb].
  destruct (Z.ltb_spec (u32 (offset + T + len)) (offset + T)); [done|]. cbn [orb].
  rewrite (u32_nowrap (offset + T)) by lia. destruct (Z.ltb_spec total (offset + T + len)); [done|].
  destruct (_ && _); [done|]. intros [= <-]. lia.
Qed.

Lemma skip_name_ok fuel offset :
  0 <= offset -> total < offset + Z.of_nat fuel -> (0 < fuel)%nat -> offset < 2 ^ 31 ->
  ok (skip_name fdt fuel offset) (fun '(found, o) =>
    offset < o /\ (found = true -> T + o <= total /\ fdt !! Z.to_nat (T + o - 1) = Some 0)).
Proof.
  destruct header_facts as (HT & Ht & _). unfold INT_MAX in Ht.
  revert offset. induction fuel as [|fuel IH]; intros offset Ho Hf Hp Hmax; [lia|]. cbn [skip_name].
  destruct (fdt_offset_ptr fdt offset 1) as [p|] eqn:Ep; [|apply ok_ret; split; [lia|done]].
  apply ptr_spec in Ep as (_ & -> & Hb); [|lia..]. unfold ld8.
  destruct (ld_ok (T + offset) 1) as (l & -> & -> & _); [lia..|]. cbn [option_map].
  destruct (lookup_lt_is_Some_2 fdt (Z.to_nat (T + offset))) as [c Hc]; [unfold blen in Hlen; lia|].
  assert (be_decode (slice (T + offset) 1 fdt) = c) as ->.
  { unfold slice. change (Z.to_nat 1) with 1%nat. rewrite (drop_S fdt c _ Hc). done. }
  destruct (nz c) eqn:En.
  - eapply ok_mono; [apply IH; lia|]. intros [found o] [H1 H2]. split; [lia|done].
  - apply nz_false in En as ->. apply ok_ret. split; [lia|]. intros _. split; [lia|].
    by replace (T + (offset + 1) - 1) with (T + offset) by lia.
Qed.

(** A tag at [start], whose element ends at [e]. *)
Record tag_at (start tag next e : Z) : Prop := {
  ta_start : 0 <= start;
  ta_end : start + 4 <= e;
  ta_in : T + e <= total;
  ta_next : next = FDT_TAGALIGN e;
  ta_name : tag = FDT_BEGIN_NODE -> start + 4 < e /\ fdt !! Z.to_nat (T + e - 1) = Some 0;
  ta_prop : tag = FDT_PROP -> exists len, fdt32_ld_ fdt (T + start + 4) = Some len /\ 0 <= len /\ start + 12 + len <= e /\
              (fdt_version fdt < 0x10 -> 8 <= len -> (start + 12) `mod` 8 <> 0 -> start + 12 + len + 4 <= e);
}.
Definition tag_ok (start : Z) (r : Z * Z) : Prop :=
  (fst r = FDT_END /\ snd r < 0) \/ exists e, tag_at start (fst r) (snd r) e.

Lemma next_range start tag next e : tag_at start tag next e -> start < next /\ e <= next < total /\ next `mod` 4 = 0.
Proof.
  intros []. destruct header_facts as (HT & Ht & _). destruct (TAGALIGN_spec e) as [H1 H2]; [lia|]. subst next.
  split_and!; lia.
Qed.

(** The last step of [fdt_next_tag], for the end [e] of the element in 32 bits. *)
Lemma finish_ok start tag e :
  0 <= start < 2 ^ 31 -> start + 4 <= e < start + 2 ^ 32 ->
  (T + e <= total -> tag_at start tag (FDT_TAGALIGN e) e) ->
  ok (match fdt_offset_ptr fdt start (u32 (s32 e - start)) with
      | None => Some (FDT_END, - FDT_ERR_BADSTRUCTURE)
      | Some _ => Some (tag, s32 (FDT_TAGALIGN (s32 e)))
      end) (tag_ok start).
Proof.
  intros Hs He Hk. destruct header_facts as (HT & Ht & _). unfold INT_MAX in Ht.
  destruct (fdt_offset_ptr _ _ _) as [p|] eqn:Ep; [|apply ok_ret; by left].
  apply ptr_spec in Ep as (_ & -> & Hb); [|lia|apply u32_range].
  rewrite <- Z.add_opp_r, u32_s32, u32_small in Hb by lia. assert (T + e <= total) as Hin by lia.
  destruct (TAGALIGN_spec e) as [Ha _]; [lia|]. rewrite (s32_small e), s32_small by lia.
  apply ok_ret. right. exists e. by apply Hk.
Qed.

Lemma next_tag_ok start : start < 2 ^ 31 -> ok (fdt_next_tag fdt start) (tag_ok start).
Proof.
  intros Hs. destruct header_facts as (HT & Ht & _). pose proof Hlen as Hl. unfold INT_MAX in Ht. unfold fdt_next_tag.
  destruct (fdt_offset_ptr fdt start FDT_TAGSIZE) as [tagp|] eqn:Ep; [|apply ok_ret; by left].
  apply ptr_spec in Ep as (Hs0 & -> & Hb); [|done|done]. unfold FDT_TAGSIZE in *.
  eapply ok_bind; [by apply ld32_ok; lia|]. intros tag _. cbn beta.
  destruct (Z.eqb_spec tag FDT_BEGIN_NODE) as [->|Hnb]; [|destruct (Z.eqb_spec tag FDT_PROP) as [->|Hnp]].
  - eapply ok_bind; [apply skip_name_ok; unfold blen in *; lia|]. intros [[] o] [Ho Hn]; cbn [negb]; [|apply ok_ret; by left].
    destruct Hn as [Hin H0]; [done|]. rewrite <- (s32_small o) by lia.
    apply finish_ok; [lia..|]. intros _. split; try done; lia.
  - destruct (fdt_offset_ptr fdt (start + 4) 4) as [lenp|] eqn:El; [|apply ok_ret; by left].
    apply ptr_spec in El as (_ & -> & Hb2); [|lia..]. rewrite Z.add_assoc in *.
    destruct (ld32_ok (T + start + 4)) as (len & El & Hlen32); [lia..|]. rewrite El. cbn [mbind option_bind].
    rewrite (u32_small (start + 4)) by lia.
    destruct (Z.leb_spec INT_MAX (u32 (len + (start + 4)))) as [|Hm]; [apply ok_ret; by left|]. cbn [orb].
    destruct (Z.ltb_spec (u32 (len + (start + 4))) (start + 4)) as [|Hsum]; [apply ok_ret; by left|].
    rewrite (Z.add_comm len) in Hm, Hsum. rewrite u32_nowrap in Hm by lia. unfold INT_MAX in Hm.
    change (12 - 4) with 8. replace (start + 4 + (8 + len)) with (start + 12 + len) by lia.
    rewrite <- (Z.add_opp_r (s32 _)), u32_s32, s32_s32. replace (start + 12 + len + - len) with (start + 12) by lia.
    rewrite (u32_small (start + 12)) by lia.
    assert (forall b : bool, (if b then s32 (start + 12 + len + 4) else s32 (start + 12 + len)) =
      s32 (start + 12 + len + if b then 4 else 0)) as -> by (intros []; f_equal; lia).
    apply finish_ok; [lia|destruct (_ && _); lia|]. intros Hin. split; try done; [destruct (_ && _); lia|].
    intros _. exists len. split_and!; [done|lia|destruct (_ && _); lia|]. intros Hv H8 Hmod.
    rewrite (proj2 (Z.ltb_lt _ _)), (proj2 (Z.leb_le _ _)), (proj2 (nz_true _)) by done. cbn [andb]. lia.
  - destruct (_ || _); [|apply ok_ret; by left]. rewrite <- (s32_small (start + 4)) by lia.
    apply finish_ok; [lia..|]. intros _. split; try done; lia.
Qed.

(** * Nodes *)

(** Offsets that the walks return: an error, or past [from] and inside the tree. *)
Definition off_ok (from r : Z) : Prop := r < 0 \/ (from <= r /\ 0 <= r < total).

Lemma check_tag_offset_ok want offset :
  offset < 2 ^ 31 -> want <> FDT_END ->
  ok (check_tag_offset fdt want offset) (fun r => r < 0 \/ exists e, tag_at offset want r e /\ offset `mod` 4 = 0).
Proof.
  intros Ho Hw. unfold check_tag_offset, FDT_TAGSIZE. apply ok_if; intros E; [apply ok_ret; by left|].
  apply orb_false_iff in E as [_ Em%nz_false].
  eapply ok_bind; [by apply next_tag_ok|]. intros [tag next] Ht. apply ok_ret.
  destruct (Z.eqb_spec tag want) as [->|]; cbn [negb]; [|by left]. destruct Ht as [[]|[e He]]; [done|]. right. by exists e.
Qed.

Lemma next_node_loop_ok fuel next depth :
  (0 < fuel)%nat -> 0 <= next < 2 ^ 31 -> total < next + Z.of_nat fuel ->
  ok (next_node_loop fdt fuel next depth) (fun '(r, _) => off_ok next r).
Proof.
  destruct header_facts as (HT & Ht & _). unfold INT_MAX in Ht.
  revert next depth. induction fuel as [|fuel IH]; intros next depth Hp Hn Hf; [lia|]. cbn [next_node_loop].
  eapply ok_bind; [apply next_tag_ok; lia|]. intros [tag n] Hk.
  destruct (Z.eqb_spec tag FDT_BEGIN_NODE) as [->|Hnb].
  { destruct Hk as [[]|[e [? ? ? ? ? ?]]]; [done|]. apply ok_ret. right. lia. }
  assert (tag <> FDT_END -> next < n /\ n < total /\ 0 <= n) as Hn'.
  { intros. destruct Hk as [[]|[e He]]; [done|]. pose proof (next_range _ _ _ _ He). cbn [fst snd] in *. lia. }
  assert (tag <> FDT_END -> forall d, ok (next_node_loop fdt fuel n d) (fun '(r, _) => off_ok next r)) as Hrec.
  { intros Hne d. specialize (Hn' Hne). eapply ok_mono; [apply IH; lia|]. intros [r d'] [|[]]; [by left|right; lia]. }
  destruct (Z.eqb_spec tag FDT_END_NODE) as [->|Hne]; [|destruct (Z.eqb_spec tag FDT_END) as [->|Hnend]].
  - apply ok_if; intros _; [|by apply Hrec]. apply ok_ret. right. specialize (Hn' ltac:(done)). lia.
  - apply ok_ret. left. destruct (Z.leb_spec 0 n); [by cbn|]. cbn [orb]. destruct (_ && _); [done|lia].
  - by apply Hrec.
Qed.
Lemma next_node_ok offset depth :
  offset < 2 ^ 31 -> ok (fdt_next_node fdt offset depth) (fun '(r, _) => r < 0 \/ (offset < r /\ 0 <= r < total)).
Proof.
  intros Ho. destruct header_facts as (HT & Ht & _). pose proof Hlen as Hl. unfold INT_MAX in Ht. unfold blen in Hl.
  unfold fdt_next_node. apply ok_if; intros E; [apply Z.leb_le in E|apply Z.leb_gt in E].
  - eapply ok_bind; [by apply check_tag_offset_ok|]. intros next Hn. apply ok_if; intros En; [apply ok_ret; left; lia|].
    destruct Hn as [|[e [He _]]]; [lia|]. pose proof (next_range _ _ _ _ He).
    eapply ok_mono; [apply next_node_loop_ok; lia|]. intros [r d] [|[]]; [by left|right; lia].
  - eapply ok_mono; [apply next_node_loop_ok; lia|]. intros [r d] [|[]]; [by left|right; lia].
Qed.

Lemma first_subnode_ok offset :
  offset < 2 ^ 31 -> ok (fdt_first_subnode fdt offset) (fun r => r < 0 \/ (offset < r /\ 0 <= r < total)).
Proof.
  intros Ho. unfold fdt_first_subnode. eapply ok_bind; [by apply next_node_ok|]. intros [r d] Hr. apply ok_ret.
  destruct (_ || _); [by left|done].
Qed.
Lemma next_subnode_loop_ok fuel offset depth :
  (0 < fuel)%nat -> offset < 2 ^ 31 -> total < offset + Z.of_nat fuel ->
  ok (next_subnode_loop fdt fuel offset depth) (fun r => r < 0 \/ (offset < r /\ 0 <= r < total)).
Proof.
  destruct header_facts as (HT & Ht & _). unfold INT_MAX in Ht.
  revert offset depth. induction fuel as [|fuel IH]; intros offset depth Hp Ho Hf; [lia|]. cbn [next_subnode_loop].
  eapply ok_bind; [by apply next_node_ok|]. intros [r d] Hr. apply ok_if; intros E; [apply ok_ret; by left|].
  apply orb_false_iff in E as [Er%Z.ltb_ge _]. apply ok_if; intros _; [|by apply ok_ret].
  eapply ok_mono; [apply IH; lia|]. intros r'. cbn. lia.
Qed.
Lemma next_subnode_ok offset :
  0 <= offset < 2 ^ 31 -> ok (fdt_next_subnode fdt offset) (fun r => r < 0 \/ (offset < r /\ 0 <= r < total)).
Proof. intros Ho. pose proof Hlen. unfold blen in *. apply next_subnode_loop_ok; lia. Qed.

(** * Properties *)

Lemma get_string_ok stroffset :
  ok (fdt_get_string addr fdt stroffset) (fun r => match r with inl e => e < 0 | inr (p, n) => 0 <= p /\ 0 <= n /\ p + n <= total end).
Proof.
  unfold fdt_get_string. apply ok_if; intros Ep; [apply ok_ret; lia|]. apply Z.ltb_ge in Ep.
  assert (fdt_ro_probe_ addr fdt = total) as Et.
  { revert Ep. unfold fdt_ro_probe_, FDT_ERR_ALIGNMENT, FDT_ERR_BADVERSION, FDT_ERR_BADSTATE, FDT_ERR_BADMAGIC, FDT_ERR_TRUNCATED.
    repeat destruct (_ : bool); lia. }
  rewrite Et. pose proof (u32_range (stroffset + fdt_off_dt_strings fdt)) as Hr.
  remember (u32 (stroffset + fdt_off_dt_strings fdt)) as a eqn:Ea. clear Ea.
  apply ok_if; intros Ea; [by apply ok_ret|]. apply Z.leb_gt in Ea.
  assert (forall len, len <= total - a ->
    ok match find0 (Z.to_nat len) (strings_at fdt a) with
       | None => None
       | Some None => Some (inl (- FDT_ERR_TRUNCATED))
       | Some (Some n) => Some (inr (a, Z.of_nat n))
       end (fun r : Z + Z * Z => match r with inl e => e < 0 | inr (p, n) => 0 <= p /\ 0 <= n /\ p + n <= total end)) as Hsearch.
  { intros len Hle. destruct (find0_ok (Z.to_nat len) (strings_at fdt a)) as (r & -> & Hk).
    { unfold strings_at. rewrite (proj2 (Z.ltb_ge _ _)) by lia. rewrite length_drop. pose proof Hlen. unfold blen in *. lia. }
    destruct r as [n|]; [|by apply ok_ret]. apply ok_ret. specialize (Hk n eq_refl). lia. }
  destruct header_facts as (_ & _ & ->). cbn [Z.eqb]. rewrite Z.eqb_refl.
  apply ok_if; intros _; [by apply ok_ret|]. apply ok_if; intros _; [|apply Hsearch; lia].
  apply ok_if; intros _; [by apply ok_ret|]. apply Hsearch. destruct (Z.ltb_spec (u32 (fdt_size_dt_strings fdt - stroffset)) (total - a)); lia.
Qed.
Lemma string_eq_ok stroffset s : ok (fdt_string_eq_ addr fdt stroffset s) (fun _ => True).
Proof.
  unfold fdt_string_eq_. eapply ok_bind; [apply get_string_ok|]. intros [e|[p n]] Hr; [by apply ok_ret|].
  apply ok_if; intros E; [by apply ok_ret|]. apply negb_false_iff, Z.eqb_eq in E as ->.
  eapply ok_bind; [apply ld_ok; lia|]. intros. by apply ok_ret.
Qed.

Lemma nextprop_loop_ok fuel offset :
  (0 < fuel)%nat -> 0 <= offset < 2 ^ 31 -> total < offset + Z.of_nat fuel ->
  ok (nextprop_loop fdt fuel offset) (off_ok offset).
Proof.
  destruct header_facts as (HT & Ht & _). unfold INT_MAX in Ht.
  revert offset. induction fuel as [|fuel IH]; intros offset Hp Ho Hf; [lia|]. cbn [nextprop_loop].
  eapply ok_bind; [apply next_tag_ok; lia|]. intros [tag n] Hk.
  destruct (Z.eqb_spec tag FDT_END) as [->|Hne].
  { apply ok_ret. left. destruct (Z.leb_spec 0 n); [done|lia]. }
  destruct Hk as [[]|[e He]]; [done|]. cbn [fst snd] in He. pose proof (next_range _ _ _ _ He). destruct He.
  apply ok_if; intros _; [apply ok_ret; right; lia|]. apply ok_if; intros _; [|apply ok_ret; by left].
  eapply ok_mono; [apply IH; lia|]. intros r [|[]]; [by left|right; lia].
Qed.
Lemma property_offset_ok want offset :
  offset < 2 ^ 31 -> want <> FDT_END ->
  ok (next ← check_tag_offset fdt want offset; if next <? 0 then Some next else nextprop_ fdt next)
    (fun r => r < 0 \/ (offset < r /\ 0 <= r < total)).
Proof.
  intros Ho Hw. destruct header_facts as (HT & Ht & _). pose proof Hlen as Hl. unfold INT_MAX, blen in *.
  eapply ok_bind; [by apply check_tag_offset_ok|]. intros next Hn. apply ok_if; intros En; [apply ok_ret; left; lia|].
  destruct Hn as [|[e [He _]]]; [lia|]. pose proof (next_range _ _ _ _ He). destruct He.
  eapply ok_mono; [apply nextprop_loop_ok; lia|]. intros r [|[]]; [by left|right; lia].
Qed.

(** The [fdt_property] at [offset]: its fields and its value are inside. *)
Definition prop_at (offset prop len : Z) : Prop :=
  prop = T + offset /\ 0 <= offset < total /\ 0 <= len /\ prop + 12 + len <= total /\ fdt32_ld_ fdt (prop + 4) = Some len /\
  (fdt_version fdt < 0x10 -> 8 <= len -> (offset + 12) `mod` 8 <> 0 -> prop + 12 + len + 4 <= total).

Lemma property_by_offset_ok offset :
  offset < 2 ^ 31 ->
  ok (fdt_get_property_by_offset_ fdt offset) (fun r => match r with inl e => e < 0 | inr (prop, len) => prop_at offset prop len end).
Proof.
  intros Ho. destruct header_facts as (HT & Ht & _). unfold INT_MAX in Ht. unfold fdt_get_property_by_offset_, fdt_offset_ptr_.
  eapply ok_bind; [by apply check_tag_offset_ok|]. intros err He. apply ok_if; intros Ee; [apply ok_ret; lia|].
  destruct He as [|[e [[] _]]]; [lia|]. destruct ta_prop0 as (len & El & Hl0 & Hle & Hpad); [done|].
  rewrite El. apply ok_ret. rewrite s32_small by lia. split_and!; [done|lia|lia|lia|lia|done|].
  intros Hv H8 Hm. specialize (Hpad Hv H8 Hm). lia.
Qed.

Lemma property_loop_ok fuel offset name :
  (0 < fuel)%nat -> offset < 2 ^ 31 -> (offset < 0 \/ total < offset + Z.of_nat fuel) ->
  ok (property_loop addr fdt fuel offset name) (fun r => match r with inl e => e < 0 | inr (prop, len, po) => prop_at po prop len end).
Proof.
  destruct header_facts as (HT & Ht & _). unfold INT_MAX in Ht.
  revert offset. induction fuel as [|fuel IH]; intros offset Hp Ho Hf; [lia|]. cbn [property_loop].
  apply ok_if; intros E; [apply ok_ret; lia|]. apply Z.ltb_ge in E.
  eapply ok_bind; [by apply property_by_offset_ok|]. intros [e|[prop len]] Hr; [by apply ok_ret|].
  eapply ok_bind; [apply ld32_ok; destruct Hr as (-> & ? & ? & ? & _); lia|]. intros nameoff _.
  eapply ok_bind; [apply string_eq_ok|]. intros eq _. apply ok_if; intros _; [by apply ok_ret|].
  eapply ok_bind; [by apply (property_offset_ok FDT_PROP)|]. intros next Hn. cbn beta in Hn. destruct Hr as (_ & Hin & _). apply IH; lia.
Qed.
Lemma getprop_ok node name :
  node < 2 ^ 31 ->
  ok (fdt_getprop_namelen addr fdt node name)
    (fun r => match r with inl e => e < 0 | inr (p, len) => 0 <= p /\ 0 <= len /\ p + len <= total end).
Proof.
  intros Hn. destruct header_facts as (HT & Ht & _). pose proof Hlen as Hl. unfold INT_MAX, blen in *.
  unfold fdt_getprop_namelen, fdt_get_property_namelen_.
  eapply ok_bind; [eapply ok_bind; [by apply (property_offset_ok FDT_BEGIN_NODE)|]; intros off Ho; cbn beta in Ho; apply property_loop_ok; lia|].
  intros [e|[[prop len] po]] Hr; [by apply ok_ret|]. destruct Hr as (-> & Hpo & Hl0 & Hin & El & Hpad). rewrite El.
  apply ok_ret. destruct (Z.ltb_spec (fdt_version fdt) 0x10); cbn [andb]; [|lia].
  destruct (nz _) eqn:En; cbn [andb]; [|lia]. apply nz_true in En. destruct (Z.leb_spec 8 len); [|lia].
  specialize (Hpad ltac:(done) ltac:(done) En). lia.
Qed.

(** * Names and paths *)

Lemma get_name_ok node : node < 2 ^ 31 -> ok (fdt_get_name addr fdt node) (fun _ => True).
Proof.
  intros Hn. destruct header_facts as (HT & Ht & _). unfold INT_MAX in Ht. unfold fdt_get_name, fdt_offset_ptr_, FDT_TAGSIZE.
  apply ok_if; intros _; [by apply ok_ret|].
  eapply ok_bind; [by apply check_tag_offset_ok|]. intros err He. apply ok_if; intros Ee; [by apply ok_ret|].
  destruct He as [|[e [[] _]]]; [lia|]. destruct ta_name0 as [Hlt H0]; [done|].
  eapply ok_bind.
  - apply (c_string_ok _ (Z.to_nat (e - 1 - (node + 4)))). unfold strings_at. rewrite (proj2 (Z.ltb_ge _ _)) by lia.
    rewrite lookup_drop, <- H0. f_equal. lia.
  - intros nm _. apply ok_if; intros _; [|by apply ok_ret]. destruct (after_slash nm); by apply ok_ret.
Qed.
Lemma nodename_eq_ok node s : node < 2 ^ 31 -> ok (fdt_nodename_eq_ addr fdt node s) (fun _ => True).
Proof.
  intros Hn. unfold fdt_nodename_eq_. eapply ok_bind; [by apply get_name_ok|]. intros [e|nm] _; [by apply ok_ret|].
  repeat (apply ok_if; intros _; [by apply ok_ret|]). by apply ok_ret.
Qed.
Lemma subnode_loop_ok fuel offset depth name :
  (0 < fuel)%nat -> offset < 2 ^ 31 -> (offset < 0 \/ ((1 < fuel)%nat /\ total < offset + Z.of_nat fuel)) ->
  ok (subnode_loop addr fdt fuel offset depth name) (fun r => r < 0 \/ (0 <= offset <= r /\ r < 2 ^ 31)).
Proof.
  destruct header_facts as (HT & Ht & _). unfold INT_MAX in Ht.
  revert offset depth. induction fuel as [|fuel IH]; intros offset depth Hp Ho Hf; [lia|]. cbn [subnode_loop].
  apply ok_if; intros E.
  - apply andb_true_iff in E as [E0%Z.leb_le _]. apply (ok_bind _ _ (fun _ => True)).
    { apply ok_if; intros _; [by apply nodename_eq_ok|by apply ok_ret]. }
    intros eq _. apply ok_if; intros _; [apply ok_ret; right; lia|].
    eapply ok_bind; [by apply next_node_ok|]. intros [r d] Hr. cbn in Hr. eapply ok_mono; [apply IH; lia|]. intros r'. cbn. lia.
  - apply ok_ret. destruct (Z.ltb_spec (default 0 depth) 0); [by left|]. apply andb_false_iff in E as [E%Z.leb_gt|E%Z.leb_gt]; lia.
Qed.
Lemma subnode_offset_ok node name :
  node < 2 ^ 31 ->
  ok (fdt_subnode_offset_namelen addr fdt node name) (fun r => r < 0 \/ (0 <= node <= r /\ r < 2 ^ 31)).
Proof.
  intros Hn. pose proof Hlen. unfold blen in *. unfold fdt_subnode_offset_namelen.
  apply ok_if; intros E; [apply ok_ret; left; lia|]. apply subnode_loop_ok; lia.
Qed.
Lemma path_loop_ok fuel offset p :
  (length p < fuel)%nat -> offset < 2 ^ 31 -> ok (path_loop addr fdt fuel offset p) (fun r => r < 2 ^ 31).
Proof.
  revert offset p. induction fuel as [|fuel IH]; intros offset p Hp Ho; [lia|]. destruct p as [|c p]; [by apply ok_ret|].
  cbn [path_loop]. cbn [length] in Hp. destruct (Z.eqb_spec c 47) as [|Hc]; [apply IH; lia|].
  eapply ok_bind; [by apply subnode_offset_ok|]. intros r Hr. cbn beta in Hr. apply ok_if; intros _; [apply ok_ret; lia|].
  apply IH; [|lia]. rewrite length_drop. cbn [until_slash]. rewrite (proj2 (Z.eqb_neq _ _)) by done. cbn [length]. lia.
Qed.
End Accepted.

(** C8: device-tree lookups are memory safe and end on any blob that
    [fdt_check_header] accepts, whatever its structure and strings blocks hold,
    provided its [totalsize] bytes are in memory: node enumeration, lookup by name
    and by path, node names and properties all return a result without a read
    outside the buffer; offsets of nodes that the enumeration returns are past the
    starting one, so the loops of the callers end too; and the value of a property
    lies within [totalsize], also under the realignment of old versions. *)
Theorem fdt_lookups_in_bounds addr fdt :
  fdt_check_header addr fdt = 0 -> fdt_totalsize fdt <= blen fdt -> bytes_ok fdt ->
  forall node name, 0 <= node < 2 ^ 31 ->
  let ahead r := r < 0 \/ (node < r /\ 0 <= r < fdt_totalsize fdt) in
  ok (fdt_first_subnode fdt node) ahead /\ ok (fdt_next_subnode fdt node) ahead /\
  ok (fdt_get_name addr fdt node) (fun _ => True) /\
  ok (fdt_subnode_offset_namelen addr fdt node name) (fun r => r < 0 \/ node <= r) /\
  ok (fdt_path_offset_namelen addr fdt (fun _ => None) name) (fun _ => True) /\
  ok (fdt_getprop_namelen addr fdt node name)
    (fun r => match r with inl e => e < 0 | inr (p, len) => 0 <= p /\ 0 <= len /\ p + len <= fdt_totalsize fdt end).
Proof.
  intros Hh Hl Hb node name Hn ahead. split_and!.
  - apply (first_subnode_ok addr); [done..|lia].
  - by apply (next_subnode_ok addr).
  - apply get_name_ok; [done..|lia].
  - eapply ok_mono; [apply subnode_offset_ok; [done..|lia]|]. intros r. cbn. lia.
  - unfold fdt_path_offset_namelen. apply ok_if; intros _; [by apply ok_ret|]. destruct name; [by apply ok_ret|].
    apply ok_if; intros _; [|by apply ok_ret]. eapply ok_mono; [apply path_loop_ok; try done; lia|]. done.
  - apply getprop_ok; [done..|lia].
Qed.
Lemma fdt_lookups_in_bounds_witness :
  ok (fdt_getprop_namelen 0 sample_tree 36 (bytes_of "data"))
    (fun r => match r with inl e => e < 0 | inr (p, len) => 0 <= p /\ 0 <= len /\ p + len <= fdt_totalsize sample_tree end).
Proof.
  apply (fdt_lookups_in_bounds 0 sample_tree).
  - vm_compute. reflexivity.
  - vm_compute. discriminate.
  - assert (forallb (fun b => (0 <=? b) && (b <? 256)) sample_tree = true) as H by (vm_compute; reflexivity).
    rewrite List.forallb_forall in H. apply List.Forall_forall. intros b Hb. apply H in Hb. unfold is_byte. lia.
  - lia.
Defined.
