(* ===== verification/CmdArgs.v ===== *)
(** From the words of a command line to the handlers: the argument decoding of
    [do_ubi] (cmd/ubi.c) and of [do_mtd_io] and [do_mtd_erase] (cmd/mtd.c), with the
    numbers of lib/strto.c.  A word is its bytes.  The sub-commands and options that
    no part of the program uses ([info], [list], [skipcheck], [write.part], a VID
    header offset, the suffixes of the mtd sub-commands, missing arguments that the
    code takes from a null pointer or from the size of the device) go to [other]. *)
From S2P Require Import Prelude Bytes Flash Ubi Shell Fdt WebHeaders.

Fixpoint string_of (w : list Z) : string :=
  match w with
  | [] => EmptyString
  | b :: w' => String (Ascii.ascii_of_N (Z.to_N b)) (string_of w')
  end.
(** [!strcmp(w, s)]; [!strncmp(w, s, strlen(s))] is [REQ_MATCH]. *)
Definition streq (w : list Z) (s : string) : bool := memeq w (bytes_of s).
(** Also [simple_strtoull(w, NULL, 16)]: both are 64 bits wide. *)
Definition hextoul (w : list Z) : Z := fst (simple_strtoul w 16).

Section args.
Context {P : Platform} (other : list (list Z) -> ST hw Z).

(** The "create" block; [argc] counts down as the arguments are consumed. *)
Definition ubi_create_args (u : ubi_dev) (argv : list (list Z)) : ST hw Z :=
  let arg i := nth i argv [] in
  let '(skipcheck, argc) :=
    if (length argv =? 7)%nat then (REQ_MATCH (arg 6%nat) "--skipcheck", 6%nat) else (false, length argv) in
  let '(id, argc) := if (argc =? 6)%nat then (s32 (hextoul (arg 5%nat)), 5%nat) else (UBI_VOL_NUM_AUTO, argc) in
  if (argc =? 5)%nat && negb (REQ_MATCH (arg 4%nat) "s") && negb (REQ_MATCH (arg 4%nat) "d") then sret 1
  else
    let '(dynamic, argc) := if (argc =? 5)%nat then (negb (REQ_MATCH (arg 4%nat) "s"), 4%nat) else (true, argc) in
    let '(size, argc) :=
      if (argc =? 4)%nat then (if negb (nth 0 (arg 3%nat) 0 =? 45) then s64 (hextoul (arg 3%nat)) else 0, 3%nat) else (0, argc) in
    let size := if size =? 0 then u_avail u * u_leb_size u else size in
    if (argc =? 3)%nat then
      if skipcheck then other argv else ubi_create_vol u (string_of (arg 2%nat)) size dynamic id
    else sret 1.

Definition ubi_write_args (argv : list (list Z)) : ST hw Z :=
  let arg i := nth i argv [] in
  if (length argv <? 5)%nat then sret 1
  else
    let addr := hextoul (arg 2%nat) in
    let size := hextoul (arg 4%nat) in
    if (length (arg 1%nat) =? 10)%nat && REQ_MATCH (drop 5 (arg 1%nat)) ".part" then other argv
    else let* buf := ram_read addr size in ubi_volume_write (string_of (arg 3%nat)) buf.

Definition ubi_read_args (argv : list (list Z)) : ST hw Z :=
  let arg i := nth i argv [] in
  let '(size, argc) := if (length argv =? 5)%nat then (hextoul (arg 4%nat), 4%nat) else (0, length argv) in
  if (argc =? 4)%nat then ubi_volume_read (string_of (arg 3%nat)) (hextoul (arg 2%nat)) size
  else if (argc =? 3)%nat then other argv
  else sret 1.

Definition do_ubi_argv (argv : list (list Z)) : ST hw Z :=
  let argc := length argv in
  let arg i := nth i argv [] in
  if (argc <? 2)%nat then sret CMD_RET_USAGE
  else if streq (arg 1%nat) "detach" then ubi_detach
  else if streq (arg 1%nat) "part" then
    if (argc =? 2)%nat then with_ubi (fun _ => sret 0)
    else if (3 <? argc)%nat then other argv
    else ubi_part (string_of (arg 2%nat))
  else with_ubi (fun u =>
    if streq (arg 1%nat) "info" || streq (arg 1%nat) "list" then other argv
    else if streq (arg 1%nat) "check" then
      if (2 <? argc)%nat then sret (ubi_check (u_vols u) (string_of (arg 2%nat))) else sret 1
    else if REQ_MATCH (arg 1%nat) "create" then ubi_create_args u argv
    else if REQ_MATCH (arg 1%nat) "remove" then
      if (argc =? 3)%nat then ubi_remove_vol u (string_of (arg 2%nat)) else sret 1
    else if REQ_MATCH (arg 1%nat) "rename" then
      if (argc <? 4)%nat then other argv else ubi_rename_vol u (string_of (arg 2%nat)) (string_of (arg 3%nat))
    else if REQ_MATCH (arg 1%nat) "skipcheck" then
      if (argc =? 4)%nat then other argv else sret 1
    else if REQ_MATCH (arg 1%nat) "write" then ubi_write_args argv
    else if REQ_MATCH (arg 1%nat) "read" then ubi_read_args argv
    else sret 1).

(** [argv] starts with the name of the sub-command. *)
Definition do_mtd_io_argv (read : bool) (argv : list (list Z)) : ST hw Z :=
  let arg i := nth i argv [] in
  if (length argv <? 2)%nat then sret CMD_RET_USAGE
  else if (length argv <? 5)%nat then other argv
  else do_mtd_io read (string_of (arg 1%nat)) (hextoul (arg 2%nat)) (hextoul (arg 3%nat)) (hextoul (arg 4%nat)).
Definition do_mtd_erase_argv (argv : list (list Z)) : ST hw Z :=
  let arg i := nth i argv [] in
  if (length argv <? 2)%nat then sret CMD_RET_USAGE
  else if (length argv <? 4)%nat then other argv
  else do_mtd_erase (string_of (arg 1%nat)) (hextoul (arg 2%nat)) (hextoul (arg 3%nat)).

(** The commands by name, and what the parser makes of their status. *)
Definition do_words (ws : list (list Z)) : ST hw Z :=
  match ws with
  | [] => sret 0
  | cmd :: args =>
    if streq cmd "ubi" then do_ubi_argv ws
    else if streq cmd "mtd" then
      let sub := nth 0 args [] in
      if streq sub "read" then do_mtd_io_argv true args
      else if streq sub "write" then do_mtd_io_argv false args
      else if streq sub "erase" then do_mtd_erase_argv args
      else other ws
    else if streq cmd "bootm" then sret CMD_RET_FAILURE
    else other ws
  end.
Definition run_words (ws : list (list Z)) : ST hw Z :=
  let* code := do_words ws in sret (if nz code then 1 else 0).
End args.
