(* ===== verification/CmdArgsThms.v ===== *)
(** The command lines of the program reach the handlers with the arguments that the
    engines mean: the words that the format strings print decode to the command of
    [Shell.v] with the same effect. *)
From S2P Require Import Prelude Bytes Flash Ubi Shell Fdt FdtThms WebHeaders StockBoot Bench CmdArgs.

(** * Spelling *)

(** A number as the format strings print it: ["0x%lx"], ["0x%llx"], ["0x%08lx"] (zeros
    in front), or a single digit in the text. *)
Definition num (n : Z) (w : list Z) : Prop :=
  0 <= n < 2 ^ 64 /\
  ((exists k, w = bytes_of "0x" ++ repeat 48 k ++ hex n) \/ (n < 10 /\ w = [48 + n])).
Definition W : string -> list Z := bytes_of.
Definition type_word (dynamic : bool) : list Z := W (if dynamic then "dynamic" else "static").

(** The words of the lines that [run_command] and [run_commandf] are given. *)
Inductive spells : command -> list (list Z) -> Prop :=
  | sp_detach : spells UbiDetach [W "ubi"; W "detach"]
  | sp_part p : spells (UbiPart p) [W "ubi"; W "part"; W p]
  | sp_check v : spells (UbiCheck v) [W "ubi"; W "check"; W v]
  | sp_create v n nw d i iw : num n nw -> n < 2 ^ 63 -> num i iw -> i < 2 ^ 31 ->
      spells (UbiCreate v n d i) [W "ubi"; W "create"; W v; nw; type_word d; iw]
  | sp_create_auto v n nw d : num n nw -> n < 2 ^ 63 ->
      spells (UbiCreate v n d UBI_VOL_NUM_AUTO) [W "ubi"; W "create"; W v; nw; type_word d]
  | sp_create_max v d :
      spells (UbiCreate v 0 d UBI_VOL_NUM_AUTO) [W "ubi"; W "create"; W v; W "-"; type_word d]
  | sp_remove v : spells (UbiRemove v) [W "ubi"; W "remove"; W v]
  | sp_rename a b : spells (UbiRename a b) [W "ubi"; W "rename"; W a; W b]
  | sp_write a aw v n nw : num a aw -> num n nw ->
      spells (UbiWrite a v n) [W "ubi"; W "write"; aw; W v; nw]
  | sp_read a aw v n nw : num a aw -> num n nw ->
      spells (UbiRead a v n) [W "ubi"; W "read"; aw; W v; nw]
  | sp_read_all a aw v : num a aw -> spells (UbiRead a v 0) [W "ubi"; W "read"; aw; W v]
  | sp_mtd_erase p o ow n nw : num o ow -> num n nw ->
      spells (MtdErase p o n) [W "mtd"; W "erase"; W p; ow; nw]
  | sp_mtd_read p a aw o ow n nw : num a aw -> num o ow -> num n nw ->
      spells (MtdRead p a o n) [W "mtd"; W "read"; W p; aw; ow; nw]
  | sp_mtd_write p a aw o ow n nw : num a aw -> num o ow -> num n nw ->
      spells (MtdWrite p a o n) [W "mtd"; W "write"; W p; aw; ow; nw]
  | sp_bootm a conf w : spells (Bootm a conf) [W "bootm"; w].

(** * Numbers *)

Lemma string_of_bytes s : string_of (bytes_of s) = s.
Proof.
  induction s as [|c s IH]; [done|]. cbn [bytes_of string_of]. by rewrite IH, N2Z.id, Ascii.ascii_N_embedding.
Qed.

Lemma decode_hex_char d : 0 <= d < 16 -> decode_digit (hex_char d) = d.
Proof.
  intros Hd. assert (In d (map Z.of_nat (seq 0 16))) as Hin.
  { apply in_map_iff. exists (Z.to_nat d). rewrite in_seq. lia. }
  cbn in Hin. repeat (destruct Hin as [<-|Hin]; [reflexivity|]). done.
Qed.
Lemma strtoul_hex_char r d l : 0 <= d < 16 ->
  strtoul_loop 16 r (hex_char d :: l) = strtoul_loop 16 (u64 (r * 16 + d)) l.
Proof. intros Hd. cbn [strtoul_loop]. rewrite decode_hex_char by done. by rewrite (proj2 (Z.ltb_lt _ _)) by lia. Qed.

(** The digits of a number, in front of a string. *)
Lemma hex_digits_value fuel z acc :
  0 <= z < 16 ^ Z.of_nat fuel -> z < 2 ^ 64 -> (0 < fuel)%nat ->
  exists l, hex_digits fuel z acc = l ++ acc /\ forall r, strtoul_loop 16 0 (l ++ r) = strtoul_loop 16 z r.
Proof.
  revert z acc. induction fuel as [|fuel IH]; intros z acc Hz Hz64 Hf; [lia|].
  rewrite Nat2Z.inj_succ, Z.pow_succ_r in Hz by lia. cbn [hex_digits].
  pose proof (Z.mod_pos_bound z 16 ltac:(lia)) as Hm. pose proof (Z.div_mod z 16 ltac:(lia)) as Hdm.
  destruct (Z.eqb_spec (z / 16) 0) as [E|E].
  { exists [hex_char (z mod 16)]. split; [done|]. intros r. cbn [app]. rewrite strtoul_hex_char by done.
    rewrite u64_small by lia. f_equal. lia. }
  assert (fuel <> 0)%nat as Hf0 by (intros ->; simpl in Hz; lia).
  destruct (IH (z / 16) (hex_char (z mod 16) :: acc)) as (l & El & Hl).
  { split; [apply Z.div_pos; lia|apply Z.div_lt_upper_bound; lia]. } { lia. } { lia. }
  exists (l ++ [hex_char (z mod 16)]). rewrite El, <- app_assoc. split; [done|]. intros r.
  rewrite <- app_assoc, Hl. cbn [app]. rewrite strtoul_hex_char, u64_small by lia. f_equal. lia.
Qed.
Lemma num_value n w : num n w -> hextoul w = n.
Proof.
  intros [Hn [[k ->]|[H10 ->]]].
  - assert (forall r, strtoul_loop 16 0 (repeat 48 k ++ r) = strtoul_loop 16 0 r) as Hz.
    { intros r. induction k as [|k IH]; [done|]. exact IH. }
    unfold hextoul, simple_strtoul. change (bytes_of "0x") with [48; 120]. cbn [app fixup_radix].
    change (tolower 120 =? 120) with true. cbv iota.
    rewrite Hz. unfold hex. destruct (hex_digits_value 16 n []) as (l & -> & Hl); [done|lia|lia|]. by rewrite Hl.
  - assert (In n (map Z.of_nat (seq 0 10))) as Hin by (apply in_map_iff; exists (Z.to_nat n); rewrite in_seq; lia).
    cbn in Hin. repeat (destruct Hin as [<-|Hin]; [reflexivity|]). done.
Qed.
Lemma num_not_dash n w : num n w -> (nth 0 w 0 =? 45) = false.
Proof.
  intros [Hn [[k ->]|[H10 ->]]]; [done|]. cbn [nth]. apply Z.eqb_neq. lia.
Qed.

(** * Commands *)

Lemma with_ubi_ext {P : Platform} (j k : ubi_dev -> ST hw Z) h : (forall u, j u h = k u h) -> with_ubi j h = with_ubi k h.
Proof. intros E. unfold with_ubi, sbind, sget. cbn. destruct (h_ubi h); [apply E|done]. Qed.
Lemma s64_small z : 0 <= z < 2 ^ 63 -> s64 z = z.
Proof. intros Hz. unfold s64. rewrite u64_small by lia. by rewrite (proj2 (Z.ltb_lt _ _)) by lia. Qed.

(** Decides the comparisons of the words that are literals, and of the counts. *)
Ltac closed_bool b := let v := eval vm_compute in b in lazymatch v with true => idtac | false => idtac end; change b with v.
Ltac words :=
  cbn [nth length]; repeat (match goal with
  | |- context [streq (bytes_of ?a) ?b] => closed_bool (streq (bytes_of a) b)
  | |- context [REQ_MATCH (bytes_of ?a) ?b] => closed_bool (REQ_MATCH (bytes_of a) b)
  | |- context [(?m <? ?n)%nat] => closed_bool (m <? n)%nat
  | |- context [(?m =? ?n)%nat] => closed_bool (m =? n)%nat
  end; cbn [andb orb negb]).
Lemma create_decode {P : Platform} other u v n nw (d : bool) i tail :
  (num n nw /\ n < 2 ^ 63) \/ (n = 0 /\ nw = W "-") ->
  (i = UBI_VOL_NUM_AUTO /\ tail = []) \/ (exists iw, num i iw /\ i < 2 ^ 31 /\ tail = [iw]) ->
  ubi_create_args other u (W "ubi" :: W "create" :: W v :: nw :: type_word d :: tail) =
  ubi_create_vol u v (if n =? 0 then u_avail u * u_leb_size u else n) d i.
Proof.
  intros Hn Hi.
  assert ((if negb (nth 0 nw 0 =? 45) then s64 (hextoul nw) else 0) = n) as Hsz.
  { destruct Hn as [[Hn Hl]|[-> ->]]; [|done]. rewrite (num_not_dash n nw Hn), (num_value n nw Hn). cbn [negb].
    apply s64_small. destruct Hn as [[] _]. lia. }
  unfold ubi_create_args, type_word, W. destruct Hi as [[-> ->]|(iw & Hi & Hi31 & ->)]; words.
  - rewrite Hsz, string_of_bytes. destruct d; words; done.
  - rewrite Hsz, string_of_bytes, (num_value i iw Hi), (s32_small i) by (destruct Hi as [[] _]; lia). destruct d; words; done.
Qed.

(** C10: every command line the program issues does what the engines' model says:
    for each kind of command, with the words as the format strings print them (hex
    numbers with a prefix and leading zeros, the digits of volume ids and zero
    offsets, [-] for the remaining space, an absent id or size), the argument
    decoding of [do_ubi], [do_mtd_io] and [do_mtd_erase] reaches the handler with the
    intended arguments, on any platform and machine. *)
Theorem command_words_decode {P : Platform} other c ws h :
  spells c ws -> run_words other ws h = run_command c h.
Proof.
  intros Hs. unfold run_words, run_command, sbind.
  assert (do_words other ws h = command_code c h) as ->; [|done].
  destruct Hs; unfold do_words, do_ubi_argv, do_mtd_io_argv, do_mtd_erase_argv, W; words;
    rewrite ?string_of_bytes; cbn [command_code do_ubi];
    repeat match goal with H : num ?n ?w |- context [hextoul ?w] => rewrite (num_value n w H) end; try done;
    unfold do_ubi_create, do_ubi_write; apply with_ubi_ext; intros u.
  - rewrite (create_decode other u v n nw d i [iw]); eauto.
  - rewrite (create_decode other u v n nw d UBI_VOL_NUM_AUTO []); eauto.
  - rewrite (create_decode other u v 0 (W "-") d UBI_VOL_NUM_AUTO []); eauto.
  - unfold ubi_write_args. words. by rewrite string_of_bytes, (num_value a aw), (num_value n nw).
  - unfold ubi_read_args. words. by rewrite string_of_bytes, (num_value a aw), (num_value n nw).
  - unfold ubi_read_args. words. by rewrite string_of_bytes, (num_value a aw).
Qed.
Lemma command_words_decode_witness :
  run_words (P := bench_platform) (fun _ => sret 1)
    [W "ubi"; W "create"; W "fit"; W "0x00c00000"; W "dynamic"; W "5"] bench_hw =
  run_command (P := bench_platform) (UbiCreate "fit" 0xc00000 true 5) bench_hw.
Proof.
  apply command_words_decode. apply (sp_create "fit" 0xc00000 (W "0x00c00000") true 5 (W "5")).
  - split; [lia|]. left. exists 2%nat. reflexivity.
  - lia.
  - split; [lia|]. right. split; [lia|reflexivity].
  - lia.
Defined.
