(* ===== verification/Library.v ===== *)
(** The library code of the image checks put in the place of its parameter: an
    instance of [Ext] from the models of lib/sha256.c and libfdt (the LZMA decoder
    stays a parameter), and what the checks of the pinned boot loader then mean. *)
From S2P Require Import Prelude Bytes Fip Flash Bl2 Bench Fdt Sha256 Sha256Thms.

Section library.
(** The decoder, the build option and the stack bytes of the digest's context. *)
Context (lzma : list Z -> Z -> Z * list Z) (watchdog : bool) (stack : list Z).

(** The callers pass [CHUNKSZ_SHA256], and header pointers aligned to eight bytes. *)
Definition library_ext : Ext := {|
  Fip.sha256 := fun l => sha256_csum_wd watchdog stack l CHUNKSZ_SHA256;
  Fip.lzmaBuffToBuffDecompress := lzma;
  Fip.fdt_check_header := Fdt.fdt_check_header 0;
  Fip.fdt_totalsize := Fdt.fdt_totalsize;
|}.
Hypothesis Hstack : length stack = 64%nat.

Lemma library_sha256 l : bytes_ok l -> blen l < 2 ^ 32 -> Fip.sha256 (Ext := library_ext) l = Fips.digest l.
Proof.
  intros Hb Hl. cbn. apply finish_digest; [|lia]. pose proof (starts_Rep stack Hstack) as Hs.
  destruct watchdog; [|by apply (update_Rep _ [])].
  destruct (csum_loop_updates (length l) CHUNKSZ_SHA256 (sha256_starts stack) l) as (ps & -> & E & Hp); [done..|].
  rewrite <- E. by apply (updates_Rep _ _ []).
Qed.
End library.

(** C11: the pinned boot loader is pinned by its FIPS 180-4 digest.  With the
    library's own SHA-256, the preloader check accepts a buffer exactly when its
    length is 16 bytes to 128 KiB, it starts with the FIP magic number and the
    standard's digest of its bytes is the pinned constant; and the re-check before
    the commit accepts exactly a candidate whose 128 KiB have the pinned digest; any
    other buffer yields an error code, and a failed re-check revokes the candidate. *)
Theorem preloader_pinned_by_fips {P : Platform} {B : Board} lzma watchdog stack addr len dst h :
  length stack = 64%nat -> (forall a, is_byte (h_ram h a)) -> 0 <= len -> addr <> 0 ->
  let X := library_ext lzma watchdog stack in
  let buf := mread (h_ram h) addr len in
  (fst (ursus_ubi_validate_preloader (X := X) addr len h) = 0 <->
   16 <= len <= 0x20000 /\ le32 0 buf = URSUS_FIP_MAGIC /\ Fips.digest buf = preloader_sha256) /\
  (fst (ursus_verify_bl2_candidate (X := X) (MkBl2 (Some dst) true) h) =
   if decide (Fips.digest (mread (h_ram h) dst URSUS_UBI_BL2_SIZE) = bl2_image_sha256)
   then (0, MkBl2 (Some dst) true) else (- EBADMSG, MkBl2 (Some dst) false)).
Proof.
  intros Hst Hram Hlen Ha X buf. split.
  - unfold ursus_ubi_validate_preloader, sbind, ram_read, sget, sret, URSUS_UBI_PRELOADER_MAX, FIP_HDR.
    pose proof (mread_bytes_ok (h_ram h) addr len Hram : bytes_ok buf) as Hb.
    destruct (Z.eqb_spec len 0); cbn [orb]; [split; [done|lia]|].
    destruct (Z.ltb_spec 0x20000 len); [split; [done|lia]|]. rewrite (proj2 (Z.eqb_neq addr 0)) by done.
    destruct (Z.ltb_spec len 16); cbn [orb fst snd]; [split; [done|lia]|].
    change (mread (h_ram h) addr len) with buf.
    destruct (nz (le32 0 buf - URSUS_FIP_MAGIC)) eqn:Em; cbn [fst].
    { apply nz_true in Em. split; [done|lia]. }
    apply nz_false in Em. unfold X. rewrite library_sha256 by (done || (unfold buf; rewrite blen_mread; lia)).
    destruct (memeq _ _) eqn:Ed; cbn [negb fst].
    + apply memeq_eq in Ed. split; [|done]. intros _. split_and!; [lia..|done].
    + apply memeq_neq in Ed. split; [done|]. by intros (_ & _ & ?).
  - unfold ursus_verify_bl2_candidate, sbind, ram_read, sget, sret. cbn [bl2_buf bl2_ok negb]. unfold X.
    cbn [fst snd]. rewrite library_sha256 by (done || by apply mread_bytes_ok || by rewrite blen_mread). destruct (memeq _ _) eqn:Ed; cbn [negb fst].
    + apply memeq_eq in Ed. rewrite decide_True by exact Ed. reflexivity.
    + apply memeq_neq in Ed. rewrite decide_False by exact Ed. reflexivity.
Qed.
(** A board that pins a preloader with the digest [d]. *)
Definition pinning (d : list Z) : Board := {|
  vanilla_fip_sha256 := ursus_vanilla_fip_sha256;
  preloader_sha256 := d;
  bl2_image_sha256 := ursus_bl2_image_sha256;
  BOARD_COMPATIBLE := "nokia,xg-040g-md";
  BOARD_OTHER_COMPATIBLE := "nokia,xg-040g-mf";
|}.
Lemma pinning_digest d : d = preloader_sha256 (Board := pinning d).
Proof. reflexivity. Qed.
Lemma bench_ram_bytes a : is_byte (h_ram bench_hw a).
Proof.
  unfold bench_hw, mwrite. cbn [h_ram]. destruct (_ && _); [|by split].
  destruct (bench_fip !! _) as [b|] eqn:E; [|by split]. cbn [default from_option id].
  assert (forallb (fun b => (0 <=? b) && (b <? 256)) bench_fip = true) as H by (vm_compute; reflexivity).
  rewrite List.forallb_forall in H. apply list_elem_of_lookup_2, list_elem_of_In in E. apply H in E. unfold is_byte. lia.
Qed.
Lemma preloader_pinned_by_fips_witness :
  let d := Fips.digest (mread (h_ram bench_hw) bench_addr 64) in
  fst (ursus_ubi_validate_preloader (B := pinning d) (X := library_ext (fun _ _ => (1, [])) true (repeat 0 64)) bench_addr 64 bench_hw) = 0.
Proof.
  intros d.
  destruct (preloader_pinned_by_fips (B := pinning d) (fun _ _ => (1, [])) true (repeat 0 64) bench_addr 64 0 bench_hw
              eq_refl bench_ram_bytes ltac:(lia) ltac:(discriminate)) as [[_ H] _].
  apply H. split; [lia|]. split; [vm_cast_no_check (eq_refl URSUS_FIP_MAGIC)|apply pinning_digest].
Defined.
